(* ===== verification/_CoqProject ===== *)
-Q . S2P
Prelude.v
GoStd.v
Mtls.v
Config.v
Negotiate.v
ClientData.v
Handshake.v
Listener.v
Serve.v
Start.v
Helpers.v
Lifecycle.v
ClientTyping.v
EndToEnd.v
AutoMtls.v
Rendezvous.v
MuxBroker.v
GRPCBroker.v
Streamer.v
BrokerPair.v
BrokerServe.v
CmdRunner.v
Diagnose.v
GRPCStdio.v
LogPump.v
GRPCMux.v
RPC.v
RPCStdio.v
ServeStdio.v
GRPCServer.v
Testing.v
ServerInit.v
StreamingExample.v
KVExample.v
CounterExample.v
ExampleHosts.v
