(* ===== verification/Prelude.v ===== *)
(** * go-plugin in Rocq

    go-plugin lets a host program run plugins as separate processes and call
    them over net/rpc or gRPC.  The host's [Client] (client.go) launches the
    plugin binary, the plugin's [Serve] (server.go) listens and prints one
    handshake line, the host connects, and both sides then use a protocol client
    and server, a broker for further connections, and streams for the plugin's
    output.  This library models that program file by file and proves the
    properties its users rely on.

    ** The files

    - [Prelude]: Go's control flow as a state-and-error monad ([GoM], with
      panics), labelled transition systems with reachability, the invariant
      rule, a termination rule and a refinement rule, frame reasoning
      ([keeps]), tactics and hints.
    - [GoStd]: what the code uses of Go's standard library: integers at their
      width, strconv, strings, base64, little-endian words, the error chain.
    - [Mtls]: [generateCert] of mtls.go and the verification of certificates, over
      an interface of Go's crypto packages whose laws are the class
      [CryptoLaws], with an instance.
    - [Config]: constants, environment, [Plugin], [ServeConfig] (constants.go,
      protocol.go, plugin.go, server.go).
    - [Negotiate]: [protocolVersion] of the plugin, the host's version map, its
      environment variable and [checkProtoVersion].
    - [ClientData]: [ClientConfig], [Client], [ReattachConfig], the [Runner]
      interface as data.
    - [Handshake]: the line [Serve] prints and the [select] case of [Start] that
      reads it, with [loadServerCert].
    - [Listener]: TCP and Unix listeners over a model of files and listening
      sockets (server.go from [serverListener] on).
    - [Serve]: the whole of [Serve] with its early exits, the redirection of the
      standard files and the deferred calls; [ServeMux]; [GRPCServer.Init] as far
      as it can fail.
    - [Start]: [NewClient], [SecureConfig.Check], [Client.Start] and [reattach].
    - [Helpers]: discover.go, error.go, internal_logger.go, and the dial options
      of grpc_client.go.
    - [Lifecycle]: [Client.Client], [Kill], [CleanupClients], the construction
      and closing of the protocol clients, as a transition system of one client
      and as a host with many.  [ClientTyping]: what a client's fields say about
      each other.
    - [EndToEnd]: [Start]'s environment fed to [Serve], and [Serve]'s output fed
      back to [Start].  [AutoMtls]: the TLS handshake between the configurations
      the two arrive at.
    - [Rendezvous]: the table of pending ids that both brokers are built on, with
      its goroutines, timers and invariants.
    - [MuxBroker], [GRPCBroker]: mux_broker.go and grpc_broker.go on top of it.
    - [Streamer]: the message stream under the gRPC broker.  [BrokerPair]: two
      brokers, their streamers and the gRPC stream between them, with or without
      multiplexing, against an ideal pair of queues.  [BrokerServe]: [AcceptAndServe] and [Close].
    - [GRPCMux]: internal/grpcmux and the knock protocol, both muxers as instances
      of one interface.
    - [CmdRunner]: internal/cmdrunner over a model of processes and groups.
      [Diagnose]: its diagnostic text and its Windows process functions.
    - [GRPCStdio]: grpc_stdio.go.  [LogPump]: [logStderr] and log_entry.go.
    - [RPC]: rpc_server.go, rpc_client.go, [Dispense] and [Ping], and the net/rpc
      broker's [AcceptAndServe].  [RPCStdio]: stream.go and the copying of the
      standard streams over a net/rpc session.  [ServeStdio]: the test mode's tee
      and the discarded interrupts of [Serve].
    - [GRPCServer]: stopping the gRPC server (grpc_server.go,
      grpc_controller.go).
    - [Testing]: the helpers of testing.go.
    - [ServerInit]: [GRPCServer.Init] in full, with the services it registers and
      the goroutines it starts, [NetRPCUnsupportedPlugin] and the graceful-stop
      timeout.
    - [StreamingExample], [KVExample], [CounterExample]: the plugins under
      examples/ (streaming, grpc and negotiated, bidirectional), their clients and
      servers over a network that may fail.  [ExampleHosts]: the [main] functions
      of the examples' hosts, on the model of the client's life cycle, and what
      the examples' plugins serve.

    ** How code becomes definitions

    A Go function is a function of the same name (prefixed with its receiver
    where two would clash).  Sequential code that updates a receiver or the file
    system is a [GoM] computation whose state keeps its updates on errors and
    panics; deferred functions are applied on every way out.  Concurrent code is
    a transition system: a label names the goroutine that moves and the case its
    [select] takes, and the step function is executable, so that interleavings
    are lists of labels.  Map iteration order is an instance of [MapRange], about
    which only the permutation is known.  Time in the brokers and in [GRPCServer]
    is a counter that moves by [Tick] labels; timers are deadlines.  Integers are
    [Z] with the wrap-around written out ([uint32], [int_of_uint]).

    What lies outside the repository is an argument of the definitions: the
    operating system's and crypto's answers ([OSAnswers], [StartEnv],
    [LifeEnv], [HandshakeEnv], [ServeAnswers], [CertAnswers], [Crypto]), yamux and gRPC by the order in
    which they deliver and by what their documentation says of stopping, JSON,
    time and hclog in [LogEnv].

    ** What the theorems show

    - Agreement: host and plugin choose the newest common version whatever the
      iteration order, the host reads back the printed line, it accepts nothing
      else, and with the environment that [Start] builds the two agree end to
      end ([handshake_roundtrip], [negotiation_newest_common],
      [negotiation_incompatible], [handshake_accepts_only],
      [negotiation_order_irrelevant], [host_plugin_agree]).
    - Automatic mTLS: the certificates the two sides generate let them accept
      each other and nobody else, and where one of them is missing or unreadable
      the connection is refused: a host whose [Start] read no certificate trusts
      only the system's roots ([generateCert_accepted], [AutoMTLS_mutual],
      [AutoMTLS_fails_closed]).
    - The client's state: its fields fit together after every sequence of calls
      ([Client_well_typed]).
    - Processes and resources: a failed [Start] leaves no process, [Kill] ends
      the plugin and releases what it holds, a checksum is verified before
      anything runs, the process group is killed as a whole unless the command
      names another group or a process leaves it, [Serve] leaves neither socket
      nor file unless it exits because a pipe cannot be made ([Start_no_orphan], [Kill_ends_plugin],
      [Start_checks_before_running], [CmdRunner_kills_tree], [Serve_no_leak]).
    - Serving: a gRPC server that [Serve] runs has all the services that the host
      and the negotiated plugins need, and whether [Init] succeeds does not
      depend on the iteration order ([Serve_offers_all], [Init_order_irrelevant]).
    - Brokers: while each id is accepted and dialled once, no stream is lost and
      the timers alone empty the tables; messages are never given to another id,
      no channel is closed twice while each id is dialled once, ids do not repeat
      within 2^32 calls, and messages are sent once and received in order.
      Between two connected brokers the streams are queues, every [Dial] gets an
      address that the peer announced for its id, and there are no more
      successful knocks than acknowledgements of the peer, nor acknowledgements
      than knocks it received ([streams_refine_fifo], [MuxBroker_no_stream_lost],
      [MuxBroker_cleans_up], [brokers_agree], [AcceptAndServe_ends],
      [GRPCBroker_routes], [GRPCBroker_no_panic], [Send_exactly_once],
      [Send_not_stuck]).
    - Multiplexing: the knock protocol refines addressed connections on the
      plugin's side as long as the main connection is not dialled again, and
      routes correctly on the host's side as long as the dialler waits for each
      stream to be accepted ([ServerMuxer_refines], [ClientMuxer_routes]).
    - Servers: a [Dispense] reaches the plugin it names, [Shutdown] cancels
      handlers that do not return and ends the server once they have
      ([Dispense_right_plugin], [Shutdown_ends_server]).
    - Output: stdout and stderr reach the host complete and in order, but for at
      most one chunk per stream that failed
      ([StreamStdio_conserves], [logStderr_mirrors], [RPC_stdio_end_to_end],
      [RPC_stdio_shared]); the plugin's own standard
      files are replaced by the pipes only after the handshake line is out, and
      are put back at the end of the test mode ([Serve_stdio]); the tee of the
      test mode shows what the host gets ([served_reads_spec]).
    - Test helpers: [TestConn] and [TestGRPCConn] end, and return a connected pair
      ([TestConn_connects], [TestGRPCConn_ends]).
    - Examples: a remote streamer acts on the plugin as the local one and files are
      read back as they were written, whatever gRPC makes of the response that the
      handler of [Write] does not send ([Streamer_transparent], [streaming_roundtrip]); the
      key-value plugins behave the same over both transports
      ([KV_transports_agree], [KV_roundtrip], [negotiated_example]); the counter
      sums through the host's helper ([counter_sums], [counter_put_safe]); hosts
      that return kill their plugin ([run_kills_plugin]).
    - Theorems named after a defect ([Serve_mux_leak], [ClientMuxer_misroutes],
      [ServerMuxer_stale_knock], [MuxBroker_reuse_panics] and the like) prove
      that the code misbehaves in the situation they describe.

    ** Bounds and fuel

    [logStderr] gives its loop one more unit of fuel than the text has bytes;
    every round consumes a byte, and [logStderr_mirrors] proves that the loop
    always ends.  [send_chunks] has one more unit than the buffer has bytes, and
    [chunk_loop_spec] shows that every chunk is sent.  [Itoa] runs with as many
    digits as a 64-bit number has at most.  [pidWait] has a fuel argument with [pidWait_returns] saying when it is
    enough, and so has the wait loop of [TestGRPCConn], with [TestGRPCConn_ends].
    All other recursion is structural.  The transition systems have no
    bound on the number of goroutines, messages or calls;
    [Dispense_right_plugin] assumes that one connection uses at most 2^32 ids.

    ** What is assumed of gRPC and yamux

    [GracefulStop] blocks until every pending RPC has returned; [Stop] cancels
    their contexts and may return while their handlers still run; [Serve] returns
    when either has.  A gRPC stream delivers in order, as far as it delivers;
    [Recv] on a stream whose context is done returns an error.  The
    [CloseAndRecv] of a client stream whose handler sent no response may answer
    anything.  A yamux session hands out streams in the order they were opened.

    ** Not modelled

    Generated protobuf code (among it the messages of the examples) and the Python
    plugin of examples/grpc; the elliptic-curve and ASN.1 arithmetic behind the
    crypto interface; the parsers of executable files behind [Diagnose]; yamux,
    gRPC and net/rpc themselves, of which the order of delivery and the
    documented behaviour of stopping are used; the text of log messages other
    than the mirrored plugin output; [GRPCServer.Config], which encodes an always
    empty structure that nothing reads. *)

From Stdlib Require Export ZArith Lia.
From stdpp Require Export base tactics sorting option gmap strings.
From stdpp Require Export list.

(** ** Control flow of a Go function

    A Go function of the source either returns a value, returns a non-nil
    [error], or panics.  [res E A] is the value of such a call; [GoM S E A] is
    a function that also updates a state [S] (the receiver's fields, the
    globals, the file system), which keeps its updates when it fails. *)

Inductive res (E A : Type) : Type :=
| Ret (a : A)
| Err (e : E)
| Panic (why : string).
Arguments Ret {E A} a.
Arguments Err {E A} e.
Arguments Panic {E A} why.

#[export] Instance res_eq_dec {E A} `{!EqDecision E} `{!EqDecision A} : EqDecision (res E A).
Proof. solve_decision. Defined.

Definition GoM (S E A : Type) : Type := S → S * res E A.

#[export] Instance res_mret {E} : MRet (res E) := λ A a, Ret a.
#[export] Instance res_mbind {E} : MBind (res E) := λ A B f m,
  match m with Ret a => f a | Err e => Err e | Panic w => Panic w end.
#[export] Instance res_fmap {E} : FMap (res E) := λ A B f m,
  match m with Ret a => Ret (f a) | Err e => Err e | Panic w => Panic w end.

(** Sequencing in [GoM]: an error or a panic of the first call skips the rest. *)
Definition ret {S E A} (a : A) : GoM S E A := λ s, (s, Ret a).
Definition bind {S E A B} (m : GoM S E A) (f : A → GoM S E B) : GoM S E B := λ s,
  match m s with
  | (s', Ret a) => f a s'
  | (s', Err e) => (s', Err e)
  | (s', Panic w) => (s', Panic w)
  end.

(** The primitive actions: read the state, assign it, fail, panic, and use the
    result of a call that leaves the state alone. *)
Definition get {S E} : GoM S E S := λ s, (s, Ret s).
Definition modify {S E} (f : S → S) : GoM S E unit := λ s, (f s, Ret tt).
Definition fail {S E A} (e : E) : GoM S E A := λ s, (s, Err e).
Definition lift {S E A} (r : res E A) : GoM S E A := λ s, (s, r).

(** [x <- m ;; k] is a call followed by the check of its error, and
    [IF b RETURN e ;; k] the early return of an error. *)
Declare Scope go_scope.
Delimit Scope go_scope with go.
Notation "x <- m ;; k" := (bind m (λ x, k))
  (at level 100, m at next level, right associativity) : go_scope.
Notation "m ;; k" := (bind m (λ _, k)) (at level 100, right associativity) : go_scope.
Notation "'IF' b 'RETURN' e ;; k" := (if b then fail e else k)
  (at level 100, b at level 99, e at level 99, k at level 100, right associativity) : go_scope.
Open Scope go_scope.

(** ** Transition systems

    Concurrent components (the brokers, the client's kill path) are labelled
    transition systems whose step function is executable: a label names the
    goroutine that moves and the choice its [select] makes; [None] says the
    step is not enabled.  Reachability and the invariant rule are shared. *)

Class LTS (St Lb : Type) : Type := {
  lts_init : St → Prop;
  lts_step : Lb → St → option St
}.

Section lts.
Context {St Lb : Type} `{!LTS St Lb}.

Fixpoint exec (ls : list Lb) (s : St) : option St :=
  match ls with
  | [] => Some s
  | l :: ls' => lts_step l s ≫= exec ls'
  end.

Inductive reachable : St → Prop :=
| reachable_init s : lts_init s → reachable s
| reachable_step l s s' : reachable s → lts_step l s = Some s' → reachable s'.

Lemma exec_app ls1 ls2 s : exec (ls1 ++ ls2) s = exec ls1 s ≫= exec ls2.
Proof.
  revert s; induction ls1 as [|l ls1 IH]; intros s; simpl; [done|].
  destruct (lts_step l s); simpl; auto.
Qed.

Lemma exec_reachable ls s s' : reachable s → exec ls s = Some s' → reachable s'.
Proof.
  revert s; induction ls as [|l ls IH]; intros s Hr; simpl.
  - by intros [= <-].
  - destruct (lts_step l s) as [s1|] eqn:Hs; simpl; [|done].
    eauto using reachable_step.
Qed.

Lemma invariant_reachable (I : St → Prop) :
  (∀ s, lts_init s → I s) →
  (∀ l s s', I s → lts_step l s = Some s' → I s') →
  ∀ s, reachable s → I s.
Proof. intros Hi Hs s; induction 1; eauto. Qed.

Lemma exec_invariant (I : St → Prop) ls s s' :
  (∀ l s s', I s → lts_step l s = Some s' → I s') →
  I s → exec ls s = Some s' → I s'.
Proof.
  intros Hs; revert s; induction ls as [|l ls IH]; intros s HI; simpl.
  - by intros [= <-].
  - destruct (lts_step l s) as [s1|] eqn:?; simpl; [eauto|done].
Qed.

(** An invariant of the steps a run is made of. *)
Lemma exec_invariant_when (allowed : Lb → bool) (I : St → Prop) ls s s' :
  (∀ l s s', allowed l = true → I s → lts_step l s = Some s' → I s') →
  forallb allowed ls = true → I s → exec ls s = Some s' → I s'.
Proof.
  intros Hs. revert s. induction ls as [|l ls IH]; intros s Hall HI; simpl.
  - by intros [= <-].
  - simpl in Hall. apply andb_true_iff in Hall as [Hl Hls].
    destruct (lts_step l s) as [s1|] eqn:?; simpl; [eauto|done].
Qed.

(** A run of steps that all decrease a measure is finite. *)
Lemma exec_decreases (own : Lb → bool) (m : St → nat) ls s s' :
  (∀ l s s', own l = true → lts_step l s = Some s' → (m s' < m s)%nat) →
  forallb own ls = true → exec ls s = Some s' → (length ls + m s' ≤ m s)%nat.
Proof.
  intros Hm. revert s. induction ls as [|l ls IH]; intros s Hown; simpl.
  - by intros [= <-].
  - simpl in Hown. apply andb_true_iff in Hown as [Hl Hls].
    destruct (lts_step l s) as [s1|] eqn:Hs; simpl; [|done]. intros He.
    specialize (IH _ Hls He). specialize (Hm _ _ _ Hl Hs). lia.
Qed.
End lts.

(** Refinement: a detailed system [St] implements an abstract one [Ab] when the
    relation [R] holds initially and every detailed step is answered by some
    abstract steps. *)
Section refinement.
Context {St Lb Ab La : Type} `{!LTS St Lb} `{!LTS Ab La}.
Variable R : St → Ab → Prop.
Hypothesis R_init : ∀ s, lts_init s → ∃ a, lts_init a ∧ R s a.
Hypothesis R_step : ∀ l s s' a,
  reachable s → R s a → lts_step l s = Some s' → ∃ ls a', exec ls a = Some a' ∧ R s' a'.

Lemma reachable_refines s : reachable s → ∃ a, reachable a ∧ R s a.
Proof.
  induction 1 as [s Hi|l s s' Hr (a & Ha & HR) Hs].
  - destruct (R_init s Hi) as (a & Ha & HR). exists a. split; [by apply reachable_init|done].
  - destruct (R_step l s s' a Hr HR Hs) as (ls & a' & He & HR'). exists a'. split; [|done].
    by eapply exec_reachable.
Qed.
End refinement.

(** ** Tactics *)

(** Split every match and [if] of the goal and the hypotheses, closing the
    contradictory branches. *)
Ltac go_split :=
  repeat first
    [ progress simplify_eq/=
    | case_decide
    | case_match ];
  try done.

(** ** Generic lemmas *)

Create HintDb goplugin.

Lemma filter_all {A} (P : A → Prop) `{!∀ x, Decision (P x)} (l : list A) :
  (∀ x, x ∈ l → P x) → filter P l = l.
Proof.
  induction l as [|x l IH]; intros Hall; [done|].
  rewrite filter_cons_True by (apply Hall; left). f_equal. apply IH. set_solver.
Qed.

Lemma res_bind_Ret {E A B} (m : res E A) (f : A → res E B) b :
  m ≫= f = Ret b ↔ ∃ a, m = Ret a ∧ f a = Ret b.
Proof. destruct m; naive_solver. Qed.

Lemma GoM_bind_Ret {S E A B} (m : GoM S E A) (f : A → GoM S E B) s s' b :
  bind m f s = (s', Ret b) ↔ ∃ s1 a, m s = (s1, Ret a) ∧ f a s1 = (s', Ret b).
Proof.
  unfold bind. destruct (m s) as [s1 [a|e|w]]; naive_solver.
Qed.

(** ** Frame reasoning: a call only changes the state within [R] *)

Section keeps.
Context {S E : Type} (R : relation S) `{!PreOrder R}.

Definition keeps {A} (m : GoM S E A) : Prop := ∀ s, R s (m s).1.

Lemma keeps_ret {A} (a : A) : keeps (ret a).
Proof. intros s. unfold ret. simpl. reflexivity. Qed.
Lemma keeps_get : keeps get.
Proof. intros s. simpl. reflexivity. Qed.
Lemma keeps_fail {A} (e : E) : keeps (A:=A) (fail e).
Proof. intros s. simpl. reflexivity. Qed.
Lemma keeps_lift {A} (r : res E A) : keeps (lift r).
Proof. intros s. simpl. reflexivity. Qed.
Lemma keeps_modify f : (∀ s, R s (f s)) → keeps (modify f).
Proof. intros H s. simpl. apply H. Qed.
Lemma keeps_bind {A B} (m : GoM S E A) (f : A → GoM S E B) :
  keeps m → (∀ a, keeps (f a)) → keeps (bind m f).
Proof.
  intros Hm Hf s. unfold bind. specialize (Hm s). destruct (m s) as [s' [a|e|w]]; simpl in *; [|done..].
  etrans; [exact Hm|apply Hf].
Qed.

(** A property of the final state, through a call that stays within [R]. *)
Lemma post_bind {A B} (m : GoM S E A) (f : A → GoM S E B) s (Q : S → Prop) :
  keeps m → (∀ s', R s s' → Q s') →
  (∀ a s', R s s' → m s = (s', Ret a) → Q (f a s').1) → Q (bind m f s).1.
Proof.
  intros Hm Hstop Hf. unfold bind. specialize (Hm s).
  destruct (m s) as [s' [a|e|w]]; simpl in *; auto.
Qed.
End keeps.

#[export] Hint Resolve keeps_ret keeps_get keeps_fail keeps_lift : goplugin.

(** Discharge [keeps R m] by following the structure of [m]; the assignments
    are left to [tac]. *)
Ltac solve_keeps tac :=
  repeat first
    [ apply keeps_bind; [..|intros ?]
    | apply keeps_ret; typeclasses eauto
    | apply keeps_get; typeclasses eauto
    | apply keeps_fail; typeclasses eauto
    | apply keeps_lift; typeclasses eauto
    | apply keeps_modify; intros ?; tac
    | typeclasses eauto
    | case_match ].
