(* ===== verification/GoStd.v ===== *)
(** * The parts of Go's standard library the source uses

    Executable models of [errors], [strconv], [strings], [sort],
    [encoding/binary] and [encoding/base64] at the signatures the source calls
    them, with the lemmas the components share.  A Go string is a sequence of
    bytes, as Rocq's [string] is; [int] is 64 bits wide. *)

From Stdlib Require Export Ascii.
From S2P Require Import Prelude.
Open Scope Z_scope.

(** ** Errors

    The sentinel errors of the source are constructors, so that [errors.Is]
    can be evaluated; [Errorf] is [errors.New]/[fmt.Errorf] with its arguments,
    [Wrapf] is [fmt.Errorf] with a [%w] verb, [ErrExt] an error that comes from
    the operating system or from another library. *)

Inductive error : Type :=
| ErrProcessNotFound
| ErrChecksumsDoNotMatch
| ErrSecureConfigNoChecksum
| ErrSecureConfigNoHash
| ErrSecureConfigAndReattach
| ErrGRPCBrokerMuxNotSupported
| ErrBrokerTimeout
| ErrPingTimeout
| ErrProcessDone
| ErrSyntax
| ErrRange
| EOF
| Errorf (format : string) (args : list string)
| Wrapf (format : string) (args : list string) (cause : error)
| ErrExt (what : string).

#[export] Instance error_eq_dec : EqDecision error.
Proof. solve_decision. Defined.

(** [errors.Is(err, target)]: walks the chain of wrapped errors. *)
Fixpoint Is (err target : error) : bool :=
  bool_decide (err = target) ||
  match err with Wrapf _ _ cause => Is cause target | _ => false end.

(** How an [io.Writer] takes a chunk: all of it, a part with an error, or by
    panicking. *)
Inductive WriteOutcome : Type := WriteOK | WriteErr (written : nat) | WritePanic.

(** ** Machine integers *)

Definition uint32 (z : Z) : Z := z mod 2 ^ 32.
(** Conversion of a 64-bit [uint] to [int]. *)
Definition int_of_uint (u : Z) : Z := if bool_decide (u < 2 ^ 63) then u else u - 2 ^ 64.
Definition is_int (z : Z) : Prop := - 2 ^ 63 ≤ z < 2 ^ 63.
Definition is_uint32 (z : Z) : Prop := 0 ≤ z < 2 ^ 32.

(** ** strconv *)

Definition digit_val (a : ascii) : option Z :=
  let n := Z.of_N (N_of_ascii a) in
  if bool_decide (48 ≤ n ≤ 57) then Some (n - 48) else None.

Definition digit_char (d : Z) : ascii := ascii_of_N (Z.to_N (48 + d)).

(** The digit loop of [strconv.ParseUint(s, 10, bits)]: a byte that is not a
    digit is a syntax error, and the first digit that takes the value above
    the maximum a range error, whatever follows it. *)
Fixpoint ParseUint_loop (max acc : Z) (s : string) : res error Z :=
  match s with
  | "" => Ret acc
  | String a s' =>
      match digit_val a with
      | None => Err ErrSyntax
      | Some d =>
          if bool_decide (acc * 10 + d > max) then Err ErrRange
          else ParseUint_loop max (acc * 10 + d) s'
      end
  end.

Definition ParseUint (bits : Z) (s : string) : res error Z :=
  match s with
  | "" => Err ErrSyntax
  | _ => ParseUint_loop (2 ^ bits - 1) 0 s
  end.

Definition neg_sign : ascii := ascii_of_nat 45.
Definition pos_sign : ascii := ascii_of_nat 43.

(** [strconv.ParseInt(s, 10, bits)]. *)
Definition ParseInt (bits : Z) (s : string) : res error Z :=
  match s with
  | "" => Err ErrSyntax
  | String a s' =>
      if decide (a = neg_sign) then
        un ← ParseUint bits s';
        if bool_decide (un > 2 ^ (bits - 1)) then Err ErrRange else Ret (- un)
      else
        un ← ParseUint bits (if decide (a = pos_sign) then s' else s);
        if bool_decide (un >= 2 ^ (bits - 1)) then Err ErrRange else Ret un
  end.

(** [strconv.Atoi], [int] being 64 bits wide. *)
Definition Atoi (s : string) : res error Z := ParseInt 64 s.

(** Decimal digits of a non-negative number, most significant first; [fuel]
    bounds their number. *)
Fixpoint format_digits (fuel : nat) (n : Z) (acc : string) : string :=
  match fuel with
  | O => acc
  | S fuel' =>
      let acc' := String (digit_char (n mod 10)) acc in
      if bool_decide (n < 10) then acc' else format_digits fuel' (n / 10) acc'
  end.

(** [strconv.Itoa] and the [%d] verb.  Twenty digits hold every 64-bit value. *)
Definition Itoa (z : Z) : string :=
  if bool_decide (z < 0) then String neg_sign (format_digits 20 (- z) "")
  else format_digits 20 z "".

Definition ParseBool (s : string) : res error bool :=
  if bool_decide (s ∈ ["1"; "t"; "T"; "TRUE"; "true"; "True"]) then Ret true
  else if bool_decide (s ∈ ["0"; "f"; "F"; "FALSE"; "false"; "False"]) then Ret false
  else Err ErrSyntax.

(** ** strings *)

(** [strings.Split(s, sep)] for a one-byte separator. *)
Fixpoint Split (s : string) (sep : ascii) : list string :=
  match s with
  | "" => [""]
  | String a s' =>
      if decide (a = sep) then "" :: Split s' sep
      else match Split s' sep with
           | [] => [String a ""]
           | w :: ws => String a w :: ws
           end
  end.

(** [strings.Join(elems, sep)] for a one-byte separator. *)
Fixpoint Join (elems : list string) (sep : ascii) : string :=
  match elems with
  | [] => ""
  | [w] => w
  | w :: ws => w +:+ String sep (Join ws sep)
  end.

Fixpoint HasPrefix (s prefix : string) : bool :=
  match prefix, s with
  | "", _ => true
  | String b p', String a s' => bool_decide (a = b) && HasPrefix s' p'
  | String _ _, "" => false
  end.

(** [unicode.IsSpace] on the UTF-8 encodings of the white-space code points:
    one byte, two bytes (U+0085, U+00A0) and three bytes (U+1680,
    U+2000-200A, U+2028, U+2029, U+202F, U+205F, U+3000). *)
Definition byte_val (a : ascii) : Z := Z.of_N (N_of_ascii a).

Definition space1 (a : ascii) : bool :=
  let n := byte_val a in bool_decide (9 ≤ n ≤ 13) || bool_decide (n = 32).
Definition space2 (a b : ascii) : bool :=
  bool_decide (byte_val a = 194) &&
  (bool_decide (byte_val b = 133) || bool_decide (byte_val b = 160)).
Definition space3 (a b c : ascii) : bool :=
  let x := byte_val a in let y := byte_val b in let z := byte_val c in
  bool_decide (x = 225 ∧ y = 154 ∧ z = 128) ||
  bool_decide (x = 226 ∧ y = 128 ∧ (128 ≤ z ≤ 138 ∨ z = 168 ∨ z = 169 ∨ z = 175)) ||
  bool_decide (x = 226 ∧ y = 129 ∧ z = 159) ||
  bool_decide (x = 227 ∧ y = 128 ∧ z = 128).

(** Strip the leading white space, given the tests for an encoded space read
    in the direction of the string. *)
Fixpoint strip_spaces (s1 : ascii → bool) (s2 : ascii → ascii → bool)
    (s3 : ascii → ascii → ascii → bool) (s : string) : string :=
  match s with
  | "" => ""
  | String a ra =>
      if s1 a then strip_spaces s1 s2 s3 ra else
      match ra with
      | "" => s
      | String b rb =>
          if s2 a b then strip_spaces s1 s2 s3 rb else
          match rb with
          | "" => s
          | String c rc => if s3 a b c then strip_spaces s1 s2 s3 rc else s
          end
      end
  end.

(** [strings.TrimSpace]: the trailing spaces are stripped on the reversed
    string, where an encoded space reads backwards. *)
Definition TrimSpace (s : string) : string :=
  let l := strip_spaces space1 space2 space3 s in
  String.rev (strip_spaces space1 (λ b a, space2 a b) (λ c b a, space3 a b c) (String.rev l)).

(** ** sort *)

(** [sort.Sort(sort.Reverse(sort.IntSlice(xs)))]. *)
Definition SortDescending (xs : list Z) : list Z := merge_sort (flip Z.le) xs.

(** ** encoding/binary, little endian, 32 bits *)

Definition PutUint32 (v : Z) : list Z :=
  [Z.land v 255; Z.land (Z.shiftr v 8) 255; Z.land (Z.shiftr v 16) 255;
   Z.land (Z.shiftr v 24) 255].

Definition Uint32 (bs : list Z) : option Z :=
  match bs with
  | [b0; b1; b2; b3] =>
      Some (Z.lor b0 (Z.lor (Z.shiftl b1 8) (Z.lor (Z.shiftl b2 16) (Z.shiftl b3 24))))
  | _ => None
  end.

(** ** encoding/base64, [RawStdEncoding] *)

Definition base64_char (v : Z) : ascii :=
  ascii_of_N (Z.to_N (
    if bool_decide (v < 26) then 65 + v
    else if bool_decide (v < 52) then 97 + (v - 26)
    else if bool_decide (v < 62) then 48 + (v - 52)
    else if bool_decide (v = 62) then 43 else 47)).

Definition base64_val (a : ascii) : option Z :=
  let n := byte_val a in
  if bool_decide (65 ≤ n ≤ 90) then Some (n - 65)
  else if bool_decide (97 ≤ n ≤ 122) then Some (n - 97 + 26)
  else if bool_decide (48 ≤ n ≤ 57) then Some (n - 48 + 52)
  else if bool_decide (n = 43) then Some 62
  else if bool_decide (n = 47) then Some 63 else None.

Fixpoint EncodeToString (bs : list Z) : string :=
  match bs with
  | [] => ""
  | [a] => String (base64_char (a / 4)) (String (base64_char (a mod 4 * 16)) "")
  | [a; b] =>
      String (base64_char (a / 4)) (String (base64_char (a mod 4 * 16 + b / 16))
        (String (base64_char (b mod 16 * 4)) ""))
  | a :: b :: c :: rest =>
      String (base64_char (a / 4)) (String (base64_char (a mod 4 * 16 + b / 16))
        (String (base64_char (b mod 16 * 4 + c / 64)) (String (base64_char (c mod 64))
          (EncodeToString rest))))
  end.

(** The decoder skips carriage returns and line feeds, reads groups of four
    characters, and accepts a last group of two or three (its unused bits are
    ignored); a lone character or one outside the alphabet is an error. *)
Fixpoint base64_values (s : string) : option (list Z) :=
  match s with
  | "" => Some []
  | String a s' =>
      if bool_decide (byte_val a = 10) || bool_decide (byte_val a = 13) then base64_values s'
      else v ← base64_val a; vs ← base64_values s'; Some (v :: vs)
  end.

Fixpoint base64_bytes (vs : list Z) : option (list Z) :=
  match vs with
  | [] => Some []
  | [_] => None
  | [v0; v1] => Some [v0 * 4 + v1 / 16]
  | [v0; v1; v2] => Some [v0 * 4 + v1 / 16; v1 mod 16 * 16 + v2 / 4]
  | v0 :: v1 :: v2 :: v3 :: rest =>
      bs ← base64_bytes rest;
      Some (v0 * 4 + v1 / 16 :: v1 mod 16 * 16 + v2 / 4 :: v2 mod 4 * 64 + v3 :: bs)
  end.

Definition DecodeString (s : string) : res error (list Z) :=
  match base64_values s ≫= base64_bytes with
  | Some bs => Ret bs
  | None => Err (ErrExt "illegal base64 data")
  end.

(** ** Lemmas: numbers and their decimal notation *)

Lemma digit_val_char d : 0 ≤ d < 10 → digit_val (digit_char d) = Some d.
Proof.
  intros Hd. assert (d = 0 ∨ d = 1 ∨ d = 2 ∨ d = 3 ∨ d = 4 ∨ d = 5 ∨ d = 6 ∨ d = 7 ∨ d = 8 ∨ d = 9)
    as Hc by lia. by destruct_or! Hc; subst.
Qed.

Lemma digit_char_not_sign d : 0 ≤ d < 10 → digit_char d ≠ neg_sign ∧ digit_char d ≠ pos_sign.
Proof.
  intros Hd. assert (d = 0 ∨ d = 1 ∨ d = 2 ∨ d = 3 ∨ d = 4 ∨ d = 5 ∨ d = 6 ∨ d = 7 ∨ d = 8 ∨ d = 9)
    as Hc by lia. by destruct_or! Hc; subst.
Qed.

(** Reading the digits of [n] back multiplies the accumulator by the right
    power of ten and adds [n]. *)
Lemma ParseUint_loop_format fuel n max acc s :
  0 ≤ n < 10 ^ Z.of_nat fuel → 0 ≤ acc → (0 < fuel)%nat →
  ∃ k, 0 ≤ k ∧
    (acc * 10 ^ k + n ≤ max →
     ParseUint_loop max acc (format_digits fuel n s) = ParseUint_loop max (acc * 10 ^ k + n) s).
Proof.
  revert n s. induction fuel as [|fuel IH]; intros n s Hn Hacc Hf; [lia|].
  simpl. case_bool_decide as Hlt.
  - exists 1. split; [lia|]. intros Hmax. simpl.
    rewrite digit_val_char by (apply Z.mod_pos_bound; lia).
    rewrite Z.mod_small by lia. rewrite bool_decide_false by lia. f_equal; lia.
  - assert (0 < fuel)%nat as Hf'.
    { destruct fuel; [|lia]. change (10 ^ Z.of_nat 1) with 10 in Hn. lia. }
    rewrite Nat2Z.inj_succ, Z.pow_succ_r in Hn by lia.
    destruct (IH (n / 10) (String (digit_char (n mod 10)) s)) as (k & Hk & IHk);
      [split; [apply Z.div_pos; lia | apply Z.div_lt_upper_bound; lia] | lia | done |].
    exists (k + 1). split; [lia|]. intros Hmax.
    pose proof (Z.div_mod n 10 ltac:(lia)) as Hdm.
    pose proof (Z.mod_pos_bound n 10 ltac:(lia)) as Hmb.
    rewrite Z.pow_add_r in * by lia. change (10 ^ 1) with 10 in *.
    assert (0 ≤ acc * 10 ^ k) by (apply Z.mul_nonneg_nonneg; [lia|apply Z.pow_nonneg; lia]).
    rewrite IHk by nia. simpl. rewrite digit_val_char by lia.
    rewrite bool_decide_false by nia. f_equal; nia.
Qed.

Lemma format_digits_cons fuel n s :
  (0 < fuel)%nat → 0 ≤ n →
  ∃ d t, 0 ≤ d < 10 ∧ format_digits fuel n s = String (digit_char d) t.
Proof.
  revert n s. induction fuel as [|fuel IH]; intros n s Hf Hn; [lia|]. simpl.
  pose proof (Z.mod_pos_bound n 10 ltac:(lia)).
  case_bool_decide; [eauto|].
  destruct fuel as [|fuel]; [simpl; eauto|].
  apply IH; [lia|]. apply Z.div_pos; lia.
Qed.

Lemma ParseUint_format n :
  0 ≤ n < 2 ^ 64 → ParseUint 64 (format_digits 20 n "") = Ret n.
Proof.
  intros Hn. unfold ParseUint.
  destruct (format_digits_cons 20 n "" ltac:(lia) ltac:(lia)) as (d & t & Hd & Heq).
  rewrite Heq, <- Heq.
  edestruct (ParseUint_loop_format 20 n (2 ^ 64 - 1) 0 "") as (k & Hk & Hp); [|lia|lia|].
  { split; [lia|]. eapply Z.lt_le_trans; [apply Hn|]. vm_compute; discriminate. }
  rewrite Hp by lia. cbn [ParseUint_loop]. f_equal; lia.
Qed.

(** [strconv.Atoi] inverts [strconv.Itoa] on every [int]. *)
Lemma Atoi_Itoa z : is_int z → Atoi (Itoa z) = Ret z.
Proof.
  unfold is_int, Atoi, Itoa, ParseInt. intros Hz. case_bool_decide as Hneg.
  - destruct (decide (neg_sign = neg_sign)) as [_|]; [|done].
    rewrite ParseUint_format by lia. simpl. rewrite bool_decide_false by lia. f_equal; lia.
  - destruct (format_digits_cons 20 z "" ltac:(lia) ltac:(lia)) as (d & t & Hd & Heq).
    destruct (digit_char_not_sign d Hd). rewrite Heq.
    rewrite !decide_False by done. rewrite <- Heq.
    rewrite ParseUint_format by lia. simpl. by rewrite bool_decide_false by lia.
Qed.

(** What [strconv.Atoi] accepts fits in an [int]. *)
Lemma ParseUint_loop_bound max acc s n :
  0 ≤ acc ≤ max → ParseUint_loop max acc s = Ret n → 0 ≤ n ≤ max.
Proof.
  revert acc. induction s as [|a s IH]; intros acc Hacc; simpl; [naive_solver|].
  destruct (digit_val a) as [d|] eqn:Hd; [|done]. case_bool_decide; [done|].
  apply IH. unfold digit_val in Hd. case_bool_decide; simplify_eq. lia.
Qed.

Lemma ParseUint_bound bits s n : 0 ≤ bits → ParseUint bits s = Ret n → 0 ≤ n < 2 ^ bits.
Proof.
  intros Hb. unfold ParseUint. destruct s; [done|]. intros H.
  apply ParseUint_loop_bound in H; [lia|].
  pose proof (Z.pow_pos_nonneg 2 bits); lia.
Qed.

Lemma ParseInt_bound bits s z :
  0 < bits → ParseInt bits s = Ret z → - 2 ^ (bits - 1) ≤ z < 2 ^ (bits - 1).
Proof.
  intros Hb. pose proof (Z.pow_pos_nonneg 2 (bits - 1) ltac:(lia) ltac:(lia)).
  unfold ParseInt. destruct s as [|a s]; [done|]. case_decide.
  - intros (un & Hu & H')%res_bind_Ret. case_bool_decide; simplify_eq.
    apply ParseUint_bound in Hu; lia.
  - intros (un & Hu & H')%res_bind_Ret. case_bool_decide; simplify_eq.
    apply ParseUint_bound in Hu; lia.
Qed.

(** ** Lemmas: strings *)

(** Every byte of the string satisfies [P]. *)
Fixpoint str_forall (P : ascii → bool) (s : string) : bool :=
  match s with "" => true | String a s' => P a && str_forall P s' end.

(** The string does not contain the byte [c]. *)
Definition no_char (c : ascii) (s : string) : bool := str_forall (λ a, bool_decide (a ≠ c)) s.

Lemma str_forall_app P s1 s2 : str_forall P (s1 +:+ s2) = str_forall P s1 && str_forall P s2.
Proof.
  induction s1 as [|a s1 IH]; [done|].
  change (String a s1 +:+ s2) with (String a (s1 +:+ s2)). simpl. by rewrite IH, andb_assoc.
Qed.

Lemma str_forall_impl (P Q : ascii → bool) s :
  (∀ a, P a = true → Q a = true) → str_forall P s = true → str_forall Q s = true.
Proof.
  intros HPQ. induction s as [|a s IH]; [done|]. simpl.
  rewrite !andb_true_iff. naive_solver.
Qed.

Lemma str_forall_rev_app P s1 s2 :
  str_forall P (String.rev_app s1 s2) = str_forall P s1 && str_forall P s2.
Proof.
  revert s2. induction s1 as [|a s1 IH]; intros s2; simpl; [done|].
  rewrite IH. simpl. by destruct (P a), (str_forall P s1).
Qed.

Lemma Split_cons_inv s c : ∃ w ws, Split s c = w :: ws.
Proof.
  destruct s as [|a s]; simpl; [eauto|]. case_decide; [eauto|].
  destruct (Split s c); eauto.
Qed.

Lemma Split_app_sep w s c :
  no_char c w = true → Split (w +:+ String c s) c = w :: Split s c.
Proof.
  unfold no_char. induction w as [|a w IH]; simpl.
  - intros _. change ("" +:+ String c s) with (String c s). simpl. by rewrite decide_True.
  - rewrite andb_true_iff, bool_decide_eq_true. intros [Ha Hw].
    change (String a w +:+ String c s) with (String a (w +:+ String c s)). simpl.
    rewrite decide_False by done. by rewrite IH.
Qed.

Lemma Split_no_char w c : no_char c w = true → Split w c = [w].
Proof.
  unfold no_char. induction w as [|a w IH]; simpl; [done|].
  rewrite andb_true_iff, bool_decide_eq_true. intros [Ha Hw].
  rewrite decide_False by done. by rewrite IH.
Qed.

(** [strings.Split] inverts [strings.Join] on separator-free parts. *)
Lemma Split_Join l c :
  l ≠ [] → Forall (λ w, no_char c w = true) l → Split (Join l c) c = l.
Proof.
  intros Hne Hl. induction Hl as [|w l Hw Hl IH]; [done|].
  destruct l as [|w' l]; [by apply Split_no_char|].
  change (Join (w :: w' :: l) c) with (w +:+ String c (Join (w' :: l) c)).
  rewrite Split_app_sep by done. by rewrite IH.
Qed.

(** [strings.Join] inverts [strings.Split] always. *)
Lemma Join_Split s c : Join (Split s c) c = s.
Proof.
  induction s as [|a s IH]; simpl; [done|]. case_decide as Ha.
  - subst. destruct (Split_cons_inv s c) as (w & ws & Hs). rewrite Hs in *. simpl.
    simpl in IH. by rewrite IH.
  - destruct (Split_cons_inv s c) as (w & ws & Hs). rewrite Hs in *.
    destruct ws; simpl in *; [by subst|].
    rewrite <- IH. done.
Qed.

(** A byte that no encoded white space starts or ends with. *)
Definition plain_byte (a : ascii) : bool :=
  bool_decide (33 ≤ byte_val a ≤ 126).

Lemma plain_byte_spec a :
  plain_byte a = true → space1 a = false ∧ (∀ b, space2 a b = false ∧ space2 b a = false) ∧
  (∀ b c, space3 a b c = false ∧ space3 b c a = false).
Proof.
  unfold plain_byte, space1, space2, space3. rewrite bool_decide_eq_true. intros Ha.
  split; [rewrite !bool_decide_false by lia; done|].
  split; intros; split; rewrite !andb_false_iff || rewrite !orb_false_iff;
    rewrite ?orb_false_iff, ?bool_decide_eq_false; intuition lia.
Qed.

Lemma strip_spaces_stop s1 s2 s3 a s :
  s1 a = false → (∀ b, s2 a b = false) → (∀ b c, s3 a b c = false) →
  strip_spaces s1 s2 s3 (String a s) = String a s.
Proof.
  intros H1 H2 H3. simpl. rewrite H1. destruct s as [|b s]; [done|].
  rewrite H2. destruct s as [|c s]; [done|]. by rewrite H3.
Qed.

Lemma rev_app_rev_app s t u :
  String.rev_app (String.rev_app s t) u = String.rev_app t (s +:+ u).
Proof.
  revert t. induction s as [|a s IH]; intros t; simpl; [done|].
  rewrite IH. done.
Qed.

Lemma string_app_nil_r s : s +:+ "" = s.
Proof. induction s as [|a s IH]; [done|]. change (String a (s +:+ "") = String a s). by rewrite IH. Qed.

Lemma string_length_app s t : String.length (s +:+ t) = (String.length s + String.length t)%nat.
Proof.
  induction s as [|a s IH]; [done|]. change (String a s +:+ t) with (String a (s +:+ t)).
  simpl. by rewrite IH.
Qed.

Lemma string_app_assoc s t u : (s +:+ t) +:+ u = s +:+ (t +:+ u).
Proof.
  induction s as [|a s IH]; [done|].
  change (String a ((s +:+ t) +:+ u) = String a (s +:+ (t +:+ u))). by rewrite IH.
Qed.

Lemma string_rev_rev s : String.rev (String.rev s) = s.
Proof. unfold String.rev. rewrite rev_app_rev_app. simpl. apply string_app_nil_r. Qed.

Lemma string_rev_app_snoc s a : String.rev (s +:+ String a "") = String a (String.rev s).
Proof.
  unfold String.rev. change (String a "") with (String.rev_app (String a "") "").
  assert (∀ t u, String.rev_app (s +:+ t) u = String.rev_app t (String.rev_app s u)) as ->; [|done].
  intros t. induction s as [|b s IH]; intros u; [done|].
  change (String b s +:+ t) with (String b (s +:+ t)). simpl. apply IH.
Qed.

(** A string that starts and ends with plain bytes is left alone. *)
Lemma TrimSpace_plain a s b :
  plain_byte a = true → plain_byte b = true →
  TrimSpace (String a (s +:+ String b "")) = String a (s +:+ String b "").
Proof.
  intros Ha%plain_byte_spec Hb%plain_byte_spec. unfold TrimSpace.
  destruct Ha as (Ha1 & Ha2 & Ha3), Hb as (Hb1 & Hb2 & Hb3).
  rewrite (strip_spaces_stop _ _ _ a) by naive_solver.
  change (String a (s +:+ String b "")) with (String a s +:+ String b "").
  rewrite string_rev_app_snoc.
  rewrite strip_spaces_stop by naive_solver.
  by rewrite <- string_rev_app_snoc, string_rev_rev.
Qed.

(** ** Lemmas: sorting *)

Lemma SortDescending_perm xs : SortDescending xs ≡ₚ xs.
Proof. apply merge_sort_Permutation. Qed.

Lemma SortDescending_sorted xs : StronglySorted (flip Z.le) (SortDescending xs).
Proof.
  apply Sorted_StronglySorted; [intros ??? ? ?; unfold flip in *; lia|].
  apply Sorted_merge_sort. intros ? ?; unfold flip; lia.
Qed.

Lemma elem_of_SortDescending x xs : x ∈ SortDescending xs ↔ x ∈ xs.
Proof. by rewrite SortDescending_perm. Qed.

(** Sorting forgets the order the elements came in. *)
Lemma SortDescending_proper xs ys : xs ≡ₚ ys → SortDescending xs = SortDescending ys.
Proof.
  intros Hp. assert (AntiSymm (=) (flip Z.le)) by (intros ? ? H1 H2; unfold flip in *; lia).
  apply (StronglySorted_unique (flip Z.le)); try apply SortDescending_sorted.
  by rewrite !SortDescending_perm.
Qed.

(** ** Lemmas: bytes *)

Lemma land_255 z : Z.land z 255 = z mod 256.
Proof. change 255 with (Z.ones 8). by rewrite Z.land_ones by lia. Qed.

(** Disjoint bit ranges: [lor] is addition. *)
Lemma lor_shiftl_add lo hi n :
  0 ≤ n → 0 ≤ lo < 2 ^ n → Z.lor lo (Z.shiftl hi n) = lo + hi * 2 ^ n.
Proof.
  intros Hn Hlo. rewrite <- Z.shiftl_mul_pow2 by done.
  pose proof (Z.add_lor_land lo (Z.shiftl hi n)) as Hadd.
  assert (Z.land lo (Z.shiftl hi n) = 0) as Hland; [|by rewrite Hland, Z.add_0_r in Hadd].
  apply Z.bits_inj'. intros k Hk. rewrite Z.land_spec, Z.bits_0.
  destruct (decide (k < n)) as [Hkn|Hkn].
  - rewrite Z.shiftl_spec_low by done. apply andb_false_r.
  - destruct (decide (lo = 0)) as [->|Hlo0]; [by rewrite Z.bits_0|].
    rewrite (Z.bits_above_log2 lo k); [done|lia|].
    assert (Z.log2 lo < n) by (apply Z.log2_lt_pow2; lia). lia.
Qed.

(** The four bytes of a 32-bit value, read back, give the value. *)
Lemma Uint32_PutUint32 v : is_uint32 v → Uint32 (PutUint32 v) = Some v.
Proof.
  unfold is_uint32. intros Hv. unfold Uint32, PutUint32. f_equal.
  rewrite !land_255, !Z.shiftr_div_pow2, !Z.lor_assoc by lia.
  change (2 ^ 8) with 256. change (2 ^ 16) with 65536. change (2 ^ 24) with 16777216.
  rewrite (lor_shiftl_add _ _ 8), (lor_shiftl_add _ _ 16), (lor_shiftl_add _ _ 24)
    by (Z.to_euclidean_division_equations; lia).
  Z.to_euclidean_division_equations; lia.
Qed.

Lemma length_PutUint32 v : length (PutUint32 v) = 4%nat.
Proof. done. Qed.

(** ** Lemmas: base64 *)

Definition is_byte (b : Z) : Prop := 0 ≤ b < 256.

(** The bytes of the alphabet are plain and never separators. *)
Definition base64_byte (a : ascii) : bool :=
  plain_byte a && bool_decide (byte_val a ≠ 124).

Lemma base64_char_bits v :
  0 ≤ v < 64 →
  base64_val (base64_char v) = Some v ∧ base64_byte (base64_char v) = true ∧
  byte_val (base64_char v) ≠ 10 ∧ byte_val (base64_char v) ≠ 13.
Proof.
  intros Hv. assert (v ∈ seqZ 0 64) as Hin by (apply elem_of_seqZ; lia).
  revert Hin. apply (Forall_forall (λ v, base64_val (base64_char v) = Some v ∧
    base64_byte (base64_char v) = true ∧
    byte_val (base64_char v) ≠ 10 ∧ byte_val (base64_char v) ≠ 13)).
  apply (bool_decide_unpack _). vm_compute. exact I.
Qed.

Lemma base64_values_char v s :
  0 ≤ v < 64 →
  base64_values (String (base64_char v) s) = vs ← base64_values s; Some (v :: vs).
Proof.
  intros (H1 & _ & H2 & H3)%base64_char_bits. simpl.
  rewrite !bool_decide_false by done. simpl. by rewrite H1.
Qed.

(** Induction over the groups of three bytes of the encoder. *)
Lemma list_ind3 {A} (P : list A → Prop) :
  P [] → (∀ a, P [a]) → (∀ a b, P [a; b]) →
  (∀ a b c l, P l → P (a :: b :: c :: l)) → ∀ l, P l.
Proof.
  intros H0 H1 H2 H3 l. enough (P l ∧ (∀ a, P (a :: l)) ∧ (∀ a b, P (a :: b :: l))) by naive_solver.
  induction l as [|x l IH]; naive_solver.
Qed.

Ltac base64_range := Z.to_euclidean_division_equations; lia.

Lemma DecodeString_EncodeToString bs :
  Forall is_byte bs → DecodeString (EncodeToString bs) = Ret bs.
Proof.
  unfold DecodeString, is_byte. intros Hbs.
  enough (base64_values (EncodeToString bs) ≫= base64_bytes = Some bs) as -> by done.
  revert Hbs. induction bs as [| a | a b | a b c bs IH] using list_ind3;
    rewrite ?Forall_cons; intros Hbs; destruct_and?; [done|..].
  - cbn [EncodeToString]. rewrite !base64_values_char by base64_range.
    simpl. do 2 f_equal. base64_range.
  - cbn [EncodeToString]. rewrite !base64_values_char by base64_range.
    simpl. do 2 f_equal; [base64_range|]. do 2 f_equal. base64_range.
  - cbn [EncodeToString]. rewrite !base64_values_char by base64_range.
    destruct (base64_values (EncodeToString bs)) as [vs|]; simpl in *; [|naive_solver].
    rewrite IH by done. simpl.
    replace (a / 4 * 4 + (a mod 4 * 16 + b / 16) / 16) with a by base64_range.
    replace ((a mod 4 * 16 + b / 16) mod 16 * 16 + (b mod 16 * 4 + c / 64) / 4) with b
      by base64_range.
    by replace ((b mod 16 * 4 + c / 64) mod 4 * 64 + c mod 64) with c by base64_range.
Qed.

Lemma EncodeToString_length bs : (length bs ≤ String.length (EncodeToString bs))%nat.
Proof.
  induction bs as [| a | a b | a b c bs IH] using list_ind3; cbn [EncodeToString String.length length]; lia.
Qed.

Lemma EncodeToString_alphabet bs :
  Forall is_byte bs → str_forall base64_byte (EncodeToString bs) = true.
Proof.
  unfold is_byte. induction bs as [| a | a b | a b c bs IH] using list_ind3;
    rewrite ?Forall_cons; intros Hbs; destruct_and?; [done|..]; cbn [EncodeToString str_forall];
    rewrite ?IH by done;
    rewrite !(λ v H, proj1 (proj2 (base64_char_bits v H))) by base64_range; done.
Qed.

(** ** Lemmas: the alphabet of [Itoa] *)

Definition decimal_byte (a : ascii) : bool :=
  bool_decide (a = neg_sign) || bool_decide (48 ≤ byte_val a ≤ 57).

Lemma digit_char_decimal d : 0 ≤ d < 10 → decimal_byte (digit_char d) = true.
Proof.
  intros Hd. assert (d = 0 ∨ d = 1 ∨ d = 2 ∨ d = 3 ∨ d = 4 ∨ d = 5 ∨ d = 6 ∨ d = 7 ∨ d = 8 ∨ d = 9)
    as Hc by lia. by destruct_or! Hc; subst.
Qed.

Lemma format_digits_decimal fuel n s :
  str_forall decimal_byte s = true → str_forall decimal_byte (format_digits fuel n s) = true.
Proof.
  revert n s. induction fuel as [|fuel IH]; intros n s Hs; [done|]. simpl.
  assert (str_forall decimal_byte (String (digit_char (n mod 10)) s) = true) as Hs'.
  { simpl. rewrite digit_char_decimal by (apply Z.mod_pos_bound; lia). done. }
  case_bool_decide; [done|]. by apply IH.
Qed.

Lemma Itoa_decimal z : str_forall decimal_byte (Itoa z) = true.
Proof. unfold Itoa. case_bool_decide; cbn [str_forall]; by rewrite format_digits_decimal. Qed.

Lemma Itoa_no_char c z : decimal_byte c = false → no_char c (Itoa z) = true.
Proof.
  intros Hc. eapply str_forall_impl; [|apply Itoa_decimal].
  intros a Ha. apply bool_decide_eq_true. congruence.
Qed.

Lemma Itoa_cons z : ∃ a s, Itoa z = String a s ∧ plain_byte a = true.
Proof.
  unfold Itoa. case_bool_decide; [by eauto|].
  destruct (format_digits_cons 20 z "" ltac:(lia) ltac:(lia)) as (d & t & Hd & ->).
  eexists _, _. split; [done|].
  assert (d = 0 ∨ d = 1 ∨ d = 2 ∨ d = 3 ∨ d = 4 ∨ d = 5 ∨ d = 6 ∨ d = 7 ∨ d = 8 ∨ d = 9)
    as Hc by lia. by destruct_or! Hc; subst.
Qed.

Lemma Itoa_nonempty z : Itoa z ≠ "".
Proof. by destruct (Itoa_cons z) as (a & s & -> & _). Qed.
