(* ===== verification/Mtls.v ===== *)
(** * Certificates

    mtls.go ([generateCert]) and what the two sides of automatic mTLS rely on:
    the parts of an x.509 certificate the source sets, the verification that
    crypto/tls performs with the configuration of either side, and an interface
    to the cryptographic libraries with the laws their documentation states. *)

From S2P Require Import Prelude GoStd.

(** ** Data *)

Inductive ExtKeyUsage : Type := ExtKeyUsageServerAuth | ExtKeyUsageClientAuth.
#[export] Instance ExtKeyUsage_eq_dec : EqDecision ExtKeyUsage.
Proof. solve_decision. Defined.

Definition KeyUsageDigitalSignature : Z := 1.
Definition KeyUsageKeyEncipherment : Z := 4.
Definition KeyUsageKeyAgreement : Z := 16.
Definition KeyUsageCertSign : Z := 32.

(** The fields of [x509.Certificate] that [generateCert] fills in; times are in
    nanoseconds. *)
Record Template : Type := MkTemplate {
  CommonName : string;
  Organization : list string;
  DNSNames : list string;
  ExtKeyUsages : list ExtKeyUsage;
  KeyUsage : Z;
  BasicConstraintsValid : bool;
  SerialNumber : Z;
  NotBefore : Z;
  NotAfter : Z;
  IsCA : bool
}.
#[export] Instance Template_eq_dec : EqDecision Template.
Proof. solve_decision. Defined.

(** A certificate: its contents, the key it certifies and the key that signed
    it, both public. *)
Record Cert : Type := MkCert {
  crt_template : Template;
  crt_PublicKey : Z;
  crt_SignedBy : Z
}.
#[export] Instance Cert_eq_dec : EqDecision Cert.
Proof. solve_decision. Defined.

(** The calls of crypto/ecdsa, crypto/x509, crypto/tls and encoding/pem that do
    not draw randomness; keys are numbers, DER is bytes. *)
Record Crypto : Type := MkCrypto {
  Public : Z → Z;
  CreateCertificate : Template → Template → Z → Z → res error (list Z);
  ParseCertificate : list Z → res error Cert;
  MarshalECPrivateKey : Z → res error (list Z);
  pem_Encode : string → list Z → res error string;
  X509KeyPair : string → string → res error (list Z);
  AppendCertsFromPEM : string → list Cert
}.

(** What one run of [generateCert] draws: a private key, a serial number below
    the limit, and the two readings of the clock. *)
Record CertAnswers : Type := MkCertAnswers {
  ca_GenerateKey : res error Z;
  ca_Int : Z → res error Z;
  ca_Now_before : Z;
  ca_Now_after : Z
}.

(** ** [generateCert] *)

Definition Second : Z := 1000000000.
Definition Hour : Z := 3600 * Second.

Definition serialNumberLimit : Z := Z.shiftl 1 128.
Definition cert_host : string := "localhost".

Definition cert_template (sn before after : Z) : Template :=
  MkTemplate cert_host ["HashiCorp"] [cert_host] [ExtKeyUsageClientAuth; ExtKeyUsageServerAuth]
    (Z.lor (Z.lor (Z.lor KeyUsageDigitalSignature KeyUsageKeyEncipherment) KeyUsageKeyAgreement)
       KeyUsageCertSign)
    true sn (before + -30 * Second) (after + 262980 * Hour) true.

Definition generateCert (C : Crypto) (A : CertAnswers) : res error (string * string) :=
  key ← ca_GenerateKey A;
  sn ← ca_Int A serialNumberLimit;
  let template := cert_template sn (ca_Now_before A) (ca_Now_after A) in
  der ← CreateCertificate C template template (Public C key) key;
  cert ← pem_Encode C "CERTIFICATE" der;
  keyBytes ← MarshalECPrivateKey C key;
  privateKey ← pem_Encode C "EC PRIVATE KEY" keyBytes;
  Ret (cert, privateKey).

(** ** Verification by crypto/tls *)

Definition valid_at (now : Z) (x : Cert) : bool :=
  bool_decide (NotBefore (crt_template x) ≤ now ≤ NotAfter (crt_template x)).
Definition allows (usage : ExtKeyUsage) (x : Cert) : bool :=
  bool_decide (usage ∈ ExtKeyUsages (crt_template x)).

(** A certificate that may sign others. *)
Definition may_sign (r : Cert) : bool :=
  IsCA (crt_template r) && BasicConstraintsValid (crt_template r) && Z.testbit (KeyUsage (crt_template r)) 5.

(** [x509.Certificate.Verify] of a leaf without intermediates against a pool:
    the leaf is in the pool, or it was signed by a certificate of the pool. *)
Definition chains_to (usage : ExtKeyUsage) (now : Z) (x r : Cert) : bool :=
  bool_decide (x = r) ||
  (may_sign r && valid_at now r && allows usage r && bool_decide (crt_SignedBy x = crt_PublicKey r)).

Definition verify (pool : list Cert) (usage : ExtKeyUsage) (name : option string) (now : Z) (x : Cert) : bool :=
  valid_at now x && allows usage x &&
  match name with Some n => bool_decide (n ∈ DNSNames (crt_template x)) | None => true end &&
  existsb (chains_to usage now x) pool.

(** ** The laws of the libraries *)

(** x.509 keeps times in seconds. *)
Definition x509_time (t : Z) : Z := t / Second * Second.
Definition encoded (t : Template) : Template :=
  MkTemplate (CommonName t) (Organization t) (DNSNames t) (ExtKeyUsages t) (KeyUsage t)
    (BasicConstraintsValid t) (SerialNumber t) (x509_time (NotBefore t)) (x509_time (NotAfter t)) (IsCA t).

(** A self-signed certificate parses to its template, with the key's public
    half as subject and signer; its DER is a byte string that holds at least a
    key and a signature; PEM carries it to [X509KeyPair] and to a pool. *)
Class CryptoLaws (C : Crypto) : Prop := {
  law_parse t k der : CreateCertificate C t t (Public C k) k = Ret der →
    ParseCertificate C der = Ret (MkCert (encoded t) (Public C k) (Public C k));
  law_der t k der : CreateCertificate C t t (Public C k) k = Ret der →
    Forall is_byte der ∧ (64 ≤ length der)%nat;
  law_pem typ bs s : pem_Encode C typ bs = Ret s → s ≠ "";
  law_keypair t k der c kb p : CreateCertificate C t t (Public C k) k = Ret der →
    pem_Encode C "CERTIFICATE" der = Ret c → MarshalECPrivateKey C k = Ret kb →
    pem_Encode C "EC PRIVATE KEY" kb = Ret p → X509KeyPair C c p = Ret der;
  law_append der c x : Forall is_byte der → pem_Encode C "CERTIFICATE" der = Ret c →
    ParseCertificate C der = Ret x → AppendCertsFromPEM C c = [x]
}.

(** ** Lemmas *)

(** A run of [generateCert] that succeeds, step by step. *)
Lemma generateCert_inv C A c p :
  generateCert C A = Ret (c, p) →
  ∃ k sn der kb, ca_GenerateKey A = Ret k ∧ ca_Int A serialNumberLimit = Ret sn ∧
    (let t := cert_template sn (ca_Now_before A) (ca_Now_after A) in
     CreateCertificate C t t (Public C k) k = Ret der) ∧
    pem_Encode C "CERTIFICATE" der = Ret c ∧ MarshalECPrivateKey C k = Ret kb ∧
    pem_Encode C "EC PRIVATE KEY" kb = Ret p.
Proof.
  unfold generateCert. intros (k & Hk & H)%res_bind_Ret. apply res_bind_Ret in H as (sn & Hsn & H).
  apply res_bind_Ret in H as (der & Hder & H). apply res_bind_Ret in H as (c' & Hc & H).
  apply res_bind_Ret in H as (kb & Hkb & H). apply res_bind_Ret in H as (p' & Hp & [= <- <-]).
  by exists k, sn, der, kb.
Qed.

(** The certificate that a run with the key [k] and the serial number [sn]
    makes. *)
Definition made_cert (C : Crypto) (A : CertAnswers) (k sn : Z) : Cert :=
  MkCert (encoded (cert_template sn (ca_Now_before A) (ca_Now_after A))) (Public C k) (Public C k).

(** What [generateCert] returns, as the two sides use it. *)
Record generated (C : Crypto) (A : CertAnswers) (c p : string) (der : list Z) (x : Cert) : Prop := MkGenerated {
  gn_key : ∃ k sn, ca_GenerateKey A = Ret k ∧ ca_Int A serialNumberLimit = Ret sn ∧ x = made_cert C A k sn;
  gn_keypair : X509KeyPair C c p = Ret der;
  gn_parse : ParseCertificate C der = Ret x;
  gn_pool : AppendCertsFromPEM C c = [x];
  gn_pem : c ≠ "";
  gn_bytes : Forall is_byte der;
  gn_size : (64 ≤ length der)%nat
}.

Lemma generateCert_generated C `{!CryptoLaws C} A c p :
  generateCert C A = Ret (c, p) → ∃ der x, generated C A c p der x.
Proof.
  intros (k & sn & der & kb & Hk & Hsn & Hder & Hc & Hkb & Hp)%generateCert_inv. simpl in Hder.
  exists der, (made_cert C A k sn). pose proof (law_parse _ _ _ Hder) as Hx.
  destruct (law_der _ _ _ Hder) as [Hb Hl].
  split; [by exists k, sn|by eapply law_keypair|done|by eapply law_append|by eapply law_pem|done|done].
Qed.

Lemma x509_time_bounds t : x509_time t ≤ t < x509_time t + Second.
Proof. unfold x509_time, Second. Z.to_euclidean_division_equations; lia. Qed.

(** A certificate made by [generateCert] is accepted by a peer that trusts it. *)
Lemma made_cert_verifies C A k sn usage now :
  ca_Now_before A - 30 * Second ≤ now → now < ca_Now_after A + 262980 * Hour - Second →
  let x := made_cert C A k sn in verify [x] usage (Some cert_host) now x = true.
Proof.
  intros Hb Ha x. unfold verify, valid_at, allows, chains_to. simpl.
  pose proof (x509_time_bounds (ca_Now_before A + -30 * Second)).
  pose proof (x509_time_bounds (ca_Now_after A + 262980 * Hour)).
  rewrite !bool_decide_eq_true_2; [done|..]; unfold Second in *; [|set_solver|destruct usage; set_solver|lia].
  done.
Qed.

(** Nothing else is: only what the trusted certificate's key signed. *)
Lemma verify_pinned r usage name now x :
  verify [r] usage name now x = true → x = r ∨ crt_SignedBy x = crt_PublicKey r.
Proof.
  unfold verify. intros [_ H]%andb_true_iff. simpl in H. rewrite orb_false_r in H.
  unfold chains_to in H. apply orb_true_iff in H as [H|[_ H]%andb_true_iff]; apply bool_decide_eq_true in H; auto.
Qed.

Lemma verify_no_roots usage name now x : verify [] usage name now x = false.
Proof. unfold verify. simpl. apply andb_false_r. Qed.

(** ** Properties *)

(** The certificates [generateCert] makes are good for automatic mTLS: a peer
    that trusts one accepts it as a server called localhost and as a client,
    from half a minute before it was made until thirty years later, and the
    arithmetic on its times stays within 64 bits. *)
Theorem generateCert_accepted C `{!CryptoLaws C} A c p :
  generateCert C A = Ret (c, p) →
  ∃ der x, X509KeyPair C c p = Ret der ∧ ParseCertificate C der = Ret x ∧ AppendCertsFromPEM C c = [x] ∧
    (∀ usage now, ca_Now_before A - 30 * Second ≤ now < ca_Now_after A + 262980 * Hour - Second →
       verify [x] usage (Some "localhost") now x = true) ∧
    (∀ usage name now y, verify [x] usage name now y = true → y = x ∨ crt_SignedBy y = crt_PublicKey x) ∧
    262980 * Hour < 2 ^ 63.
Proof.
  intros (der & x & [(k & sn & _ & _ & ->) Hkp Hpx Hpool _ _ _])%generateCert_generated; [|done].
  exists der, (made_cert C A k sn). split_and!; [done|done|done| | |done].
  - intros usage now [Hb Ha]. by apply made_cert_verifies.
  - intros usage name now y. apply verify_pinned.
Qed.

(** ** A concrete instance of the interface *)

#[export] Instance ExtKeyUsage_countable : Countable ExtKeyUsage.
Proof.
  refine (inj_countable' (λ u, match u with ExtKeyUsageServerAuth => true | ExtKeyUsageClientAuth => false end)
    (λ b, if b : bool then ExtKeyUsageServerAuth else ExtKeyUsageClientAuth) _). by intros [].
Defined.

#[export] Instance Cert_countable : Countable Cert.
Proof.
  refine (inj_countable'
    (λ x, let t := crt_template x in
      ((CommonName t, Organization t, DNSNames t, ExtKeyUsages t), (KeyUsage t, BasicConstraintsValid t),
       (SerialNumber t, NotBefore t, NotAfter t, IsCA t), (crt_PublicKey x, crt_SignedBy x)))
    (λ '((cn, org, dns, eku), (ku, bc), (sn, nb, na, ca), (pub, sig)),
      MkCert (MkTemplate cn org dns eku ku bc sn nb na ca) pub sig) _).
  by intros [[] ? ?].
Defined.

(** Certificates as their binary codes after a header, PEM as text, and the
    public half of a key as its successor. *)
Fixpoint code_bytes (p : positive) : list Z :=
  match p with xH => [] | xO p => 0 :: code_bytes p | xI p => 1 :: code_bytes p end.
Fixpoint bytes_code (bs : list Z) : positive :=
  match bs with [] => xH | b :: bs => if decide (b = 0) then xO (bytes_code bs) else xI (bytes_code bs) end.
Fixpoint bytes_text (bs : list Z) : string :=
  match bs with [] => "" | b :: bs => String (ascii_of_N (Z.to_N b)) (bytes_text bs) end.
Fixpoint text_bytes (s : string) : list Z :=
  match s with "" => [] | String a s => Z.of_N (N_of_ascii a) :: text_bytes s end%string.

Lemma code_bytes_code p : bytes_code (code_bytes p) = p.
Proof. induction p; simpl; congruence. Qed.

Definition toy_header : list Z := replicate 64 48.
Definition toy_der (x : Cert) : list Z := toy_header ++ code_bytes (encode x).
Definition toy_parse (der : list Z) : res error Cert :=
  match decode (bytes_code (drop 64 der)) with Some x => Ret x | None => Err (ErrExt "x509: malformed") end.
Definition toy_body (pem : string) : list Z := drop 1 (text_bytes pem).

Definition ToyCrypto : Crypto := MkCrypto Z.succ
  (λ t parent pub priv, Ret (toy_der (MkCert (encoded t) pub (Z.succ priv))))
  toy_parse
  (λ k, Ret [k mod 256])
  (λ typ bs, if decide (bs = []) then Err (ErrExt "pem: empty") else Ret (String "P" (bytes_text bs)))
  (λ c p, Ret (toy_body c))
  (λ c, match toy_parse (toy_body c) with Ret x => [x] | _ => [] end).

Lemma code_bytes_range p : Forall is_byte (code_bytes p).
Proof. induction p; constructor; [by unfold is_byte|done|by unfold is_byte|done]. Qed.

Lemma toy_der_bytes x : Forall is_byte (toy_der x).
Proof.
  apply Forall_app. split; [|apply code_bytes_range]. apply Forall_replicate. by unfold is_byte.
Qed.

Lemma text_bytes_text bs : Forall is_byte bs → text_bytes (bytes_text bs) = bs.
Proof.
  unfold is_byte. induction 1 as [|b bs Hb _ IH]; simpl; [done|]. rewrite IH, N_ascii_embedding by lia.
  by rewrite Z2N.id by lia.
Qed.

Lemma toy_body_text bs : Forall is_byte bs → toy_body (String "P" (bytes_text bs)) = bs.
Proof. intros Hb. unfold toy_body. simpl. by rewrite text_bytes_text, drop_0. Qed.

Lemma toy_parse_der x : toy_parse (toy_der x) = Ret x.
Proof.
  unfold toy_parse, toy_der, toy_header. rewrite drop_app_length' by (by rewrite length_replicate).
  by rewrite code_bytes_code, decode_encode.
Qed.

#[export] Instance ToyCrypto_laws : CryptoLaws ToyCrypto.
Proof.
  assert (∀ A (a b : A), Ret (E:=error) a = Ret b → a = b) as inj by (by intros ??? [= ->]).
  split; cbn [Public CreateCertificate ParseCertificate MarshalECPrivateKey pem_Encode X509KeyPair
    AppendCertsFromPEM ToyCrypto].
  - intros t k der [= <-]. apply toy_parse_der.
  - intros t k der [= <-]. split; [apply toy_der_bytes|]. unfold toy_der, toy_header.
    rewrite length_app, length_replicate. lia.
  - intros typ bs s. case_decide; [done|]. by intros [= <-].
  - intros t k der c kb p <-%inj. case_decide; [done|]. intros <-%inj _ _.
    by rewrite toy_body_text by apply toy_der_bytes.
  - intros der c x Hb. case_decide; [done|]. intros <-%inj Hx. by rewrite toy_body_text, Hx.
Qed.

Definition ex_cert_answers (key : Z) : CertAnswers :=
  MkCertAnswers (Ret key) (λ _, Ret 7) (1700000000 * Second) (1700000000 * Second).

Example generateCert_accepted_witness :
  ∃ c p x, generateCert ToyCrypto (ex_cert_answers 5) = Ret (c, p) ∧ AppendCertsFromPEM ToyCrypto c = [x] ∧
    verify [x] ExtKeyUsageServerAuth (Some "localhost") (1700000001 * Second) x = true.
Proof.
  destruct (generateCert ToyCrypto (ex_cert_answers 5)) as [[c p]| |] eqn:Hg; [|vm_compute in Hg; discriminate..].
  destruct (generateCert_accepted ToyCrypto (ex_cert_answers 5) c p Hg) as (der & x & _ & _ & Hp & Hv & _).
  exists c, p, x. split; [reflexivity|]. split; [exact Hp|]. apply Hv. vm_compute. split; congruence.
Defined.
