(* ===== verification/Config.v ===== *)
(** * Configuration data

    The configuration structures of client.go and server.go, the protocol
    names of protocol.go and the environment variable names of constants.go.
    A Go pointer, map, slice, function or interface that may be nil is an
    [option]; user-supplied functions are kept as the outcome they produce. *)

From S2P Require Import Prelude GoStd Mtls.

(** ** protocol.go, constants.go *)

Definition Protocol : Type := string.
Definition ProtocolInvalid : Protocol := "".
Definition ProtocolNetRPC : Protocol := "netrpc".
Definition ProtocolGRPC : Protocol := "grpc".

Definition EnvUnixSocketDir : string := "PLUGIN_UNIX_SOCKET_DIR".
Definition EnvUnixSocketGroup : string := "PLUGIN_UNIX_SOCKET_GROUP".
Definition envMultiplexGRPC : string := "PLUGIN_MULTIPLEX_GRPC".

(** [BrokerTimeout], [defaultPingTimeout], [defaultShutdownTimeout] in
    nanoseconds, as [time.Duration] counts. *)
Definition Second : Z := 1000000000.
Definition BrokerTimeout : Z := 5 * Second.
Definition defaultPingTimeout : Z := 10 * Second.
Definition defaultShutdownTimeout : Z := 2 * Second.
Definition defaultPluginLogBufferSize : Z := 64 * 1024.
Definition CoreProtocolVersion : Z := 1.

(** ** Plugins *)

(** A value of the [Plugin] interface: an identity, whether its dynamic type
    also implements [GRPCPlugin], and the errors its user-written methods
    return ([Server], [Client], [GRPCServer], [GRPCClient]). *)
Record Plugin : Type := MkPlugin {
  plugin_impl : string;
  is_GRPCPlugin : bool;
  Server_err : option error;
  Client_err : option error;
  GRPCServer_err : option error;
  GRPCClient_err : option error
}.

(** [type PluginSet map[string]Plugin]; [None] is the nil map. *)
Notation PluginSet := (option (gmap string Plugin)).

(** A Go map is iterated in an unspecified order: [range] picks one, and the
    only thing the code may rely on is that it visits every entry once. *)
Class MapRange (K : Type) `{Countable K} : Type := {
  range : ∀ {A : Type}, gmap K A → list (K * A);
  range_perm : ∀ {A : Type} (m : gmap K A), range m ≡ₚ map_to_list m
}.

#[export] Program Instance default_range `{Countable K} : MapRange K | 100 :=
  {| range A m := map_to_list m |}.
Next Obligation. done. Qed.

(** ** server.go *)

Record HandshakeConfig : Type := MkHandshake {
  ProtocolVersion : Z;
  MagicCookieKey : string;
  MagicCookieValue : string
}.

Record UnixSocketConfig : Type := MkUnixSocket {
  Group : string;
  TempDir : string;
  socketDir : string
}.

(** [net.Addr]. *)
Record Addr : Type := MkAddr { Network : string; Address : string }.
#[export] Instance Addr_eq_dec : EqDecision Addr.
Proof. solve_decision. Defined.

(** The parts of [tls.Config] the source sets: the certificate presented to
    the peer (its DER), whether a client must present one, the pools that verify
    the peer as a server and as a client (nil: those of the system), and the name
    expected of a server. *)
Record TLSConfig : Type := MkTLS {
  Certificate : list Z;
  RequireClientCert : bool;
  RootCAs : option (list Cert);
  ClientCAs : option (list Cert);
  ServerName : string
}.

(** The handshake of crypto/tls between a client and a server at the time
    [now]; [system] is the system's pool. *)
Definition tls_connect (C : Crypto) (system : list Cert) (now : Z) (client server : TLSConfig) : bool :=
  match ParseCertificate C (Certificate server), ParseCertificate C (Certificate client) with
  | Ret xs, Ret xc =>
      verify (default system (RootCAs client)) ExtKeyUsageServerAuth (Some (ServerName client)) now xs &&
      (negb (RequireClientCert server) ||
       verify (default system (ClientCAs server)) ExtKeyUsageClientAuth None now xc)
  | _, _ => false
  end.

(** [TLSProvider] is kept by its outcome, a configuration or an error; [GRPCServer]
    only by whether it is set; [Test] by the fields of [ServeTestConfig]. *)
Record ServeTestConfig : Type := MkServeTest {
  test_Context : bool;
  test_ReattachConfigCh : bool;
  test_CloseCh : bool;
  test_SyncStdio : bool
}.

Record ServeConfig : Type := MkServeConfig {
  srv_Handshake : HandshakeConfig;
  srv_TLSProvider : option (res error (option TLSConfig));
  srv_Plugins : PluginSet;
  srv_VersionedPlugins : option (gmap Z PluginSet);
  srv_GRPCServer : bool;
  srv_Test : option ServeTestConfig
}.

Definition set_srv_VersionedPlugins (c : ServeConfig) v : ServeConfig :=
  MkServeConfig (srv_Handshake c) (srv_TLSProvider c) (srv_Plugins c) v
    (srv_GRPCServer c) (srv_Test c).

(** ** Process environment *)

Notation environ := (gmap string string).
Definition Getenv (env : environ) (k : string) : string := default "" (env !! k).

Definition unixSocketConfigFromEnv (env : environ) : UnixSocketConfig :=
  {| Group := Getenv env EnvUnixSocketGroup;
     TempDir := "";
     socketDir := Getenv env EnvUnixSocketDir |}.
