(* ===== verification/Negotiate.v ===== *)
(** * Protocol version negotiation

    The two halves of the negotiation: [Client.Start] offers its versions in
    the environment variable PLUGIN_PROTOCOL_VERSIONS, [protocolVersion] of
    server.go picks one, and [Client.checkProtoVersion] validates the answer.
    The theorems show that both sides agree on the newest common version. *)

From S2P Require Import Prelude GoStd Config.

Definition comma : ascii := ascii_of_nat 44.

(** ** Server side: [protocolVersion] *)

(** The loop over the client's comma separated versions: an entry that is not
    an integer is reported on stderr and skipped. *)
Fixpoint parse_versions (parts : list string) : list string * list Z :=
  match parts with
  | [] => ([], [])
  | s :: parts' =>
      let '(msgs, vs) := parse_versions parts' in
      match Atoi s with
      | Ret v => (msgs, v :: vs)
      | _ => (("server sent invalid plugin version " +:+ s) :: msgs, vs)
      end
  end.

Definition clientVersions (env : environ) : list string * list Z :=
  let vs := Getenv env "PLUGIN_PROTOCOL_VERSIONS" in
  if decide (vs = "") then ([], []) else parse_versions (Split vs comma).

Section protocolVersion.
Context `{!MapRange string} `{!MapRange Z}.

(** The protocol of a plugin set is that of the plugin the iteration of the
    map visits first; an empty set leaves the previous value. *)
Definition plugin_transport (GRPCServer : bool) (pluginSet : PluginSet) (protoType : Protocol)
    : Protocol :=
  if GRPCServer then
    match head (range (default ∅ pluginSet)) with
    | Some (_, p) => if is_GRPCPlugin p then ProtocolGRPC else ProtocolNetRPC
    | None => protoType
    end
  else protoType.

(** The loop over the server's versions, newest first. *)
Fixpoint select_version (GRPCServer : bool) (VersionedPlugins : gmap Z PluginSet)
    (clientVersions : list Z) (versions : list Z) (cur : Z * Protocol * PluginSet)
    : Z * Protocol * PluginSet :=
  match versions with
  | [] => cur
  | version :: versions' =>
      let pluginSet := default None (VersionedPlugins !! version) in
      let protoType := plugin_transport GRPCServer pluginSet cur.1.2 in
      if bool_decide (version ∈ clientVersions) then (version, protoType, pluginSet)
      else select_version GRPCServer VersionedPlugins clientVersions versions'
             (version, protoType, pluginSet)
  end.

(** The versions the server offers: [opts.Plugins], when set, is stored under
    the handshake's [ProtocolVersion], replacing an entry that is there. *)
Definition server_versions (opts : ServeConfig) : gmap Z PluginSet :=
  let m := default ∅ (srv_VersionedPlugins opts) in
  match srv_Plugins opts with
  | Some ps => <[int_of_uint (ProtocolVersion (srv_Handshake opts)) := Some ps]> m
  | None => m
  end.

(** [protocolVersion(opts)]: what it writes to stderr, the configuration it
    leaves behind (it stores the merged map in [opts]) and its results. *)
Definition protocolVersion (env : environ) (opts : ServeConfig)
    : list string * ServeConfig * (Z * Protocol * PluginSet) :=
  let '(msgs, cvs) := clientVersions env in
  let m := server_versions opts in
  let versions := SortDescending (range m).*1 in
  (msgs, set_srv_VersionedPlugins opts (Some m),
   select_version (srv_GRPCServer opts) m (SortDescending cvs) versions
     (int_of_uint (ProtocolVersion (srv_Handshake opts)), ProtocolNetRPC, srv_Plugins opts)).
End protocolVersion.

(** ** Client side *)

Section client.
Context `{!MapRange Z}.

(** The version map of [Client.Start]: [Plugins], when set, is stored under
    the handshake's version unless that version is already there. *)
Definition client_versions (version : Z) (Plugins : PluginSet)
    (VersionedPlugins : option (gmap Z PluginSet)) : gmap Z PluginSet :=
  let m := default ∅ VersionedPlugins in
  match m !! version, Plugins with
  | None, Some ps => <[version := Some ps]> m
  | _, _ => m
  end.

(** The value of PLUGIN_PROTOCOL_VERSIONS that [Client.Start] exports. *)
Definition versions_env (m : gmap Z PluginSet) : string := Join (Itoa <$> (range m).*1) comma.

(** The loop of [checkProtoVersion] over the version map. *)
Fixpoint check_loop (serverVersion : Z) (l : list (Z * PluginSet)) (clientVersions : list Z)
    : res error (Z * PluginSet) :=
  match l with
  | [] => Err (Errorf
      "incompatible API version with plugin. Plugin version: %d, Client versions: %v"
      (Itoa serverVersion :: (Itoa <$> clientVersions)))
  | (version, plugins) :: l' =>
      if decide (serverVersion = version) then Ret (version, plugins)
      else check_loop serverVersion l' (clientVersions ++ [version])
  end.

Definition checkProtoVersion (m : gmap Z PluginSet) (protoVersion : string)
    : res error (Z * PluginSet) :=
  match Atoi protoVersion with
  | Ret serverVersion => check_loop serverVersion (range m) []
  | Err e => Err (Wrapf "error parsing protocol version %q: %w" [protoVersion] e)
  | Panic w => Panic w
  end.
End client.

(** ** Specification

    [common s c v]: version [v] is offered by both; [newest_common] is the
    abstract contract of the negotiation. *)

Definition common (s c : gmap Z PluginSet) (v : Z) : Prop := is_Some (s !! v) ∧ is_Some (c !! v).
Definition newest_common (s c : gmap Z PluginSet) (v : Z) : Prop :=
  common s c v ∧ ∀ v', common s c v' → v' ≤ v.

(** The keys of a Go [map[int]...] are 64-bit integers. *)
Definition int_keys (m : gmap Z PluginSet) : Prop := ∀ v ps, m !! v = Some ps → is_int v.

(** ** Lemmas *)

Lemma elem_of_range_fst `{!MapRange Z} {A} (m : gmap Z A) v :
  v ∈ (range m).*1 ↔ is_Some (m !! v).
Proof.
  rewrite range_perm, list_elem_of_fmap. split.
  - intros ([k x] & -> & Hin). apply elem_of_map_to_list in Hin. simpl. eauto.
  - intros [x Hx]. exists (v, x). by rewrite elem_of_map_to_list.
Qed.

Lemma parse_versions_Itoa (vs : list Z) :
  Forall is_int vs → parse_versions (Itoa <$> vs) = ([], vs).
Proof.
  induction 1 as [|v vs Hv Hvs IH]; [done|].
  rewrite fmap_cons. cbn [parse_versions]. by rewrite IH, Atoi_Itoa.
Qed.

Lemma Join_nonempty w ws c : w ≠ "" → Join (w :: ws) c ≠ "".
Proof. destruct ws; [done|]. by destruct w. Qed.

(** The server reads back exactly the versions the client wrote. *)
Lemma clientVersions_env `{!MapRange Z} (mc : gmap Z PluginSet) env :
  int_keys mc → Getenv env "PLUGIN_PROTOCOL_VERSIONS" = versions_env mc →
  clientVersions env = ([], (range mc).*1).
Proof.
  intros Hk Henv. unfold clientVersions. rewrite Henv. unfold versions_env.
  assert (Forall is_int (range mc).*1) as Hint.
  { apply Forall_forall. intros v [ps Hv]%elem_of_range_fst. eauto. }
  destruct ((range mc).*1) as [|v vs] eqn:Hr; [done|].
  rewrite decide_False by (apply Join_nonempty, Itoa_nonempty).
  rewrite Split_Join; [by apply parse_versions_Itoa|done|].
  apply Forall_fmap, Forall_true. intros z. by apply Itoa_no_char.
Qed.

Section select.
Context `{!MapRange string}.

(** The loop returns the first version of the list the client also offers. *)
Lemma select_version_found g m cvs pre v post cur :
  (∀ w, w ∈ pre → w ∉ cvs) → v ∈ cvs →
  ∃ pt, select_version g m cvs (pre ++ v :: post) cur =
    (v, plugin_transport g (default None (m !! v)) pt, default None (m !! v)).
Proof.
  intros Hpre Hv. revert cur. induction pre as [|w pre IH]; intros cur; simpl.
  - rewrite bool_decide_true by done. eauto.
  - rewrite bool_decide_false by (apply Hpre; left). apply IH. set_solver.
Qed.

(** When none is offered by the client, the last one is returned. *)
Lemma select_version_none g m cvs vs v cur :
  (∀ w, w ∈ vs ++ [v] → w ∉ cvs) →
  ∃ pt, select_version g m cvs (vs ++ [v]) cur =
    (v, plugin_transport g (default None (m !! v)) pt, default None (m !! v)).
Proof.
  revert cur. induction vs as [|w vs IH]; intros cur Hno; simpl.
  - rewrite bool_decide_false by (apply Hno; left). eauto.
  - rewrite bool_decide_false by (apply Hno; left). apply IH. set_solver.
Qed.
End select.

(** In a descending list, what precedes an element is at least as large. *)
Lemma sorted_split_before (xs : list Z) v :
  StronglySorted (flip Z.le) xs → v ∈ xs →
  ∃ pre post, xs = pre ++ v :: post ∧ (∀ w, w ∈ pre → v ≤ w ∧ w ≠ v).
Proof.
  induction 1 as [|x xs Hxs IH Hx]; [by intros ?%not_elem_of_nil|].
  intros Hin. destruct (decide (x = v)) as [->|Hne].
  - exists [], xs. split; [done|]. by intros ? ?%not_elem_of_nil.
  - apply elem_of_cons in Hin as [?|Hin]; [congruence|].
    destruct (IH Hin) as (pre & post & -> & Hpre). exists (x :: pre), post. split; [done|].
    intros w [->|Hw]%elem_of_cons; [|auto]. split; [|done].
    rewrite Forall_forall in Hx. apply Hx. set_solver.
Qed.

Lemma sorted_last_least (xs : list Z) v :
  StronglySorted (flip Z.le) (xs ++ [v]) → ∀ w, w ∈ xs ++ [v] → v ≤ w.
Proof.
  induction xs as [|x xs IH]; simpl; intros Hs w Hw.
  - apply list_elem_of_singleton in Hw. lia.
  - apply StronglySorted_inv in Hs as [Hs Hx].
    apply elem_of_cons in Hw as [->|Hw]; [|by apply IH].
    rewrite Forall_forall in Hx. apply Hx. set_solver.
Qed.

(** All plugins of a set use the same transport, as [protocolVersion] assumes. *)
Definition homogeneous (ps : PluginSet) : Prop :=
  ∀ k1 p1 k2 p2, default ∅ ps !! k1 = Some p1 → default ∅ ps !! k2 = Some p2 →
    is_GRPCPlugin p1 = is_GRPCPlugin p2.

Lemma range_head `{!MapRange string} {A} (m : gmap string A) k x :
  head (range m) = Some (k, x) → m !! k = Some x.
Proof.
  intros Hh. rewrite <- elem_of_map_to_list, <- range_perm.
  destruct (range m); simplify_eq/=. left.
Qed.

Lemma range_head_None `{!MapRange string} {A} (m : gmap string A) :
  head (range m) = None → m = ∅.
Proof.
  intros Hh. destruct (range m) as [|[]] eqn:Hr; [|done].
  apply map_to_list_empty_iff. apply Permutation_nil_r. by rewrite <- Hr, range_perm.
Qed.

Lemma plugin_transport_homogeneous `{!MapRange string} ps pt k p :
  homogeneous ps → default ∅ ps !! k = Some p →
  plugin_transport true ps pt = if is_GRPCPlugin p then ProtocolGRPC else ProtocolNetRPC.
Proof.
  intros Hh Hp. unfold plugin_transport. destruct (head _) as [[k' p']|] eqn:Hr.
  - apply range_head in Hr. by rewrite (Hh k' p' k p).
  - apply range_head_None in Hr. rewrite Hr in Hp. by rewrite lookup_empty in Hp.
Qed.

(** Two iteration orders give the same protocol on a homogeneous set. *)
Lemma plugin_transport_irrelevant (r1 r2 : MapRange string) g ps pt :
  homogeneous ps → @plugin_transport r1 g ps pt = @plugin_transport r2 g ps pt.
Proof.
  intros Hh. destruct g; [|done].
  destruct (map_eq_dec_empty (default ∅ ps : gmap string Plugin)) as [He|Hne].
  - unfold plugin_transport. rewrite He.
    destruct (head (@range _ _ _ r1 _ _)) as [[k p]|] eqn:H1;
      [by apply range_head in H1; rewrite lookup_empty in H1|].
    destruct (head (@range _ _ _ r2 _ _)) as [[k p]|] eqn:H2;
      [by apply range_head in H2; rewrite lookup_empty in H2|done].
  - apply map_choose in Hne as (k & p & Hp).
    by rewrite !(@plugin_transport_homogeneous _ ps _ k p).
Qed.

Lemma select_version_irrelevant (r1 r2 : MapRange string) g m cvs vs cur :
  (∀ v ps, m !! v = Some ps → homogeneous ps) →
  @select_version r1 g m cvs vs cur = @select_version r2 g m cvs vs cur.
Proof.
  intros Hh. revert cur. induction vs as [|v vs IH]; intros cur; simpl; [done|].
  assert (homogeneous (default None (m !! v))) as Hv.
  { destruct (m !! v) as [ps|] eqn:?; simpl; [eauto|].
    intros k1 p1 k2 p2. simpl. by rewrite lookup_empty. }
  rewrite (plugin_transport_irrelevant r1 r2) by done. by rewrite IH.
Qed.

Lemma range_keys_proper (r1 r2 : MapRange Z) {A} (m : gmap Z A) :
  (@range _ _ _ r1 _ m).*1 ≡ₚ (@range _ _ _ r2 _ m).*1.
Proof. by rewrite !range_perm. Qed.

(** The server's pick, for a client whose versions are the keys of [mc]. *)
Lemma protocolVersion_common `{!MapRange string} `{!MapRange Z} env opts mc v :
  int_keys mc → Getenv env "PLUGIN_PROTOCOL_VERSIONS" = versions_env mc →
  newest_common (server_versions opts) mc v →
  ∃ pt, (protocolVersion env opts).2 =
    (v, plugin_transport (srv_GRPCServer opts) (default None (server_versions opts !! v)) pt,
     default None (server_versions opts !! v)).
Proof.
  intros Hk Henv [[Hs Hc] Hmax]. unfold protocolVersion.
  rewrite (clientVersions_env mc) by done. simpl.
  destruct (sorted_split_before (SortDescending (range (server_versions opts)).*1) v)
    as (pre & post & Heq & Hpre).
  - apply SortDescending_sorted.
  - by apply elem_of_SortDescending, elem_of_range_fst.
  - rewrite Heq. apply select_version_found.
    + intros w Hw Hwc. destruct (Hpre w Hw) as [Hle Hne]. apply Hne.
      apply Z.le_antisymm; [|done]. apply Hmax. split.
      * apply elem_of_range_fst. apply elem_of_SortDescending. rewrite Heq. set_solver.
      * by apply elem_of_range_fst, elem_of_SortDescending.
    + by apply elem_of_SortDescending, elem_of_range_fst.
Qed.

(** The server's pick when nothing is common: its oldest version. *)
Lemma protocolVersion_fallback `{!MapRange string} `{!MapRange Z} env opts mc :
  int_keys mc → Getenv env "PLUGIN_PROTOCOL_VERSIONS" = versions_env mc →
  (∀ v, ¬ common (server_versions opts) mc v) → server_versions opts ≠ ∅ →
  ∃ v pt, (protocolVersion env opts).2 =
    (v, plugin_transport (srv_GRPCServer opts) (default None (server_versions opts !! v)) pt,
     default None (server_versions opts !! v)) ∧
    is_Some (server_versions opts !! v) ∧
    (∀ w, is_Some (server_versions opts !! w) → v ≤ w).
Proof.
  intros Hk Henv Hno Hne. unfold protocolVersion.
  rewrite (clientVersions_env mc) by done. simpl.
  pose proof (SortDescending_sorted (range (server_versions opts)).*1) as Hsorted.
  pose proof (λ w, elem_of_SortDescending w (range (server_versions opts)).*1) as Hin.
  setoid_rewrite elem_of_range_fst in Hin.
  destruct (SortDescending (range (server_versions opts)).*1) as [|v vs _] eqn:Heq using rev_ind.
  - exfalso. apply map_choose in Hne as (w & ps & Hw).
    by apply (not_elem_of_nil w), Hin; eauto.
  - destruct (select_version_none (srv_GRPCServer opts) (server_versions opts)
      (SortDescending (range mc).*1) vs v
      (int_of_uint (ProtocolVersion (srv_Handshake opts)), ProtocolNetRPC, srv_Plugins opts))
      as [pt Hpt].
    { intros w Hw Hwc. apply (Hno w). split; [by apply Hin|].
      by apply elem_of_range_fst, elem_of_SortDescending. }
    exists v, pt. split; [done|]. split; [apply Hin; set_solver|].
    intros w Hw%Hin. by eapply sorted_last_least.
Qed.

Lemma check_loop_found v (l : list (Z * PluginSet)) seen :
  v ∈ l.*1 → NoDup l.*1 →
  ∃ ps, (v, ps) ∈ l ∧ check_loop v l seen = Ret (v, ps).
Proof.
  revert seen. induction l as [|[w ps] l IH]; intros seen; simpl; [by intros ?%not_elem_of_nil|].
  intros Hin [Hnw Hnd]%NoDup_cons. case_decide as Hv.
  - subst. exists ps. split; [left|done].
  - apply elem_of_cons in Hin as [?|Hin]; [done|].
    destruct (IH (seen ++ [w]) Hin Hnd) as (ps' & ? & ->). exists ps'. split; [by right|done].
Qed.

Lemma check_loop_missing v (l : list (Z * PluginSet)) seen :
  v ∉ l.*1 → ∃ args, check_loop v l seen = Err (Errorf
    "incompatible API version with plugin. Plugin version: %d, Client versions: %v" args).
Proof.
  revert seen. induction l as [|[w ps] l IH]; intros seen; simpl; [by eauto|].
  rewrite not_elem_of_cons. intros [Hne Hin]. rewrite decide_False by done. by apply IH.
Qed.

Lemma check_loop_Ret v (l : list (Z * PluginSet)) seen v' ps :
  check_loop v l seen = Ret (v', ps) → v' = v ∧ (v, ps) ∈ l.
Proof.
  revert seen. induction l as [|[w ps'] l IH]; intros seen; simpl; [done|].
  case_decide as Hv; [intros [= <- <-]; subst; split; [done|left]|].
  intros [-> Hin]%IH. split; [done|by right].
Qed.

(** An accepted version is one of the client's, with the client's plugins. *)
Lemma checkProtoVersion_Ret `{!MapRange Z} (m : gmap Z PluginSet) s v ps :
  checkProtoVersion m s = Ret (v, ps) → Atoi s = Ret v ∧ m !! v = Some ps.
Proof.
  unfold checkProtoVersion. destruct (Atoi s) as [sv| |]; [|done..].
  intros [-> Hin]%check_loop_Ret. split; [done|].
  by rewrite range_perm, elem_of_map_to_list in Hin.
Qed.

Lemma checkProtoVersion_Itoa `{!MapRange Z} (m : gmap Z PluginSet) v ps :
  is_int v → m !! v = Some ps → checkProtoVersion m (Itoa v) = Ret (v, ps).
Proof.
  intros Hi Hm. unfold checkProtoVersion. rewrite Atoi_Itoa by done.
  destruct (check_loop_found v (range m) []) as (ps' & Hin & ->).
  - by apply elem_of_range_fst.
  - rewrite range_perm. apply NoDup_fst_map_to_list.
  - rewrite range_perm, elem_of_map_to_list in Hin. by simplify_eq.
Qed.

Lemma checkProtoVersion_Itoa_missing `{!MapRange Z} (m : gmap Z PluginSet) v :
  is_int v → m !! v = None → ∃ args, checkProtoVersion m (Itoa v) = Err (Errorf
    "incompatible API version with plugin. Plugin version: %d, Client versions: %v" args).
Proof.
  intros Hi Hm. unfold checkProtoVersion. rewrite Atoi_Itoa by done.
  apply check_loop_missing. rewrite elem_of_range_fst. rewrite Hm. by intros [? ?].
Qed.

(** ** Properties *)

(** C2: when the client and the server share a protocol version, the server
    picks the newest common one with its own plugin set for it, and the client
    accepts the answer and selects its own plugin set of the same version. *)
Theorem negotiation_newest_common `{!MapRange string} `{!MapRange Z} env opts mc v :
  int_keys mc → Getenv env "PLUGIN_PROTOCOL_VERSIONS" = versions_env mc →
  newest_common (server_versions opts) mc v →
  ∃ pt psc, (protocolVersion env opts).2 = (v, pt, default None (server_versions opts !! v)) ∧
    mc !! v = Some psc ∧ checkProtoVersion mc (Itoa v) = Ret (v, psc).
Proof.
  intros Hk Henv Hnew. destruct (protocolVersion_common env opts mc v Hk Henv Hnew) as [pt Hpt].
  destruct Hnew as [[_ [psc Hc]] _]. eexists _, psc. split_and!; [done..|].
  apply checkProtoVersion_Itoa; eauto.
Qed.

(** C15: when they share no version, the server still answers, with its oldest
    version, and the client rejects the answer as an incompatible API version. *)
Theorem negotiation_incompatible `{!MapRange string} `{!MapRange Z} env opts mc :
  int_keys mc → int_keys (server_versions opts) →
  Getenv env "PLUGIN_PROTOCOL_VERSIONS" = versions_env mc →
  (∀ v, ¬ common (server_versions opts) mc v) → server_versions opts ≠ ∅ →
  ∃ v pt args, (protocolVersion env opts).2 =
      (v, pt, default None (server_versions opts !! v)) ∧
    (∀ w, is_Some (server_versions opts !! w) → v ≤ w) ∧
    checkProtoVersion mc (Itoa v) = Err (Errorf
      "incompatible API version with plugin. Plugin version: %d, Client versions: %v" args).
Proof.
  intros Hk Hks Henv Hno Hne.
  destruct (protocolVersion_fallback env opts mc Hk Henv Hno Hne) as (v & pt & Hpt & [ps Hv] & Hmin).
  destruct (checkProtoVersion_Itoa_missing mc v) as [args Hargs]; [eauto| |].
  { destruct (mc !! v) as [psc|] eqn:Hmc; [|done]. exfalso. apply (Hno v). split; eauto. }
  eexists v, _, args. done.
Qed.

(** C16: when every plugin set of the server uses one transport, the outcome of
    the negotiation (messages, configuration, version, protocol, plugin set)
    does not depend on the order in which Go iterates over the maps. *)
Theorem negotiation_order_irrelevant (r1 r2 : MapRange string) (q1 q2 : MapRange Z) env opts :
  (∀ v ps, server_versions opts !! v = Some ps → homogeneous ps) →
  @protocolVersion r1 q1 env opts = @protocolVersion r2 q2 env opts.
Proof.
  intros Hh. unfold protocolVersion. destruct (clientVersions env) as [msgs cvs].
  rewrite (SortDescending_proper _ _ (range_keys_proper q1 q2 (server_versions opts))).
  by rewrite (select_version_irrelevant r1 r2).
Qed.

(** With a gRPC server configured, the transport of the negotiated version
    is gRPC exactly when its plugins implement [GRPCPlugin]. *)
Theorem negotiation_transport `{!MapRange string} `{!MapRange Z} env opts mc v ps k p :
  int_keys mc → Getenv env "PLUGIN_PROTOCOL_VERSIONS" = versions_env mc →
  newest_common (server_versions opts) mc v →
  srv_GRPCServer opts = true → server_versions opts !! v = Some ps →
  homogeneous ps → default ∅ ps !! k = Some p →
  (protocolVersion env opts).2.1.2 =
    if is_GRPCPlugin p then ProtocolGRPC else ProtocolNetRPC.
Proof.
  intros Hk Henv Hnew Hg Hps Hh Hp.
  destruct (protocolVersion_common env opts mc v Hk Henv Hnew) as [pt ->].
  cbn [fst snd]. rewrite Hg, Hps. by erewrite plugin_transport_homogeneous.
Qed.

(** ** Concrete instances *)

Definition ex_plugin (grpc : bool) : Plugin :=
  MkPlugin "kv" grpc None None None None.
Definition ex_set (grpc : bool) : PluginSet := Some {[ "kv" := ex_plugin grpc ]}.

(** A server with versions 1 to 3 (the first two over net/rpc) and clients
    with versions 2, 3 and 7, or 7 only. *)
Definition ex_serve : ServeConfig :=
  MkServeConfig (MkHandshake 1 "KEY" "VALUE") None (ex_set false)
    (Some {[ 2 := ex_set false; 3 := ex_set true ]}) true None.
Definition ex_client_versions : gmap Z PluginSet :=
  {[ 2 := ex_set false; 3 := ex_set true; 7 := ex_set true ]}.
Definition ex_client_only7 : gmap Z PluginSet := {[ 7 := ex_set true ]}.
Definition ex_env (mc : gmap Z PluginSet) : environ :=
  {[ "PLUGIN_PROTOCOL_VERSIONS" := versions_env mc ]}.

Ltac solve_int_keys :=
  intros ? ? ?; repeat match goal with
  | H : <[_ := _]> _ !! _ = Some _ |- _ => apply lookup_insert_Some in H as [[<- _]|[_ H]]
  | H : {[_ := _]} !! _ = Some _ |- _ => apply lookup_singleton_Some in H as [<- _]
  end; split; vm_compute; congruence.

Lemma ex_client_int_keys : int_keys ex_client_versions.
Proof. unfold ex_client_versions. solve_int_keys. Qed.

Lemma ex_newest_common : newest_common (server_versions ex_serve) ex_client_versions 3.
Proof.
  split; [split; eexists; reflexivity|]. intros v' [[ps Hs] _].
  cbn in Hs.
  repeat (apply lookup_insert_Some in Hs as [[<- _]|[_ Hs]]; [vm_compute; discriminate|]).
  apply lookup_singleton_Some in Hs as [<- _]. lia.
Qed.

Example negotiation_newest_common_witness :
  ∃ pt psc, (protocolVersion (ex_env ex_client_versions) ex_serve).2 =
      (3, pt, default None (server_versions ex_serve !! 3)) ∧
    ex_client_versions !! 3 = Some psc ∧ checkProtoVersion ex_client_versions (Itoa 3) = Ret (3, psc).
Proof.
  apply (negotiation_newest_common (ex_env ex_client_versions) ex_serve ex_client_versions 3).
  - exact ex_client_int_keys.
  - vm_compute. reflexivity.
  - exact ex_newest_common.
Defined.

Example negotiation_incompatible_witness :
  ∃ v pt args, (protocolVersion (ex_env ex_client_only7) ex_serve).2 =
      (v, pt, default None (server_versions ex_serve !! v)) ∧
    (∀ w, is_Some (server_versions ex_serve !! w) → v ≤ w) ∧
    checkProtoVersion ex_client_only7 (Itoa v) = Err (Errorf
      "incompatible API version with plugin. Plugin version: %d, Client versions: %v" args).
Proof.
  apply (negotiation_incompatible (ex_env ex_client_only7) ex_serve ex_client_only7).
  - unfold ex_client_only7. solve_int_keys.
  - unfold server_versions; cbn. solve_int_keys.
  - vm_compute. reflexivity.
  - intros v [[ps Hs] [ps' Hc]]. unfold ex_client_only7 in Hc. apply lookup_singleton_Some in Hc as [<- _].
    vm_compute in Hs. discriminate.
  - vm_compute. discriminate.
Defined.

Lemma ex_homogeneous v ps : server_versions ex_serve !! v = Some ps → homogeneous ps.
Proof.
  intros Hs. cbn in Hs.
  assert (∃ g, ps = ex_set g) as [g ->].
  { repeat (apply lookup_insert_Some in Hs as [[_ <-]|[_ Hs]]; [eauto|]).
    apply lookup_singleton_Some in Hs as [_ <-]. eauto. }
  intros k1 p1 k2 p2. unfold ex_set. simpl. intros [_ <-]%lookup_singleton_Some [_ <-]%lookup_singleton_Some. done.
Qed.

(** The reverse of the default iteration order. *)
#[local] Program Definition reverse_range `{Countable K} : MapRange K :=
  {| range A m := reverse (map_to_list m) |}.
Next Obligation. intros. apply reverse_Permutation. Qed.

Example negotiation_order_irrelevant_witness :
  @protocolVersion reverse_range reverse_range (ex_env ex_client_versions) ex_serve =
  @protocolVersion default_range default_range (ex_env ex_client_versions) ex_serve.
Proof. apply negotiation_order_irrelevant. exact ex_homogeneous. Defined.

Example negotiation_transport_witness :
  (protocolVersion (ex_env ex_client_versions) ex_serve).2.1.2 = ProtocolGRPC.
Proof.
  apply (negotiation_transport (ex_env ex_client_versions) ex_serve ex_client_versions 3
    (ex_set true) "kv" (ex_plugin true)).
  - exact ex_client_int_keys.
  - vm_compute. reflexivity.
  - exact ex_newest_common.
  - reflexivity.
  - reflexivity.
  - apply (ex_homogeneous 3). reflexivity.
  - reflexivity.
Defined.
