(* ===== verification/ClientData.v ===== *)
(** * The client's data

    [ClientConfig], [ReattachConfig], [SecureConfig] and [Client] of client.go,
    and the runner interfaces of runner/runner.go as records of the outcomes
    of their methods. *)

From S2P Require Import Prelude GoStd Config.

(** ** runner/runner.go *)

(** A [runner.Runner] (or [runner.AttachedRunner]): its identifier and name,
    the results of starting and killing the plugin, its diagnosis and the two
    address translations. *)
Record Runner : Type := MkRunner {
  runner_ID : string;
  runner_Name : string;
  runner_Start : option error;
  runner_Kill : option error;
  runner_Diagnose : string;
  PluginToHost : string → string → res error (string * string);
  HostToPlugin : string → string → res error (string * string)
}.

(** ** client.go *)

(** An unstarted (or, with a process, started) [exec.Cmd]. *)
Record Cmd : Type := MkCmd {
  cmd_Path : string;
  cmd_Env : list string;
  cmd_Process : option Z
}.

(** [hash.Hash] is stateful: it digests everything written to it so far. *)
Record Hash : Type := MkHash {
  hash_sum : list Z → list Z;
  hash_written : list Z
}.

Record SecureConfig : Type := MkSecure {
  Checksum : list Z;
  secure_Hash : option Hash
}.

(** [ReattachFunc], when set, is kept by its outcome. *)
Record ReattachConfig : Type := MkReattach {
  ra_Protocol : Protocol;
  ra_ProtocolVersion : Z;
  ra_Addr : option Addr;
  ra_Pid : Z;
  ra_ReattachFunc : option (res error Runner);
  ra_Test : bool
}.

(** Writers and loggers are names; [None] is nil. *)
Definition Discard : string := "io.Discard".
Definition default_logger : string := "hclog:plugin:trace".

Record ClientConfig : Type := MkClientConfig {
  cfg_Handshake : HandshakeConfig;
  cfg_Plugins : PluginSet;
  cfg_VersionedPlugins : option (gmap Z PluginSet);
  cfg_Cmd : option Cmd;
  cfg_Reattach : option ReattachConfig;
  cfg_RunnerFunc : option (res error Runner);
  cfg_SecureConfig : option SecureConfig;
  cfg_TLSConfig : option TLSConfig;
  cfg_Managed : bool;
  cfg_MinPort : Z;
  cfg_MaxPort : Z;
  cfg_StartTimeout : Z;
  cfg_Stderr : option string;
  cfg_SyncStdout : option string;
  cfg_SyncStderr : option string;
  cfg_AllowedProtocols : option (list Protocol);
  cfg_Logger : option string;
  cfg_PluginLogBufferSize : Z;
  cfg_AutoMTLS : bool;
  cfg_GRPCBrokerMultiplex : bool;
  cfg_SkipHostEnv : bool;
  cfg_UnixSocketConfig : option UnixSocketConfig;
  cfg_PingTimeout : Z;
  cfg_ShutdownTimeout : Z;
  cfg_DisableProcessGroupKill : bool
}.

(** The protocol client the [Client] caches: which transport it talks. *)
Inductive ClientProtocol : Type :=
| NetRPCClient (plugins : PluginSet)
| GRPCClient (plugins : PluginSet) (muxed : bool).

(** [grpcMuxerOnce], [grpcMuxer] and [grpcMuxerErr] together: not attempted,
    created, or failed with the cached error. *)
Inductive MuxerState : Type :=
| MuxerUnset
| MuxerReady
| MuxerFailed (e : error).

(** [killBodyRuns] counts the executions of the kill body; [killOnce] is the
    [sync.Once] that guards it. *)
Record Client : Type := MkClient {
  config : ClientConfig;
  exited : bool;
  address : option Addr;
  runner : option Runner;
  client : option ClientProtocol;
  protocol : Protocol;
  doneCtx : bool;
  negotiatedVersion : Z;
  processKilled : bool;
  killOnce : bool;
  killBodyRuns : Z;
  unixSocketCfg : UnixSocketConfig;
  grpcMuxer : MuxerState
}.

(** ** Field assignments *)

Definition set_cfg_Plugins (v : PluginSet) (c : ClientConfig) : ClientConfig :=
    MkClientConfig (cfg_Handshake c) v (cfg_VersionedPlugins c) (cfg_Cmd c) (cfg_Reattach c)
    (cfg_RunnerFunc c) (cfg_SecureConfig c) (cfg_TLSConfig c) (cfg_Managed c) (cfg_MinPort c)
    (cfg_MaxPort c) (cfg_StartTimeout c) (cfg_Stderr c) (cfg_SyncStdout c) (cfg_SyncStderr c)
    (cfg_AllowedProtocols c) (cfg_Logger c) (cfg_PluginLogBufferSize c) (cfg_AutoMTLS c)
    (cfg_GRPCBrokerMultiplex c) (cfg_SkipHostEnv c) (cfg_UnixSocketConfig c) (cfg_PingTimeout c)
    (cfg_ShutdownTimeout c) (cfg_DisableProcessGroupKill c).
Definition set_cfg_VersionedPlugins (v : option (gmap Z PluginSet)) (c : ClientConfig) :
    ClientConfig :=
    MkClientConfig (cfg_Handshake c) (cfg_Plugins c) v (cfg_Cmd c) (cfg_Reattach c)
    (cfg_RunnerFunc c) (cfg_SecureConfig c) (cfg_TLSConfig c) (cfg_Managed c) (cfg_MinPort c)
    (cfg_MaxPort c) (cfg_StartTimeout c) (cfg_Stderr c) (cfg_SyncStdout c) (cfg_SyncStderr c)
    (cfg_AllowedProtocols c) (cfg_Logger c) (cfg_PluginLogBufferSize c) (cfg_AutoMTLS c)
    (cfg_GRPCBrokerMultiplex c) (cfg_SkipHostEnv c) (cfg_UnixSocketConfig c) (cfg_PingTimeout c)
    (cfg_ShutdownTimeout c) (cfg_DisableProcessGroupKill c).
Definition set_cfg_Cmd (v : option Cmd) (c : ClientConfig) : ClientConfig :=
    MkClientConfig (cfg_Handshake c) (cfg_Plugins c) (cfg_VersionedPlugins c) v (cfg_Reattach c)
    (cfg_RunnerFunc c) (cfg_SecureConfig c) (cfg_TLSConfig c) (cfg_Managed c) (cfg_MinPort c)
    (cfg_MaxPort c) (cfg_StartTimeout c) (cfg_Stderr c) (cfg_SyncStdout c) (cfg_SyncStderr c)
    (cfg_AllowedProtocols c) (cfg_Logger c) (cfg_PluginLogBufferSize c) (cfg_AutoMTLS c)
    (cfg_GRPCBrokerMultiplex c) (cfg_SkipHostEnv c) (cfg_UnixSocketConfig c) (cfg_PingTimeout c)
    (cfg_ShutdownTimeout c) (cfg_DisableProcessGroupKill c).
Definition set_cfg_SecureConfig (v : option SecureConfig) (c : ClientConfig) : ClientConfig :=
    MkClientConfig (cfg_Handshake c) (cfg_Plugins c) (cfg_VersionedPlugins c) (cfg_Cmd c)
    (cfg_Reattach c) (cfg_RunnerFunc c) v (cfg_TLSConfig c) (cfg_Managed c) (cfg_MinPort c)
    (cfg_MaxPort c) (cfg_StartTimeout c) (cfg_Stderr c) (cfg_SyncStdout c) (cfg_SyncStderr c)
    (cfg_AllowedProtocols c) (cfg_Logger c) (cfg_PluginLogBufferSize c) (cfg_AutoMTLS c)
    (cfg_GRPCBrokerMultiplex c) (cfg_SkipHostEnv c) (cfg_UnixSocketConfig c) (cfg_PingTimeout c)
    (cfg_ShutdownTimeout c) (cfg_DisableProcessGroupKill c).
Definition set_cfg_TLSConfig (v : option TLSConfig) (c : ClientConfig) : ClientConfig :=
    MkClientConfig (cfg_Handshake c) (cfg_Plugins c) (cfg_VersionedPlugins c) (cfg_Cmd c)
    (cfg_Reattach c) (cfg_RunnerFunc c) (cfg_SecureConfig c) v (cfg_Managed c) (cfg_MinPort c)
    (cfg_MaxPort c) (cfg_StartTimeout c) (cfg_Stderr c) (cfg_SyncStdout c) (cfg_SyncStderr c)
    (cfg_AllowedProtocols c) (cfg_Logger c) (cfg_PluginLogBufferSize c) (cfg_AutoMTLS c)
    (cfg_GRPCBrokerMultiplex c) (cfg_SkipHostEnv c) (cfg_UnixSocketConfig c) (cfg_PingTimeout c)
    (cfg_ShutdownTimeout c) (cfg_DisableProcessGroupKill c).
Definition set_cfg_MinPort (v : Z) (c : ClientConfig) : ClientConfig :=
    MkClientConfig (cfg_Handshake c) (cfg_Plugins c) (cfg_VersionedPlugins c) (cfg_Cmd c)
    (cfg_Reattach c) (cfg_RunnerFunc c) (cfg_SecureConfig c) (cfg_TLSConfig c) (cfg_Managed c) v
    (cfg_MaxPort c) (cfg_StartTimeout c) (cfg_Stderr c) (cfg_SyncStdout c) (cfg_SyncStderr c)
    (cfg_AllowedProtocols c) (cfg_Logger c) (cfg_PluginLogBufferSize c) (cfg_AutoMTLS c)
    (cfg_GRPCBrokerMultiplex c) (cfg_SkipHostEnv c) (cfg_UnixSocketConfig c) (cfg_PingTimeout c)
    (cfg_ShutdownTimeout c) (cfg_DisableProcessGroupKill c).
Definition set_cfg_MaxPort (v : Z) (c : ClientConfig) : ClientConfig :=
    MkClientConfig (cfg_Handshake c) (cfg_Plugins c) (cfg_VersionedPlugins c) (cfg_Cmd c)
    (cfg_Reattach c) (cfg_RunnerFunc c) (cfg_SecureConfig c) (cfg_TLSConfig c) (cfg_Managed c)
    (cfg_MinPort c) v (cfg_StartTimeout c) (cfg_Stderr c) (cfg_SyncStdout c) (cfg_SyncStderr c)
    (cfg_AllowedProtocols c) (cfg_Logger c) (cfg_PluginLogBufferSize c) (cfg_AutoMTLS c)
    (cfg_GRPCBrokerMultiplex c) (cfg_SkipHostEnv c) (cfg_UnixSocketConfig c) (cfg_PingTimeout c)
    (cfg_ShutdownTimeout c) (cfg_DisableProcessGroupKill c).
Definition set_cfg_StartTimeout (v : Z) (c : ClientConfig) : ClientConfig :=
    MkClientConfig (cfg_Handshake c) (cfg_Plugins c) (cfg_VersionedPlugins c) (cfg_Cmd c)
    (cfg_Reattach c) (cfg_RunnerFunc c) (cfg_SecureConfig c) (cfg_TLSConfig c) (cfg_Managed c)
    (cfg_MinPort c) (cfg_MaxPort c) v (cfg_Stderr c) (cfg_SyncStdout c) (cfg_SyncStderr c)
    (cfg_AllowedProtocols c) (cfg_Logger c) (cfg_PluginLogBufferSize c) (cfg_AutoMTLS c)
    (cfg_GRPCBrokerMultiplex c) (cfg_SkipHostEnv c) (cfg_UnixSocketConfig c) (cfg_PingTimeout c)
    (cfg_ShutdownTimeout c) (cfg_DisableProcessGroupKill c).
Definition set_cfg_Stderr (v : option string) (c : ClientConfig) : ClientConfig :=
    MkClientConfig (cfg_Handshake c) (cfg_Plugins c) (cfg_VersionedPlugins c) (cfg_Cmd c)
    (cfg_Reattach c) (cfg_RunnerFunc c) (cfg_SecureConfig c) (cfg_TLSConfig c) (cfg_Managed c)
    (cfg_MinPort c) (cfg_MaxPort c) (cfg_StartTimeout c) v (cfg_SyncStdout c) (cfg_SyncStderr c)
    (cfg_AllowedProtocols c) (cfg_Logger c) (cfg_PluginLogBufferSize c) (cfg_AutoMTLS c)
    (cfg_GRPCBrokerMultiplex c) (cfg_SkipHostEnv c) (cfg_UnixSocketConfig c) (cfg_PingTimeout c)
    (cfg_ShutdownTimeout c) (cfg_DisableProcessGroupKill c).
Definition set_cfg_SyncStdout (v : option string) (c : ClientConfig) : ClientConfig :=
    MkClientConfig (cfg_Handshake c) (cfg_Plugins c) (cfg_VersionedPlugins c) (cfg_Cmd c)
    (cfg_Reattach c) (cfg_RunnerFunc c) (cfg_SecureConfig c) (cfg_TLSConfig c) (cfg_Managed c)
    (cfg_MinPort c) (cfg_MaxPort c) (cfg_StartTimeout c) (cfg_Stderr c) v (cfg_SyncStderr c)
    (cfg_AllowedProtocols c) (cfg_Logger c) (cfg_PluginLogBufferSize c) (cfg_AutoMTLS c)
    (cfg_GRPCBrokerMultiplex c) (cfg_SkipHostEnv c) (cfg_UnixSocketConfig c) (cfg_PingTimeout c)
    (cfg_ShutdownTimeout c) (cfg_DisableProcessGroupKill c).
Definition set_cfg_SyncStderr (v : option string) (c : ClientConfig) : ClientConfig :=
    MkClientConfig (cfg_Handshake c) (cfg_Plugins c) (cfg_VersionedPlugins c) (cfg_Cmd c)
    (cfg_Reattach c) (cfg_RunnerFunc c) (cfg_SecureConfig c) (cfg_TLSConfig c) (cfg_Managed c)
    (cfg_MinPort c) (cfg_MaxPort c) (cfg_StartTimeout c) (cfg_Stderr c) (cfg_SyncStdout c) v
    (cfg_AllowedProtocols c) (cfg_Logger c) (cfg_PluginLogBufferSize c) (cfg_AutoMTLS c)
    (cfg_GRPCBrokerMultiplex c) (cfg_SkipHostEnv c) (cfg_UnixSocketConfig c) (cfg_PingTimeout c)
    (cfg_ShutdownTimeout c) (cfg_DisableProcessGroupKill c).
Definition set_cfg_AllowedProtocols (v : option (list Protocol)) (c : ClientConfig) :
    ClientConfig :=
    MkClientConfig (cfg_Handshake c) (cfg_Plugins c) (cfg_VersionedPlugins c) (cfg_Cmd c)
    (cfg_Reattach c) (cfg_RunnerFunc c) (cfg_SecureConfig c) (cfg_TLSConfig c) (cfg_Managed c)
    (cfg_MinPort c) (cfg_MaxPort c) (cfg_StartTimeout c) (cfg_Stderr c) (cfg_SyncStdout c)
    (cfg_SyncStderr c) v (cfg_Logger c) (cfg_PluginLogBufferSize c) (cfg_AutoMTLS c)
    (cfg_GRPCBrokerMultiplex c) (cfg_SkipHostEnv c) (cfg_UnixSocketConfig c) (cfg_PingTimeout c)
    (cfg_ShutdownTimeout c) (cfg_DisableProcessGroupKill c).
Definition set_cfg_Logger (v : option string) (c : ClientConfig) : ClientConfig :=
    MkClientConfig (cfg_Handshake c) (cfg_Plugins c) (cfg_VersionedPlugins c) (cfg_Cmd c)
    (cfg_Reattach c) (cfg_RunnerFunc c) (cfg_SecureConfig c) (cfg_TLSConfig c) (cfg_Managed c)
    (cfg_MinPort c) (cfg_MaxPort c) (cfg_StartTimeout c) (cfg_Stderr c) (cfg_SyncStdout c)
    (cfg_SyncStderr c) (cfg_AllowedProtocols c) v (cfg_PluginLogBufferSize c) (cfg_AutoMTLS c)
    (cfg_GRPCBrokerMultiplex c) (cfg_SkipHostEnv c) (cfg_UnixSocketConfig c) (cfg_PingTimeout c)
    (cfg_ShutdownTimeout c) (cfg_DisableProcessGroupKill c).
Definition set_cfg_PluginLogBufferSize (v : Z) (c : ClientConfig) : ClientConfig :=
    MkClientConfig (cfg_Handshake c) (cfg_Plugins c) (cfg_VersionedPlugins c) (cfg_Cmd c)
    (cfg_Reattach c) (cfg_RunnerFunc c) (cfg_SecureConfig c) (cfg_TLSConfig c) (cfg_Managed c)
    (cfg_MinPort c) (cfg_MaxPort c) (cfg_StartTimeout c) (cfg_Stderr c) (cfg_SyncStdout c)
    (cfg_SyncStderr c) (cfg_AllowedProtocols c) (cfg_Logger c) v (cfg_AutoMTLS c)
    (cfg_GRPCBrokerMultiplex c) (cfg_SkipHostEnv c) (cfg_UnixSocketConfig c) (cfg_PingTimeout c)
    (cfg_ShutdownTimeout c) (cfg_DisableProcessGroupKill c).
Definition set_config (v : ClientConfig) (c : Client) : Client :=
    MkClient v (exited c) (address c) (runner c) (client c) (protocol c) (doneCtx c)
    (negotiatedVersion c) (processKilled c) (killOnce c) (killBodyRuns c) (unixSocketCfg c)
    (grpcMuxer c).
Definition set_exited (v : bool) (c : Client) : Client :=
    MkClient (config c) v (address c) (runner c) (client c) (protocol c) (doneCtx c)
    (negotiatedVersion c) (processKilled c) (killOnce c) (killBodyRuns c) (unixSocketCfg c)
    (grpcMuxer c).
Definition set_address (v : option Addr) (c : Client) : Client :=
    MkClient (config c) (exited c) v (runner c) (client c) (protocol c) (doneCtx c)
    (negotiatedVersion c) (processKilled c) (killOnce c) (killBodyRuns c) (unixSocketCfg c)
    (grpcMuxer c).
Definition set_runner (v : option Runner) (c : Client) : Client :=
    MkClient (config c) (exited c) (address c) v (client c) (protocol c) (doneCtx c)
    (negotiatedVersion c) (processKilled c) (killOnce c) (killBodyRuns c) (unixSocketCfg c)
    (grpcMuxer c).
Definition set_client (v : option ClientProtocol) (c : Client) : Client :=
    MkClient (config c) (exited c) (address c) (runner c) v (protocol c) (doneCtx c)
    (negotiatedVersion c) (processKilled c) (killOnce c) (killBodyRuns c) (unixSocketCfg c)
    (grpcMuxer c).
Definition set_protocol (v : Protocol) (c : Client) : Client :=
    MkClient (config c) (exited c) (address c) (runner c) (client c) v (doneCtx c)
    (negotiatedVersion c) (processKilled c) (killOnce c) (killBodyRuns c) (unixSocketCfg c)
    (grpcMuxer c).
Definition set_doneCtx (v : bool) (c : Client) : Client :=
    MkClient (config c) (exited c) (address c) (runner c) (client c) (protocol c) v
    (negotiatedVersion c) (processKilled c) (killOnce c) (killBodyRuns c) (unixSocketCfg c)
    (grpcMuxer c).
Definition set_negotiatedVersion (v : Z) (c : Client) : Client :=
    MkClient (config c) (exited c) (address c) (runner c) (client c) (protocol c) (doneCtx c) v
    (processKilled c) (killOnce c) (killBodyRuns c) (unixSocketCfg c) (grpcMuxer c).
Definition set_processKilled (v : bool) (c : Client) : Client :=
    MkClient (config c) (exited c) (address c) (runner c) (client c) (protocol c) (doneCtx c)
    (negotiatedVersion c) v (killOnce c) (killBodyRuns c) (unixSocketCfg c) (grpcMuxer c).
Definition set_killOnce (v : bool) (c : Client) : Client :=
    MkClient (config c) (exited c) (address c) (runner c) (client c) (protocol c) (doneCtx c)
    (negotiatedVersion c) (processKilled c) v (killBodyRuns c) (unixSocketCfg c) (grpcMuxer c).
Definition set_killBodyRuns (v : Z) (c : Client) : Client :=
    MkClient (config c) (exited c) (address c) (runner c) (client c) (protocol c) (doneCtx c)
    (negotiatedVersion c) (processKilled c) (killOnce c) v (unixSocketCfg c) (grpcMuxer c).
Definition set_unixSocketCfg (v : UnixSocketConfig) (c : Client) : Client :=
    MkClient (config c) (exited c) (address c) (runner c) (client c) (protocol c) (doneCtx c)
    (negotiatedVersion c) (processKilled c) (killOnce c) (killBodyRuns c) v (grpcMuxer c).
Definition set_grpcMuxer (v : MuxerState) (c : Client) : Client :=
    MkClient (config c) (exited c) (address c) (runner c) (client c) (protocol c) (doneCtx c)
    (negotiatedVersion c) (processKilled c) (killOnce c) (killBodyRuns c) (unixSocketCfg c) v.
