(* ===== verification/Handshake.v ===== *)
(** * The handshake line

    [Serve] prints one line of '|'-separated fields on stdout once its listener
    is ready; [Client.Start] reads the first line of the plugin's stdout and
    interprets the fields.  The printer is the end of [Serve] (server.go), the
    reader the last [select] of [Start] and [loadServerCert] (client.go). *)

From S2P Require Import Prelude GoStd Mtls Config Negotiate ClientData.

Definition bar : ascii := ascii_of_nat 124.
Definition newline : ascii := ascii_of_nat 10.
Definition carriage : ascii := ascii_of_nat 13.

(** ** The printer (server side) *)

(** [fmt.Sprintf("%d|%d|%s|%s|%s|%s", ...)], then "|true" when the client has
    set the multiplexing variable. *)
Definition protocolLine (env : environ) (protoVersion : Z) (lis : Addr) (protoType : Protocol)
    (serverCert : string) : string :=
  Join ([Itoa CoreProtocolVersion; Itoa protoVersion; Network lis; Address lis; protoType;
         serverCert] ++
        (if decide (Getenv env envMultiplexGRPC = "") then [] else ["true"])) bar.

Definition handshake_output env protoVersion lis protoType serverCert : string :=
  protocolLine env protoVersion lis protoType serverCert +:+ String newline "".

(** ** The line scanner of [Start]: [bufio.Scanner] with [ScanLines] *)

(** The text up to the first line feed, and what follows it if there is one. *)
Fixpoint cut_line (s : string) : string * option string :=
  match s with
  | "" => ("", None)
  | String a s' =>
      if decide (a = newline) then ("", Some s')
      else let '(w, rest) := cut_line s' in (String a w, rest)
  end.

Fixpoint drop_cr (s : string) : string :=
  match s with
  | "" => ""
  | String a "" => if decide (a = carriage) then "" else s
  | String a s' => String a (drop_cr s')
  end.

Definition MaxScanTokenSize : Z := 64 * 1024.

(** The first token of the plugin's stdout; [None] at the end of the stream or
    when no line ends within the scanner's buffer. *)
Definition scan_first (stdout : string) : option string :=
  let '(w, rest) := cut_line stdout in
  if bool_decide (Z.of_nat (String.length w) >= MaxScanTokenSize) then None
  else match rest with
       | Some _ => Some (drop_cr w)
       | None => if decide (w = "") then None else Some (drop_cr w)
       end.

(** ** The reader (client side) *)

(** What [Start] calls outside the source: resolving a TCP address and the
    cryptographic libraries. *)
Record HandshakeEnv : Type := MkHandshakeEnv {
  ResolveTCPAddr : string → res error Addr;
  hs_crypto : Crypto
}.

Section reader.
Context `{!MapRange Z}.
Variable E : HandshakeEnv.

Definition set_cfg (f : ClientConfig → ClientConfig) (c : Client) : Client :=
  set_config (f (config c)) c.

(** [Client.loadServerCert]: assigning through a nil [TLSConfig] panics. *)
Definition loadServerCert (cert : string) : GoM Client error unit :=
  asn1 <- lift (DecodeString cert);;
  x509Cert <- lift (ParseCertificate (hs_crypto E) asn1);;
  c <- get;;
  match cfg_TLSConfig (config c) with
  | None => lift (Panic "nil pointer dereference: c.config.TLSConfig")
  | Some t =>
      modify (set_cfg (set_cfg_TLSConfig (Some (MkTLS (Certificate t) (RequireClientCert t)
        (Some [x509Cert]) (Some [x509Cert]) (ServerName t)))))
  end.

Definition field (i : nat) (parts : list string) : string := default "" (parts !! i).

Definition wrap_err {A} (f : error → error) (m : GoM Client error A) : GoM Client error A :=
  λ c, match m c with (c', Err e) => (c', Err (f e)) | r => r end.

Definition resolve (network address : string) : res error Addr :=
  if decide (network = "tcp") then ResolveTCPAddr E address
  else if decide (network = "unix") then Ret (MkAddr "unix" address)
  else Err (Errorf "unknown address type: %s" [address]).

(** The multiplexing field of the line, checked when the client asked for it. *)
Definition check_mux (parts : list string) : GoM Client error unit := λ c,
  if cfg_GRPCBrokerMultiplex (config c) && bool_decide (protocol c = ProtocolGRPC) then
    if bool_decide (length parts ≤ 6)%nat then
      (c, Err (Wrapf "%w; for Go plugins, you will need to update the dependency and recompile" []
                 ErrGRPCBrokerMuxNotSupported))
    else match ParseBool (field 6 parts) with
         | Ret true => (c, Ret tt)
         | Ret false => (c, Err ErrGRPCBrokerMuxNotSupported)
         | _ => (c, Err (Errorf
             "error parsing %q as a boolean for gRPC broker multiplexing support" [field 6 parts]))
         end
  else (c, Ret tt).

(** The case of the [select] of [Start] that receives a line ([ok] is false
    when the scanner stopped without one). *)
Definition handshake (r : Runner) (line0 : string) (ok : bool) : GoM Client error Addr :=
  let line := TrimSpace line0 in
  let parts := Split line bar in
  IF bool_decide (length parts < 4)%nat RETURN
    (Errorf "Unrecognized remote plugin message: "
      ([line] ++ (if ok then [] else ["Failed to read any lines from plugin's stdout"])
       ++ (if decide (runner_Diagnose r = "") then [] else [runner_Diagnose r])));;
  coreProtocol <- wrap_err (Wrapf "error parsing core protocol version: %w" [])
                    (lift (Atoi (field 0 parts)));;
  IF bool_decide (coreProtocol ≠ CoreProtocolVersion) RETURN
    (Errorf "incompatible core API version with plugin. Plugin version: %s, Core version: %d"
       [field 0 parts; Itoa CoreProtocolVersion]);;
  c <- get;;
  vp <- lift (checkProtoVersion (default ∅ (cfg_VersionedPlugins (config c))) (field 1 parts));;
  modify (λ c, set_negotiatedVersion vp.1 (set_cfg (set_cfg_Plugins vp.2) c));;
  na <- lift (PluginToHost r (field 2 parts) (field 3 parts));;
  addr <- lift (resolve na.1 na.2);;
  modify (set_protocol (if bool_decide (5 ≤ length parts)%nat
                        then field 4 parts else ProtocolNetRPC));;
  c <- get;;
  IF bool_decide (protocol c ∉ default [] (cfg_AllowedProtocols (config c))) RETURN
    (Errorf "unsupported plugin protocol %q. Supported: %v"
       (protocol c :: default [] (cfg_AllowedProtocols (config c))));;
  (if bool_decide (6 ≤ length parts)%nat && bool_decide (50 < String.length (field 5 parts))%nat
   then wrap_err (Wrapf "error parsing server cert: %w" []) (loadServerCert (field 5 parts))
   else ret tt);;
  check_mux parts;;
  ret addr.
End reader.

(** ** Lemmas: the printed line *)

(** A field of the line: neither a separator nor a line break. *)
Definition field_byte (a : ascii) : bool :=
  bool_decide (a ≠ bar) && bool_decide (a ≠ newline) && bool_decide (a ≠ carriage).
Definition clean (s : string) : bool := str_forall field_byte s.

Lemma clean_no_char c s :
  clean s = true → field_byte c = false → no_char c s = true.
Proof.
  intros Hs Hc. eapply str_forall_impl; [|exact Hs].
  intros a Ha. apply bool_decide_eq_true. congruence.
Qed.

Lemma clean_Itoa z : clean (Itoa z) = true.
Proof.
  eapply str_forall_impl; [|apply Itoa_decimal]. intros a. unfold decimal_byte, field_byte.
  destruct a as [[] [] [] [] [] [] [] []]; vm_compute; done.
Qed.

Lemma plain_byte_not_cr a : plain_byte a = true → a ≠ carriage ∧ a ≠ newline.
Proof. intros Ha; split; intros ->; vm_compute in Ha; done. Qed.

Lemma base64_byte_plain a : base64_byte a = true → plain_byte a = true ∧ field_byte a = true.
Proof.
  unfold base64_byte. rewrite andb_true_iff. intros [Hp Hb]. split; [done|].
  apply plain_byte_not_cr in Hp as [? ?]. unfold field_byte.
  rewrite !andb_true_iff, !bool_decide_eq_true. split_and!; [|done..].
  intros ->. vm_compute in Hb. done.
Qed.

(** A non-empty string ends with one of its bytes. *)
Lemma string_snoc_inv a s : ∃ s' b, String a s = s' +:+ String b "" ∧
  ∀ P, str_forall P (String a s) = true → P b = true.
Proof.
  revert a. induction s as [|a' s IH]; intros a.
  - exists "", a. split; [done|]. intros P. simpl. by rewrite andb_true_r.
  - destruct (IH a') as (s' & b & Heq & HP). exists (String a s'), b. split.
    + rewrite Heq. done.
    + intros P. cbn [str_forall]. rewrite andb_true_iff. intros [_ H]. by apply HP.
Qed.

Lemma Join_snoc ws w' w c : Join (w' :: ws ++ [w]) c = Join (w' :: ws) c +:+ String c w.
Proof.
  revert w'. induction ws as [|x ws IH]; intros w'; [done|].
  change (Join (w' :: (x :: ws) ++ [w]) c) with (w' +:+ String c (Join (x :: ws ++ [w]) c)).
  rewrite IH. change (Join (w' :: x :: ws) c) with (w' +:+ String c (Join (x :: ws) c)).
  by rewrite string_app_assoc.
Qed.

Lemma str_forall_Join P ws c :
  P c = true → Forall (λ w, str_forall P w = true) ws → str_forall P (Join ws c) = true.
Proof.
  intros Hc Hws. induction Hws as [|w ws Hw Hws IH]; [done|]. destruct ws as [|w' ws]; [done|].
  change (Join (w :: w' :: ws) c) with (w +:+ String c (Join (w' :: ws) c)).
  rewrite str_forall_app. cbn [str_forall]. by rewrite Hw, Hc, IH.
Qed.

Lemma cut_line_app s rest :
  no_char newline s = true → cut_line (s +:+ String newline rest) = (s, Some rest).
Proof.
  unfold no_char. induction s as [|a s IH]; [done|]. cbn [str_forall].
  rewrite andb_true_iff, bool_decide_eq_true. intros [Ha Hs].
  change (String a s +:+ String newline rest) with (String a (s +:+ String newline rest)).
  cbn [cut_line]. rewrite decide_False by done. by rewrite IH.
Qed.

Lemma drop_cr_snoc s b : b ≠ carriage → drop_cr (s +:+ String b "") = s +:+ String b "".
Proof.
  intros Hb. induction s as [|a s IH].
  - change ("" +:+ String b "") with (String b ""). simpl. by rewrite decide_False.
  - change (String a s +:+ String b "") with (String a (s +:+ String b "")).
    destruct s as [|a' s]; cbn [drop_cr].
    + change ("" +:+ String b "") with (String b "") in *. cbn [drop_cr] in IH |- *.
      by rewrite IH.
    + change (String a' s +:+ String b "") with (String a' (s +:+ String b "")) in *.
      f_equal. exact IH.
Qed.

(** The fields of the line, in order. *)
Definition line_fields (mux : bool) (v : Z) (lis : Addr) (pt : Protocol) (cert : string)
    : list string :=
  [Itoa CoreProtocolVersion; Itoa v; Network lis; Address lis; pt; cert] ++
  (if mux then ["true"] else []).

Lemma protocolLine_fields env v lis pt cert :
  protocolLine env v lis pt cert =
  Join (line_fields (bool_decide (Getenv env envMultiplexGRPC ≠ "")) v lis pt cert) bar.
Proof.
  unfold protocolLine, line_fields. case_decide as H; [|by rewrite bool_decide_true].
  rewrite bool_decide_false by (intros Hn; by apply Hn). done.
Qed.

Section line.
Variables (mux : bool) (v : Z) (lis : Addr) (pt cert : string).
Hypothesis Hnet : clean (Network lis) = true.
Hypothesis Haddr : clean (Address lis) = true.
Hypothesis Hpt : clean pt = true.
Hypothesis Hcert : str_forall base64_byte cert = true.

Let fields : list string := line_fields mux v lis pt cert.

Lemma fields_clean : Forall (λ w, clean w = true) fields.
Proof.
  unfold fields, line_fields. assert (clean cert = true) as Hc.
  { eapply str_forall_impl; [|exact Hcert]. intros a Ha. by apply base64_byte_plain. }
  destruct mux; simpl; repeat constructor; auto using clean_Itoa.
Qed.

Lemma line_shape : ∃ a s b, Join fields bar = String a (s +:+ String b "") ∧
  plain_byte a = true ∧ plain_byte b = true.
Proof.
  assert (∃ pre w, fields = Itoa CoreProtocolVersion :: pre ++ [w] ∧
    str_forall plain_byte w = true) as (pre & w & Hf & Hw).
  { unfold fields, line_fields. destruct mux.
    - exists [Itoa v; Network lis; Address lis; pt; cert], "true". done.
    - exists [Itoa v; Network lis; Address lis; pt], cert. split; [done|].
      eapply str_forall_impl; [|exact Hcert]. intros a Ha. by apply base64_byte_plain. }
  rewrite Hf, Join_snoc. destruct (string_snoc_inv bar w) as (s & b & Hb & HP).
  assert (∃ s1, Join (Itoa CoreProtocolVersion :: pre) bar = String (ascii_of_nat 49) s1)
    as [s1 ->] by (destruct pre; eexists; reflexivity).
  exists (ascii_of_nat 49), (s1 +:+ s), b. split_and!; [|done|].
  - rewrite Hb. change (String (ascii_of_nat 49) s1 +:+ (s +:+ String b ""))
      with (String (ascii_of_nat 49) (s1 +:+ (s +:+ String b ""))).
    by rewrite string_app_assoc.
  - apply (HP plain_byte). cbn [str_forall]. by rewrite Hw.
Qed.

Lemma line_trim : TrimSpace (Join fields bar) = Join fields bar.
Proof. destruct line_shape as (a & s & b & -> & Ha & Hb). by apply TrimSpace_plain. Qed.

Lemma line_split : Split (Join fields bar) bar = fields.
Proof.
  apply Split_Join; [done|]. eapply Forall_impl; [apply fields_clean|].
  intros w Hw. by apply clean_no_char.
Qed.

Lemma line_scan rest :
  Z.of_nat (String.length (Join fields bar)) < MaxScanTokenSize →
  scan_first (Join fields bar +:+ String newline rest) = Some (Join fields bar).
Proof.
  intros Hlen. unfold scan_first. rewrite cut_line_app.
  - rewrite bool_decide_false by lia. f_equal.
    destruct line_shape as (a & s & b & -> & Ha & Hb).
    change (String a (s +:+ String b "")) with (String a s +:+ String b "").
    apply drop_cr_snoc. by apply plain_byte_not_cr.
  - apply str_forall_Join; [done|]. eapply Forall_impl; [apply fields_clean|].
    intros w Hw. by apply clean_no_char.
Qed.
End line.

(** ** Lemmas: reading the line back *)

Section read.
Context `{!MapRange Z}.
Variable E : HandshakeEnv.

(** The client after the fields before the certificate have been accepted. *)
Definition accepted (v : Z) (ps : PluginSet) (pt : Protocol) (c : Client) : Client :=
  set_protocol pt (set_negotiatedVersion v (set_cfg (set_cfg_Plugins ps) c)).

(** What remains to do for the sixth and seventh field. *)
Definition read_rest (parts : list string) (cert : string) (a : Addr) : GoM Client error Addr :=
  (if bool_decide (50 < String.length cert)%nat
   then wrap_err (Wrapf "error parsing server cert: %w" []) (loadServerCert E cert)
   else ret tt);;
  check_mux parts;;
  ret a.

(** Reading a line with the right core version, an offered version, a
    translatable address and an allowed protocol. *)
Lemma handshake_fields r c mux v ps lis pt cert na a :
  clean (Network lis) = true → clean (Address lis) = true → clean pt = true →
  str_forall base64_byte cert = true → is_int v →
  default ∅ (cfg_VersionedPlugins (config c)) !! v = Some ps →
  PluginToHost r (Network lis) (Address lis) = Ret na → resolve E na.1 na.2 = Ret a →
  pt ∈ default [] (cfg_AllowedProtocols (config c)) →
  handshake E r (Join (line_fields mux v lis pt cert) bar) true c =
  read_rest (line_fields mux v lis pt cert) cert a (accepted v ps pt c).
Proof.
  intros Hn Ha Hp Hc Hv Hvp Hr Hres Hal. unfold handshake, bind.
  rewrite line_trim, line_split by done.
  rewrite bool_decide_false by (destruct mux; simpl; lia).
  assert (∀ i w, line_fields mux v lis pt cert !! i = Some w →
    field i (line_fields mux v lis pt cert) = w) as Hf by (intros i w Hi; unfold field; by rewrite Hi).
  rewrite (Hf 0%nat (Itoa CoreProtocolVersion)), (Hf 1%nat (Itoa v)), (Hf 2%nat (Network lis)),
    (Hf 3%nat (Address lis)), (Hf 4%nat pt), (Hf 5%nat cert) by done.
  rewrite Atoi_Itoa by (vm_compute; split; congruence).
  unfold wrap_err at 1, lift, get, modify. rewrite bool_decide_false by (intros Hx; by apply Hx).
  rewrite (checkProtoVersion_Itoa _ v ps) by done. cbn [fst snd].
  rewrite Hr, Hres, (bool_decide_true (5 ≤ _)%nat) by (destruct mux; simpl; lia).
  rewrite (bool_decide_false (_ ∉ _)) by (intros Hx; by apply Hx).
  rewrite (bool_decide_true (6 ≤ _)%nat) by (destruct mux; simpl; lia).
  reflexivity.
Qed.

(** The multiplexing check on the printed fields. *)
Lemma check_mux_fields v lis pt cert c mux :
  (cfg_GRPCBrokerMultiplex (config c) && bool_decide (protocol c = ProtocolGRPC) = true →
   mux = true) →
  check_mux (line_fields mux v lis pt cert) c = (c, Ret tt).
Proof.
  unfold check_mux. destruct (_ && _) eqn:Hb; [|done]. intros ->; [|done]. done.
Qed.

(** Loading a certificate that decodes and parses. *)
Lemma loadServerCert_ok bs x c t :
  Forall is_byte bs → ParseCertificate (hs_crypto E) bs = Ret x → cfg_TLSConfig (config c) = Some t →
  loadServerCert E (EncodeToString bs) c =
  (set_cfg (set_cfg_TLSConfig (Some (MkTLS (Certificate t) (RequireClientCert t) (Some [x]) (Some [x])
     (ServerName t)))) c, Ret tt).
Proof.
  intros Hb Hx Ht. unfold loadServerCert, bind, lift. rewrite DecodeString_EncodeToString by done.
  rewrite Hx. unfold get. by rewrite Ht.
Qed.

Lemma loadServerCert_nil bs x c :
  Forall is_byte bs → ParseCertificate (hs_crypto E) bs = Ret x → cfg_TLSConfig (config c) = None →
  loadServerCert E (EncodeToString bs) c =
  (c, Panic "nil pointer dereference: c.config.TLSConfig").
Proof.
  intros Hb Hx Ht. unfold loadServerCert, bind, lift. rewrite DecodeString_EncodeToString by done.
  rewrite Hx. unfold get. by rewrite Ht.
Qed.
End read.

(** The first line of what [Serve] prints is read back by [Start]. *)
Lemma handshake_reads_back `{!MapRange Z} E r c env rest v ps lis pt bs na a :
  clean (Network lis) = true → clean (Address lis) = true → clean pt = true →
  Forall is_byte bs → is_int v →
  default ∅ (cfg_VersionedPlugins (config c)) !! v = Some ps →
  PluginToHost r (Network lis) (Address lis) = Ret na → resolve E na.1 na.2 = Ret a →
  pt ∈ default [] (cfg_AllowedProtocols (config c)) →
  (cfg_GRPCBrokerMultiplex (config c) = true → Getenv env envMultiplexGRPC ≠ "") →
  (bs ≠ [] → (50 < String.length (EncodeToString bs))%nat ∧
     is_Some (cfg_TLSConfig (config c)) ∧ ∃ x, ParseCertificate (hs_crypto E) bs = Ret x) →
  Z.of_nat (String.length (protocolLine env v lis pt (EncodeToString bs))) < MaxScanTokenSize →
  ∃ line c', scan_first (handshake_output env v lis pt (EncodeToString bs) +:+ rest) = Some line ∧
    handshake E r line true c = (c', Ret a) ∧
    negotiatedVersion c' = v ∧ protocol c' = pt ∧ cfg_Plugins (config c') = ps ∧
    (bs ≠ [] → ∃ x t, ParseCertificate (hs_crypto E) bs = Ret x ∧ cfg_TLSConfig (config c') = Some t ∧
       RootCAs t = Some [x] ∧ ClientCAs t = Some [x]) ∧
    (bs = [] → cfg_TLSConfig (config c') = cfg_TLSConfig (config c)).
Proof.
  intros Hn Ha Hp Hbs Hv Hvp Hr Hres Hal Hmux Hcert Hlen.
  pose proof (EncodeToString_alphabet bs Hbs) as Hb64.
  rewrite protocolLine_fields in Hlen.
  exists (protocolLine env v lis pt (EncodeToString bs)).
  unfold handshake_output. rewrite protocolLine_fields, string_app_assoc.
  set (mux := bool_decide (Getenv env envMultiplexGRPC ≠ "")) in *.
  change (String newline "" +:+ rest) with (String newline rest).
  rewrite line_scan by done.
  rewrite (handshake_fields E r c mux v ps lis pt (EncodeToString bs) na a) by done.
  assert (∀ c', cfg_GRPCBrokerMultiplex (config c') = cfg_GRPCBrokerMultiplex (config c) →
    check_mux (line_fields mux v lis pt (EncodeToString bs)) c' = (c', Ret tt)) as Hck.
  { intros c' Hc'. apply check_mux_fields. rewrite Hc'. intros [? _]%andb_true_iff.
    apply bool_decide_true. auto. }
  unfold read_rest, bind. destruct (decide (bs = [])) as [->|Hne].
  - rewrite (bool_decide_false (50 < _)%nat) by (simpl; lia). unfold ret.
    rewrite Hck by done. eexists. by split_and!.
  - destruct (Hcert Hne) as (Hl & [t Ht] & x & Hx).
    rewrite (bool_decide_true (50 < _)%nat) by done. unfold wrap_err.
    rewrite (loadServerCert_ok E bs x _ t), Hck by done.
    eexists. split_and!; [done..| |done]. intros _. eexists x, _. by split_and!.
Qed.

(** ** Properties *)

(** C1: round trip of the handshake.  The first line of what [Serve] prints,
    whatever the plugin prints afterwards, is accepted by [Start]: the client
    records the server's version with its own plugin set for it, the server's
    protocol and (translated) address, and trusts exactly the server's
    certificate when one was sent. *)
Theorem handshake_roundtrip `{!MapRange Z} E r c env rest v ps lis pt bs na a :
  clean (Network lis) = true → clean (Address lis) = true → clean pt = true →
  Forall is_byte bs → is_int v →
  default ∅ (cfg_VersionedPlugins (config c)) !! v = Some ps →
  PluginToHost r (Network lis) (Address lis) = Ret na → resolve E na.1 na.2 = Ret a →
  pt ∈ default [] (cfg_AllowedProtocols (config c)) →
  (cfg_GRPCBrokerMultiplex (config c) = true → Getenv env envMultiplexGRPC ≠ "") →
  (bs ≠ [] → (50 < String.length (EncodeToString bs))%nat ∧
     is_Some (cfg_TLSConfig (config c)) ∧ ∃ x, ParseCertificate (hs_crypto E) bs = Ret x) →
  Z.of_nat (String.length (protocolLine env v lis pt (EncodeToString bs))) < MaxScanTokenSize →
  ∃ line c', scan_first (handshake_output env v lis pt (EncodeToString bs) +:+ rest) = Some line ∧
    handshake E r line true c = (c', Ret a) ∧
    negotiatedVersion c' = v ∧ protocol c' = pt ∧ cfg_Plugins (config c') = ps ∧
    (bs ≠ [] → ∃ x t, ParseCertificate (hs_crypto E) bs = Ret x ∧ cfg_TLSConfig (config c') = Some t ∧
       RootCAs t = Some [x] ∧ ClientCAs t = Some [x]) ∧
    (bs = [] → cfg_TLSConfig (config c') = cfg_TLSConfig (config c)).
Proof. apply handshake_reads_back. Qed.

Lemma loadServerCert_Ret E s c c' u :
  loadServerCert E s c = (c', Ret u) → ∃ t, c' = set_cfg (set_cfg_TLSConfig t) c.
Proof.
  unfold loadServerCert, bind, lift, get, modify. intros H.
  repeat case_match; simplify_eq; eauto.
Qed.

Lemma wrap_err_Ret {A} f (m : GoM Client error A) c c' (x : A) :
  wrap_err f m c = (c', Ret x) → m c = (c', Ret x).
Proof. unfold wrap_err. destruct (m c) as [? []]; naive_solver. Qed.

Lemma check_mux_Ret parts c c' u :
  check_mux parts c = (c', Ret u) →
  c' = c ∧ (cfg_GRPCBrokerMultiplex (config c) = true → protocol c = ProtocolGRPC →
            ParseBool (field 6 parts) = Ret true).
Proof.
  unfold check_mux. destruct (_ && _) eqn:Hb.
  - destruct (bool_decide (length parts ≤ 6)%nat); [done|]. destruct (ParseBool _) as [[]| |]; naive_solver.
  - intros [= <- _]. split; [done|]. intros Hm Hp. rewrite Hm in Hb. simpl in Hb.
    by apply bool_decide_eq_false in Hb.
Qed.

(** C14: what [Start] accepts.  A line is only accepted when it has at least
    four fields, the core protocol version is ours, the version is one the
    client offered (and its plugin set is the one selected), the address
    translates and resolves, the protocol is allowed, and multiplexing is
    confirmed when it was requested over gRPC. *)
Theorem handshake_accepts_only `{!MapRange Z} E r line ok c c' a :
  handshake E r line ok c = (c', Ret a) →
  let parts := Split (TrimSpace line) bar in
  (4 ≤ length parts)%nat ∧ Atoi (field 0 parts) = Ret CoreProtocolVersion ∧
  Atoi (field 1 parts) = Ret (negotiatedVersion c') ∧
  default ∅ (cfg_VersionedPlugins (config c)) !! negotiatedVersion c' =
    Some (cfg_Plugins (config c')) ∧
  (∃ na, PluginToHost r (field 2 parts) (field 3 parts) = Ret na ∧ resolve E na.1 na.2 = Ret a) ∧
  protocol c' = (if bool_decide (5 ≤ length parts)%nat then field 4 parts else ProtocolNetRPC) ∧
  protocol c' ∈ default [] (cfg_AllowedProtocols (config c)) ∧
  (cfg_GRPCBrokerMultiplex (config c) = true → protocol c' = ProtocolGRPC →
   ParseBool (field 6 parts) = Ret true).
Proof.
  unfold handshake. set (parts := Split (TrimSpace line) bar). intros H. cbv zeta.
  case_bool_decide as Hlen; [done|].
  apply GoM_bind_Ret in H as (c1 & core & [= <- Hcore]%wrap_err_Ret & H).
  case_bool_decide as Hcv; [done|].
  apply GoM_bind_Ret in H as (c2 & c2' & [= <- <-] & H).
  apply GoM_bind_Ret in H as (c3 & [v ps] & [= <- Hvp] & H).
  apply GoM_bind_Ret in H as (c4 & [] & [= <-] & H).
  apply GoM_bind_Ret in H as (c5 & na & [= <- Hna] & H).
  apply GoM_bind_Ret in H as (c6 & a' & [= <- Hres] & H).
  apply GoM_bind_Ret in H as (c7 & [] & [= <-] & H).
  apply GoM_bind_Ret in H as (c8 & c8' & [= <- <-] & H).
  case_bool_decide as Hal; [done|].
  apply GoM_bind_Ret in H as (c9 & [] & Hc & H).
  apply GoM_bind_Ret in H as (c10 & [] & [-> Hmux]%check_mux_Ret & [= <- <-]).
  apply checkProtoVersion_Ret in Hvp as [Hat Hm]. subst core.
  assert (∃ t, c9 = set_cfg (set_cfg_TLSConfig t) (accepted v ps
    (if bool_decide (5 ≤ length parts)%nat then field 4 parts else ProtocolNetRPC) c)) as [t ->].
  { destruct (_ && _).
    - by apply wrap_err_Ret, loadServerCert_Ret in Hc.
    - injection Hc as <-. exists (cfg_TLSConfig (config c)). by destruct c as [[]]. }
  split_and!; eauto; lia.
Qed.

(** A plugin that sends a certificate to a host without a TLS
    configuration (AutoMTLS off) makes [Start] panic on a nil pointer, instead
    of returning an error. *)
Theorem handshake_nil_tls_panics `{!MapRange Z} E r c env v ps lis pt bs na a x :
  clean (Network lis) = true → clean (Address lis) = true → clean pt = true →
  Forall is_byte bs → is_int v →
  default ∅ (cfg_VersionedPlugins (config c)) !! v = Some ps →
  PluginToHost r (Network lis) (Address lis) = Ret na → resolve E na.1 na.2 = Ret a →
  pt ∈ default [] (cfg_AllowedProtocols (config c)) →
  (50 < String.length (EncodeToString bs))%nat → ParseCertificate (hs_crypto E) bs = Ret x →
  cfg_TLSConfig (config c) = None →
  (handshake E r (protocolLine env v lis pt (EncodeToString bs)) true c).2 =
  Panic "nil pointer dereference: c.config.TLSConfig".
Proof.
  intros Hn Ha Hp Hbs Hv Hvp Hr Hres Hal Hl Hx Ht.
  rewrite protocolLine_fields, (handshake_fields E r c _ v ps lis pt _ na a)
    by auto using EncodeToString_alphabet.
  unfold read_rest, bind. rewrite (bool_decide_true (50 < _)%nat) by done. unfold wrap_err.
  by rewrite (loadServerCert_nil E bs x).
Qed.

(** ** Concrete instances *)

(** A client with the versions of [ex_client_versions], over gRPC, and a
    server listening on a Unix socket. *)
Definition ex_config (tls : option TLSConfig) (mux : bool) : ClientConfig :=
  MkClientConfig (MkHandshake 1 "KEY" "VALUE") None (Some ex_client_versions)
    (Some (MkCmd "/bin/plugin" [] None)) None None None tls false 10000 25000 60000000000
    (Some Discard) (Some Discard) (Some Discard) (Some [ProtocolNetRPC; ProtocolGRPC])
    (Some default_logger) defaultPluginLogBufferSize true mux false None 0 0 false.
(** The certificate of the private key [key]. *)
Definition ex_der (key : Z) : list Z :=
  match generateCert ToyCrypto (ex_cert_answers key) with
  | Ret (c, p) => match X509KeyPair ToyCrypto c p with Ret der => der | _ => [] end
  | _ => []
  end.
Definition ex_tls : TLSConfig := MkTLS (ex_der 5) true None None "localhost".
Definition ex_client (tls : option TLSConfig) (mux : bool) : Client :=
  MkClient (ex_config tls mux) false None None None "" false 0 false false 0
    (MkUnixSocket "" "" "") MuxerUnset.
Definition ex_runner : Runner :=
  MkRunner "42" "/bin/plugin" None None "" (λ n a, Ret (n, a)) (λ n a, Ret (n, a)).
Definition ex_lis : Addr := MkAddr "unix" "/tmp/plugin123".
Definition ex_hsenv : HandshakeEnv :=
  MkHandshakeEnv (λ a, Ret (MkAddr "tcp" a)) ToyCrypto.
Definition ex_cert : list Z := ex_der 6.
Definition ex_mux_env : environ := {[ envMultiplexGRPC := "true" ]}.

Lemma ex_cert_bytes : Forall is_byte ex_cert.
Proof. apply (bool_decide_unpack _). vm_compute. exact I. Qed.

Example handshake_roundtrip_witness :
  ∃ line c', scan_first (handshake_output ex_mux_env 3 ex_lis ProtocolGRPC
      (EncodeToString ex_cert) +:+ "hello") = Some line ∧
    handshake ex_hsenv ex_runner line true (ex_client (Some ex_tls) true) = (c', Ret ex_lis) ∧
    negotiatedVersion c' = 3 ∧ protocol c' = ProtocolGRPC ∧ cfg_Plugins (config c') = ex_set true ∧
    (ex_cert ≠ [] → ∃ x t, ParseCertificate (hs_crypto ex_hsenv) ex_cert = Ret x ∧
       cfg_TLSConfig (config c') = Some t ∧ RootCAs t = Some [x] ∧ ClientCAs t = Some [x]) ∧
    (ex_cert = [] → cfg_TLSConfig (config c') = Some ex_tls).
Proof.
  apply (handshake_roundtrip ex_hsenv ex_runner (ex_client (Some ex_tls) true) ex_mux_env "hello"
    3 (ex_set true) ex_lis ProtocolGRPC ex_cert ("unix", "/tmp/plugin123") ex_lis);
    try (vm_compute; reflexivity).
  - exact ex_cert_bytes.
  - split; vm_compute; congruence.
  - right; left.
  - intros _. vm_compute. discriminate.
  - intros _. split; [vm_compute; lia|]. split; [by eexists|]. eexists. vm_compute. reflexivity.
Defined.

Definition ex_reply : string := "1|3|unix|/tmp/p|grpc||true".
Definition ex_after : Client :=
  (handshake ex_hsenv ex_runner ex_reply true (ex_client None true)).1.

Lemma ex_after_accepted :
  handshake ex_hsenv ex_runner ex_reply true (ex_client None true) =
  (ex_after, Ret (MkAddr "unix" "/tmp/p")).
Proof. vm_compute. reflexivity. Qed.

Example handshake_accepts_only_witness :
  protocol ex_after ∈ [ProtocolNetRPC; ProtocolGRPC] ∧
  ex_client_versions !! negotiatedVersion ex_after = Some (cfg_Plugins (config ex_after)).
Proof.
  destruct (handshake_accepts_only ex_hsenv ex_runner ex_reply true (ex_client None true)
    ex_after (MkAddr "unix" "/tmp/p") ex_after_accepted) as (_ & _ & _ & Hv & _ & _ & Hin & _).
  split; [exact Hin|exact Hv].
Defined.

Example handshake_nil_tls_panics_witness :
  (handshake ex_hsenv ex_runner (protocolLine ∅ 3 ex_lis ProtocolGRPC (EncodeToString ex_cert))
     true (ex_client None false)).2 =
  Panic "nil pointer dereference: c.config.TLSConfig".
Proof.
  apply (handshake_nil_tls_panics ex_hsenv ex_runner (ex_client None false) ∅ 3 (ex_set true)
    ex_lis ProtocolGRPC ex_cert ("unix", "/tmp/plugin123") ex_lis
    (made_cert ToyCrypto (ex_cert_answers 6) 6 7));
    try (vm_compute; reflexivity).
  - exact ex_cert_bytes.
  - split; vm_compute; congruence.
  - right; left.
  - vm_compute; lia.
Defined.
