(* ===== verification/Listener.v ===== *)
(** * Listeners of the plugin side

    [serverListener] and its TCP and Unix variants, [setGroupWritable] and
    [rmListener] of server.go, over a small model of the operating system: the
    files that exist (with their group and mode) and the listening sockets. *)

From S2P Require Import Prelude GoStd Config.

(** ** The operating system *)

Inductive FileKind : Type := Regular | Socket | Directory.

Record File : Type := MkFile {
  file_kind : FileKind;
  file_gid : option Z;
  file_mode : Z
}.

(** The file system and the sockets that are listening. *)
Record OS : Type := MkOS {
  files : gmap string File;
  listening : list Addr
}.

(** The answers of the operating system: the name [os.CreateTemp] tries last, the
    failures of the single calls, the group database, and for a TCP port the
    port that is bound (port 0 asks for any). *)
Record OSAnswers : Type := MkOSAnswers {
  GOOS : string;
  CreateTemp : string → string → res error string;
  close_fails : option error;
  remove_fails : option error;
  listen_fails : option error;
  LookupGroup : string → res error string;
  chown_fails : option error;
  chmod_fails : option error;
  bind_tcp : Z → option Z
}.

Definition upd_files (f : gmap string File → gmap string File) (o : OS) : OS :=
  MkOS (f (files o)) (listening o).
Definition upd_listening (f : list Addr → list Addr) (o : OS) : OS :=
  MkOS (files o) (f (listening o)).

(** A call that fails when the operating system says so. *)
Definition syscall (answer : option error) (f : OS → OS) : GoM OS error unit :=
  match answer with Some e => fail e | None => modify f end.

Definition ErrNotExist : error := ErrExt "no such file or directory".
Definition ErrExist : error := ErrExt "file exists".

(** [os.CreateTemp]: the file is created exclusively, under the last name that
    was tried; when that name is taken as well, the call has given up. *)
Definition os_CreateTemp (A : OSAnswers) (dir pattern : string) : GoM OS error string :=
  path <- lift (CreateTemp A dir pattern);;
  o <- get;;
  IF bool_decide (is_Some (files o !! path)) RETURN ErrExist;;
  modify (upd_files (<[path := MkFile Regular None 384]>));;
  ret path.

(** [os.Remove]: a missing file is an error of its own. *)
Definition Remove (A : OSAnswers) (path : string) : GoM OS error unit :=
  o <- get;;
  match files o !! path with
  | None => fail ErrNotExist
  | Some _ => syscall (remove_fails A) (upd_files (delete path))
  end.

(** The group that [os.Chown] leaves: the system takes 32 bits, and -1 there means
    that the group stays. *)
Definition chown_gid (gid : Z) (old : option Z) : option Z :=
  if decide (uint32 gid = 2 ^ 32 - 1) then old else Some (uint32 gid).
Definition with_group (gid : Z) (f : File) : File :=
  MkFile (file_kind f) (chown_gid gid (file_gid f)) (file_mode f).
Definition with_mode (mode : Z) (f : File) : File := MkFile (file_kind f) (file_gid f) mode.

(** ** [setGroupWritable] *)

(** The group is a number, or a name whose entry gives one. *)
Definition group_id (A : OSAnswers) (groupString : string) : res error Z :=
  match Atoi groupString with
  | Ret gid => Ret gid
  | _ =>
      match LookupGroup A groupString with
      | Ret gid =>
          match Atoi gid with
          | Ret n => Ret n
          | Err e => Err (Wrapf "failed to parse %q group's gid as an integer: %w" [groupString] e)
          | Panic w => Panic w
          end
      | Err e => Err (Wrapf "failed to find gid from %q: %w" [groupString] e)
      | Panic w => Panic w
      end
  end.

Definition setGroupWritable (A : OSAnswers) (path groupString : string) (mode : Z)
    : GoM OS error unit :=
  groupID <- lift (group_id A groupString);;
  syscall (chown_fails A) (upd_files (alter (with_group groupID) path));;
  syscall (chmod_fails A) (upd_files (alter (with_mode mode) path)).

(** ** [rmListener] *)

(** The wrapped listener and the file its [close] function removes. *)
Record rmListener : Type := MkRmListener {
  rm_Listener : Addr;
  rm_path : string
}.

Definition ErrClosed : error := ErrExt "use of closed network connection".

(** Closing a listening Unix socket stops it and unlinks its file, as
    [net.UnixListener] does for a socket it created; closing twice is an error. *)
Definition Listener_Close (A : OSAnswers) (a : Addr) : GoM OS error unit :=
  o <- get;;
  IF bool_decide (a ∉ listening o) RETURN ErrClosed;;
  syscall (close_fails A) (λ o,
    upd_listening (filter (λ b, b ≠ a))
      (if decide (Network a = "unix") then upd_files (delete (Address a)) o else o)).

Definition newDeleteFileListener (ln : Addr) (path : string) : rmListener :=
  {| rm_Listener := ln; rm_path := path |}.

Definition rmListener_Close (A : OSAnswers) (l : rmListener) : GoM OS error unit :=
  Listener_Close A (rm_Listener l);;
  Remove A (rm_path l).

(** ** [serverListenerTCP], [serverListenerUnix], [serverListener] *)

Definition parse_port (env : environ) (name : string) : res error Z :=
  let v := Getenv env name in
  if decide (v = "") then Ret 0
  else match ParseInt 32 v with
       | Err e => Err (Wrapf "couldn't get value from port variable: %w" [name] e)
       | r => r
       end.

(** The loop over the ports; [n] is the number of ports left. *)
Fixpoint try_ports (A : OSAnswers) (n : nat) (port : Z) : GoM OS error Addr :=
  match n with
  | O => fail (Errorf "couldn't bind plugin TCP listener" [])
  | S n' =>
      match bind_tcp A port with
      | Some p =>
          let a := MkAddr "tcp" ("127.0.0.1:" +:+ Itoa p) in
          modify (upd_listening (cons a));; ret a
      | None => try_ports A n' (port + 1)
      end
  end.

Definition serverListenerTCP (A : OSAnswers) (env : environ) : GoM OS error Addr :=
  minPort <- lift (parse_port env "PLUGIN_MIN_PORT");;
  maxPort <- lift (parse_port env "PLUGIN_MAX_PORT");;
  IF bool_decide (minPort > maxPort) RETURN
    (Errorf "PLUGIN_MIN_PORT value of %d is greater than PLUGIN_MAX_PORT value of %d"
       [Itoa minPort; Itoa maxPort]);;
  try_ports A (Z.to_nat (maxPort - minPort + 1)) minPort.

Definition serverListenerUnix (A : OSAnswers) (cfg : UnixSocketConfig) : GoM OS error rmListener :=
  path <- os_CreateTemp A (socketDir cfg) "plugin";;
  syscall (close_fails A) id;;
  Remove A path;;
  let l := MkAddr "unix" path in
  syscall (listen_fails A) (λ o, upd_listening (cons l)
    (upd_files (<[path := MkFile Socket None 493]>) o));;
  (if decide (Group cfg = "") then ret tt else setGroupWritable A path (Group cfg) 432);;
  ret (newDeleteFileListener l path).

(** A listener of either kind; its address is what the handshake announces. *)
Inductive Listener : Type :=
| TCPListener (a : Addr)
| UnixRmListener (l : rmListener).

Definition Listener_Addr (l : Listener) : Addr :=
  match l with TCPListener a => a | UnixRmListener r => rm_Listener r end.

Definition serverListener (A : OSAnswers) (env : environ) (cfg : UnixSocketConfig)
    : GoM OS error Listener :=
  if decide (GOOS A = "windows")
  then a <- serverListenerTCP A env;; ret (TCPListener a)
  else l <- serverListenerUnix A cfg;; ret (UnixRmListener l).

(** ** Lemmas *)

(** The port loop stops at the first port that can be bound. *)
Lemma try_ports_spec A n port o :
  (∃ p q, port ≤ p < port + Z.of_nat n ∧ bind_tcp A p = Some q ∧
     (∀ p', port ≤ p' < p → bind_tcp A p' = None) ∧
     try_ports A n port o =
       (upd_listening (cons (MkAddr "tcp" ("127.0.0.1:" +:+ Itoa q))) o,
        Ret (MkAddr "tcp" ("127.0.0.1:" +:+ Itoa q)))) ∨
  ((∀ p, port ≤ p < port + Z.of_nat n → bind_tcp A p = None) ∧
   try_ports A n port o = (o, Err (Errorf "couldn't bind plugin TCP listener" []))).
Proof.
  revert port. induction n as [|n IH]; intros port; [right; split; [lia|done]|].
  simpl. destruct (bind_tcp A port) as [q|] eqn:Hq.
  - left. exists port, q. split_and!; [lia|lia|done|lia|done].
  - destruct (IH (port + 1)) as [(p & q & Hp & Hb & Hn & ->)|[Hn ->]].
    + left. exists p, q. split_and!; [lia|lia|done| |done].
      intros p' Hp'. destruct (decide (p' = port)) as [->|]; [done|]. apply Hn. lia.
    + right. split; [|done]. intros p Hp. destruct (decide (p = port)) as [->|]; [done|].
      apply Hn. lia.
Qed.

Lemma parse_port_bound env name p : parse_port env name = Ret p → - 2 ^ 31 ≤ p < 2 ^ 31.
Proof.
  unfold parse_port. case_decide; [intros [= <-]; lia|].
  destruct (ParseInt 32 _) as [z| |] eqn:H'; [|done..]. intros [= <-].
  by apply ParseInt_bound in H'.
Qed.

Lemma syscall_Ret f e o o' u : syscall e f o = (o', Ret u) → e = None ∧ o' = f o.
Proof. unfold syscall. destruct e; [done|]. by intros [= <-]. Qed.

Lemma Remove_Ret A path o o' u :
  Remove A path o = (o', Ret u) → is_Some (files o !! path) ∧ o' = upd_files (delete path) o.
Proof.
  unfold Remove. intros (o1 & o1' & [= <- <-] & H)%GoM_bind_Ret.
  destruct (files o !! path); [|done]. apply syscall_Ret in H as [_ ->]. eauto.
Qed.

Lemma chown_gid_set gid old : 0 ≤ gid < 2 ^ 32 - 1 → chown_gid gid old = Some gid.
Proof.
  intros Hg. unfold chown_gid, uint32. rewrite Z.mod_small by lia. rewrite decide_False by lia. done.
Qed.

Lemma setGroupWritable_Ret A path g mode o o' u :
  setGroupWritable A path g mode o = (o', Ret u) →
  ∃ gid, group_id A g = Ret gid ∧
    o' = upd_files (alter (with_mode mode) path) (upd_files (alter (with_group gid) path) o).
Proof.
  unfold setGroupWritable. intros (o1 & gid & [= <- Hg] & H)%GoM_bind_Ret.
  apply GoM_bind_Ret in H as (o2 & [] & [_ ->]%syscall_Ret & [_ ->]%syscall_Ret). eauto.
Qed.

Lemma os_CreateTemp_Ret A dir pattern o o' path :
  os_CreateTemp A dir pattern o = (o', Ret path) →
  CreateTemp A dir pattern = Ret path ∧ files o !! path = None ∧
  o' = upd_files (<[path := MkFile Regular None 384]>) o.
Proof.
  unfold os_CreateTemp. intros (o1 & p & [= <- Hp] & H)%GoM_bind_Ret.
  apply GoM_bind_Ret in H as (o2 & o2' & [= <- <-] & H). case_bool_decide as Hf; [done|].
  apply GoM_bind_Ret in H as (o3 & [] & [= <-] & [= <- <-]).
  split_and!; [done|by apply eq_None_not_Some|done].
Qed.

(** Everything up to the permissions of the socket. *)
Lemma serverListenerUnix_listen A cfg o path :
  CreateTemp A (socketDir cfg) "plugin" = Ret path → files o !! path = None →
  close_fails A = None → remove_fails A = None → listen_fails A = None →
  let o1 := MkOS (<[path := MkFile Socket None 493]> (files o)) (MkAddr "unix" path :: listening o) in
  serverListenerUnix A cfg o =
    bind (if decide (Group cfg = "") then ret tt else setGroupWritable A path (Group cfg) 432)
      (λ _, ret (newDeleteFileListener (MkAddr "unix" path) path)) o1.
Proof.
  intros Hp Hf Hc Hr Hl o1. unfold serverListenerUnix, os_CreateTemp, bind at 1 2 3 4 5 6 7 8. unfold lift, modify, get, ret at 1.
  rewrite Hp. rewrite bool_decide_false by (rewrite Hf; by intros [? [=]]). rewrite Hc. cbn [syscall]. unfold modify, Remove, bind at 1, get. cbn [files upd_files id].
  rewrite lookup_insert_eq, Hr. cbn [syscall]. rewrite Hl. cbn [syscall].
  unfold modify, upd_listening, upd_files. cbn [files listening].
  rewrite delete_insert_eq, insert_delete_eq. done.
Qed.

Lemma serverListenerUnix_spec A cfg o o' l :
  serverListenerUnix A cfg o = (o', Ret l) →
  ∃ path f, CreateTemp A (socketDir cfg) "plugin" = Ret path ∧
    l = MkRmListener (MkAddr "unix" path) path ∧
    listening o' = MkAddr "unix" path :: listening o ∧
    files o !! path = None ∧ files o' !! path = Some f ∧ file_kind f = Socket ∧
    (Group cfg ≠ "" → ∃ gid, group_id A (Group cfg) = Ret gid ∧ file_mode f = 432 ∧
       (0 ≤ gid < 2 ^ 32 - 1 → file_gid f = Some gid) ∧ (gid = -1 → file_gid f = None)) ∧
    (∀ q, q ≠ path → files o' !! q = files o !! q).
Proof.
  intros H. unfold serverListenerUnix in H.
  apply GoM_bind_Ret in H as (o1 & path & (Hp & Hfree & ->)%os_CreateTemp_Ret & H).
  apply GoM_bind_Ret in H as (o3 & [] & [Hc ->]%syscall_Ret & H).
  apply GoM_bind_Ret in H as (o4 & [] & [_ ->]%Remove_Ret & H).
  apply GoM_bind_Ret in H as (o5 & [] & [Hl ->]%syscall_Ret & H).
  apply GoM_bind_Ret in H as (o6 & [] & Hg & [= <- <-]).
  unfold newDeleteFileListener. exists path. case_decide as Hgr.
  - injection Hg as <-. exists (MkFile Socket None 493). split_and!; try done.
    + by simpl; simplify_map_eq.
    + intros q Hq. simpl. by simplify_map_eq.
  - apply setGroupWritable_Ret in Hg as (gid & Hgid & ->).
    exists (MkFile Socket (chown_gid gid None) 432). split_and!; try done.
    + simpl. rewrite !lookup_alter_eq. by simplify_map_eq.
    + intros _. exists gid. split_and!; [done|done|apply chown_gid_set|by intros ->].
    + intros q Hq. simpl. rewrite !lookup_alter_ne by done. by simplify_map_eq.
Qed.

Lemma rmListener_Close_unix A path o :
  close_fails A = None → MkAddr "unix" path ∈ listening o →
  ∃ o', rmListener_Close A (MkRmListener (MkAddr "unix" path) path) o = (o', Err ErrNotExist) ∧
    files o' = delete path (files o) ∧
    listening o' = filter (λ b, b ≠ MkAddr "unix" path) (listening o).
Proof.
  intros Hc Hin. unfold rmListener_Close, Listener_Close, bind, get. cbn [rm_Listener rm_path].
  rewrite bool_decide_false by (intros Hx; by apply Hx). rewrite Hc. cbn [syscall]. unfold modify, Remove, bind, get.
  cbn [Network Address]. rewrite decide_True by done. cbn [files upd_files upd_listening].
  rewrite lookup_delete_eq. by eexists.
Qed.

(** ** Properties *)

(** The TCP listener takes the first port of the configured range that can
    be bound, and fails with its own error, leaving nothing behind, when none
    can; the bounds are 32-bit integers, so the loop counter cannot overflow. *)
Theorem serverListenerTCP_first A env o mn mx :
  parse_port env "PLUGIN_MIN_PORT" = Ret mn → parse_port env "PLUGIN_MAX_PORT" = Ret mx →
  mn ≤ mx →
  - 2 ^ 31 ≤ mn ∧ mx + 1 ≤ 2 ^ 31 ∧
  ((∃ p q, mn ≤ p ≤ mx ∧ bind_tcp A p = Some q ∧
      (∀ p', mn ≤ p' < p → bind_tcp A p' = None) ∧
      serverListenerTCP A env o =
        (upd_listening (cons (MkAddr "tcp" ("127.0.0.1:" +:+ Itoa q))) o,
         Ret (MkAddr "tcp" ("127.0.0.1:" +:+ Itoa q)))) ∨
   ((∀ p, mn ≤ p ≤ mx → bind_tcp A p = None) ∧
    serverListenerTCP A env o = (o, Err (Errorf "couldn't bind plugin TCP listener" [])))).
Proof.
  intros Hmn Hmx Hle. pose proof (parse_port_bound _ _ _ Hmn). pose proof (parse_port_bound _ _ _ Hmx).
  split_and!; [lia..|]. unfold serverListenerTCP, bind, lift. rewrite Hmn, Hmx.
  rewrite bool_decide_false by lia.
  destruct (try_ports_spec A (Z.to_nat (mx - mn + 1)) mn o)
    as [(p & q & Hp & Hb & Hn & ->)|[Hn ->]].
  - left. exists p, q. split_and!; [lia..|done|done|done].
  - right. split; [|done]. intros p Hp. apply Hn. lia.
Qed.

(** C26: a Unix listener that is returned listens on a socket file at a path where
    no file was before; with a group configured the file has mode 0660 and
    belongs to that group (the group -1, which [os.Chown] takes for no change,
    leaves it as it was); no other file is touched. *)
Theorem serverListenerUnix_ok A cfg o o' l :
  serverListenerUnix A cfg o = (o', Ret l) →
  ∃ path f, CreateTemp A (socketDir cfg) "plugin" = Ret path ∧
    l = MkRmListener (MkAddr "unix" path) path ∧
    listening o' = MkAddr "unix" path :: listening o ∧
    files o !! path = None ∧ files o' !! path = Some f ∧ file_kind f = Socket ∧
    (Group cfg ≠ "" → ∃ gid, group_id A (Group cfg) = Ret gid ∧ file_mode f = 432 ∧
       (0 ≤ gid < 2 ^ 32 - 1 → file_gid f = Some gid) ∧ (gid = -1 → file_gid f = None)) ∧
    (∀ q, q ≠ path → files o' !! q = files o !! q).
Proof. apply serverListenerUnix_spec. Qed.

(** Closing the listener stops it and removes its socket file, but [Close]
    then reports that the file does not exist: the socket's own close has
    already unlinked it when [rmListener] removes it a second time. *)
Theorem rmListener_Close_spec A path o :
  close_fails A = None → MkAddr "unix" path ∈ listening o →
  ∃ o', rmListener_Close A (MkRmListener (MkAddr "unix" path) path) o = (o', Err ErrNotExist) ∧
    files o' = delete path (files o) ∧
    listening o' = filter (λ b, b ≠ MkAddr "unix" path) (listening o).
Proof. apply rmListener_Close_unix. Qed.

(** Closing a fresh listener restores the system as it was before. *)
Lemma serverListenerUnix_close A cfg o o1 r :
  serverListenerUnix A cfg o = (o1, Ret r) → close_fails A = None →
  files o !! rm_path r = None → rm_Listener r ∉ listening o →
  (rmListener_Close A r o1).1 = o ∧ (rmListener_Close A r o).1 = o.
Proof.
  intros H Hc Hfresh Hnl. apply serverListenerUnix_spec in H as (path & f & _ & -> & Hl & _ & Hf & _ & _ & Hrest).
  simpl in *. split.
  - destruct (rmListener_Close_unix A path o1 Hc) as (o' & -> & Hfo & Hlo); [rewrite Hl; left|].
    simpl. destruct o, o1, o'; simpl in *; subst. f_equal.
    + apply map_eq. intros q. destruct (decide (q = path)) as [->|Hq].
      * by rewrite lookup_delete_eq.
      * rewrite lookup_delete_ne by done. by apply Hrest.
    + rewrite filter_cons_False by (intros Hx; by apply Hx).
      apply filter_all. intros b Hb ->. done.
  - unfold rmListener_Close, Listener_Close, bind, get. simpl. by rewrite bool_decide_true.
Qed.

(** When the permissions of the socket cannot be set, the error is
    returned but the socket stays open and its file stays behind. *)
Theorem serverListenerUnix_leak A cfg o path e :
  CreateTemp A (socketDir cfg) "plugin" = Ret path → files o !! path = None →
  close_fails A = None → remove_fails A = None → listen_fails A = None →
  Group cfg ≠ "" → group_id A (Group cfg) = Err e →
  ∃ o', serverListenerUnix A cfg o = (o', Err e) ∧
    MkAddr "unix" path ∈ listening o' ∧ is_Some (files o' !! path).
Proof.
  intros Hp Hf Hc Hr Hl Hg Hid. rewrite (serverListenerUnix_listen A cfg o path) by done.
  rewrite decide_False by done. unfold bind at 1, setGroupWritable, bind, lift. rewrite Hid.
  eexists. split_and!; [done|left|]. simpl. rewrite lookup_insert_eq. eauto.
Qed.

(** ** Concrete instances *)

(** A POSIX system on which everything works, ports below 10002 are taken and
    the group database knows one group. *)
Definition ex_os : OSAnswers :=
  MkOSAnswers "linux" (λ d p, Ret (d +:+ "/" +:+ p +:+ "123")) None None None
    (λ g, if decide (g = "plugins") then Ret "1000" else Err (ErrExt "unknown group"))
    None None (λ p, if bool_decide (10002 ≤ p) then Some p else None).
Definition ex_ports : environ := {[ "PLUGIN_MIN_PORT" := "10000"; "PLUGIN_MAX_PORT" := "10005" ]}.

Example serverListenerTCP_first_witness :
  serverListenerTCP ex_os ex_ports (MkOS ∅ []) =
  (MkOS ∅ [MkAddr "tcp" "127.0.0.1:10002"], Ret (MkAddr "tcp" "127.0.0.1:10002")).
Proof.
  destruct (serverListenerTCP_first ex_os ex_ports (MkOS ∅ []) 10000 10005)
    as (_ & _ & [(p & q & Hp & Hb & Hn & ->)|[Hn _]]); [vm_compute; reflexivity..|lia| |].
  - assert (p = 10002) as ->.
    { destruct (decide (p < 10002)); [unfold ex_os in Hb; cbn in Hb; by rewrite bool_decide_false in Hb by lia|].
      destruct (decide (10002 < p)); [|lia]. by specialize (Hn 10002 ltac:(lia)). }
    unfold ex_os in Hb. cbn in Hb. injection Hb as <-. reflexivity.
  - by specialize (Hn 10002 ltac:(lia)).
Defined.

Definition ex_group_cfg : UnixSocketConfig := MkUnixSocket "plugins" "" "/tmp".

Example serverListenerUnix_ok_witness :
  ∃ path f, CreateTemp ex_os "/tmp" "plugin" = Ret path ∧
    (serverListenerUnix ex_os ex_group_cfg (MkOS ∅ [])).2 =
      Ret (MkRmListener (MkAddr "unix" path) path) ∧
    file_kind f = Socket ∧ file_mode f = 432 ∧ file_gid f = Some 1000.
Proof.
  destruct (serverListenerUnix_ok ex_os ex_group_cfg (MkOS ∅ [])
    (serverListenerUnix ex_os ex_group_cfg (MkOS ∅ [])).1
    (MkRmListener (MkAddr "unix" "/tmp/plugin123") "/tmp/plugin123"))
    as (path & f & Hp & Hl & _ & _ & _ & Hk & Hg & _); [vm_compute; reflexivity|].
  destruct Hg as (gid & Hgid & Hm & Hset & _); [discriminate|].
  assert (gid = 1000) as -> by (vm_compute in Hgid; congruence).
  exists path, f. split_and!; [exact Hp| |exact Hk|exact Hm|by apply Hset].
  rewrite <- Hl. vm_compute. reflexivity.
Defined.

Example rmListener_Close_spec_witness :
  ∃ o', rmListener_Close ex_os (MkRmListener (MkAddr "unix" "/tmp/p") "/tmp/p")
      (MkOS {[ "/tmp/p" := MkFile Socket None 493 ]} [MkAddr "unix" "/tmp/p"]) =
      (o', Err ErrNotExist) ∧
    files o' = delete "/tmp/p" {[ "/tmp/p" := MkFile Socket None 493 ]} ∧
    listening o' = filter (λ b, b ≠ MkAddr "unix" "/tmp/p") [MkAddr "unix" "/tmp/p"].
Proof. apply (rmListener_Close_spec ex_os "/tmp/p"); [reflexivity|left]. Defined.

Example serverListenerUnix_leak_witness :
  ∃ o', serverListenerUnix ex_os (MkUnixSocket "nobody" "" "/tmp") (MkOS ∅ []) =
      (o', Err (Wrapf "failed to find gid from %q: %w" ["nobody"] (ErrExt "unknown group"))) ∧
    MkAddr "unix" "/tmp/plugin123" ∈ listening o' ∧ is_Some (files o' !! "/tmp/plugin123").
Proof.
  apply (serverListenerUnix_leak ex_os (MkUnixSocket "nobody" "" "/tmp")); try reflexivity.
  discriminate.
Defined.
