(* ===== verification/Serve.v ===== *)
(** * [Serve]

    The whole of [Serve] of server.go, the entry point of a plugin process:
    cookie check, negotiation, listener, TLS, pipes, protocol server, handshake
    output, redirection of the standard files, and the deferred clean-up, with
    every early exit; and [ServeMux] of server_mux.go.  [GRPCServer.Init]
    (grpc_server.go) is modelled as far as it can fail. *)

From S2P Require Import Prelude GoStd Mtls Config Negotiate ClientData Handshake Listener.

(** ** Data *)

(** The listener variable of [Serve]: the plain listener, wrapped by TLS, or
    replaced by the gRPC multiplexer. *)
Inductive ServeListener : Type :=
| Plain (l : Listener)
| TLSListener (l : Listener)
| MuxListener (l : Listener).

Definition inner_listener (l : ServeListener) : Listener :=
  match l with Plain l | TLSListener l | MuxListener l => l end.

(** The protocol server [Serve] builds. *)
Inductive ServerProtocol : Type :=
| RPCServer (Plugins : PluginSet)
| GRPCServer (Plugins : PluginSet) (TLS : option TLSConfig) (muxer : bool).

(** A [return], or a direct [os.Exit], which skips the deferred functions. *)
Inductive stop : Type := SReturn | SExit (code : Z).

(** The answers of the environment: the operating system's, the process
    environment, the cryptographic libraries and what [generateCert] draws, the
    two pipes, the process id and how serving ends. *)
Inductive ServeEnd : Type := ContextDone | ServerDone.
Record ServeAnswers : Type := MkServeAnswers {
  sa_os : OSAnswers;
  sa_env : environ;
  sa_crypto : Crypto;
  sa_cert : CertAnswers;
  sa_pipe_stdout : option error;
  sa_pipe_stderr : option error;
  sa_Getpid : Z;
  sa_end : ServeEnd
}.

(** The variables [os.Stdout] and [os.Stderr], which always change together:
    what they are bound to, what has been printed into the pipe, and the files
    the deferred function of the test mode was given to restore. *)
Inductive StdFiles : Type := ProcessFiles | PipeFiles.
Record Stdio : Type := MkStdio {
  std_files : StdFiles;
  std_piped : string;
  std_restore : option StdFiles
}.

(** [sw_stdout] and [sw_stderr] are what reached the process's own files: the
    host reads the handshake line from the first. *)
Record ServeWorld : Type := MkServeWorld {
  sw_os : OS;
  sw_opts : ServeConfig;
  sw_stdout : string;
  sw_stderr : list string;
  sw_exitCode : Z;
  sw_listener : option ServeListener;
  sw_reattach : option ReattachConfig;
  sw_serving : option ServerProtocol;
  sw_stdio : Stdio
}.

Definition set_sw_os v w := MkServeWorld v (sw_opts w) (sw_stdout w) (sw_stderr w) (sw_exitCode w)
  (sw_listener w) (sw_reattach w) (sw_serving w) (sw_stdio w).
Definition set_sw_opts v w := MkServeWorld (sw_os w) v (sw_stdout w) (sw_stderr w) (sw_exitCode w)
  (sw_listener w) (sw_reattach w) (sw_serving w) (sw_stdio w).
Definition set_sw_stdout v w := MkServeWorld (sw_os w) (sw_opts w) v (sw_stderr w)
  (sw_exitCode w) (sw_listener w) (sw_reattach w) (sw_serving w) (sw_stdio w).
Definition print_stderr msgs w := MkServeWorld (sw_os w) (sw_opts w) (sw_stdout w)
  (sw_stderr w ++ msgs) (sw_exitCode w) (sw_listener w) (sw_reattach w) (sw_serving w) (sw_stdio w).
Definition set_exitCode v w := MkServeWorld (sw_os w) (sw_opts w) (sw_stdout w) (sw_stderr w) v
  (sw_listener w) (sw_reattach w) (sw_serving w) (sw_stdio w).
Definition set_sw_listener v w := MkServeWorld (sw_os w) (sw_opts w) (sw_stdout w) (sw_stderr w)
  (sw_exitCode w) (Some v) (sw_reattach w) (sw_serving w) (sw_stdio w).
Definition send_reattach v w := MkServeWorld (sw_os w) (sw_opts w) (sw_stdout w) (sw_stderr w)
  (sw_exitCode w) (sw_listener w) (Some v) (sw_serving w) (sw_stdio w).
Definition set_serving v w := MkServeWorld (sw_os w) (sw_opts w) (sw_stdout w) (sw_stderr w)
  (sw_exitCode w) (sw_listener w) (sw_reattach w) v (sw_stdio w).
Definition set_stdio v w := MkServeWorld (sw_os w) (sw_opts w) (sw_stdout w) (sw_stderr w)
  (sw_exitCode w) (sw_listener w) (sw_reattach w) (sw_serving w) v.

(** [fmt.Printf] writes to whatever [os.Stdout] is at that moment. *)
Definition print_stdout s w :=
  match std_files (sw_stdio w) with
  | ProcessFiles => set_sw_stdout (sw_stdout w +:+ s) w
  | PipeFiles => set_stdio (MkStdio PipeFiles (std_piped (sw_stdio w) +:+ s)
                              (std_restore (sw_stdio w))) w
  end.

(** [Serve] begins with no listener, nothing written and the exit code unset. *)
Definition start_world (o : OS) (opts : ServeConfig) : ServeWorld :=
  MkServeWorld o opts "" [] (-1) None None None (MkStdio ProcessFiles "" None).

(** ** Operations *)

(** A call on the operating system whose error ends [Serve] with [on_err]. *)
Definition on_os {A} (m : GoM OS error A) (on_err : error → list string)
    : GoM ServeWorld stop A := λ w,
  match m (sw_os w) with
  | (o, Ret a) => (set_sw_os o w, Ret a)
  | (o, Err e) => (print_stderr (on_err e) (set_sw_os o w), Err SReturn)
  | (o, Panic p) => (set_sw_os o w, Panic p)
  end.

(** Closing the listener variable: TLS wrapping closes what it wraps; the
    multiplexer only closes its session, not the listener it was built on. *)
Definition close_listener (A : OSAnswers) (l : ServeListener) (o : OS) : OS :=
  match l with
  | Plain (TCPListener a) | TLSListener (TCPListener a) => (Listener_Close A a o).1
  | Plain (UnixRmListener r) | TLSListener (UnixRmListener r) => (rmListener_Close A r o).1
  | MuxListener _ => o
  end.

Section Serve.
Context `{!MapRange string} `{!MapRange Z}.
Variable SA : ServeAnswers.

(** The registration loop of [GRPCServer.Init], in the map's order. *)
Fixpoint register_plugins (l : list (string * Plugin)) : option error :=
  match l with
  | [] => None
  | (k, p) :: l' =>
      if is_GRPCPlugin p then
        match GRPCServer_err p with
        | Some e => Some (Wrapf "error registering %q: %w" [k] e)
        | None => register_plugins l'
        end
      else Some (Errorf "%q is not a GRPC-compatible plugin" [k])
  end.

(** [ServerProtocol.Init]: net/rpc has nothing to initialise. *)
Definition server_Init (s : ServerProtocol) : option error :=
  match s with
  | RPCServer _ => None
  | GRPCServer Plugins _ _ => register_plugins (range (default ∅ Plugins))
  end.

(** The checks of the magic cookie, skipped in test mode. *)
Definition check_cookie : GoM ServeWorld stop unit :=
  w <- get;;
  let opts := sw_opts w in let h := srv_Handshake opts in
  if srv_Test opts then ret tt
  else if bool_decide (MagicCookieKey h = "" ∨ MagicCookieValue h = "") then
    modify (λ w, set_exitCode 1 (print_stderr ["Misconfigured ServeConfig given to serve this plugin: no magic cookie key or value was set."] w));;
    fail SReturn
  else if bool_decide (Getenv (sa_env SA) (MagicCookieKey h) ≠ MagicCookieValue h) then
    modify (λ w, set_exitCode 1 (print_stderr ["This binary is a plugin. These are not meant to be executed directly."] w));;
    fail SReturn
  else ret tt.

(** The TLS configuration and, for automatic mTLS, the certificate that goes
    into the handshake line. *)
Definition configure_tls : GoM ServeWorld stop (option TLSConfig * string) :=
  w <- get;;
  tlsConfig <- match srv_TLSProvider (sw_opts w) with
               | None => ret None
               | Some (Ret t) => ret t
               | Some (Err _) =>
                   modify (print_stderr ["plugin tls init"]);; fail SReturn
               | Some (Panic p) => lift (Panic p)
               end;;
  let clientCert := Getenv (sa_env SA) "PLUGIN_CLIENT_CERT" in
  match tlsConfig, decide (clientCert = "") with
  | Some _, right _ =>
      modify (λ w, set_exitCode 1 (print_stderr ["go-plugin: plugin is configured with TLSProvider but the host requested AutoMTLS (PLUGIN_CLIENT_CERT); these are incompatible"] w));;
      fail SReturn
  | None, right _ =>
      let clientCertPool := AppendCertsFromPEM (sa_crypto SA) clientCert in
      match '(certPEM, keyPEM) ← generateCert (sa_crypto SA) (sa_cert SA);
            X509KeyPair (sa_crypto SA) certPEM keyPEM with
      | Ret cert =>
          ret (Some (MkTLS cert true (Some clientCertPool) (Some clientCertPool) "localhost"),
               EncodeToString cert)
      | _ => lift (Panic "failed to generate or parse server certificate")
      end
  | t, left _ => ret (t, "")
  end.

(** The server for the negotiated protocol; it may replace the listener. *)
Definition build_server (protoType : Protocol) (pluginSet : PluginSet) (l : Listener)
    (tls : option TLSConfig) : GoM ServeWorld stop ServerProtocol :=
  if decide (protoType = ProtocolNetRPC) then
    (if tls then modify (set_sw_listener (TLSListener l)) else ret tt);;
    ret (RPCServer pluginSet)
  else if decide (protoType = ProtocolGRPC) then
    let multiplex := match ParseBool (Getenv (sa_env SA) envMultiplexGRPC) with
                     | Ret b => b | _ => false end in
    (if multiplex then modify (set_sw_listener (MuxListener l)) else ret tt);;
    ret (GRPCServer pluginSet tls multiplex)
  else lift (Panic ("unknown server protocol: " +:+ protoType)).

(** The address goes to stdout, or in test mode to the reattach channel. *)
Definition announce (protoVersion : Z) (protoType : Protocol) (l : Listener) (serverCert : string)
    (w : ServeWorld) : ServeWorld :=
  match srv_Test (sw_opts w) with
  | None => print_stdout
      (handshake_output (sa_env SA) protoVersion (Listener_Addr l) protoType serverCert) w
  | Some t =>
      if test_ReattachConfigCh t then
        send_reattach (MkReattach protoType protoVersion (Some (Listener_Addr l))
          (sa_Getpid SA) None true) w
      else w
  end.

(** [os.Stdout] and [os.Stderr] become the write ends of the pipes, in the test
    mode only on request and with a deferred function that restores them. *)
Definition redirect_stdio (w : ServeWorld) : ServeWorld :=
  let std := sw_stdio w in
  match srv_Test (sw_opts w) with
  | None => set_stdio (MkStdio PipeFiles (std_piped std) (std_restore std)) w
  | Some t =>
      if test_SyncStdio t then set_stdio (MkStdio PipeFiles (std_piped std) (Some (std_files std))) w
      else w
  end.

Definition pipe (answer : option error) : GoM ServeWorld stop unit :=
  match answer with
  | Some _ => modify (print_stderr ["Error preparing plugin"]);; fail (SExit 1)
  | None => ret tt
  end.

(** The [select] at the end leaves through [ctx.Done()]: only the test mode has
    a context that can be cancelled. *)
Definition ctx_done (opts : ServeConfig) : bool :=
  match sa_end SA, srv_Test opts with
  | ContextDone, Some t => test_Context t
  | _, _ => false
  end.

(** The cancelled context closes the listener. *)
Definition await_end (w : ServeWorld) : ServeWorld :=
  if ctx_done (sw_opts w)
  then set_sw_os (from_option (λ l, close_listener (sa_os SA) l (sw_os w)) (sw_os w) (sw_listener w)) w
  else w.

(** The part of [Serve] after the listener variable is set. *)
Definition Serve_rest (v : Z) (pt : Protocol) (ps : PluginSet) (l : Listener)
    : GoM ServeWorld stop unit :=
  tc <- configure_tls;;
  pipe (sa_pipe_stdout SA);;
  pipe (sa_pipe_stderr SA);;
  server <- build_server pt ps l tc.1;;
  match server_Init server with
  | Some _ => modify (print_stderr ["protocol init"]);; fail SReturn
  | None =>
      modify (announce v pt l tc.2);;
      modify redirect_stdio;;
      modify (set_serving (Some server));;
      modify await_end
  end.

Definition Serve_body : GoM ServeWorld stop unit :=
  check_cookie;;
  w <- get;;
  let '(msgs, opts', (protoVersion, protoType, pluginSet)) :=
    protocolVersion (sa_env SA) (sw_opts w) in
  modify (λ w, print_stderr msgs (set_sw_opts opts' w));;
  l <- on_os (serverListener (sa_os SA) (sa_env SA) (unixSocketConfigFromEnv (sa_env SA)))
         (λ _, ["plugin init error"]);;
  modify (set_sw_listener (Plain l));;
  Serve_rest protoVersion protoType pluginSet l.

(** How the call ends: the process exits, or [Serve] returns or panics (with
    the test mode's [CloseCh] closed or not). *)
Inductive ServeResult : Type :=
| ProcessExit (code : Z)
| Returned (closeCh : bool)
| Panicked (why : string) (closeCh : bool).

(** The deferred functions, the last one first: the standard files are
    restored, then the listener is closed. *)
Definition restore_stdio (w : ServeWorld) : ServeWorld :=
  match std_restore (sw_stdio w) with
  | Some f => set_stdio (MkStdio f (std_piped (sw_stdio w)) None) w
  | None => w
  end.

Definition run_deferred (w : ServeWorld) : ServeWorld :=
  let w := restore_stdio w in
  match sw_listener w with
  | Some l => set_sw_os (close_listener (sa_os SA) l (sw_os w)) w
  | None => w
  end.

Definition closes_CloseCh (w : ServeWorld) : bool :=
  match srv_Test (sw_opts w) with Some t => test_CloseCh t | None => false end.

Definition Serve (w : ServeWorld) : ServeWorld * ServeResult :=
  match Serve_body w with
  | (w', Err (SExit code)) => (w', ProcessExit code)
  | (w', Panic p) => (run_deferred w', Panicked p (closes_CloseCh w'))
  | (w', _) =>
      let w'' := run_deferred w' in
      match srv_Test (sw_opts w'') with
      | None => if bool_decide (0 ≤ sw_exitCode w'') then (w'', ProcessExit (sw_exitCode w''))
                else (w'', Returned false)
      | Some _ => (w'', Returned (closes_CloseCh w''))
      end
  end.

(** [ServeMux]: the plugin is chosen by the one command-line argument; without
    it nothing but the message to stderr happens. *)
Definition ServeMux (Args : list string) (m : gmap string ServeConfig) (o : OS)
    : (list string + ServeWorld) * ServeResult :=
  match Args with
  | [_; name] =>
      match m !! name with
      | Some opts => let '(w, r) := Serve (start_world o opts) in (inr w, r)
      | None => (inl ["Unknown plugin: " +:+ name], ProcessExit 1)
      end
  | _ => (inl ["Invoked improperly. This is an internal command that shouldn't be manually invoked."],
          ProcessExit 1)
  end.
End Serve.

(** ** Lemmas *)

(** The operating system and the listener variable are left alone. *)
Definition same_os (w w' : ServeWorld) : Prop :=
  sw_os w' = sw_os w ∧ sw_listener w' = sw_listener w.
#[export] Instance same_os_preorder : PreOrder same_os.
Proof. split; [by intros ?|]. intros ??? [] []. split; congruence. Qed.

Lemma configure_tls_keeps SA : keeps same_os (configure_tls SA).
Proof. unfold configure_tls. solve_keeps ltac:(by split). Qed.
Lemma pipe_keeps e : keeps same_os (pipe e).
Proof. unfold pipe. solve_keeps ltac:(by split). Qed.

(** Neither announcing nor redirecting touches them either. *)
Lemma announce_os SA v pt l cert w : same_os w (announce SA v pt l cert w).
Proof. unfold announce, print_stdout. repeat case_match; by split. Qed.
Lemma redirect_os w : same_os w (redirect_stdio w).
Proof. unfold redirect_stdio. repeat case_match; by split. Qed.
Lemma check_cookie_keeps SA : keeps same_os (check_cookie SA).
Proof. unfold check_cookie. solve_keeps ltac:(by split). Qed.

(** Whether the client asked for multiplexing, as [build_server] reads it. *)
Definition multiplex_requested (SA : ServeAnswers) : bool :=
  match ParseBool (Getenv (sa_env SA) envMultiplexGRPC) with Ret b => b | _ => false end.

(** The listener variable wraps [l], by the multiplexer only if requested. *)
Definition wraps (SA : ServeAnswers) (l : Listener) (w : ServeWorld) : Prop :=
  ∃ sl, sw_listener w = Some sl ∧ inner_listener sl = l ∧
    (sl = MuxListener l → multiplex_requested SA = true).

Lemma build_server_wraps SA pt ps l tls w :
  wraps SA l w →
  let w' := (build_server SA pt ps l tls w).1 in sw_os w' = sw_os w ∧ wraps SA l w'.
Proof.
  intros Hw. unfold build_server. case_decide; [|case_decide; [|done]].
  - destruct tls; [|done]. split; [done|]. by exists (TLSListener l).
  - change (match ParseBool _ with Ret b => b | _ => false end) with (multiplex_requested SA).
    destruct (multiplex_requested SA) eqn:Hm; [|done]. split; [done|]. by exists (MuxListener l).
Qed.

(** What the body of [Serve] has done to the operating system when it ends,
    in whatever way, after the listener was created. *)
Definition served (SA : ServeAnswers) (l : Listener) (o : OS) (w : ServeWorld) : Prop :=
  ∃ sl, sw_listener w = Some sl ∧ inner_listener sl = l ∧
    (sl = MuxListener l → multiplex_requested SA = true) ∧
    (sw_os w = o ∨ sw_os w = close_listener (sa_os SA) sl o).

Lemma wraps_served SA l w : wraps SA l w → served SA l (sw_os w) w.
Proof. intros (sl & ? & ? & ?). exists sl. auto. Qed.

Lemma same_os_wraps SA l w w' : same_os w w' → wraps SA l w → wraps SA l w' ∧ sw_os w' = sw_os w.
Proof. intros [? ?] (sl & ? & ? & ?). split; [|done]. exists sl. split_and!; [congruence|done..]. Qed.

(** A step that keeps the system, followed by one that is served. *)
Lemma served_bind {A B} SA l (m : GoM ServeWorld stop A) (f : A → GoM ServeWorld stop B) w :
  keeps same_os m → wraps SA l w →
  (∀ a w', wraps SA l w' → sw_os w' = sw_os w → served SA l (sw_os w) (f a w').1) →
  served SA l (sw_os w) (bind m f w).1.
Proof.
  intros Hm Hw Hf. unfold bind. specialize (Hm w).
  destruct (m w) as [w' r]; simpl in Hm. destruct (same_os_wraps SA l _ _ Hm Hw) as [Hw' Ho].
  destruct r; simpl; [auto|..]; rewrite <- Ho; by apply wraps_served.
Qed.

Section body.
Context `{!MapRange string} `{!MapRange Z}.

Lemma Serve_rest_served SA v pt ps l w :
  wraps SA l w → served SA l (sw_os w) (Serve_rest SA v pt ps l w).1.
Proof.
  intros Hw. unfold Serve_rest.
  apply served_bind; [apply configure_tls_keeps|done|]. intros tc w1 Hw1 Ho1. rewrite <- Ho1.
  apply served_bind; [apply pipe_keeps|done|]. intros _ w2 Hw2 Ho2. rewrite <- Ho2.
  apply served_bind; [apply pipe_keeps|done|]. intros _ w3 Hw3 Ho3. rewrite <- Ho3.
  unfold bind at 1. destruct (build_server_wraps SA pt ps l tc.1 w3 Hw3) as [Ho4 Hw4].
  destruct (build_server _ _ _ _ _ w3) as [w4 r]; simpl in *. rewrite <- Ho4.
  destruct r as [server|e|p]; simpl; [|by apply wraps_served..].
  destruct (server_Init server).
  { apply served_bind; [apply keeps_modify; by split|done|].
    intros _ w5 Hw5 <-. by apply wraps_served. }
  apply served_bind; [apply keeps_modify, announce_os|done|]. intros _ w5 Hw5 Ho5. rewrite <- Ho5.
  apply served_bind; [apply keeps_modify, redirect_os|done|]. intros _ w5' Hw5' Ho5'. rewrite <- Ho5'.
  apply served_bind; [apply keeps_modify; by split|done|]. intros _ w6 Hw6 Ho6. rewrite <- Ho6.
  unfold modify, await_end. simpl. destruct (ctx_done SA (sw_opts w6)); [|by apply wraps_served].
  destruct Hw6 as (sl & Hsl & ? & ?). exists sl. simpl. rewrite Hsl. simpl. auto.
Qed.
End body.

Section outcomes.
Context `{!MapRange string} `{!MapRange Z}.

(** Nothing has been announced or redirected yet, nothing serves, and the
    configuration of the test mode is the original one. *)
Record silent (w w' : ServeWorld) : Prop := MkSilent {
  sl_stdout : sw_stdout w' = sw_stdout w;
  sl_reattach : sw_reattach w' = sw_reattach w;
  sl_test : srv_Test (sw_opts w') = srv_Test (sw_opts w);
  sl_serving : sw_serving w' = sw_serving w;
  sl_stdio : sw_stdio w' = sw_stdio w
}.

#[export] Instance silent_preorder : PreOrder silent.
Proof. split; [by split|]. intros ??? [] []. split; congruence. Qed.

Lemma silent_body SA :
  keeps silent (check_cookie SA) ∧ keeps silent (configure_tls SA) ∧
  (∀ e, keeps silent (pipe e)) ∧
  (∀ pt ps l t, keeps silent (build_server SA pt ps l t)) ∧
  (∀ A (m : GoM OS error A) f, keeps silent (on_os m f)).
Proof.
  split_and!; intros.
  - unfold check_cookie. solve_keeps ltac:(by split).
  - unfold configure_tls. solve_keeps ltac:(by split).
  - unfold pipe. solve_keeps ltac:(by split).
  - unfold build_server. solve_keeps ltac:(by split).
  - intros w. unfold on_os. destruct (m (sw_os w)) as [o []]; by split.
Qed.

(** [Serve_rest] ends early and in silence, or it announces, redirects, serves
    and waits, in this order. *)
Definition serves (SA : ServeAnswers) (v : Z) (pt : Protocol) (ps : PluginSet) (l : Listener)
    (w w' : ServeWorld) : Prop :=
  ∃ server cert tls w3 w4, build_server SA pt ps l tls w3 = (w4, Ret server) ∧
    server_Init server = None ∧ silent w w4 ∧
    w' = await_end SA (set_serving (Some server) (redirect_stdio (announce SA v pt l cert w4))).

Lemma Serve_rest_outcome SA v pt ps l w :
  let w' := (Serve_rest SA v pt ps l w).1 in silent w w' ∨ serves SA v pt ps l w w'.
Proof.
  destruct (silent_body SA) as (_ & Htls & Hpipe & Hbuild & _).
  set (Q w' := silent w w' ∨ serves SA v pt ps l w w'). change (Q (Serve_rest SA v pt ps l w).1).
  unfold Serve_rest. apply (post_bind silent); [done|by left|]. intros tc w1 H1 _.
  apply (post_bind silent); [done|left; by etrans|]. intros _ w2 H2 _.
  assert (silent w w2) as H02 by (by etrans). clear H1 H2.
  apply (post_bind silent); [done|left; by etrans|]. intros _ w3 H3 _.
  assert (silent w w3) as H03 by (by etrans). clear H02 H3.
  apply (post_bind silent); [done|left; by etrans|]. intros server w4 H4 Hb.
  assert (silent w w4) as H04 by (by etrans). destruct (server_Init server) eqn:Hi.
  - left. etrans; [exact H04|]. by split.
  - right. by exists server, tc.2, tc.1, w3, w4.
Qed.

(** What has been announced when the body ends: nothing, or the handshake line
    on stdout outside the test mode, or the reattach configuration in it, and
    only by a server that initialised and serves. *)
Definition announced (SA : ServeAnswers) (w w' : ServeWorld) : Prop :=
  let '(v, pt, ps) := (protocolVersion (sa_env SA) (sw_opts w)).2 in
  (sw_stdout w' = sw_stdout w ∧ sw_reattach w' = sw_reattach w) ∨
  (∃ l cert server, server_Init server = None ∧ sw_serving w' = Some server ∧
     ((srv_Test (sw_opts w) = None ∧ sw_reattach w' = sw_reattach w ∧
       sw_stdout w' = sw_stdout w +:+ handshake_output (sa_env SA) v (Listener_Addr l) pt cert) ∨
      (is_Some (srv_Test (sw_opts w)) ∧ sw_stdout w' = sw_stdout w ∧
       (sw_reattach w' = sw_reattach w ∨ sw_reattach w' =
         Some (MkReattach pt v (Some (Listener_Addr l)) (sa_Getpid SA) None true))))).

(** The deferred functions: what they leave alone, and what they do. *)
Lemma run_deferred_frame SA w :
  let w' := run_deferred SA w in
  sw_stdout w' = sw_stdout w ∧ sw_reattach w' = sw_reattach w ∧ sw_serving w' = sw_serving w ∧
  sw_opts w' = sw_opts w ∧ sw_exitCode w' = sw_exitCode w ∧
  sw_os w' = from_option (λ l, close_listener (sa_os SA) l (sw_os w)) (sw_os w) (sw_listener w) ∧
  std_files (sw_stdio w') = default (std_files (sw_stdio w)) (std_restore (sw_stdio w)).
Proof.
  unfold run_deferred, restore_stdio.
  destruct (std_restore (sw_stdio w)); destruct (sw_listener w) eqn:Hl; simpl; rewrite ?Hl; by split_and!.
Qed.

Lemma announced_deferred SA w w' : announced SA w w' → announced SA w (run_deferred SA w').
Proof.
  destruct (run_deferred_frame SA w') as (Ho & Hr & Hs & _). unfold announced. by rewrite Ho, Hr, Hs.
Qed.

(** What [redirect_stdio], serving and waiting leave alone. *)
Lemma await_end_frame SA server w :
  let w' := await_end SA (set_serving server (redirect_stdio w)) in
  sw_stdout w' = sw_stdout w ∧ sw_reattach w' = sw_reattach w ∧ sw_serving w' = server ∧
  sw_listener w' = sw_listener w ∧ sw_stdio w' = sw_stdio (redirect_stdio w).
Proof. simpl. unfold await_end, redirect_stdio. repeat case_match; by split_and!. Qed.

Lemma Serve_rest_announced SA v pt ps l w w0 :
  (protocolVersion (sa_env SA) (sw_opts w0)).2 = (v, pt, ps) →
  std_files (sw_stdio w0) = ProcessFiles → silent w0 w →
  announced SA w0 (Serve_rest SA v pt ps l w).1.
Proof.
  intros Hpv Hstd Hw. unfold announced. rewrite Hpv.
  destruct (Serve_rest_outcome SA v pt ps l w) as [Hs|(server & cert & tls & w3 & w4 & _ & Hi & Hs & ->)].
  { left. pose proof (transitivity Hw Hs) as [? ? _ _ _]. done. }
  pose proof (transitivity Hw Hs) as [Hout Hre Ht _ Hio]. right. exists l, cert, server.
  destruct (await_end_frame SA (Some server) (announce SA v pt l cert w4)) as (-> & -> & -> & _).
  do 2 (split; [done|]). unfold announce, print_stdout. rewrite Ht, Hio, Hstd.
  destruct (srv_Test (sw_opts w0)) as [t|]; [right|left; simpl; by rewrite Hout].
  destruct (test_ReattachConfigCh t); simpl; eauto.
Qed.

(** The silent part of the body, up to [Serve_rest]. *)
Lemma Serve_body_outcome SA w :
  let '(v, pt, ps) := (protocolVersion (sa_env SA) (sw_opts w)).2 in
  silent w (Serve_body SA w).1 ∨
  ∃ l w1, silent w w1 ∧ Serve_body SA w = Serve_rest SA v pt ps l w1.
Proof.
  destruct (silent_body SA) as (Hck & _ & _ & _ & Hos). specialize (Hck w).
  destruct (protocolVersion (sa_env SA) (sw_opts w)) as [[msgs opts'] [[v pt] ps]] eqn:Hpv. simpl.
  assert (srv_Test opts' = srv_Test (sw_opts w)) as Ht.
  { unfold protocolVersion in Hpv. destruct (clientVersions _). by simplify_eq. }
  unfold Serve_body, bind, get, modify.
  destruct (check_cookie SA w) as [w1 [[]|e|p]] eqn:Hcw; simpl in *; [|by left..].
  assert (w1 = w) as ->.
  { unfold check_cookie, bind, get, modify, fail, ret in Hcw. repeat case_match; by simplify_eq. }
  rewrite Hpv.
  set (w2 := print_stderr msgs (set_sw_opts opts' w)). assert (silent w w2) as H2 by (by split).
  specialize (Hos _ (serverListener (sa_os SA) (sa_env SA)
    (unixSocketConfigFromEnv (sa_env SA))) (λ _, ["plugin init error"]) w2).
  destruct (on_os _ _ w2) as [w3 [l|e|p]]; simpl in *; [|left; by etrans..].
  right. exists l, (set_sw_listener (Plain l) w3). split; [|done]. etrans; [exact H2|].
  etrans; [exact Hos|]. by split.
Qed.

Lemma Serve_body_announced SA w :
  std_files (sw_stdio w) = ProcessFiles → announced SA w (Serve_body SA w).1.
Proof.
  intros Hstd. pose proof (Serve_body_outcome SA w) as H.
  destruct (protocolVersion (sa_env SA) (sw_opts w)).2 as [[v pt] ps] eqn:Hpv.
  destruct H as [[Ho Hr _ _ _]|(l & w1 & Hs & ->)].
  - unfold announced. rewrite Hpv. by left.
  - by apply Serve_rest_announced.
Qed.
End outcomes.

Section whole.
Context `{!MapRange string} `{!MapRange Z}.

(** The listener [Serve] creates, and the system it creates it in. *)
Definition makes_listener (SA : ServeAnswers) (o o1 : OS) (l : Listener) : Prop :=
  serverListener (sa_os SA) (sa_env SA) (unixSocketConfigFromEnv (sa_env SA)) o = (o1, Ret l).

(** The cookie check lets [Serve] pass, or sets the exit code and returns. *)
Definition cookie_ok (SA : ServeAnswers) (opts : ServeConfig) : Prop :=
  is_Some (srv_Test opts) ∨
  (MagicCookieKey (srv_Handshake opts) ≠ "" ∧ MagicCookieValue (srv_Handshake opts) ≠ "" ∧
   Getenv (sa_env SA) (MagicCookieKey (srv_Handshake opts)) = MagicCookieValue (srv_Handshake opts)).

Lemma check_cookie_ok SA w : cookie_ok SA (sw_opts w) → check_cookie SA w = (w, Ret tt).
Proof.
  intros [[t Ht]|(Hk & Hv & He)]; unfold check_cookie, bind, get.
  - by rewrite Ht.
  - destruct (srv_Test (sw_opts w)); [done|].
    rewrite bool_decide_false by tauto. by rewrite bool_decide_false by (intros Hx; by apply Hx).
Qed.

Lemma check_cookie_bad SA w :
  ¬ cookie_ok SA (sw_opts w) → srv_Test (sw_opts w) = None ∧
  ∃ msg, check_cookie SA w = (set_exitCode 1 (print_stderr [msg] w), Err SReturn).
Proof.
  intros Hc. unfold cookie_ok in Hc. unfold check_cookie, bind, get, modify, fail.
  destruct (srv_Test (sw_opts w)) as [t|]; [destruct Hc; eauto|]. split; [done|].
  case_bool_decide; [by eexists|]. case_bool_decide as He; [by eexists|].
  destruct Hc. right. split_and!; [tauto..|done].
Qed.

(** With the cookie in order and a listener created, what is left of [Serve]
    is [Serve_rest], from a world in which nothing has been announced. *)
Lemma Serve_body_listens SA o o1 opts l :
  cookie_ok SA opts → makes_listener SA o o1 l →
  ∃ v pt ps w, (protocolVersion (sa_env SA) opts).2 = (v, pt, ps) ∧
    Serve_body SA (start_world o opts) = Serve_rest SA v pt ps l w ∧
    sw_os w = o1 ∧ sw_listener w = Some (Plain l) ∧ sw_serving w = None ∧ sw_exitCode w = -1 ∧
    srv_Test (sw_opts w) = srv_Test opts ∧ srv_TLSProvider (sw_opts w) = srv_TLSProvider opts ∧
    sw_stdout w = "" ∧ sw_stdio w = MkStdio ProcessFiles "" None.
Proof.
  intros Hc Hl. unfold Serve_body, bind at 1. rewrite (check_cookie_ok SA) by done.
  unfold bind at 1, get at 1. cbn [sw_opts start_world].
  destruct (protocolVersion (sa_env SA) opts) as [[msgs opts'] [[v pt] ps]] eqn:Hpv.
  unfold bind at 1, modify at 1, bind at 1, on_os. cbn [sw_os set_sw_opts print_stderr start_world].
  rewrite Hl. unfold bind, modify. eexists v, pt, ps, _. split; [done|]. split; [done|]. simpl.
  unfold protocolVersion in Hpv. destruct (clientVersions (sa_env SA)). by simplify_eq.
Qed.

(** The deferred functions, applied to the state the body leaves. *)
Lemma Serve_world SA w :
  (Serve SA w).1 = run_deferred SA (Serve_body SA w).1 ∨
  (∃ code, (Serve_body SA w).2 = Err (SExit code)).
Proof.
  unfold Serve. destruct (Serve_body SA w) as [w' [[]|[|c]|p]]; simpl; eauto.
  all: left; repeat case_match; done.
Qed.

(** Only the pipes exit the process on the spot. *)
Definition no_exit {A} (m : GoM ServeWorld stop A) : Prop := ∀ w code, (m w).2 ≠ Err (SExit code).

Lemma no_exit_bind {A B} (m : GoM ServeWorld stop A) (f : A → GoM ServeWorld stop B) :
  no_exit m → (∀ a, no_exit (f a)) → no_exit (bind m f).
Proof.
  intros Hm Hf w code. unfold bind. specialize (Hm w code).
  destruct (m w) as [w' [a|e|p]]; simpl in *; [apply Hf|congruence|done].
Qed.

Lemma Serve_body_no_exit SA :
  sa_pipe_stdout SA = None → sa_pipe_stderr SA = None → no_exit (Serve_body SA).
Proof.
  intros H1 H2.
  repeat first
    [ progress unfold Serve_body, Serve_rest, check_cookie, configure_tls, pipe, build_server, announce
    | rewrite H1 | rewrite H2
    | apply no_exit_bind; [|intros ?]
    | progress intros ??; done
    | case_match
    | intros w code; unfold on_os; destruct serverListener as [? []]; done
    | done ].
Qed.




(** A server with the multiplexer serves through it, whatever happens after. *)
Lemma build_server_mux SA pt ps l tls w w' ps' t :
  build_server SA pt ps l tls w = (w', Ret (GRPCServer ps' t true)) →
  sw_listener w' = Some (MuxListener l).
Proof.
  unfold build_server. case_decide; [by destruct tls|]. case_decide; [|done].
  unfold bind, modify, ret. destruct (ParseBool _) as [[]| |]; intros; by simplify_eq/=.
Qed.

Lemma Serve_rest_mux SA v pt ps l w ps' t :
  sw_serving w = None → sw_serving (Serve_rest SA v pt ps l w).1 = Some (GRPCServer ps' t true) →
  sw_listener (Serve_rest SA v pt ps l w).1 = Some (MuxListener l).
Proof.
  intros Hw. destruct (Serve_rest_outcome SA v pt ps l w)
    as [Hs|(server & cert & tls & w3 & w4 & Hb & _ & Hs & ->)]; [by rewrite (sl_serving _ _ Hs), Hw|].
  destruct (await_end_frame SA (Some server) (announce SA v pt l cert w4)) as (_ & _ & -> & -> & _).
  intros [= ->]. destruct (announce_os SA v pt l cert w4) as [_ ->]. by eapply build_server_mux.
Qed.

Lemma configure_tls_mixed SA w t :
  srv_TLSProvider (sw_opts w) = Some (Ret (Some t)) → Getenv (sa_env SA) "PLUGIN_CLIENT_CERT" ≠ "" →
  ∃ msg, configure_tls SA w = (set_exitCode 1 (print_stderr [msg] w), Err SReturn).
Proof.
  intros Ht Hc. unfold configure_tls, bind at 1, get. rewrite Ht. unfold bind at 1, ret at 1.
  destruct (decide _); [done|]. by eexists.
Qed.

(** The standard files when the body ends, in whatever way. *)
Lemma Serve_body_stdio SA o opts :
  let w := (Serve_body SA (start_world o opts)).1 in
  sw_serving w = None ∧ sw_stdio w = MkStdio ProcessFiles "" None ∨
  ∃ server, sw_serving w = Some server ∧
    sw_stdio w = match srv_Test opts with
                 | None => MkStdio PipeFiles "" None
                 | Some t => if test_SyncStdio t then MkStdio PipeFiles "" (Some ProcessFiles)
                             else MkStdio ProcessFiles "" None
                 end.
Proof.
  pose proof (Serve_body_outcome SA (start_world o opts)) as H. simpl.
  destruct (protocolVersion _ _).2 as [[v pt] ps]. destruct H as [Hs|(l & w1 & Hs & ->)].
  { left. by destruct Hs. }
  destruct (Serve_rest_outcome SA v pt ps l w1) as [Hs'|(server & cert & tls & w3 & w4 & _ & _ & Hs' & ->)].
  { left. by destruct (transitivity Hs Hs'). }
  right. exists server. destruct (transitivity Hs Hs') as [_ _ Ht _ Hio].
  destruct (await_end_frame SA (Some server) (announce SA v pt l cert w4)) as (_ & _ & -> & _ & ->).
  split; [done|]. unfold redirect_stdio, announce, print_stdout. rewrite Ht, Hio. simpl in *.
  destruct (srv_Test opts) as [t|]; simpl; [|by rewrite Ht, Hio].
  destruct (test_ReattachConfigCh t); simpl; rewrite Ht, Hio; by destruct (test_SyncStdio t).
Qed.
End whole.

(** ** Properties *)

Section properties.
Context `{!MapRange string} `{!MapRange Z}.

(** C25: a plugin binary that is not started by its host (no cookie configured,
    or the environment does not carry it) exits with status 1 before it
    creates a listener or writes anything to stdout. *)
Theorem Serve_cookie_guard SA o opts :
  srv_Test opts = None →
  MagicCookieKey (srv_Handshake opts) = "" ∨ MagicCookieValue (srv_Handshake opts) = "" ∨
    Getenv (sa_env SA) (MagicCookieKey (srv_Handshake opts)) ≠ MagicCookieValue (srv_Handshake opts) →
  let '(w, r) := Serve SA (start_world o opts) in
  r = ProcessExit 1 ∧ sw_os w = o ∧ sw_listener w = None ∧ sw_stdout w = "" ∧ sw_serving w = None.
Proof.
  intros Ht Hbad. destruct (check_cookie_bad SA (start_world o opts)) as (_ & msg & Hc).
  { intros [[t Hs]|(? & ? & ?)]; [simpl in Hs; congruence|]. simpl in *. tauto. }
  unfold Serve, Serve_body, bind at 1. rewrite Hc. unfold run_deferred. simpl. by rewrite Ht.
Qed.


(** A plugin that served with multiplexing leaves its socket open and its
    socket file in place when [Serve] returns: the listener variable is then
    the multiplexer, whose [Close] closes the session only. *)
Theorem Serve_mux_leak SA o o1 opts l ps t :
  cookie_ok SA opts → makes_listener SA o o1 l →
  sw_serving (Serve SA (start_world o opts)).1 = Some (GRPCServer ps t true) →
  sw_os (Serve SA (start_world o opts)).1 = o1.
Proof.
  intros Hc Hl. destruct (Serve_body_listens SA o o1 opts l Hc Hl)
    as (v & pt & ps' & w & _ & Hbody & Ho & Hsl & Hsv & _).
  assert (served SA l o1 (Serve_rest SA v pt ps' l w).1) as (sl & Hl1 & _ & _ & Hos).
  { rewrite <- Ho. apply Serve_rest_served. by exists (Plain l). }
  assert (∀ w', w' = (Serve_rest SA v pt ps' l w).1 → sw_serving w' = Some (GRPCServer ps t true) →
    sw_os w' = o1 ∧ sw_os (run_deferred SA w') = o1) as H.
  { intros w' -> Hs. pose proof (Serve_rest_mux SA v pt ps' l w ps t Hsv Hs) as Hml.
    rewrite Hml in Hl1. injection Hl1 as <-.
    destruct (run_deferred_frame SA (Serve_rest SA v pt ps' l w).1) as (_ & _ & _ & _ & _ & -> & _).
    rewrite Hml. simpl in *.
    by destruct Hos as [-> | ->]. }
  assert (∀ w', sw_serving (run_deferred SA w') = sw_serving w') as Hd
    by (intros w'; apply run_deferred_frame).
  unfold Serve. rewrite Hbody. clear Hl1 Hos.
  destruct (Serve_rest SA v pt ps' l w) as [w' [[]|[|c]|p]]; specialize (H w' eq_refl);
    cbn [fst snd]; repeat case_match; cbn [fst]; rewrite ?Hd; intros Hs; by apply H.
Qed.

(** The handshake line is printed at most once, after the protocol server
    has initialised and only outside the test mode; it announces the negotiated
    version and protocol. In the test mode stdout stays untouched and the
    reattach configuration is sent instead. *)
Theorem Serve_announces SA w :
  std_files (sw_stdio w) = ProcessFiles → announced SA w (Serve SA w).1.
Proof.
  intros Hstd. pose proof (Serve_body_announced SA w Hstd) as H.
  destruct (Serve_world SA w) as [->|(code & Hx)]; [by apply announced_deferred|].
  unfold Serve. destruct (Serve_body SA w) as [w' r]; simpl in *; subst r. done.
Qed.

(** A plugin that cannot create its listener does not exit with status 1: its
    [Serve] returns to [main] with nothing announced. *)
Theorem Serve_listener_failure SA o o1 opts e :
  cookie_ok SA opts → srv_Test opts = None →
  serverListener (sa_os SA) (sa_env SA) (unixSocketConfigFromEnv (sa_env SA)) o = (o1, Err e) →
  (Serve SA (start_world o opts)).2 = Returned false ∧ sw_stdout (Serve SA (start_world o opts)).1 = "".
Proof.
  intros Hc Ht Hl.
  assert (∃ w, Serve_body SA (start_world o opts) = (w, Err SReturn) ∧ sw_stdout w = "" ∧
    srv_Test (sw_opts w) = None ∧ sw_exitCode w = -1) as (w & Hb & Hout & Ht' & Hx).
  { unfold Serve_body, bind at 1. rewrite (check_cookie_ok SA) by done.
    unfold bind, get, modify, on_os. cbn [sw_opts start_world].
    destruct (protocolVersion (sa_env SA) opts) as [[msgs opts'] [[v pt] ps]] eqn:Hpv.
    cbn [sw_os set_sw_opts print_stderr start_world]. rewrite Hl. eexists. split; [done|]. simpl.
    unfold protocolVersion in Hpv. destruct (clientVersions (sa_env SA)). by simplify_eq. }
  destruct (run_deferred_frame SA w) as (Ho & _ & _ & Hopts & Hx' & _).
  unfold Serve. rewrite Hb, Hopts, Ht', Hx', Hx. simpl. by rewrite Ho.
Qed.

(** While the plugin serves, its standard output and error are the pipes to
    the host (in the test mode only on request), and nothing of the handshake
    was printed into them; a call in the test mode that returns or panics has
    put the process's own files back. *)
Theorem Serve_stdio SA o opts :
  let w := (Serve_body SA (start_world o opts)).1 in
  (std_files (sw_stdio w) = PipeFiles ↔
     is_Some (sw_serving w) ∧ from_option test_SyncStdio true (srv_Test opts) = true) ∧
  std_piped (sw_stdio w) = "" ∧
  (is_Some (srv_Test opts) → (∀ code, (Serve SA (start_world o opts)).2 ≠ ProcessExit code) →
   std_files (sw_stdio (Serve SA (start_world o opts)).1) = ProcessFiles).
Proof.
  intros w. split_and!.
  - destruct (Serve_body_stdio SA o opts) as [[Hsv Hio]|(server & Hsv & Hio)]; fold w in Hsv, Hio;
      rewrite Hsv, Hio; [split; [done|by intros [[? ?] _]]|].
    destruct (srv_Test opts) as [t|]; simpl; [destruct (test_SyncStdio t)|]; simpl; naive_solver.
  - destruct (Serve_body_stdio SA o opts) as [[_ Hio]|(server & _ & Hio)]; fold w in Hio; rewrite Hio;
      [done|by repeat case_match].
  - intros [t Ht] Hx. destruct (Serve_world SA (start_world o opts)) as [->|(code & Hc)].
    + fold w. destruct (run_deferred_frame SA w) as (_ & _ & _ & _ & _ & _ & ->).
      destruct (Serve_body_stdio SA o opts) as [[_ Hio]|(server & _ & Hio)]; fold w in Hio; rewrite Hio;
        [done|]. rewrite Ht. by destruct (test_SyncStdio t).
    + destruct (Hx code). unfold Serve. by destruct (Serve_body _ _) as [? ?]; simplify_eq/=.
Qed.

(** A plugin with its own TLS provider refuses a host that asks for
    automatic mTLS: it exits with status 1 and announces nothing. *)
Theorem Serve_rejects_mixed_tls SA o o1 opts l t :
  cookie_ok SA opts → makes_listener SA o o1 l → srv_Test opts = None →
  srv_TLSProvider opts = Some (Ret (Some t)) → Getenv (sa_env SA) "PLUGIN_CLIENT_CERT" ≠ "" →
  (Serve SA (start_world o opts)).2 = ProcessExit 1 ∧
  sw_stdout (Serve SA (start_world o opts)).1 = "" ∧ sw_serving (Serve SA (start_world o opts)).1 = None.
Proof.
  intros Hc Hl Ht Htls Hcert.
  destruct (Serve_body_listens SA o o1 opts l Hc Hl)
    as (v & pt & ps & w & _ & Hbody & _ & Hsl & Hsv & _ & Htw & Htlsw & Hout & _).
  destruct (configure_tls_mixed SA w t) as [msg Hmix]; [congruence|done|].
  assert (Serve_rest SA v pt ps l w = (set_exitCode 1 (print_stderr [msg] w), Err SReturn)) as Hr
    by (unfold Serve_rest, bind at 1; by rewrite Hmix).
  unfold Serve. rewrite Hbody, Hr. set (w1 := set_exitCode 1 _).
  destruct (run_deferred_frame SA w1) as (Ho & _ & Hs & Hopts & Hx & _).
  rewrite Hopts, Hx. change (sw_opts w1) with (sw_opts w). rewrite Htw, Ht.
  change (sw_exitCode w1) with 1. rewrite bool_decide_true by done. cbn [fst snd].
  by rewrite Ho, Hs.
Qed.
End properties.

(** ** Concrete instances *)

Definition ex_grpc : Plugin := MkPlugin "kv" true None None None None.
Definition ex_serve_cfg (tls : option (res error (option TLSConfig))) : ServeConfig :=
  MkServeConfig (MkHandshake 1 "KEY" "value") tls (Some {[ "kv" := ex_grpc ]}) None true None.
Definition ex_answers (env : environ) : ServeAnswers :=
  MkServeAnswers ex_os env ToyCrypto (ex_cert_answers 6) None None 42 ServerDone.
Definition ex_env : environ := {[ "KEY" := "value"; "PLUGIN_PROTOCOL_VERSIONS" := "1" ]}.
Definition ex_rm : Listener := UnixRmListener (MkRmListener (MkAddr "unix" "/plugin123") "/plugin123").
Definition ex_listening : OS :=
  MkOS {[ "/plugin123" := MkFile Socket None 493 ]} [MkAddr "unix" "/plugin123"].

Example Serve_cookie_guard_witness :
  (Serve (ex_answers ∅) (start_world (MkOS ∅ []) (ex_serve_cfg None))).2 = ProcessExit 1.
Proof.
  pose proof (Serve_cookie_guard (ex_answers ∅) (MkOS ∅ []) (ex_serve_cfg None) eq_refl) as H.
  destruct (Serve _ _) as [w r]. destruct H as [H _]; [right; right; discriminate|exact H].
Defined.

Lemma ex_makes_listener env :
  Getenv env EnvUnixSocketGroup = "" → Getenv env EnvUnixSocketDir = "" →
  makes_listener (ex_answers env) (MkOS ∅ []) ex_listening ex_rm.
Proof.
  intros Hg Hd. unfold makes_listener, unixSocketConfigFromEnv, ex_answers. cbn [sa_env sa_os].
  rewrite Hg, Hd. vm_compute. reflexivity.
Qed.

Lemma ex_cookie_ok env tls : env !! "KEY" = Some "value" → cookie_ok (ex_answers env) (ex_serve_cfg tls).
Proof. intros H. right. split_and!; [discriminate..|]. unfold Getenv. simpl. by rewrite H. Qed.


Definition ex_mux_env : environ := <[ "PLUGIN_MULTIPLEX_GRPC" := "true" ]> ex_env.

Example Serve_mux_leak_witness :
  sw_os (Serve (ex_answers ex_mux_env) (start_world (MkOS ∅ []) (ex_serve_cfg None))).1 = ex_listening.
Proof.
  apply (Serve_mux_leak (ex_answers ex_mux_env) (MkOS ∅ []) ex_listening (ex_serve_cfg None) ex_rm
    (Some {[ "kv" := ex_grpc ]}) None); [by apply ex_cookie_ok|by apply ex_makes_listener|].
  vm_compute. reflexivity.
Defined.

Example Serve_announces_witness :
  announced (ex_answers ex_env) (start_world (MkOS ∅ []) (ex_serve_cfg None))
    (Serve (ex_answers ex_env) (start_world (MkOS ∅ []) (ex_serve_cfg None))).1 ∧
  sw_stdout (Serve (ex_answers ex_env) (start_world (MkOS ∅ []) (ex_serve_cfg None))).1 ≠ "".
Proof.
  split; [|vm_compute; discriminate].
  apply (Serve_announces (ex_answers ex_env) (start_world (MkOS ∅ []) (ex_serve_cfg None))). reflexivity.
Defined.

(** The test mode with [SyncStdio]: redirected while serving, restored after. *)
Definition ex_test_cfg : ServeConfig :=
  MkServeConfig (MkHandshake 1 "KEY" "value") None (Some {[ "kv" := ex_grpc ]}) None true
    (Some (MkServeTest true true true true)).

Example Serve_stdio_witness :
  std_files (sw_stdio (Serve_body (ex_answers ∅) (start_world (MkOS ∅ []) ex_test_cfg)).1) = PipeFiles ∧
  std_files (sw_stdio (Serve (ex_answers ∅) (start_world (MkOS ∅ []) ex_test_cfg)).1) = ProcessFiles.
Proof.
  pose proof (Serve_stdio (ex_answers ∅) (MkOS ∅ []) ex_test_cfg) as (_ & _ & H).
  split; [vm_compute; reflexivity|]. apply H; [by eexists|]. intros code. vm_compute. discriminate.
Defined.

Definition ex_cert_env : environ := <[ "PLUGIN_CLIENT_CERT" := "-----BEGIN" ]> ex_env.
Definition ex_tls : TLSConfig := MkTLS (ex_der 6) true None None "localhost".

Example Serve_rejects_mixed_tls_witness :
  (Serve (ex_answers ex_cert_env)
     (start_world (MkOS ∅ []) (ex_serve_cfg (Some (Ret (Some ex_tls)))))).2 = ProcessExit 1.
Proof.
  apply (Serve_rejects_mixed_tls (ex_answers ex_cert_env) (MkOS ∅ []) ex_listening
    (ex_serve_cfg (Some (Ret (Some ex_tls)))) ex_rm ex_tls);
    [by apply ex_cookie_ok|by apply ex_makes_listener|reflexivity..|discriminate].
Defined.
