(* ===== verification/Start.v ===== *)
(** * [Client.Start]

    [NewClient], [SecureConfig.Check], [Client.Start] and [Client.reattach] of
    client.go: the whole path from the configuration to the plugin's address,
    with the deferred kill of a plugin that was started but failed.  The
    record [StartEnv] holds the answers of everything outside the source. *)

From S2P Require Import Prelude GoStd Mtls Config Negotiate ClientData Handshake Listener.

(** ** The host's world *)

(** What the client does to the outside, in order. *)
Inductive Event : Type :=
| ERunnerFunc (env : list string) (tmpDir : string)
| EStart (r : Runner)
| EKill (r : Runner)
| EOpen (what : string)
| EClose (what : string).

(** A client with its identity, the file system, the events, and the package
    variables [managedClients] and [Killed]. *)
Record World : Type := MkWorld {
  w_client : Client;
  w_self : nat;
  w_os : OS;
  w_log : list Event;
  managedClients : list nat;
  Killed : bool
}.

Definition upd_client (f : Client → Client) (w : World) : World :=
  MkWorld (f (w_client w)) (w_self w) (w_os w) (w_log w) (managedClients w) (Killed w).
Definition set_w_os (o : OS) (w : World) : World :=
  MkWorld (w_client w) (w_self w) o (w_log w) (managedClients w) (Killed w).
Definition log (e : Event) (w : World) : World :=
  MkWorld (w_client w) (w_self w) (w_os w) (w_log w ++ [e]) (managedClients w) (Killed w).
Definition set_managed (l : list nat) (w : World) : World :=
  MkWorld (w_client w) (w_self w) (w_os w) (w_log w) l (Killed w).
Definition set_Killed (b : bool) (w : World) : World :=
  MkWorld (w_client w) (w_self w) (w_os w) (w_log w) (managedClients w) b.

Definition on_client {A} (m : GoM Client error A) : GoM World error A := λ w,
  let '(c, r) := m (w_client w) in (upd_client (λ _, c) w, r).
Definition on_host_os {A} (m : GoM OS error A) : GoM World error A := λ w,
  let '(o, r) := m (w_os w) in (set_w_os o w, r).

(** Which case of the [select] of [Start] fires: the timeout, the end of the
    process, or what the scanner of the plugin's stdout delivers. *)
Inductive StartWait : Type :=
| Timeout
| PluginExited
| Stdout (out : string).

Record StartEnv : Type := MkStartEnv {
  se_Environ : list string;
  se_Open : string → res error (list Z * option error);
  se_cert : CertAnswers;
  se_os : OSAnswers;
  se_MkdirTemp : string → string → res error string;
  se_NewCmdRunner : Cmd → bool → res error Runner;
  se_Pid : Z;
  se_ReattachFunc : Z → Addr → res error Runner;
  se_wait : StartWait;
  se_hs : HandshakeEnv
}.

(** ** [SecureConfig.Check] *)

Definition hash_write (bs : list Z) (h : Hash) : Hash :=
  MkHash (hash_sum h) (hash_written h ++ bs).
Definition hash_Sum (h : Hash) : list Z := hash_sum h (hash_written h).

(** [io.Copy] writes what it reads to the hash, also before a read error. *)
Definition Check (E : StartEnv) (filePath : string) : GoM SecureConfig error bool :=
  s <- get;;
  IF bool_decide (Checksum s = []) RETURN ErrSecureConfigNoChecksum;;
  match secure_Hash s with
  | None => fail ErrSecureConfigNoHash
  | Some h =>
      file <- lift (se_Open E filePath);;
      let h' := hash_write file.1 h in
      modify (λ s, MkSecure (Checksum s) (Some h'));;
      match file.2 with
      | Some e => fail e
      | None => ret (bool_decide (hash_Sum h' = Checksum s))
      end
  end.

(** ** [NewClient] *)

Definition NewClient_config (c : ClientConfig) : ClientConfig :=
  let c := if bool_decide (cfg_MinPort c = 0) && bool_decide (cfg_MaxPort c = 0)
           then set_cfg_MaxPort 25000 (set_cfg_MinPort 10000 c) else c in
  let c := if bool_decide (cfg_StartTimeout c = 0) then set_cfg_StartTimeout (60 * Second) c else c in
  let c := if cfg_Stderr c then c else set_cfg_Stderr (Some Discard) c in
  let c := if cfg_SyncStdout c then c else set_cfg_SyncStdout (Some Discard) c in
  let c := if cfg_SyncStderr c then c else set_cfg_SyncStderr (Some Discard) c in
  let c := if cfg_AllowedProtocols c then c
           else set_cfg_AllowedProtocols (Some [ProtocolNetRPC]) c in
  let c := if cfg_Logger c then c else set_cfg_Logger (Some default_logger) c in
  if bool_decide (cfg_PluginLogBufferSize c = 0)
  then set_cfg_PluginLogBufferSize defaultPluginLogBufferSize c else c.

Definition new_client (c : ClientConfig) : Client :=
  MkClient c false None None None "" false 0 false false 0 (MkUnixSocket "" "" "") MuxerUnset.

(** The new client's identity is [self]; a managed one joins the global list. *)
Definition NewClient (config : ClientConfig) (self : nat) (o : OS) (managed : list nat) : World :=
  let config := NewClient_config config in
  MkWorld (new_client config) self o []
    (if cfg_Managed config then managed ++ [self] else managed) false.

(** ** [Client.Start] *)

Section Start.
Context `{!MapRange Z}.
Variable E : StartEnv.

Definition count_set (c : ClientConfig) : nat :=
  (if cfg_Cmd c then 1 else 0) + (if cfg_Reattach c then 1 else 0) +
  (if cfg_RunnerFunc c then 1 else 0).

(** The checks of the configuration at the beginning of [Start]. *)
Definition validate (c : ClientConfig) : res error unit :=
  if negb (bool_decide (count_set c = 1%nat)) then
    Err (Errorf "exactly one of Cmd, or Reattach, or RunnerFunc must be set" [])
  else if bool_decide (is_Some (cfg_SecureConfig c) ∧ is_Some (cfg_Reattach c)) then
    Err ErrSecureConfigAndReattach
  else if cfg_GRPCBrokerMultiplex c && bool_decide (is_Some (cfg_Reattach c)) then
    Err (Errorf "gRPC broker multiplexing is not supported with Reattach config" [])
  else match cfg_Reattach c with
       | None => Ret tt
       | Some ra =>
           if decide (ra_Addr ra = None) then Err (Errorf "ReattachConfig.Addr is required" [])
           else match ra_ReattachFunc ra with
                | Some _ => Ret tt
                | None => if decide (ra_Pid ra = 0)
                          then Err (Errorf "ReattachConfig requires Pid or ReattachFunc" [])
                          else Ret tt
                end
       end.

Definition kv (k v : string) : string := k +:+ "=" +:+ v.

(** The variables every plugin gets, appended to the inherited environment. *)
Definition base_env (c : ClientConfig) (versions : gmap Z PluginSet) : list string :=
  [ kv (MagicCookieKey (cfg_Handshake c)) (MagicCookieValue (cfg_Handshake c));
    kv "PLUGIN_MIN_PORT" (Itoa (cfg_MinPort c));
    kv "PLUGIN_MAX_PORT" (Itoa (cfg_MaxPort c));
    kv "PLUGIN_PROTOCOL_VERSIONS" (versions_env versions) ] ++
  (if cfg_GRPCBrokerMultiplex c then [kv envMultiplexGRPC "true"] else []).

(** [cmd] aliases [c.config.Cmd] when that is set: appending to [cmd.Env]
    changes the configuration; otherwise [cmd] is local. *)
Definition add_env (env : list string) (cmd : Cmd) : Cmd :=
  MkCmd (cmd_Path cmd) (cmd_Env cmd ++ env) (cmd_Process cmd).
Definition store_cmd (cmd : Cmd) (c : Client) : Client :=
  if cfg_Cmd (config c) then set_cfg (set_cfg_Cmd (Some cmd)) c else c.

Definition check_secure (cmd : Cmd) : GoM Client error unit := λ c,
  match cfg_SecureConfig (config c) with
  | None => (c, Ret tt)
  | Some s =>
      let '(s', r) := Check E (cmd_Path cmd) s in
      (set_cfg (set_cfg_SecureConfig (Some s')) c,
       match r with
       | Ret true => Ret tt
       | Ret false => Err ErrChecksumsDoNotMatch
       | Err e => Err (Wrapf "error verifying checksum: %w" [] e)
       | Panic p => Panic p
       end)
  end.

(** The certificate of automatic mTLS goes to the plugin in its environment. *)
Definition auto_mtls (cmd : Cmd) : GoM Client error Cmd :=
  c <- get;;
  if cfg_AutoMTLS (config c) then
    pems <- lift (generateCert (hs_crypto (se_hs E)) (se_cert E));;
    let '(certPEM, keyPEM) := pems in
    cert <- lift (X509KeyPair (hs_crypto (se_hs E)) certPEM keyPEM);;
    let cmd := add_env [kv "PLUGIN_CLIENT_CERT" certPEM] cmd in
    modify (λ c, set_cfg (set_cfg_TLSConfig (Some (MkTLS cert true None None "localhost")))
                   (store_cmd cmd c));;
    ret cmd
  else ret cmd.

Definition unix_socket_config (cmd : Cmd) : GoM Client error Cmd :=
  c <- get;;
  let cfg := default (unixSocketCfg c) (cfg_UnixSocketConfig (config c)) in
  let cmd := if decide (Group cfg = "") then cmd else add_env [kv EnvUnixSocketGroup (Group cfg)] cmd in
  modify (λ c, store_cmd cmd (set_unixSocketCfg cfg c));;
  ret cmd.

Definition with_socketDir (dir : string) (u : UnixSocketConfig) : UnixSocketConfig :=
  MkUnixSocket (Group u) (TempDir u) dir.

(** [c.unixSocketCfg.socketDir] is assigned also when [os.MkdirTemp] fails. *)
Definition mkdir_socketDir : GoM World error string :=
  w <- get;;
  let u := unixSocketCfg (w_client w) in
  let r := se_MkdirTemp E (TempDir u) "plugin-dir" in
  modify (upd_client (set_unixSocketCfg
    (with_socketDir (match r with Ret dir => dir | _ => "" end) u)));;
  lift r.

(** The runner: the user's, with a fresh directory for its sockets, or the
    default one. *)
Definition make_runner (cmd : Cmd) : GoM World error Runner :=
  w <- get;;
  let c := w_client w in
  match cfg_RunnerFunc (config c) with
  | Some runnerFunc =>
      dir <- mkdir_socketDir;;
      on_host_os (modify (upd_files (<[dir := MkFile Directory None 448]>)));;
      (if decide (Group (unixSocketCfg c) = "") then ret tt
       else on_host_os (setGroupWritable (se_os E) dir (Group (unixSocketCfg c)) 504));;
      let cmd := add_env [kv EnvUnixSocketDir dir] cmd in
      modify (λ w, log (ERunnerFunc (cmd_Env cmd) dir) (upd_client (store_cmd cmd) w));;
      lift runnerFunc
  | None => lift (se_NewCmdRunner E cmd (cfg_DisableProcessGroupKill (config c)))
  end.

(** Everything before the runner is created: the versions on offer, the
    command's environment, the checksum and the certificate. *)
Definition prepare_cmd : GoM Client error Cmd :=
  c <- get;;
  let cfg := config c in
  let versions := client_versions (int_of_uint (ProtocolVersion (cfg_Handshake cfg)))
                    (cfg_Plugins cfg) (cfg_VersionedPlugins cfg) in
  let cmd := add_env ((if cfg_SkipHostEnv cfg then [] else se_Environ E) ++ base_env cfg versions)
               (default (MkCmd "" [] None) (cfg_Cmd cfg)) in
  modify (λ c, store_cmd cmd (set_cfg (set_cfg_VersionedPlugins (Some versions)) c));;
  check_secure cmd;;
  cmd <- auto_mtls cmd;;
  unix_socket_config cmd.

Definition prepare : GoM World error Runner :=
  cmd <- on_client prepare_cmd;;
  make_runner cmd.

(** The [select] that waits for the plugin's handshake. *)
Definition await_handshake (r : Runner) : GoM Client error Addr :=
  match se_wait E with
  | Timeout => fail (Errorf "timeout while waiting for plugin to start" [])
  | PluginExited => fail (Errorf "plugin exited before we could connect" [])
  | Stdout out =>
      match scan_first out with
      | Some line => handshake (se_hs E) r line true
      | None => handshake (se_hs E) r "" false
      end
  end.

(** The deferred function: an error or a panic kills the runner. *)
Definition or_kill {A} (r : Runner) (m : GoM World error A) : GoM World error A := λ w,
  match m w with
  | (w', Ret a) => (w', Ret a)
  | (w', e) => (log (EKill r) w', e)
  end.

(** The default runner starts [c.config.Cmd], which then has a process. *)
Definition set_process (c : Client) : Client :=
  match cfg_Cmd (config c) with
  | Some cmd => set_cfg (set_cfg_Cmd (Some (MkCmd (cmd_Path cmd) (cmd_Env cmd) (Some (se_Pid E))))) c
  | None => c
  end.

Definition start_runner (r : Runner) : GoM World error Addr :=
  modify (λ w, log (EStart r) (upd_client (set_runner (Some r)) w));;
  match runner_Start r with
  | Some e => fail e
  | None =>
      modify (upd_client set_process);;
      or_kill r (
        modify (upd_client (set_doneCtx false));;
        addr <- on_client (await_handshake r);;
        modify (upd_client (set_address (Some addr)));;
        ret addr)
  end.

(** [Client.reattach]. *)
Definition reattach_versions (ra : ReattachConfig) (c : Client) : Client :=
  let versions := client_versions (negotiatedVersion c) (cfg_Plugins (config c))
                    (cfg_VersionedPlugins (config c)) in
  let c := set_cfg (set_cfg_VersionedPlugins (Some versions)) c in
  match versions !! negotiatedVersion c with
  | Some plugins => set_cfg (set_cfg_Plugins plugins) c
  | None => c
  end.

Definition reattach (ra : ReattachConfig) (addr : Addr) : GoM Client error Addr :=
  r <- lift (match ra_ReattachFunc ra with
             | Some f => f
             | None => se_ReattachFunc E (ra_Pid ra) addr
             end);;
  modify (λ c,
    let c := set_address (Some addr) (set_doneCtx false c) in
    let c := set_protocol (if decide (ra_Protocol ra = "") then ProtocolNetRPC else ra_Protocol ra) c in
    let c := reattach_versions ra (set_negotiatedVersion (ra_ProtocolVersion ra) c) in
    if ra_Test ra then c else set_runner (Some r) c);;
  ret addr.

Definition Start : GoM World error Addr :=
  w <- get;;
  let c := w_client w in
  match address c with
  | Some a => ret a
  | None =>
      lift (validate (config c));;
      match cfg_Reattach (config c) with
      | Some ra => on_client (reattach ra (default (MkAddr "" "") (ra_Addr ra)))
      | None => r <- prepare;; start_runner r
      end
  end.
End Start.

(** ** Lemmas *)

(** A step that logs nothing but calls of [RunnerFunc]. *)
Definition is_runner_func (e : Event) : Prop := match e with ERunnerFunc _ _ => True | _ => False end.
Definition quiet (w w' : World) : Prop :=
  ∃ evs, w_log w' = w_log w ++ evs ∧ Forall is_runner_func evs.

#[export] Instance quiet_preorder : PreOrder quiet.
Proof.
  split.
  - intros w. exists []. by rewrite app_nil_r.
  - intros w1 w2 w3 (e1 & H1 & F1) (e2 & H2 & F2). exists (e1 ++ e2).
    rewrite H2, H1, app_assoc. split; [done|]. by apply Forall_app.
Qed.

Lemma quiet_same w w' : w_log w' = w_log w → quiet w w'.
Proof. intros H. exists []. by rewrite app_nil_r. Qed.

Lemma on_client_keeps {A} (m : GoM Client error A) : keeps quiet (on_client m).
Proof. intros w. apply quiet_same. unfold on_client. by destruct (m (w_client w)). Qed.
Lemma on_host_os_keeps {A} (m : GoM OS error A) : keeps quiet (on_host_os m).
Proof. intros w. apply quiet_same. unfold on_host_os. by destruct (m (w_os w)). Qed.
#[export] Hint Resolve on_client_keeps on_host_os_keeps : goplugin.

Section lemmas.
Context `{!MapRange Z}.

Lemma make_runner_keeps E cmd : keeps quiet (make_runner E cmd).
Proof.
  unfold make_runner, mkdir_socketDir.
  solve_keeps ltac:(first [by apply quiet_same | eexists; split; [reflexivity|by repeat constructor]]).
  all: apply on_host_os_keeps.
Qed.

Lemma prepare_keeps E : keeps quiet (prepare E).
Proof. apply keeps_bind; [typeclasses eauto|apply on_client_keeps|intros; apply make_runner_keeps]. Qed.

(** Reading the handshake changes the negotiated values and nothing else. *)
Definition hs_frame (c c' : Client) : Prop :=
  runner c' = runner c ∧ address c' = address c ∧ killOnce c' = killOnce c ∧
  unixSocketCfg c' = unixSocketCfg c ∧ client c' = client c ∧
  cfg_Managed (config c') = cfg_Managed (config c) ∧
  cfg_RunnerFunc (config c') = cfg_RunnerFunc (config c) ∧ cfg_Cmd (config c') = cfg_Cmd (config c).

#[local] Instance hs_frame_preorder : PreOrder hs_frame.
Proof.
  split; [by intros ?|]. intros ??? H1 H2. unfold hs_frame in *. destruct_and!. split_and!; congruence.
Qed.

Lemma wrap_err_keeps {A} f (m : GoM Client error A) : keeps hs_frame m → keeps hs_frame (wrap_err f m).
Proof. intros Hm c. specialize (Hm c). unfold wrap_err. by destruct (m c) as [? []]. Qed.

Lemma handshake_frame H r l b : keeps hs_frame (handshake H r l b).
Proof.
  assert (∀ s, keeps hs_frame (loadServerCert H s)) as Hload
    by (intros s; unfold loadServerCert; solve_keeps ltac:(by split_and!)).
  assert (∀ ps, keeps hs_frame (check_mux ps)) as Hmux
    by (intros ps c; unfold check_mux; repeat case_match; done).
  unfold handshake. case_match; [apply keeps_fail; typeclasses eauto|].
  apply keeps_bind; [typeclasses eauto|apply wrap_err_keeps, keeps_lift; typeclasses eauto|intros ?].
  solve_keeps ltac:(by split_and!). 1: apply wrap_err_keeps, Hload. all: apply Hmux.
Qed.

Lemma await_handshake_frame E r : keeps hs_frame (await_handshake E r).
Proof.
  unfold await_handshake. destruct (se_wait E); [apply keeps_fail; typeclasses eauto..|].
  case_match; apply handshake_frame.
Qed.

(** The runners started and killed in a sequence of events. *)
Definition started (evs : list Event) : list Runner :=
  omap (λ e, match e with EStart r => Some r | _ => None end) evs.
Definition killed (evs : list Event) : list Runner :=
  omap (λ e, match e with EKill r => Some r | _ => None end) evs.

Lemma runner_funcs_quiet fs : Forall is_runner_func fs → started fs = [] ∧ killed fs = [].
Proof. induction 1 as [|[] fs Hf _ [IH1 IH2]]; done. Qed.

(** What [Start] does once the runner exists. *)
Lemma start_runner_log E r w :
  let '(w', res) := start_runner E r w in
  w_log w' = w_log w ++ EStart r ::
    match runner_Start r, res with
    | None, Ret _ => []
    | None, _ => [EKill r]
    | Some _, _ => []
    end ∧
  (∀ e, runner_Start r = Some e → res = Err e) ∧
  runner (w_client w') = Some r ∧
  (∀ a, res = Ret a → address (w_client w') = Some a).
Proof.
  unfold start_runner, bind at 1, modify at 1. destruct (runner_Start r) as [e|] eqn:Hr.
  { simpl. split_and!; [done|congruence|done|done]. }
  unfold bind at 1, modify at 1, or_kill, bind, modify, on_client, ret. simpl.
  match goal with |- context [await_handshake E r ?c] =>
    destruct (await_handshake_frame E r c) as [Hrun _];
    destruct (await_handshake E r c) as [c' [a|e|p]] end; simpl in *;
    (replace (runner (set_process E _)) with (Some r) in Hrun
       by (unfold set_process; by case_match)).
  - split_and!; [done|done|done|congruence].
  - rewrite <- app_assoc. by split_and!.
  - rewrite <- app_assoc. by split_and!.
Qed.

(** The events of one call of [Start]: calls of [RunnerFunc], then at most one
    start of a runner, followed by its kill exactly when it started and [Start]
    does not return an address. *)
Lemma Start_log E w :
  let '(w', res) := Start E w in
  ∃ fs tail, w_log w' = w_log w ++ fs ++ tail ∧ Forall is_runner_func fs ∧
    (tail = [] ∨ ∃ r, runner (w_client w') = Some r ∧
       (∀ a, res = Ret a → runner_Start r = None) ∧
       tail = EStart r :: match runner_Start r, res with
                          | None, Ret _ => [] | None, _ => [EKill r] | Some _, _ => [] end).
Proof.
  unfold Start, bind at 1, get. destruct (address (w_client w)).
  { exists [], []. by rewrite app_nil_r; eauto. }
  unfold bind at 1, lift at 1. destruct (validate (config (w_client w))) as [[]|e|p];
    [|exists [], []; by rewrite app_nil_r; eauto..].
  destruct (cfg_Reattach (config (w_client w))) as [ra|].
  { destruct (on_client_keeps (reattach E ra (default (MkAddr "" "") (ra_Addr ra))) w) as (fs & Hl & Hf).
    destruct (on_client _ w) as [w' res]. exists fs, []. rewrite app_nil_r. eauto. }
  unfold bind. destruct (prepare_keeps E w) as (fs & Hl & Hf).
  destruct (prepare E w) as [w1 [r|e|p]]; simpl in Hl;
    [|exists fs, []; by rewrite app_nil_r; eauto..].
  pose proof (start_runner_log E r w1) as Hs. destruct (start_runner E r w1) as [w' res].
  destruct Hs as (Hl' & He & Hr & _). exists fs, (drop (length (w_log w1)) (w_log w')).
  rewrite Hl'. rewrite drop_app_length. rewrite Hl, <- app_assoc. split_and!; [done|done|].
  right. exists r. split_and!; [done| |done]. intros a ->.
  destruct (runner_Start r) as [e|]; [|done]. by specialize (He e eq_refl).
Qed.

(** A successful [Start] leaves the address in the client. *)
Lemma Start_address E w w' a : Start E w = (w', Ret a) → address (w_client w') = Some a.
Proof.
  unfold Start. intros (w1 & w1' & [= <- <-] & H)%GoM_bind_Ret.
  destruct (address (w_client w)) as [a'|] eqn:Ha; [by injection H as <- <-|].
  apply GoM_bind_Ret in H as (w1 & [] & [= <- _] & H).
  destruct (cfg_Reattach (config (w_client w))) as [ra|].
  - unfold on_client, reattach, bind, lift, modify, ret in H.
    destruct (match ra_ReattachFunc ra with Some f => f | None => _ end); simplify_eq/=.
    unfold reattach_versions. repeat case_match; done.
  - apply GoM_bind_Ret in H as (w1 & r & _ & H).
    pose proof (start_runner_log E r w1) as Hs. rewrite H in Hs. by apply Hs.
Qed.

(** The file whose checksum is verified. *)
Definition plugin_path (c : ClientConfig) : string :=
  match cfg_Cmd c with Some cmd => cmd_Path cmd | None => "" end.

Definition verified (E : StartEnv) (c : ClientConfig) : Prop :=
  ∀ s, cfg_SecureConfig c = Some s →
  ∃ h data, secure_Hash s = Some h ∧ se_Open E (plugin_path c) = Ret (data, None) ∧
    hash_sum h (hash_written h ++ data) = Checksum s ∧ Checksum s ≠ [].

Lemma Check_Ret E path s s' b :
  Check E path s = (s', Ret b) →
  ∃ h data, secure_Hash s = Some h ∧ se_Open E path = Ret (data, None) ∧ Checksum s ≠ [] ∧
    s' = MkSecure (Checksum s) (Some (hash_write data h)) ∧
    b = bool_decide (hash_sum h (hash_written h ++ data) = Checksum s).
Proof.
  unfold Check. intros (s1 & s1' & [= <- <-] & H)%GoM_bind_Ret. case_bool_decide; [done|].
  destruct (secure_Hash s) as [h|] eqn:Hh; [|done].
  apply GoM_bind_Ret in H as (s2 & [data e] & [= <- Ho] & H).
  apply GoM_bind_Ret in H as (s3 & [] & [= <-] & H). simpl in H.
  destruct e; [done|]. exists h, data. injection H as <- <-. by split_and!.
Qed.

Lemma prepare_cmd_verified E c c' cmd : prepare_cmd E c = (c', Ret cmd) → verified E (config c).
Proof.
  unfold prepare_cmd. intros (c1 & c1' & [= <- <-] & H)%GoM_bind_Ret s Hs.
  apply GoM_bind_Ret in H as (c2 & [] & [= <-] & H).
  apply GoM_bind_Ret in H as (c3 & [] & Hc & _). unfold check_secure in Hc.
  match type of Hc with context [cfg_SecureConfig (config ?c0)] =>
    assert (cfg_SecureConfig (config c0) = Some s) as Hs0
      by (unfold store_cmd, set_cfg; destruct (cfg_Cmd _); exact Hs) end.
  rewrite Hs0 in Hc. destruct (Check E _ s) as [s' r] eqn:Hck.
  destruct r as [[]| |]; [|done..]. apply Check_Ret in Hck as (h & data & Hh & Ho & Hn & _ & Hb).
  symmetry in Hb. apply bool_decide_eq_true in Hb. exists h, data. split_and!; [done| |done..].
  rewrite <- Ho. unfold plugin_path. by destruct (cfg_Cmd (config c)).
Qed.

(** Before the checksum has been verified nothing happens outside the client. *)
Lemma Start_log_verified E w :
  address (w_client w) = None → cfg_Reattach (config (w_client w)) = None →
  w_log (Start E w).1 ≠ w_log w → verified E (config (w_client w)).
Proof.
  intros Ha Hr. unfold Start, bind at 1, get. rewrite Ha, Hr.
  unfold bind at 1, lift. destruct (validate _) as [[]| |]; [|done..].
  unfold bind at 1, prepare, bind at 1, on_client at 1.
  destruct (prepare_cmd E (w_client w)) as [c' [cmd| |]] eqn:Hp; [|done..].
  intros _. by eapply prepare_cmd_verified.
Qed.

(** What reattaching does to the client. *)
Lemma Start_reattach_spec E w ra a r :
  address (w_client w) = None → validate (config (w_client w)) = Ret tt →
  cfg_Reattach (config (w_client w)) = Some ra → ra_Addr ra = Some a →
  match ra_ReattachFunc ra with Some f => f | None => se_ReattachFunc E (ra_Pid ra) a end = Ret r →
  let '(w', res) := Start E w in
  let c' := w_client w' in
  res = Ret a ∧ address c' = Some a ∧ negotiatedVersion c' = ra_ProtocolVersion ra ∧
  protocol c' = (if decide (ra_Protocol ra = "") then ProtocolNetRPC else ra_Protocol ra) ∧
  runner c' = (if ra_Test ra then runner (w_client w) else Some r) ∧ w_log w' = w_log w ∧
  (∀ ps, default ∅ (cfg_VersionedPlugins (config (w_client w))) !! ra_ProtocolVersion ra = Some ps →
     cfg_Plugins (config c') = ps).
Proof.
  intros Ha Hv Hra Haddr Hr. unfold Start, bind at 1, get. rewrite Ha, Hra.
  unfold bind at 1, lift. rewrite Hv, Haddr. unfold on_client, reattach, bind, lift, modify, ret.
  simpl. rewrite Hr. simpl.
  assert (∀ c, let c2 := reattach_versions ra c in
    address c2 = address c ∧ negotiatedVersion c2 = negotiatedVersion c ∧ protocol c2 = protocol c ∧
    runner c2 = runner c ∧
    (∀ ps, default ∅ (cfg_VersionedPlugins (config c)) !! negotiatedVersion c = Some ps →
       cfg_Plugins (config c2) = ps)) as Hver.
  { intros c. unfold reattach_versions. cbv zeta.
    destruct (client_versions _ _ _ !! _) as [ps'|] eqn:Hm; (split_and!; [done..|]);
      intros ps Hps; unfold client_versions in Hm; simpl in Hm; rewrite Hps in Hm; simplify_eq; done. }
  match goal with |- context [reattach_versions ra ?c] =>
    destruct (Hver c) as (H1 & H2 & H3 & H4 & H5) end.
  destruct (ra_Test ra); simpl; split_and!; try done; congruence.
Qed.
End lemmas.

(** ** Properties *)

Section properties.
Context `{!MapRange Z}.

(** C10: [Start] never leaves a plugin running that it does not return an
    address for.  One call starts at most one runner; when it returns an address
    it has killed none; and a runner that was started without error is either in
    use (and [Start] returned its address) or was killed, and its kill is the
    last event. *)
Theorem Start_no_orphan E w :
  let '(w', res) := Start E w in
  ∃ evs, w_log w' = w_log w ++ evs ∧
    (length (started evs) ≤ 1)%nat ∧ (∀ a, res = Ret a → killed evs = []) ∧
    ∀ r, EStart r ∈ evs → runner_Start r = None →
      ((∃ a, res = Ret a) ∧ runner (w_client w') = Some r ∧ last evs = Some (EStart r)) ∨
      ((∀ a, res ≠ Ret a) ∧ last evs = Some (EKill r)).
Proof.
  pose proof (Start_log E w) as H. destruct (Start E w) as [w' res].
  destruct H as (fs & tail & Hl & Hf & Htail). exists (fs ++ tail). split; [done|].
  destruct (runner_funcs_quiet fs Hf) as [Hs0 Hk0].
  unfold started, killed in *. rewrite !omap_app, Hs0, Hk0. split_and!.
  - destruct Htail as [->|(r' & _ & _ & ->)]; [simpl; lia|]. destruct (runner_Start r'), res; simpl; lia.
  - intros a ->. destruct Htail as [->|(r' & _ & _ & ->)]; [done|]. by destruct (runner_Start r').
  - intros r [Hin|Hin]%elem_of_app Hs.
    { rewrite Forall_forall in Hf. by apply Hf in Hin. }
    destruct Htail as [->|(r' & Hr & _ & ->)]; [by apply elem_of_nil in Hin|].
    apply elem_of_cons in Hin as [[= <-]|Hin].
    + rewrite Hs. destruct res; [left|right..]; rewrite last_app; simpl; split_and!; eauto.
    + destruct (runner_Start r'), res; set_solver.
Qed.

(** [Start] is idempotent: once it has returned an address, every further
    call returns the same address and changes nothing. *)
Theorem Start_idempotent E E' w w' a :
  Start E w = (w', Ret a) → Start E' w' = (w', Ret a).
Proof.
  intros H. apply Start_address in H. unfold Start, bind, get. by rewrite H.
Qed.

(** C17: with a [SecureConfig] no runner is created or started unless the hash of
    the whole plugin file equals the configured, non-empty checksum. *)
Theorem Start_checks_before_running E w :
  address (w_client w) = None → cfg_Reattach (config (w_client w)) = None →
  w_log (Start E w).1 ≠ w_log w → verified E (config (w_client w)).
Proof. apply Start_log_verified. Qed.

(** [SecureConfig.Check] verifies a file only once: a second call on the
    same configuration and file digests the file's content twice. *)
Theorem Check_not_repeatable E path s s' h data b :
  secure_Hash s = Some h → hash_written h = [] → se_Open E path = Ret (data, None) →
  Check E path s = (s', Ret b) →
  b = bool_decide (hash_sum h data = Checksum s) ∧
  (Check E path s').2 = Ret (bool_decide (hash_sum h (data ++ data) = Checksum s)).
Proof.
  intros Hh Hw Ho H. apply Check_Ret in H as (h' & data' & Hh' & Ho' & Hn & -> & ->).
  rewrite Ho in Ho'. simplify_eq. rewrite Hw. split; [done|].
  unfold Check, bind, get, lift. cbn [Checksum secure_Hash].
  rewrite bool_decide_false by done. rewrite Ho. unfold hash_write. simpl. by rewrite Hw.
Qed.

(** A [SecureConfig] cannot be combined with a [RunnerFunc]: the checksum is
    computed for the empty path of a placeholder command, which the operating
    system cannot open, and [Start] fails before calling [RunnerFunc]. *)
Theorem Start_secure_runner_func E w s h e :
  address (w_client w) = None → cfg_Cmd (config (w_client w)) = None →
  cfg_Reattach (config (w_client w)) = None → is_Some (cfg_RunnerFunc (config (w_client w))) →
  cfg_SecureConfig (config (w_client w)) = Some s → Checksum s ≠ [] → secure_Hash s = Some h →
  se_Open E "" = Err e →
  (Start E w).2 = Err (Wrapf "error verifying checksum: %w" [] e) ∧ w_log (Start E w).1 = w_log w.
Proof.
  intros Ha Hc Hr [f Hf] Hs Hn Hh Ho.
  assert (validate (config (w_client w)) = Ret tt) as Hv.
  { unfold validate, count_set. rewrite Hc, Hr, Hf. simpl.
    rewrite (bool_decide_false (_ ∧ _)) by (intros [_ []]; done). by rewrite andb_false_r. }
  assert (∃ c', prepare_cmd E (w_client w) =
    (c', Err (Wrapf "error verifying checksum: %w" [] e))) as [c' Hp].
  { unfold prepare_cmd, bind at 1, get, bind at 1, modify, bind, check_secure, store_cmd.
    cbn [config set_cfg set_config cfg_Cmd set_cfg_VersionedPlugins]. rewrite !Hc.
    cbn [config set_cfg set_config cfg_SecureConfig set_cfg_VersionedPlugins]. rewrite Hs.
    unfold Check, bind, get, lift. rewrite bool_decide_false by done. rewrite Hh.
    cbn [cmd_Path add_env default]. rewrite Ho. by eexists. }
  assert (Start E w = (upd_client (λ _, c') w, Err (Wrapf "error verifying checksum: %w" [] e))) as ->;
    [|done].
  unfold Start, bind at 1, get. rewrite Ha, Hr. unfold bind at 1, lift. rewrite Hv.
  unfold prepare, bind, on_client. by rewrite Hp.
Qed.

(** Reattaching adopts the declared protocol, version and address, selects
    the plugin set of that version, and takes hold of the process only outside
    the test mode; the plugin is neither started nor killed. *)
Theorem Start_reattach E w ra a r :
  address (w_client w) = None → validate (config (w_client w)) = Ret tt →
  cfg_Reattach (config (w_client w)) = Some ra → ra_Addr ra = Some a →
  match ra_ReattachFunc ra with Some f => f | None => se_ReattachFunc E (ra_Pid ra) a end = Ret r →
  let '(w', res) := Start E w in
  let c' := w_client w' in
  res = Ret a ∧ address c' = Some a ∧ negotiatedVersion c' = ra_ProtocolVersion ra ∧
  protocol c' = (if decide (ra_Protocol ra = "") then ProtocolNetRPC else ra_Protocol ra) ∧
  runner c' = (if ra_Test ra then runner (w_client w) else Some r) ∧ w_log w' = w_log w ∧
  (∀ ps, default ∅ (cfg_VersionedPlugins (config (w_client w))) !! ra_ProtocolVersion ra = Some ps →
     cfg_Plugins (config c') = ps).
Proof. apply Start_reattach_spec. Qed.
End properties.

(** ** Concrete instances *)

(** A host whose plugin announces a Unix socket, over gRPC. *)
Definition ex_startenv (wait : StartWait) : StartEnv :=
  MkStartEnv ["PATH=/bin"] (λ p, if decide (p = "") then Err (ErrExt "open : no such file") else Ret ([7; 8], None))
    (ex_cert_answers 5) ex_os (λ d p, Ret (d +:+ "/" +:+ p +:+ "1"))
    (λ _ _, Ret ex_runner) 42 (λ _ _, Ret ex_runner) wait ex_hsenv.
Definition ex_line : StartWait := Stdout (ex_reply +:+ String newline "").

Definition ex_world (c : Client) : World := MkWorld c 0 (MkOS ∅ []) [] [] false.
Definition ex_sum : Hash := MkHash (λ bs, [foldr Z.add 0 bs]) [].
Definition ex_secure : SecureConfig := MkSecure [15] (Some ex_sum).
Definition with_cfg (f : ClientConfig → ClientConfig) : World :=
  ex_world (set_cfg f (ex_client None true)).

Definition ex_started : World := (Start (ex_startenv ex_line) (ex_world (ex_client None true))).1.

Lemma ex_started_ok :
  Start (ex_startenv ex_line) (ex_world (ex_client None true)) =
  (ex_started, Ret (MkAddr "unix" "/tmp/p")).
Proof. vm_compute. reflexivity. Qed.

(** A plugin that does not answer in time is killed. *)
Definition ex_timed_out : World := (Start (ex_startenv Timeout) (ex_world (ex_client None true))).1.
Lemma ex_timed_out_log : w_log ex_timed_out = [EStart ex_runner; EKill ex_runner].
Proof. vm_compute. reflexivity. Qed.

Lemma ex_world_log c : w_log (ex_world c) = [].
Proof. reflexivity. Qed.

Example Start_no_orphan_witness :
  let '(w', res) := Start (ex_startenv Timeout) (ex_world (ex_client None true)) in
  (∀ a, res ≠ Ret a) ∧ last (w_log w') = Some (EKill ex_runner).
Proof.
  generalize ex_timed_out_log. unfold ex_timed_out.
  generalize (Start_no_orphan (ex_startenv Timeout) (ex_world (ex_client None true))).
  destruct (Start _ _) as [w' res]. intros (evs & Hevs & _ & _ & H) Hl. cbn [fst] in Hl.
  rewrite ex_world_log, app_nil_l in Hevs. rewrite Hl. subst evs.
  destruct (H ex_runner) as [(_ & _ & Hlast)|Hx]; [rewrite Hl; left|reflexivity| |].
  - rewrite Hl in Hlast. discriminate Hlast.
  - rewrite Hl in Hx. exact Hx.
Defined.

Example Start_idempotent_witness :
  Start (ex_startenv Timeout) ex_started = (ex_started, Ret (MkAddr "unix" "/tmp/p")).
Proof. apply (Start_idempotent (ex_startenv ex_line) _ _ _ _ ex_started_ok). Defined.

Definition ex_secure_world : World := with_cfg (set_cfg_SecureConfig (Some ex_secure)).

Lemma ex_secure_runs :
  w_log (Start (ex_startenv ex_line) ex_secure_world).1 ≠ w_log ex_secure_world.
Proof. vm_compute. discriminate. Qed.

Example Start_checks_before_running_witness :
  verified (ex_startenv ex_line) (config (w_client ex_secure_world)).
Proof. apply (Start_checks_before_running (ex_startenv ex_line) ex_secure_world eq_refl eq_refl ex_secure_runs). Defined.

Example Check_not_repeatable_witness :
  (Check (ex_startenv Timeout) "/bin/plugin" (MkSecure [15] (Some (hash_write [7; 8] ex_sum)))).2 = Ret false.
Proof.
  apply (Check_not_repeatable (ex_startenv Timeout) "/bin/plugin" ex_secure
    (MkSecure [15] (Some (hash_write [7; 8] ex_sum))) ex_sum [7; 8] true); reflexivity.
Defined.

Definition ex_runner_func (f : res error Runner) (s : option SecureConfig) : ClientConfig :=
  MkClientConfig (MkHandshake 1 "KEY" "VALUE") None (Some ex_client_versions)
    None None (Some f) s None false 10000 25000 60000000000
    (Some Discard) (Some Discard) (Some Discard) (Some [ProtocolNetRPC; ProtocolGRPC])
    (Some default_logger) defaultPluginLogBufferSize false false false None 0 0 false.

Example Start_secure_runner_func_witness :
  (Start (ex_startenv ex_line) (ex_world (new_client (ex_runner_func (Ret ex_runner) (Some ex_secure))))).2 =
  Err (Wrapf "error verifying checksum: %w" [] (ErrExt "open : no such file")).
Proof.
  apply (Start_secure_runner_func (ex_startenv ex_line)
    (ex_world (new_client (ex_runner_func (Ret ex_runner) (Some ex_secure)))) ex_secure ex_sum);
    [reflexivity..|by eexists|reflexivity|discriminate|reflexivity|reflexivity].
Defined.

Definition ex_reattach : ReattachConfig :=
  MkReattach ProtocolGRPC 3 (Some (MkAddr "unix" "/tmp/p")) 42 None false.
Definition ex_reattach_world : World :=
  ex_world (new_client (MkClientConfig (MkHandshake 1 "KEY" "VALUE") None (Some ex_client_versions)
    None (Some ex_reattach) None None None false 10000 25000 60000000000
    (Some Discard) (Some Discard) (Some Discard) (Some [ProtocolNetRPC; ProtocolGRPC])
    (Some default_logger) defaultPluginLogBufferSize false false false None 0 0 false)).

Example Start_reattach_witness :
  negotiatedVersion (w_client (Start (ex_startenv Timeout) ex_reattach_world).1) = 3.
Proof.
  pose proof (Start_reattach (ex_startenv Timeout) ex_reattach_world ex_reattach (MkAddr "unix" "/tmp/p")
    ex_runner eq_refl eq_refl eq_refl eq_refl eq_refl) as H.
  destruct (Start _ _) as [w' res]. destruct H as (_ & _ & H & _). exact H.
Defined.
