(* ===== verification/Helpers.v ===== *)
(** * Small parts of the library

    discover.go ([Discover]), error.go ([BasicError]), internal_logger.go, and
    [dialGRPCConn] of grpc_client.go, which builds the options of every gRPC
    connection: the main one and the brokered ones. *)

From S2P Require Import Prelude GoStd Mtls Config.

(** ** [Discover] *)

Definition slash : ascii := ascii_of_nat 47.

(** [filepath.Clean] of a rooted Unix path, on its components: empty ones and
    [.] disappear, [..] takes the one before it away. *)
Fixpoint clean_components (acc cs : list string) : list string :=
  match cs with
  | [] => rev acc
  | c :: cs =>
      if decide (c = "" ∨ c = ".") then clean_components acc cs
      else if decide (c = "..") then clean_components (tail acc) cs
      else clean_components (c :: acc) cs
  end.
Definition Clean (path : string) : string := String slash (Join (clean_components [] (Split path slash)) slash).

Definition IsAbs (path : string) : bool := HasPrefix path (String slash "").

(** [filepath.Join] of a rooted directory and a pattern. *)
Definition Join_path (dir glob : string) : string := Clean (dir +:+ String slash glob).

(** [Abs] and [Glob] are answers of the operating system. *)
Definition Discover (Abs : string → res error string) (Glob : string → res error (list string))
    (glob dir : string) : res error (list string) :=
  dir ← if IsAbs dir then Ret dir else Abs dir;
  Glob (Join_path dir glob).

(** ** [BasicError] *)

(** An error is known by its text. *)
Record BasicError : Type := MkBasicError { Message : string }.
Definition NewBasicError (err : option string) : option BasicError := MkBasicError <$> err.

(** The method on a pointer that may be nil. *)
Definition BasicError_Error (e : option BasicError) : res error string :=
  match e with Some e => Ret (Message e) | None => Panic "nil pointer dereference" end.

(** ** The internal logger *)

Section logger.
Context {Logger : Type}.
Definition SetInternalLogger (l : option Logger) (internalLogger : Logger) : Logger :=
  match l with Some l => l | None => internalLogger end.
Definition libLog (internalLogger : Logger) : Logger := internalLogger.
End logger.

(** ** [dialGRPCConn] *)

Definition MaxInt32 : Z := 2 ^ 31 - 1.

(** The dialers of the source: [Client.dialer], [netAddrDialer] of a brokered
    address, and [muxDial], which knocks first. *)
Inductive Dialer : Type := ClientDialer | NetAddrDialer (address : Addr) | MuxDialer (id : Z).

(** The options of grpc-go that matter here; [OtherOption] is any other one. *)
Inductive DialOption : Type :=
| WithContextDialer (dialer : Dialer)
| Insecure
| WithTLS (t : TLSConfig)
| MaxCallRecvMsgSize (n : Z)
| MaxCallSendMsgSize (n : Z)
| OtherOption (name : string).

Definition dial_options (tls : option TLSConfig) (dialer : Dialer) (dialOpts : list DialOption) : list DialOption :=
  [WithContextDialer dialer] ++
  [match tls with None => Insecure | Some t => WithTLS t end] ++
  [MaxCallRecvMsgSize MaxInt32; MaxCallSendMsgSize MaxInt32] ++
  dialOpts.

(** The connection: its options, and that dialling was started. *)
Record GRPCConn : Type := MkGRPCConn { gc_target : string; gc_options : list DialOption; gc_connecting : bool }.

Definition dialGRPCConn (NewClient : string → list DialOption → option error)
    (tls : option TLSConfig) (dialer : Dialer) (dialOpts : list DialOption) : res error GRPCConn :=
  let opts := dial_options tls dialer dialOpts in
  match NewClient "passthrough:///unused" opts with
  | Some e => Err e
  | None => Ret (MkGRPCConn "passthrough:///unused" opts true)
  end.

(** grpc-go uses the last option of a kind. *)
Definition last_option {A} (get : DialOption → option A) (opts : list DialOption) : option A :=
  last (omap get opts).
Definition credentials (o : DialOption) : option (option TLSConfig) :=
  match o with Insecure => Some None | WithTLS t => Some (Some t) | _ => None end.
Definition recv_size (o : DialOption) : option Z := match o with MaxCallRecvMsgSize n => Some n | _ => None end.
Definition send_size (o : DialOption) : option Z := match o with MaxCallSendMsgSize n => Some n | _ => None end.
Definition context_dialer (o : DialOption) : option Dialer := match o with WithContextDialer d => Some d | _ => None end.

(** ** Lemmas *)

Lemma clean_components_plain acc cs :
  Forall (λ c, c ∉ [""; "."; ".."]) acc → Forall (λ c, c ∉ [""; "."; ".."]) (clean_components acc cs).
Proof.
  revert acc. induction cs as [|c cs IH]; intros acc Ha; simpl; [by apply Forall_rev|].
  case_decide as H1; [by apply IH|]. case_decide as H2.
  - apply IH. by destruct Ha.
  - apply IH. constructor; [|done]. set_solver.
Qed.

(** The options a connection has been made with. *)
Lemma dialGRPCConn_last NewClient tls dialer dialOpts conn :
  dialGRPCConn NewClient tls dialer dialOpts = Ret conn →
  gc_connecting conn = true ∧
  last_option credentials (gc_options conn) = Some (default tls (last_option credentials dialOpts)) ∧
  last_option context_dialer (gc_options conn) = Some (default dialer (last_option context_dialer dialOpts)) ∧
  last_option recv_size (gc_options conn) = Some (default MaxInt32 (last_option recv_size dialOpts)) ∧
  last_option send_size (gc_options conn) = Some (default MaxInt32 (last_option send_size dialOpts)).
Proof.
  unfold dialGRPCConn. destruct (NewClient _ _); [done|]. intros [= <-]. simpl. unfold last_option, dial_options.
  split_and!; [done|..]; rewrite !omap_app, !app_assoc, last_app; destruct tls; simpl;
    destruct (last (omap _ dialOpts)); done.
Qed.

(** ** Properties *)

(** [Discover] searches below an absolute directory: the pattern it hands to
    the file system is rooted, and none of its components is empty, [.] or
    [..], whatever directory and pattern it was given. *)
Theorem Discover_rooted Abs Glob glob dir files :
  (∀ d d', Abs d = Ret d' → IsAbs d' = true) → Discover Abs Glob glob dir = Ret files →
  ∃ d cs, (IsAbs dir = true ∧ d = dir ∨ IsAbs dir = false ∧ Abs dir = Ret d) ∧ IsAbs d = true ∧
    Forall (λ c, c ∉ [""; "."; ".."]) cs ∧ cs = clean_components [] (Split (d +:+ String slash glob) slash) ∧
    Glob (String slash (Join cs slash)) = Ret files.
Proof.
  intros Habs (d & Hd & Hg)%res_bind_Ret. eexists d, _. split_and!; [| | |done|exact Hg].
  - destruct (IsAbs dir); [left|right]; [by injection Hd as ->|done].
  - destruct (IsAbs dir) eqn:Hi; [by injection Hd as <-|by eapply Habs].
  - by apply clean_components_plain.
Qed.

(** Every gRPC connection is encrypted exactly when its side has a TLS
    configuration, uses the given dialer and takes messages up to 2 GiB,
    unless the caller's own options say otherwise: those come last. *)
Theorem dialGRPCConn_options NewClient tls dialer dialOpts conn :
  dialGRPCConn NewClient tls dialer dialOpts = Ret conn →
  gc_connecting conn = true ∧
  last_option credentials (gc_options conn) = Some (default tls (last_option credentials dialOpts)) ∧
  last_option context_dialer (gc_options conn) = Some (default dialer (last_option context_dialer dialOpts)) ∧
  last_option recv_size (gc_options conn) = Some (default MaxInt32 (last_option recv_size dialOpts)) ∧
  last_option send_size (gc_options conn) = Some (default MaxInt32 (last_option send_size dialOpts)).
Proof. apply dialGRPCConn_last. Qed.

(** A [BasicError] carries the text of its error; [NewBasicError] of nil is a
    nil pointer, whose [Error] method panics. *)
Theorem BasicError_roundtrip s :
  BasicError_Error (NewBasicError (Some s)) = Ret s ∧ ∃ why, BasicError_Error (NewBasicError None) = Panic why.
Proof. split; [done|by eexists]. Qed.

(** ** Concrete instances *)

Example Discover_rooted_witness :
  ∃ cs, Discover (λ d, Ret ("/home/u/" +:+ d)) (λ p, Ret [p]) "../plugin-*" "bin/." = Ret ["/home/u/plugin-*"] ∧
    Forall (λ c, c ∉ [""; "."; ".."]) cs ∧ "/home/u/plugin-*" = String slash (Join cs slash).
Proof.
  destruct (Discover_rooted (λ d, Ret ("/home/u/" +:+ d)) (λ p, Ret [p]) "../plugin-*" "bin/." ["/home/u/plugin-*"])
    as (d & cs & _ & _ & H1 & _ & H2).
  - intros d d' [= <-]. reflexivity.
  - vm_compute. reflexivity.
  - exists cs. split; [vm_compute; reflexivity|]. split; [exact H1|]. injection H2 as <-. reflexivity.
Defined.

Example dialGRPCConn_options_witness :
  ∃ conn, dialGRPCConn (λ _ _, None) None ClientDialer [MaxCallRecvMsgSize 10] = Ret conn ∧
    last_option recv_size (gc_options conn) = Some 10.
Proof.
  destruct (dialGRPCConn (λ _ _, None) None ClientDialer [MaxCallRecvMsgSize 10]) as [conn| |] eqn:H;
    [|discriminate..].
  exists conn. split; [reflexivity|].
  apply (dialGRPCConn_options (λ _ _, None) None ClientDialer [MaxCallRecvMsgSize 10] conn H).
Defined.
