(* ===== verification/Lifecycle.v ===== *)
(** * The life of a client

    [Client.Client], [Kill], [ReattachConfig], [Protocol], [ID] and the
    multiplexer cache of client.go, [CleanupClients] and [removeManagedClient],
    and the constructors of the two protocol clients (rpc_client.go,
    grpc_client.go, grpc_stdio.go) with the connections they open and close. *)

From S2P Require Import Prelude GoStd Config Negotiate ClientData Handshake Listener Start.

(** ** The environment's answers *)

(** How [StreamStdio] answers: [status.Code] of its error decides. *)
Inductive StdioAnswer : Type :=
| StreamOK
| StreamUnavailable
| StreamUnimplemented
| StreamErr (e : error).

Record LifeEnv : Type := MkLifeEnv {
  le_start : StartEnv;
  le_Dial : option error;
  le_yamux_Client : option error;
  le_mux_Open : nat → option error;
  le_grpc_NewClient : option error;
  le_StreamStdio : StdioAnswer;
  le_Quit : option error;
  le_Close : nat → option error;
  le_grpc_Close : option error;
  le_exit_after : option Z        (* when the process exits after Close, if it does *)
}.

(** A call that fails as the environment says. *)
Definition answers {S} (e : option error) : GoM S error unit :=
  match e with Some e => fail e | None => ret tt end.

(** ** The protocol clients *)

Section clients.
Context `{!MapRange Z}.
Variable L : LifeEnv.

(** [NewRPCClient]: the session, the control stream and the two standard
    streams; a failure closes the session and with it the connection. *)
Fixpoint open_streams (n i : nat) : GoM World error unit :=
  match n with
  | O => ret tt
  | S n' =>
      match le_mux_Open L i with
      | Some e => modify (log (EClose "conn"));; fail e
      | None => open_streams n' (S i)
      end
  end.

Definition NewRPCClient (plugins : PluginSet) : GoM World error ClientProtocol :=
  match le_yamux_Client L with
  | Some e => modify (log (EClose "conn"));; fail e
  | None => open_streams 3 0;; ret (NetRPCClient plugins)
  end.

Definition newRPCClient : GoM World error ClientProtocol :=
  answers (le_Dial L);;
  modify (log (EOpen "conn"));;
  w <- get;;
  λ w0, match NewRPCClient (cfg_Plugins (config (w_client w))) w0 with
        | (w', Err e) => (log (EClose "conn") w', Err e)
        | r => r
        end.

(** [NewGRPCClientMuxer]: a dial, then a session on the connection. *)
Definition NewGRPCClientMuxer : GoM World error unit :=
  answers (le_Dial L);;
  modify (log (EOpen "muxer"));;
  answers (le_yamux_Client L).

(** [Client.getGRPCMuxer]: whether there is a multiplexer, or the cached error
    of the only attempt to create one. *)
Definition getGRPCMuxer : GoM World error bool := λ w,
  let c := w_client w in
  if negb (bool_decide (protocol c = ProtocolGRPC)) || negb (cfg_GRPCBrokerMultiplex (config c))
  then (w, Ret false)
  else
    let '(w, st) := match grpcMuxer c with
                    | MuxerUnset =>
                        match NewGRPCClientMuxer w with
                        | (w', Ret _) => (w', MuxerReady)
                        | (w', Err e) => (w', MuxerFailed e)
                        | (w', Panic p) => (w', MuxerUnset)
                        end
                    | st => (w, st)
                    end in
    let w := upd_client (set_grpcMuxer st) w in
    match st with
    | MuxerReady => (w, Ret true)
    | MuxerFailed e => (w, Err e)
    | MuxerUnset => (w, Ret false)
    end.

(** [Client.dialer]: how a connection is made (over the multiplexer or not) and
    whether it is wrapped in TLS, which only net/rpc needs. *)
Definition dialer : GoM World error (bool * bool) :=
  muxed <- getGRPCMuxer;;
  answers (if muxed then le_mux_Open L 0 else le_Dial L);;
  w <- get;;
  let c := w_client w in
  ret (muxed, bool_decide (protocol c = ProtocolNetRPC ∧ is_Some (cfg_TLSConfig (config c)))).

(** [newGRPCStdioClient]: whether the plugin has the stdio service. *)
Definition newGRPCStdioClient : GoM World error bool :=
  match le_StreamStdio L with
  | StreamOK => ret true
  | StreamUnavailable | StreamUnimplemented => ret false
  | StreamErr e => fail e
  end.

Definition newGRPCClient : GoM World error ClientProtocol :=
  answers (le_grpc_NewClient L);;
  modify (log (EOpen "grpc"));;
  muxer <- getGRPCMuxer;;
  newGRPCStdioClient;;
  w <- get;;
  ret (GRPCClient (cfg_Plugins (config (w_client w))) muxer).

(** [RPCClient.Close]: the error of [Control.Quit] is kept, the streams and the
    broker are closed in order, and the first failing close ends it. *)
Fixpoint close_all (es : list (option error)) (quit : option error) : option error :=
  match es with
  | [] => quit
  | Some e :: _ => Some e
  | None :: es' => close_all es' quit
  end.
Definition RPCClient_Close : option error := close_all (le_Close L <$> [0; 1; 2; 3]%nat) (le_Quit L).

(** [GRPCClient.Close]: the shutdown call is best effort. *)
Definition GRPCClient_Close : option error := le_grpc_Close L.

Definition protocol_Close (p : ClientProtocol) : option error :=
  match p with NetRPCClient _ => RPCClient_Close | GRPCClient _ _ => GRPCClient_Close end.

(** ** [Client.Client] *)

Definition Client_Client : GoM World error ClientProtocol :=
  Start (le_start L);;
  w <- get;;
  match client (w_client w) with
  | Some p => ret p
  | None =>
      p <- (if decide (protocol (w_client w) = ProtocolNetRPC) then newRPCClient
            else if decide (protocol (w_client w) = ProtocolGRPC) then newGRPCClient
            else fail (Errorf "unknown server protocol: %s" [protocol (w_client w)]));;
      modify (upd_client (set_client (Some p)));;
      ret p
  end.

(** ** [Client.Kill] *)

Fixpoint remove_first (i : nat) (l : list nat) : list nat :=
  match l with
  | [] => []
  | j :: l' => if decide (j = i) then l' else j :: remove_first i l'
  end.
Definition removeManagedClient (w : World) : World :=
  set_managed (remove_first (w_self w) (managedClients w)) w.

(** [os.RemoveAll(dir)]: the directory and everything below it. *)
Definition RemoveAll (dir : string) (o : OS) : OS :=
  upd_files (filter (λ kv, kv.1 ≠ dir ∧ String.prefix (dir +:+ "/") kv.1 = false)) o.

(** The deferred part of [kill]. *)
Definition kill_cleanup (hostSocketDir : string) (w : World) : World :=
  let w := if decide (hostSocketDir = "") then w else set_w_os (RemoveAll hostSocketDir (w_os w)) w in
  let w := upd_client (set_runner None) w in
  if cfg_Managed (config (w_client w)) then removeManagedClient w else w.

(** The attempt to close the protocol client, and whether it succeeded. *)
Definition close_gracefully (w : World) : World * bool :=
  match address (w_client w) with
  | None => (w, false)
  | Some _ =>
      match Client_Client w with
      | (w', Ret p) => (log (EClose "client") w', bool_decide (protocol_Close p = None))
      | (w', _) => (w', false)
      end
  end.

(** The grace period of [kill], and whether the process exits within it. *)
Definition defaultShutdownTimeout : Z := 2 * Second.
Definition grace (c : Client) : Z :=
  let t := cfg_ShutdownTimeout (config c) in if bool_decide (t ≤ 0) then defaultShutdownTimeout else t.
Definition exits_in_time (c : Client) : bool :=
  match le_exit_after L with Some t => bool_decide (t < grace c) | None => false end.

Definition kill (w : World) : World :=
  let w := upd_client (λ c, set_killBodyRuns (killBodyRuns c + 1) c) w in
  let hostSocketDir := socketDir (unixSocketCfg (w_client w)) in
  match runner (w_client w) with
  | None => w
  | Some r =>
      if decide (runner_ID r = "") then w
      else
        let '(w, graceful) := close_gracefully w in
        let w := if graceful && exits_in_time (w_client w) then w
                 else upd_client (set_processKilled true) (log (EKill r) w) in
        kill_cleanup hostSocketDir w
  end.

(** The gate of [Kill]; [killOnce] is consumed only when there is a runner. *)
Definition Kill (w : World) : World :=
  match runner (w_client w) with
  | None => w
  | Some _ =>
      if killOnce (w_client w) then w
      else kill (upd_client (set_killOnce true) w)
  end.

(** ** The rest of the public interface *)

Definition Client_ReattachConfig (c : Client) : option ReattachConfig :=
  match address c with
  | None => None
  | Some a =>
      match cfg_Cmd (config c), cfg_Reattach (config c) with
      | Some (MkCmd _ _ None), _ => None
      | _, Some ra => Some ra
      | Some (MkCmd _ _ (Some pid)), None =>
          Some (MkReattach (protocol c) (negotiatedVersion c) (Some a) pid None false)
      | None, None => Some (MkReattach (protocol c) (negotiatedVersion c) (Some a) 0 None false)
      end
  end.

Definition Client_Protocol (w : World) : World * Protocol :=
  match Start (le_start L) w with
  | (w', Ret _) => (w', protocol (w_client w'))
  | (w', _) => (w', ProtocolInvalid)
  end.

Definition Client_ID (c : Client) : string :=
  match runner c with Some r => runner_ID r | None => "" end.
End clients.

(** ** Lemmas: what [Start] and [Client] leave alone *)

(** The part of the world that only [Kill] changes. *)
Definition life_frame (w w' : World) : Prop :=
  w_self w' = w_self w ∧ managedClients w' = managedClients w ∧ Killed w' = Killed w ∧
  killOnce (w_client w') = killOnce (w_client w) ∧
  killBodyRuns (w_client w') = killBodyRuns (w_client w) ∧
  cfg_Managed (config (w_client w')) = cfg_Managed (config (w_client w)) ∧
  cfg_ShutdownTimeout (config (w_client w')) = cfg_ShutdownTimeout (config (w_client w)).

#[export] Instance life_frame_preorder : PreOrder life_frame.
Proof.
  split; [by intros ?|]. intros ??? H1 H2. unfold life_frame in *. destruct_and!. split_and!; congruence.
Qed.

(** [Start] leaves the cached protocol client and multiplexer alone, too. *)
Definition start_frame (w w' : World) : Prop :=
  life_frame w w' ∧ client (w_client w') = client (w_client w) ∧
  grpcMuxer (w_client w') = grpcMuxer (w_client w).

#[export] Instance start_frame_preorder : PreOrder start_frame.
Proof.
  split; [by intros ?|]. intros ??? (? & H1 & H2) (? & H3 & H4). split; [by etrans|]. split; congruence.
Qed.

(** The same for a step on the client alone. *)
Definition client_frame (c c' : Client) : Prop :=
  killOnce c' = killOnce c ∧ killBodyRuns c' = killBodyRuns c ∧
  cfg_Managed (config c') = cfg_Managed (config c) ∧
  cfg_ShutdownTimeout (config c') = cfg_ShutdownTimeout (config c) ∧ client c' = client c ∧ grpcMuxer c' = grpcMuxer c.

#[export] Instance client_frame_preorder : PreOrder client_frame.
Proof.
  split; [by intros ?|]. intros ??? H1 H2. unfold client_frame in *. destruct_and!. split_and!; congruence.
Qed.

Lemma on_client_frame {A} (m : GoM Client error A) :
  keeps client_frame m → keeps start_frame (on_client m).
Proof.
  intros Hm w. specialize (Hm (w_client w)). unfold on_client.
  destruct (m (w_client w)) as [c' r]. simpl in *. unfold client_frame in Hm. destruct_and!.
  by split_and!.
Qed.
Lemma on_host_os_frame {A} (m : GoM OS error A) : keeps start_frame (on_host_os m).
Proof. intros w. unfold on_host_os. by destruct (m (w_os w)). Qed.

Section frames.
Context `{!MapRange Z}.

Lemma prepare_cmd_frame E : keeps client_frame (prepare_cmd E).
Proof.
  assert (∀ cmd, keeps client_frame (check_secure E cmd)) as Hs.
  { intros cmd c. unfold check_secure. destruct (cfg_SecureConfig _) as [s|]; [|done].
    by destruct (Check E (cmd_Path cmd) s). }
  unfold prepare_cmd, auto_mtls, unix_socket_config.
  solve_keeps ltac:(unfold client_frame, store_cmd; simpl; repeat case_match; by split_and!).
  all: try apply Hs.
Qed.

Lemma await_handshake_client_frame E r : keeps client_frame (await_handshake E r).
Proof.
  assert (∀ s, keeps client_frame (loadServerCert (se_hs E) s)) as Hload
    by (intros s; unfold loadServerCert; solve_keeps ltac:(done)).
  assert (∀ ps, keeps client_frame (check_mux ps)) as Hmux
    by (intros ps c; unfold check_mux; repeat case_match; done).
  assert (∀ A f (m : GoM Client error A), keeps client_frame m → keeps client_frame (wrap_err f m)) as Hw.
  { intros A f m Hm c. specialize (Hm c). unfold wrap_err. by destruct (m c) as [? []]. }
  unfold await_handshake, handshake.
  destruct (se_wait E); [apply keeps_fail; typeclasses eauto..|].
  destruct (scan_first out); (case_match; [apply keeps_fail; typeclasses eauto|]);
    (apply keeps_bind; [typeclasses eauto|apply Hw, keeps_lift; typeclasses eauto|intros ?]);
    solve_keeps ltac:(done); solve [apply Hmux | apply Hw, Hload].
Qed.

Lemma start_runner_frame E r : keeps start_frame (start_runner E r).
Proof.
  unfold start_runner. apply keeps_bind; [typeclasses eauto|apply keeps_modify; by intros|intros _].
  destruct (runner_Start r); [apply keeps_fail; typeclasses eauto|].
  apply keeps_bind; [typeclasses eauto| |intros _].
  { apply keeps_modify. intros w. unfold set_process, start_frame, life_frame, upd_client. simpl. by case_match. }
  intros w. unfold or_kill. set (m := bind _ _). assert (keeps start_frame m) as Hm.
  { unfold m. apply keeps_bind; [typeclasses eauto|apply keeps_modify; by intros|intros _].
    apply keeps_bind; [typeclasses eauto|apply on_client_frame, await_handshake_client_frame|].
    intros a. solve_keeps ltac:(done). }
  specialize (Hm w). destruct (m w) as [w' []]; simpl in *; [done|..]; (etrans; [exact Hm|done]).
Qed.

Lemma reattach_frame E ra a : keeps client_frame (reattach E ra a).
Proof.
  unfold reattach. apply keeps_bind; [typeclasses eauto|apply keeps_lift; typeclasses eauto|intros r].
  apply keeps_bind; [typeclasses eauto|apply keeps_modify|intros; apply keeps_ret; typeclasses eauto].
  intros c. unfold reattach_versions. repeat case_match; done.
Qed.

Lemma Start_start_frame E : keeps start_frame (Start E).
Proof.
  unfold Start. apply keeps_bind; [typeclasses eauto|apply keeps_get; typeclasses eauto|intros w].
  destruct (address (w_client w)); [apply keeps_ret; typeclasses eauto|].
  apply keeps_bind; [typeclasses eauto|apply keeps_lift; typeclasses eauto|intros _].
  destruct (cfg_Reattach _) as [ra|]; [apply on_client_frame, reattach_frame|].
  apply keeps_bind; [typeclasses eauto| |intros r; apply start_runner_frame].
  apply keeps_bind; [typeclasses eauto|apply on_client_frame, prepare_cmd_frame|intros cmd].
  unfold make_runner, mkdir_socketDir.
  solve_keeps ltac:(unfold start_frame, life_frame, upd_client, log, store_cmd; simpl; repeat case_match; by split_and!).
  all: apply on_host_os_frame.
Qed.

Lemma Start_frame E : keeps life_frame (Start E).
Proof. intros w. apply Start_start_frame. Qed.

(** Making the protocol client changes neither the address nor the runner. *)
Definition proto_frame (w w' : World) : Prop :=
  life_frame w w' ∧ address (w_client w') = address (w_client w) ∧
  runner (w_client w') = runner (w_client w) ∧ w_os w' = w_os w ∧
  unixSocketCfg (w_client w') = unixSocketCfg (w_client w).

#[export] Instance proto_frame_preorder : PreOrder proto_frame.
Proof.
  split; [by intros ?|]. intros ??? [? H1] [? H2]. split; [by etrans|]. destruct_and!. split_and!; congruence.
Qed.

Lemma getGRPCMuxer_frame L : keeps proto_frame (getGRPCMuxer L).
Proof.
  intros w. unfold getGRPCMuxer, NewGRPCClientMuxer, answers, bind, modify, ret, fail.
  repeat case_match; simplify_eq/=; done.
Qed.

Lemma newRPCClient_frame L : keeps proto_frame (newRPCClient L).
Proof.
  assert (∀ e, keeps proto_frame (answers (S:=World) e)) as Ha
    by (intros e w; unfold answers; by destruct e).
  assert (∀ n i, keeps proto_frame (open_streams L n i)) as Ho.
  { induction n as [|n IH]; intros i; simpl; [apply keeps_ret; typeclasses eauto|].
    destruct (le_mux_Open L i); [|apply IH]. solve_keeps ltac:(done). }
  assert (∀ ps, keeps proto_frame (NewRPCClient L ps)) as Hn.
  { intros ps. unfold NewRPCClient. destruct (le_yamux_Client L); [solve_keeps ltac:(done)|].
    apply keeps_bind; [typeclasses eauto|apply Ho|intros; apply keeps_ret; typeclasses eauto]. }
  unfold newRPCClient. apply keeps_bind; [typeclasses eauto|apply Ha|intros _].
  apply keeps_bind; [typeclasses eauto|apply keeps_modify; by intros|intros _].
  apply keeps_bind; [typeclasses eauto|apply keeps_get; typeclasses eauto|intros w0 w].
  specialize (Hn (cfg_Plugins (config (w_client w0))) w).
  destruct (NewRPCClient L _ w) as [w' []]; simpl in *; [done|..|done]. by etrans.
Qed.

Lemma newGRPCClient_frame L : keeps proto_frame (newGRPCClient L).
Proof.
  assert (∀ e, keeps proto_frame (answers (S:=World) e)) as Ha
    by (intros e w; unfold answers; by destruct e).
  unfold newGRPCClient, newGRPCStdioClient.
  solve_keeps ltac:(done); first [apply Ha | apply getGRPCMuxer_frame].
Qed.

(** [Client] on a started client. *)
Lemma Client_Client_started L w a :
  address (w_client w) = Some a → proto_frame w (Client_Client L w).1.
Proof.
  intros Ha. unfold Client_Client, bind at 1, Start, bind at 1, get at 1. rewrite Ha.
  unfold ret at 1, bind at 1, get. destruct (client (w_client w)); [done|].
  revert w Ha. intros w _. set (p := protocol (w_client w)). clearbody p.
  revert w. change (keeps proto_frame
    (bind (if decide (p = ProtocolNetRPC) then newRPCClient L
           else if decide (p = ProtocolGRPC) then newGRPCClient L
           else fail (Errorf "unknown server protocol: %s" [p]))
       (λ q, bind (modify (upd_client (set_client (Some q)))) (λ _, ret q)))).
  apply keeps_bind; [typeclasses eauto| |intros q; solve_keeps ltac:(done)].
  case_decide; [apply newRPCClient_frame|].
  case_decide; [apply newGRPCClient_frame|apply keeps_fail; typeclasses eauto].
Qed.
End frames.

(** ** Lemmas: [Kill] *)


Lemma RemoveAll_gone dir o : files (RemoveAll dir o) !! dir = None.
Proof.
  unfold RemoveAll. simpl. destruct (filter _ _ !! dir) eqn:H'; [|done].
  apply map_lookup_filter_Some in H' as [_ [Hne _]]. done.
Qed.

Section kill.
Context `{!MapRange Z}.

(** What the attempt to close the protocol client leaves in place. *)
Lemma close_gracefully_spec L w :
  let '(w', graceful) := close_gracefully L w in
  proto_frame w w' ∧ (graceful = true → last (w_log w') = Some (EClose "client")).
Proof.
  unfold close_gracefully. destruct (address (w_client w)) as [a|] eqn:Ha; [|done].
  pose proof (Client_Client_started L w a Ha) as Hf.
  destruct (Client_Client L w) as [w' [p|e|s]]; simpl in *; [|done..].
  split; [etrans; [exact Hf|done]|]. intros _. by rewrite last_snoc.
Qed.

Lemma kill_cleanup_frame dir w :
  let w' := kill_cleanup dir w in
  runner (w_client w') = None ∧ w_log w' = w_log w ∧
  killOnce (w_client w') = killOnce (w_client w) ∧
  killBodyRuns (w_client w') = killBodyRuns (w_client w) ∧
  processKilled (w_client w') = processKilled (w_client w) ∧
  (dir ≠ "" → files (w_os w') !! dir = None) ∧
  managedClients w' = (if cfg_Managed (config (w_client w))
                       then remove_first (w_self w) (managedClients w) else managedClients w).
Proof.
  unfold kill_cleanup. case_decide; simpl; destruct (cfg_Managed _); simpl; split_and!;
    try done; intros _; apply RemoveAll_gone.
Qed.

Lemma kill_spec L w r :
  runner (w_client w) = Some r → runner_ID r ≠ "" →
  let w' := kill L w in
  runner (w_client w') = None ∧ killOnce (w_client w') = killOnce (w_client w) ∧
  killBodyRuns (w_client w') = killBodyRuns (w_client w) + 1 ∧
  managedClients w' = (if cfg_Managed (config (w_client w))
                       then remove_first (w_self w) (managedClients w) else managedClients w) ∧
  (socketDir (unixSocketCfg (w_client w)) ≠ "" →
   files (w_os w') !! socketDir (unixSocketCfg (w_client w)) = None) ∧
  ((last (w_log w') = Some (EKill r) ∧ processKilled (w_client w') = true) ∨
   (last (w_log w') = Some (EClose "client") ∧ exits_in_time L (w_client w) = true)).
Proof.
  intros Hr Hid. unfold kill. set (w0 := upd_client _ w). cbv zeta.
  replace (runner (w_client w0)) with (Some r) by done. rewrite decide_False by done.
  pose proof (close_gracefully_spec L w0) as Hg. destruct (close_gracefully L w0) as [w1 g].
  destruct Hg as [[(Hself & Hman & _ & Hk & Hb & Hm & Hst) (_ & _ & _ & Hu)] Hlast].
  assert (exits_in_time L (w_client w1) = exits_in_time L (w_client w)) as Hex
    by (unfold exits_in_time, grace; by rewrite Hst).
  rewrite Hex. set (w2 := if g && exits_in_time L (w_client w) then w1 else _).
  destruct (kill_cleanup_frame (socketDir (unixSocketCfg (w_client w0))) w2)
    as (H1 & H2 & H3 & H4 & H5 & H6 & H7).
  assert (life_frame w1 w2) as (Hs2 & Hm2 & _ & Hk2 & Hb2 & Hg2 & _)
    by (unfold w2; by destruct (g && _)).
  split_and!; [done|by rewrite H3, Hk2, Hk|by rewrite H4, Hb2, Hb| |done|].
  - by rewrite H7, Hs2, Hm2, Hg2, Hself, Hman, Hm.
  - rewrite H2, H5. unfold w2. destruct g, (exits_in_time L (w_client w)); simpl; [by right; auto|left..];
      by rewrite last_snoc.
Qed.

(** A body that returns early only counts. *)
Lemma kill_runs L w :
  killBodyRuns (w_client (kill L w)) = killBodyRuns (w_client w) + 1 ∧
  killOnce (w_client (kill L w)) = killOnce (w_client w).
Proof.
  destruct (runner (w_client w)) as [r|] eqn:Hr; [|unfold kill; simpl; rewrite Hr; done].
  destruct (decide (runner_ID r = "")) as [Hid|Hid].
  - unfold kill. simpl. rewrite Hr, decide_True by done. done.
  - destruct (kill_spec L w r Hr Hid) as (_ & ? & ? & _). done.
Qed.

Lemma Kill_started L w r :
  runner (w_client w) = Some r → killOnce (w_client w) = false →
  Kill L w = kill L (upd_client (set_killOnce true) w).
Proof. intros Hr Hk. unfold Kill. by rewrite Hr, Hk. Qed.
End kill.

(** ** The client as a transition system: the order of public calls *)

(** Calls are atomic: [Start], [Client] and the lookups hold the client's lock,
    and [Kill] runs its body under [killOnce], on which concurrent callers
    wait. [ProcessExits] is the goroutine that waits for the process. *)
Inductive ClientOp : Type :=
| OpStart (E : StartEnv)
| OpClient (L : LifeEnv)
| OpProtocol (L : LifeEnv)
| OpKill (L : LifeEnv)
| ProcessExits.

#[export] Instance client_lts `{!MapRange Z} : LTS World ClientOp := {|
  lts_init w := ∃ config self o managed, w = NewClient config self o managed;
  lts_step op w := Some
    match op with
    | OpStart E => (Start E w).1
    | OpClient L => (Client_Client L w).1
    | OpProtocol L => (Client_Protocol L w).1
    | OpKill L => Kill L w
    | ProcessExits => upd_client (λ c, set_doneCtx true (set_exited true c)) w
    end
|}.

Section lts.
Context `{!MapRange Z}.

Lemma Client_Client_frame L : keeps life_frame (Client_Client L).
Proof.
  intros w. pose proof (Start_frame (le_start L) w) as Hs. unfold Client_Client, bind at 1.
  destruct (Start (le_start L) w) as [w1 [a|e|p]] eqn:Hst; simpl in Hs; [|done..].
  pose proof (Start_address _ _ _ _ Hst) as Ha.
  assert (life_frame w1 (Client_Client L w1).1) as H1 by apply (Client_Client_started L w1 a Ha).
  etrans; [exact Hs|]. revert H1. unfold Client_Client at 1, bind at 1, Start, bind at 1, get at 1.
  by rewrite Ha.
Qed.

(** [killBodyRuns] counts the consumed [killOnce]. *)
Lemma kill_once_invariant w :
  reachable w → killBodyRuns (w_client w) = if killOnce (w_client w) then 1 else 0.
Proof.
  apply (invariant_reachable
    (λ w, killBodyRuns (w_client w) = if killOnce (w_client w) then 1 else 0)).
  { intros w0 (config & self & o & managed & ->). done. }
  intros op w1 w2 HI Hstep. injection Hstep as <-. destruct op as [E|L|L|L|]; simpl.
  - destruct (Start_frame E w1) as (_ & _ & _ & -> & -> & _). done.
  - destruct (Client_Client_frame L w1) as (_ & _ & _ & -> & -> & _). done.
  - destruct (Start_frame (le_start L) w1) as (_ & _ & _ & Hk & Hb & _). unfold Client_Protocol.
    destruct (Start (le_start L) w1) as [w' []]; simpl in *; by rewrite Hk, Hb.
  - unfold Kill. destruct (runner (w_client w1)); [|done].
    destruct (killOnce (w_client w1)) eqn:Hk; [by rewrite Hk|].
    destruct (kill_runs L (upd_client (set_killOnce true) w1)) as [-> ->]. simpl. lia.
  - done.
Qed.
End lts.

(** ** [CleanupClients]: several clients of one process *)

(** The clients of the process by identity, with what they share. *)
Record Host : Type := MkHost {
  h_clients : gmap nat Client;
  h_os : OS;
  h_log : list Event;
  h_managed : list nat;
  h_Killed : bool
}.

(** [client.Kill()] of the client with identity [i]; an identity without a
    client cannot occur in the list and is skipped. *)
Definition Kill_at `{!MapRange Z} (L : LifeEnv) (h : Host) (i : nat) : Host :=
  match h_clients h !! i with
  | None => h
  | Some c =>
      let w := Kill L (MkWorld c i (h_os h) (h_log h) (h_managed h) (h_Killed h)) in
      MkHost (<[i := w_client w]> (h_clients h)) (w_os w) (w_log w) (managedClients w) (Killed w)
  end.

(** The list is read once, under its lock, before the clients are killed; the
    goroutines run in some order. *)
Definition CleanupClients `{!MapRange Z} (L : LifeEnv) (order : list nat → list nat) (h : Host) : Host :=
  let h := MkHost (h_clients h) (h_os h) (h_log h) (h_managed h) true in
  foldl (Kill_at L) h (order (h_managed h)).

Section cleanup.
Context `{!MapRange Z}.

(** A client that can be killed: it has a runner with an identifier and has
    not been killed before. *)
Definition killable (h : Host) (i : nat) : Prop :=
  ∃ c r, h_clients h !! i = Some c ∧ runner c = Some r ∧ runner_ID r ≠ "" ∧ killOnce c = false.
Definition dead (h : Host) (i : nat) : Prop :=
  ∃ c, h_clients h !! i = Some c ∧ runner c = None.

Lemma Kill_at_other L h i j : i ≠ j → h_clients (Kill_at L h i) !! j = h_clients h !! j.
Proof. intros H. unfold Kill_at. case_match; [|done]. simpl. by rewrite lookup_insert_ne. Qed.

Lemma Kill_at_dead L h i : killable h i → dead (Kill_at L h i) i.
Proof.
  intros (c & r & Hc & Hr & Hid & Hk). unfold Kill_at. rewrite Hc.
  rewrite (Kill_started L _ r) by done. set (w := upd_client _ _).
  destruct (kill_spec L w r Hr Hid) as [Hnone _]. eexists. simpl. by rewrite lookup_insert_eq.
Qed.

Lemma Kill_no_runner L w : runner (w_client w) = None → Kill L w = w.
Proof. intros H. unfold Kill. by rewrite H. Qed.

Lemma Kill_at_stays_dead L h i j : dead h j → dead (Kill_at L h i) j.
Proof.
  intros (c & Hc & Hr). destruct (decide (i = j)) as [->|Hne].
  - unfold Kill_at. rewrite Hc, Kill_no_runner by done. eexists. simpl. by rewrite lookup_insert_eq.
  - exists c. by rewrite Kill_at_other.
Qed.

Lemma foldl_Kill_dead L l h i :
  (i ∈ l ∧ killable h i) ∨ dead h i → dead (foldl (Kill_at L) h l) i.
Proof.
  revert h. induction l as [|j l IH]; intros h H; simpl.
  { destruct H as [[H _]|H]; [by apply elem_of_nil in H|done]. }
  apply IH. destruct H as [[Hin Hk]|Hd]; [|right; by apply Kill_at_stays_dead].
  destruct (decide (j = i)) as [->|Hne]; [right; by apply Kill_at_dead|left].
  apply elem_of_cons in Hin as [?|Hin]; [done|]. split; [done|].
  destruct Hk as (c & r & Hc & Hk). exists c, r. by rewrite Kill_at_other.
Qed.
End cleanup.

(** ** Properties *)

Section properties.
Context `{!MapRange Z}.


(** However the public calls are interleaved, the body of [Kill] runs at
    most once in the life of a client, exactly when its [sync.Once] was used. *)
Theorem Kill_body_once w :
  reachable w → killBodyRuns (w_client w) ≤ 1 ∧
    (killBodyRuns (w_client w) = 1 ↔ killOnce (w_client w) = true).
Proof. intros ->%kill_once_invariant. destruct (killOnce _); split; [lia|done|lia|done]. Qed.

(** [Client] returns the same protocol client on every call after the first
    successful one, without touching the plugin again. *)
Theorem Client_cached L L' w w' p :
  Client_Client L w = (w', Ret p) → Client_Client L' w' = (w', Ret p).
Proof.
  unfold Client_Client at 1. intros (w1 & a & Hs & H)%GoM_bind_Ret.
  pose proof (Start_address _ _ _ _ Hs) as Ha.
  apply GoM_bind_Ret in H as (w2 & w2' & [= <- <-] & H).
  assert (address (w_client w') = Some a ∧ client (w_client w') = Some p) as [Ha' Hc'].
  { destruct (client (w_client w1)) as [q|] eqn:Hc; [by injection H as <- <-|].
    pose proof (Client_Client_started L w1 a Ha) as [_ [Haddr _]].
    apply GoM_bind_Ret in H as (w3 & q & Hq & H).
    apply GoM_bind_Ret in H as (w4 & [] & [= <-] & [= <- <-]). split; [|done].
    simpl. revert Haddr. unfold Client_Client, bind at 1, Start, bind at 1, get at 1. rewrite Ha.
    unfold ret at 1, bind at 1, get. rewrite Hc. unfold bind at 1. rewrite Hq. simpl. congruence. }
  unfold Client_Client, bind at 1, Start, bind at 1, get at 1. rewrite Ha'.
  unfold ret at 1, bind, get. by rewrite Hc'.
Qed.

(** The multiplexer is created at most once: its first outcome, in
    particular an error, is what every later call returns, without dialling
    again. *)
Theorem getGRPCMuxer_cached L L' w w' r :
  getGRPCMuxer L w = (w', r) → getGRPCMuxer L' w' = (w', r).
Proof.
  unfold getGRPCMuxer at 1. destruct (_ || _) eqn:Hg.
  { intros [= <- <-]. unfold getGRPCMuxer. by rewrite Hg. }
  intros H.
  assert (protocol (w_client w') = protocol (w_client w) ∧
    cfg_GRPCBrokerMultiplex (config (w_client w')) = cfg_GRPCBrokerMultiplex (config (w_client w)) ∧
    ((grpcMuxer (w_client w') = MuxerReady ∧ r = Ret true) ∨
     ∃ e, grpcMuxer (w_client w') = MuxerFailed e ∧ r = Err e)) as (Hp & Hm & Hst).
  { unfold NewGRPCClientMuxer, answers, bind, modify, ret, fail in H.
    repeat case_match; simplify_eq/=; split_and!; eauto. }
  unfold getGRPCMuxer. rewrite Hp, Hm, Hg.
  destruct Hst as [[Hst ->]|(e & Hst & ->)]; rewrite Hst; f_equal;
    destruct w' as [[]]; simpl in *; by subst.
Qed.

(** A net/rpc client that cannot be set up closes the connection it opened. *)
Theorem newRPCClient_closes L w w' e :
  newRPCClient L w = (w', Err e) →
  w_log w' = w_log w ∨ ∃ evs, w_log w' = w_log w ++ EOpen "conn" :: evs ∧ last evs = Some (EClose "conn").
Proof.
  unfold newRPCClient, answers, bind at 1. destruct (le_Dial L) as [e'|].
  { intros [= <- _]. by left. }
  unfold ret, bind, modify, get. intros H. right.
  assert (∀ ps w1 w2 e1, NewRPCClient L ps w1 = (w2, Err e1) → ∃ evs, w_log w2 = w_log w1 ++ evs) as Hn.
  { assert (∀ n i w1 w2 e1, open_streams L n i w1 = (w2, Err e1) → ∃ evs, w_log w2 = w_log w1 ++ evs) as Ho.
    { induction n as [|n IH]; intros i w1 w2 e1; simpl; [done|].
      destruct (le_mux_Open L i); [|apply IH]. intros [= <- _]. simpl. eauto. }
    intros ps w1 w2 e1. unfold NewRPCClient. destruct (le_yamux_Client L).
    { intros [= <- _]. simpl. eauto. }
    unfold bind. destruct (open_streams L 3 0 w1) as [w3 []] eqn:Hos; [done| |done].
    intros [= <- _]. eauto. }
  destruct (NewRPCClient _ _ _) as [w1 [|e1|]] eqn:Hr; [done| |done]. injection H as <- _.
  apply Hn in Hr as [evs Hevs]. exists (evs ++ [EClose "conn"]). simpl in *.
  rewrite Hevs, last_snoc, <- !app_assoc. done.
Qed.

(** A gRPC client that fails after its connection was created (no
    multiplexer, or an error of the stdio service) never closes it. *)
Theorem newGRPCClient_leaks L w w' e :
  le_grpc_NewClient L = None → newGRPCClient L w = (w', Err e) →
  ∃ evs, w_log w' = w_log w ++ EOpen "grpc" :: evs ∧ EClose "grpc" ∉ evs.
Proof.
  intros Hn. unfold newGRPCClient, answers, bind at 1. rewrite Hn. unfold ret at 1, bind at 1, modify at 1.
  unfold bind at 1. set (w0 := log _ w).
  assert (∃ evs, w_log (getGRPCMuxer L w0).1 = w_log w0 ++ evs ∧ EClose "grpc" ∉ evs) as (evs & Hl & Hne).
  { unfold getGRPCMuxer, NewGRPCClientMuxer, answers, bind, modify, ret, fail.
    repeat case_match; simplify_eq/=;
      solve [exists []; rewrite app_nil_r; set_solver | eexists [EOpen "muxer"]; set_solver]. }
  destruct (getGRPCMuxer L w0) as [w1 [b|e1|]]; simpl in Hl; [|intros [= <- _]|done].
  - unfold bind, newGRPCStdioClient. destruct (le_StreamStdio L); [done..|]. intros [= <- _].
    exists evs. rewrite Hl. unfold w0. simpl. by rewrite <- app_assoc.
  - exists evs. rewrite Hl. unfold w0. simpl. by rewrite <- app_assoc.
Qed.

(** A client whose failed [Start] was followed by [Kill] can be started
    again, but no further [Kill] has any effect: the second plugin cannot be
    stopped through the client. *)
Theorem Kill_useless_after_restart L1 L2 w w1 w2 E r a :
  runner (w_client w) = Some r → runner_ID r ≠ "" → killOnce (w_client w) = false →
  Kill L1 w = w1 → Start E w1 = (w2, Ret a) → Kill L2 w2 = w2.
Proof.
  intros Hr Hid Hk <- Hs. rewrite (Kill_started L1 w r) in Hs by done.
  set (w0 := upd_client _ w) in *. destruct (kill_runs L1 w0) as [_ Hk1].
  destruct (Start_frame E (kill L1 w0)) as (_ & _ & _ & Hk2 & _). rewrite Hs in Hk2. simpl in Hk2.
  unfold Kill. rewrite Hk2, Hk1. simpl. by destruct (runner (w_client w2)).
Qed.

(** When [RunnerFunc] fails, the directory created for its sockets stays
    behind: there is no runner yet, so [Kill] does not remove it. *)
Theorem Start_leaks_socket_dir L E w dir e :
  address (w_client w) = None → runner (w_client w) = None →
  validate (config (w_client w)) = Ret tt → cfg_Reattach (config (w_client w)) = None →
  cfg_RunnerFunc (config (w_client w)) = Some (Err e) →
  cfg_SecureConfig (config (w_client w)) = None → cfg_AutoMTLS (config (w_client w)) = false →
  cfg_Cmd (config (w_client w)) = None → cfg_UnixSocketConfig (config (w_client w)) = None →
  Group (unixSocketCfg (w_client w)) = "" →
  se_MkdirTemp E (TempDir (unixSocketCfg (w_client w))) "plugin-dir" = Ret dir →
  let '(w', res) := Start E w in
  res = Err e ∧ is_Some (files (w_os (Kill L w')) !! dir).
Proof.
  intros Ha Hr Hv Hra Hf Hs Hm Hc Hu Hg Hd. unfold Start, bind at 1, get. rewrite Ha, Hra.
  unfold bind at 1, lift at 1. rewrite Hv. unfold bind at 1, prepare, bind at 1, on_client.
  assert (∃ c' cmd, prepare_cmd E (w_client w) = (c', Ret cmd) ∧ runner c' = None ∧
    unixSocketCfg c' = unixSocketCfg (w_client w) ∧ cfg_RunnerFunc (config c') = Some (Err e))
    as (c' & cmd & -> & Hr' & Hu' & Hf').
  { unfold prepare_cmd, check_secure, auto_mtls, unix_socket_config, store_cmd, bind, get, modify, ret.
    simpl. rewrite !Hc. simpl. rewrite Hs. simpl. rewrite Hm. simpl. rewrite Hu. simpl.
    rewrite decide_True by done. simpl. rewrite Hc. eexists _, _. split; [reflexivity|]. simpl. by destruct (unixSocketCfg _). }
  unfold make_runner, mkdir_socketDir, bind, get, lift, modify, on_host_os, ret. simpl.
  rewrite Hf'. simpl. rewrite !Hu', Hd. simpl. rewrite decide_True by done. simpl.
  split; [done|]. rewrite Kill_no_runner.
  - simpl. rewrite lookup_insert_eq. eauto.
  - simpl. unfold store_cmd. by case_match.
Qed.

(** C31: a started client can be handed over: its [ReattachConfig] given to a new
    client yields the same address, protocol and version. *)
Theorem reattach_roundtrip E c a ra r w2 path env pid :
  address c = Some a → cfg_Cmd (config c) = Some (MkCmd path env (Some pid)) →
  cfg_Reattach (config c) = None → pid ≠ 0 → protocol c ≠ "" →
  Client_ReattachConfig c = Some ra → se_ReattachFunc E pid a = Ret r →
  address (w_client w2) = None → cfg_Reattach (config (w_client w2)) = Some ra →
  cfg_Cmd (config (w_client w2)) = None → cfg_RunnerFunc (config (w_client w2)) = None →
  cfg_SecureConfig (config (w_client w2)) = None →
  cfg_GRPCBrokerMultiplex (config (w_client w2)) = false →
  let '(w', res) := Start E w2 in
  res = Ret a ∧ address (w_client w') = Some a ∧ protocol (w_client w') = protocol c ∧
  negotiatedVersion (w_client w') = negotiatedVersion c ∧ runner (w_client w') = Some r.
Proof.
  intros Ha Hcmd Hre Hpid Hp Hra Hr Ha2 Hre2 Hc2 Hf2 Hs2 Hm2.
  unfold Client_ReattachConfig in Hra. rewrite Ha, Hcmd, Hre in Hra. injection Hra as <-.
  assert (validate (config (w_client w2)) = Ret tt) as Hv.
  { unfold validate, count_set. rewrite Hre2, Hc2, Hf2, Hs2, Hm2. simpl.
    by rewrite decide_False. }
  pose proof (Start_reattach_spec E w2 _ a r Ha2 Hv Hre2 eq_refl Hr) as H.
  destruct (Start E w2) as [w' res]. simpl in H. rewrite decide_False in H by done.
  destruct H as (? & ? & ? & ? & ? & _). by split_and!.
Qed.

(** After [CleanupClients] no managed client that could be killed has a
    runner left, in whatever order the goroutines run. *)
Theorem CleanupClients_kills_managed L order h i :
  (∀ l, order l ≡ₚ l) → i ∈ h_managed h → killable h i →
  dead (CleanupClients L order h) i.
Proof.
  intros Hord Hi Hk. unfold CleanupClients. apply foldl_Kill_dead. left. simpl. split; [|done].
  by rewrite Hord.
Qed.
End properties.

(** ** Concrete instances *)

Definition ex_life (stdio : StdioAnswer) (open : option error) (exits : bool) : LifeEnv :=
  MkLifeEnv (ex_startenv ex_line) None None (λ _, open) None stdio None (λ _, None) None (if exits then Some 0 else None).

(** A client whose plugin runs, managed, with a socket directory. *)
Definition ex_running : World :=
  MkWorld (set_unixSocketCfg (MkUnixSocket "" "" "/tmp/d") (w_client ex_started)) 3
    (MkOS {[ "/tmp/d" := MkFile Directory None 448; "/tmp/d/s" := MkFile Socket None 493 ]} [])
    (w_log ex_started) [1; 3; 5]%nat false.

Lemma ex_running_runner : runner (w_client ex_running) = Some ex_runner.
Proof. vm_compute. reflexivity. Qed.
Lemma ex_running_killOnce : killOnce (w_client ex_running) = false.
Proof. vm_compute. reflexivity. Qed.


Definition ex_new : World := NewClient (ex_config None true) 0 (MkOS ∅ []) [].

Lemma ex_reachable :
  reachable (Kill (ex_life StreamOK None true) (Start (ex_startenv ex_line) ex_new).1).
Proof.
  apply (reachable_step (OpKill (ex_life StreamOK None true)) (Start (ex_startenv ex_line) ex_new).1); [|reflexivity].
  apply (reachable_step (OpStart (ex_startenv ex_line)) ex_new); [|reflexivity].
  apply reachable_init. by eexists _, _, _, _.
Qed.

Example Kill_body_once_witness :
  killBodyRuns (w_client (Kill (ex_life StreamOK None true) (Start (ex_startenv ex_line) ex_new).1)) ≤ 1.
Proof. exact (proj1 (Kill_body_once _ ex_reachable)). Defined.

Definition ex_with_client : World := (Client_Client (ex_life StreamOK None true) ex_running).1.
Lemma ex_with_client_ok :
  Client_Client (ex_life StreamOK None true) ex_running = (ex_with_client, Ret (GRPCClient (ex_set true) true)).
Proof. vm_compute. reflexivity. Qed.

Example Client_cached_witness :
  Client_Client (ex_life (StreamErr EOF) None true) ex_with_client =
  (ex_with_client, Ret (GRPCClient (ex_set true) true)).
Proof. apply (Client_cached (ex_life StreamOK None true) _ _ _ _ ex_with_client_ok). Defined.

(** A host that cannot reach the plugin, then can. *)
Definition ex_unreachable : LifeEnv :=
  MkLifeEnv (ex_startenv ex_line) (Some (ErrExt "connection refused")) None (λ _, None) None StreamOK
    None (λ _, None) None (Some 0).

Example getGRPCMuxer_cached_witness :
  (getGRPCMuxer (ex_life StreamOK None true) (getGRPCMuxer ex_unreachable ex_running).1).2 =
  Err (ErrExt "connection refused").
Proof.
  rewrite (getGRPCMuxer_cached ex_unreachable (ex_life StreamOK None true) ex_running
    (getGRPCMuxer ex_unreachable ex_running).1 (Err (ErrExt "connection refused"))); reflexivity.
Defined.

Example newRPCClient_closes_witness :
  w_log (newRPCClient (ex_life StreamOK (Some EOF) true) ex_new).1 = w_log ex_new ∨
  ∃ evs, w_log (newRPCClient (ex_life StreamOK (Some EOF) true) ex_new).1 =
    w_log ex_new ++ EOpen "conn" :: evs ∧ last evs = Some (EClose "conn").
Proof. apply (newRPCClient_closes (ex_life StreamOK (Some EOF) true) ex_new _ EOF). reflexivity. Defined.

Example newGRPCClient_leaks_witness :
  ∃ evs, w_log (newGRPCClient (ex_life (StreamErr EOF) None true) ex_new).1 =
    w_log ex_new ++ EOpen "grpc" :: evs ∧ EClose "grpc" ∉ evs.
Proof. apply (newGRPCClient_leaks (ex_life (StreamErr EOF) None true) ex_new _ EOF); reflexivity. Defined.

(** A [RunnerFunc] client whose first plugin never answers. *)
Definition ex_func_world : World := ex_world (new_client (ex_runner_func (Ret ex_runner) None)).
Definition ex_failed : World := (Start (ex_startenv Timeout) ex_func_world).1.
Definition ex_killed : World := Kill (ex_life StreamOK None false) ex_failed.
Definition ex_restarted : World := (Start (ex_startenv ex_line) ex_killed).1.

Lemma ex_failed_runner : runner (w_client ex_failed) = Some ex_runner.
Proof. vm_compute. reflexivity. Qed.
Lemma ex_failed_killOnce : killOnce (w_client ex_failed) = false.
Proof. vm_compute. reflexivity. Qed.
Lemma ex_restarted_ok : Start (ex_startenv ex_line) ex_killed = (ex_restarted, Ret (MkAddr "unix" "/tmp/p")).
Proof. vm_compute. reflexivity. Qed.

Example Kill_useless_after_restart_witness :
  Kill (ex_life StreamOK None false) ex_restarted = ex_restarted ∧
  runner (w_client ex_restarted) = Some ex_runner.
Proof.
  split; [|vm_compute; reflexivity].
  apply (Kill_useless_after_restart (ex_life StreamOK None false) (ex_life StreamOK None false)
    ex_failed ex_killed ex_restarted (ex_startenv ex_line) ex_runner (MkAddr "unix" "/tmp/p")
    ex_failed_runner ltac:(discriminate) ex_failed_killOnce eq_refl ex_restarted_ok).
Defined.

Definition ex_bad_func : World := ex_world (new_client (ex_runner_func (Err EOF) None)).

Example Start_leaks_socket_dir_witness :
  is_Some (files (w_os (Kill (ex_life StreamOK None true) (Start (ex_startenv ex_line) ex_bad_func).1))
    !! "/plugin-dir1").
Proof.
  pose proof (Start_leaks_socket_dir (ex_life StreamOK None true) (ex_startenv ex_line) ex_bad_func
    "/plugin-dir1" EOF eq_refl eq_refl eq_refl eq_refl eq_refl eq_refl eq_refl eq_refl eq_refl eq_refl
    eq_refl) as H.
  destruct (Start _ _) as [w' res]. exact (proj2 H).
Defined.

Definition ex_handover : ReattachConfig :=
  MkReattach ProtocolGRPC 3 (Some (MkAddr "unix" "/tmp/p")) 42 None false.
Lemma ex_handover_ok : Client_ReattachConfig (w_client ex_started) = Some ex_handover.
Proof. vm_compute. reflexivity. Qed.
Lemma ex_started_address : address (w_client ex_started) = Some (MkAddr "unix" "/tmp/p").
Proof. vm_compute. reflexivity. Qed.
Lemma ex_started_cmd : ∃ env, cfg_Cmd (config (w_client ex_started)) = Some (MkCmd "/bin/plugin" env (Some 42)).
Proof. eexists. vm_compute. reflexivity. Qed.

Example reattach_roundtrip_witness :
  (Start (ex_startenv Timeout) ex_reattach_world).2 = Ret (MkAddr "unix" "/tmp/p").
Proof.
  destruct ex_started_cmd as [env Henv].
  pose proof (reattach_roundtrip (ex_startenv Timeout) (w_client ex_started) (MkAddr "unix" "/tmp/p")
    ex_handover ex_runner ex_reattach_world "/bin/plugin" env 42 ex_started_address Henv) as H.
  destruct (Start _ ex_reattach_world) as [w' res].
  destruct H as [H _]; [vm_compute; reflexivity|discriminate|vm_compute; discriminate|exact ex_handover_ok|
    reflexivity..|exact H].
Defined.

Definition ex_host : Host :=
  MkHost {[ 3%nat := w_client ex_running ]} (w_os ex_running) [] [3%nat] false.
Lemma ex_killable : killable ex_host 3.
Proof.
  exists (w_client ex_running), ex_runner. split_and!;
    [reflexivity|exact ex_running_runner|discriminate|exact ex_running_killOnce].
Qed.

Example CleanupClients_kills_managed_witness :
  dead (CleanupClients (ex_life StreamOK None true) (λ l, l) ex_host) 3.
Proof.
  apply (CleanupClients_kills_managed (ex_life StreamOK None true) (λ l, l) ex_host 3);
    [intros l; reflexivity|left|exact ex_killable].
Defined.
