(* ===== verification/ClientTyping.v ===== *)
(** * The typing invariant of a client

    What the fields of a [Client] (client.go) say about each other in every
    state that public calls can bring about: the cached protocol client is of
    the negotiated protocol and dispenses the negotiated plugins, the
    multiplexer exists for gRPC only, and neither exists before the plugin's
    address is known. *)

From S2P Require Import Prelude GoStd Config Negotiate ClientData Handshake Listener Start Lifecycle.

Definition multiplexes (c : Client) : bool := cfg_GRPCBrokerMultiplex (config c).

(** The protocol client that goes with the fields of [c]. *)
Definition fits (c : Client) (p : ClientProtocol) : Prop :=
  match p with
  | NetRPCClient ps => protocol c = ProtocolNetRPC ∧ ps = cfg_Plugins (config c)
  | GRPCClient ps muxed =>
      protocol c = ProtocolGRPC ∧ ps = cfg_Plugins (config c) ∧ muxed = multiplexes c ∧
      (muxed = true → grpcMuxer c = MuxerReady)
  end.

Record well_typed (c : Client) : Prop := MkWellTyped {
  wt_address : address c = None → client c = None ∧ grpcMuxer c = MuxerUnset;
  wt_client : ∀ p, client c = Some p → fits c p;
  wt_muxer : grpcMuxer c ≠ MuxerUnset → protocol c = ProtocolGRPC ∧ multiplexes c = true
}.

(** ** Lemmas *)

(** Only these fields matter. *)
Lemma well_typed_same c c' :
  address c' = address c → client c' = client c → grpcMuxer c' = grpcMuxer c → protocol c' = protocol c →
  config c' = config c → well_typed c → well_typed c'.
Proof.
  intros Ha Hc Hm Hp Hg [H1 H2 H3]. split.
  - by rewrite Ha, Hc, Hm.
  - intros p. rewrite Hc. intros Hf%H2. destruct p; simpl in *; unfold multiplexes in *; by rewrite ?Hm, Hp, Hg.
  - unfold multiplexes in *. by rewrite Hm, Hp, Hg.
Qed.

(** Nothing is cached yet. *)
Lemma well_typed_fresh c : client c = None → grpcMuxer c = MuxerUnset → well_typed c.
Proof. intros Hc Hm. split; [done|by rewrite Hc|by rewrite Hm]. Qed.

(** A frame for the protocol clients that have no multiplexer. *)
Definition same_client (w w' : World) : Prop := w_client w' = w_client w.
#[export] Instance same_client_preorder : PreOrder same_client.
Proof. split; [by intros ?|]. intros ??? H1 H2. unfold same_client in *. congruence. Qed.

Section typing.
Context `{!MapRange Z}.

Lemma Start_well_typed E w : well_typed (w_client w) → well_typed (w_client (Start E w).1).
Proof.
  intros Hw. destruct (address (w_client w)) as [a|] eqn:Ha.
  - unfold Start, bind, get. by rewrite Ha.
  - destruct (wt_address _ Hw Ha) as [Hc Hm]. destruct (Start_start_frame E w) as (_ & Hc' & Hm').
    apply well_typed_fresh; congruence.
Qed.

Lemma newRPCClient_spec L : keeps same_client (newRPCClient L).
Proof.
  assert (∀ n i, keeps same_client (open_streams L n i)) as Ho.
  { induction n as [|n IH]; intros i; simpl; [apply keeps_ret; typeclasses eauto|].
    destruct (le_mux_Open L i); [|apply IH]. solve_keeps ltac:(done). }
  assert (∀ ps, keeps same_client (NewRPCClient L ps)) as Hn.
  { intros ps. unfold NewRPCClient. destruct (le_yamux_Client L); [solve_keeps ltac:(done)|].
    apply keeps_bind; [typeclasses eauto|apply Ho|intros; apply keeps_ret; typeclasses eauto]. }
  intros w. unfold newRPCClient, answers, bind, modify, get. destruct (le_Dial L); [done|]. simpl.
  specialize (Hn (cfg_Plugins (config (w_client w))) (log (EOpen "conn") w)).
  by destruct (NewRPCClient L _ _) as [w' []].
Qed.

Lemma newRPCClient_Ret L w w' p :
  newRPCClient L w = (w', Ret p) → p = NetRPCClient (cfg_Plugins (config (w_client w))).
Proof.
  unfold newRPCClient, answers, bind, modify, get. destruct (le_Dial L); [done|]. simpl.
  unfold NewRPCClient. destruct (le_yamux_Client L); [done|]. unfold bind.
  destruct (open_streams L 3 0 _) as [w1 []]; [|done|done]. by intros [= _ <-].
Qed.

(** The multiplexer, once asked for. *)
Lemma getGRPCMuxer_spec L w w' r :
  getGRPCMuxer L w = (w', r) → protocol (w_client w) = ProtocolGRPC →
  w_client w' = set_grpcMuxer (grpcMuxer (w_client w')) (w_client w) ∧
  (multiplexes (w_client w) = false → grpcMuxer (w_client w') = grpcMuxer (w_client w)) ∧
  ∀ b, r = Ret b → b = multiplexes (w_client w) ∧ (b = true → grpcMuxer (w_client w') = MuxerReady).
Proof.
  intros H Hp. unfold getGRPCMuxer in H. rewrite bool_decide_true in H by done. simpl in H.
  fold (multiplexes (w_client w)) in H. destruct (multiplexes (w_client w)); simpl in H.
  - unfold NewGRPCClientMuxer, answers, bind, modify in H.
    destruct (grpcMuxer (w_client w)), (le_Dial L), (le_yamux_Client L); simplify_eq/=; naive_solver.
  - injection H as <- <-. split; [by destruct (w_client w)|]. naive_solver.
Qed.

Lemma newGRPCClient_spec L w :
  protocol (w_client w) = ProtocolGRPC → well_typed (w_client w) → is_Some (address (w_client w)) →
  let '(w', r) := newGRPCClient L w in
  client (w_client w') = client (w_client w) ∧ is_Some (address (w_client w')) ∧
  (client (w_client w) = None → well_typed (w_client w')) ∧ ∀ p, r = Ret p → fits (w_client w') p.
Proof.
  intros Hp Hw Ha. unfold newGRPCClient, answers, bind, modify, get.
  destruct (le_grpc_NewClient L); [done|]. simpl.
  destruct (getGRPCMuxer L (log (EOpen "grpc") w)) as [w1 r1] eqn:Hm.
  destruct (getGRPCMuxer_spec _ _ _ _ Hm Hp) as (H1 & H2 & H3). simpl in *.
  assert (client (w_client w1) = client (w_client w) ∧ is_Some (address (w_client w1)) ∧
    (client (w_client w) = None → well_typed (w_client w1))) as (Hc & Ha1 & Ht).
  { rewrite H1. split_and!; [done|done|]. intros Hn. destruct Ha as [a Ha]. split; simpl; [by rewrite Ha|by rewrite Hn|].
    intros Hne. split; [done|]. destruct (multiplexes (w_client w)) eqn:Hmx; [done|].
    rewrite H2 in Hne by done. by apply (wt_muxer _ Hw) in Hne as [_ ?]; unfold multiplexes in *; congruence. }
  destruct r1 as [b|e|q]; [|by split_and!..]. destruct (H3 b eq_refl) as [-> Hready].
  assert (∀ p, GRPCClient (cfg_Plugins (config (w_client w1))) (multiplexes (w_client w)) = p → fits (w_client w1) p) as Hf.
  { intros p <-. simpl. unfold multiplexes. rewrite H1. simpl. by split_and!. }
  unfold newGRPCStdioClient. destruct (le_StreamStdio L); simpl; split_and!; try done; intros p [= Heq]; by apply Hf.
Qed.

Lemma Client_Client_well_typed L w : well_typed (w_client w) → well_typed (w_client (Client_Client L w).1).
Proof.
  intros Hw0. pose proof (Start_well_typed (le_start L) w Hw0) as Hw. unfold Client_Client, bind at 1.
  destruct (Start (le_start L) w) as [w1 [a|e|q]] eqn:Hst; [|done|done]. simpl in Hw.
  pose proof (Start_address _ _ _ _ Hst) as Ha. clear Hst Hw0.
  unfold bind at 1, get. destruct (client (w_client w1)) as [p|] eqn:Hc; [done|]. unfold bind.
  case_decide as Hn; [|case_decide as Hg; [|done]].
  - pose proof (newRPCClient_spec L w1) as Hs. destruct (newRPCClient L w1) as [w2 [p|e|q]] eqn:Hr;
      unfold same_client in Hs; simpl in Hs; simpl; rewrite Hs; [|done|done].
    apply newRPCClient_Ret in Hr as ->. destruct Hw as [H1 H2 H3]. split; simpl; [by rewrite Ha| |done].
    by intros p [= <-].
  - pose proof (newGRPCClient_spec L w1 Hg Hw ltac:(eauto)) as Hs.
    destruct (newGRPCClient L w1) as [w2 r]. destruct Hs as (_ & [b Hb] & Ht & Hf). specialize (Ht Hc).
    destruct r as [p|e|q]; [|done|done]. simpl. specialize (Hf p eq_refl). destruct Ht as [H1 H2 H3].
    split; simpl; [by rewrite Hb| |done]. intros p' [= <-]. by destruct p.
Qed.

Lemma kill_well_typed L w : well_typed (w_client w) → well_typed (w_client (kill L w)).
Proof.
  intros Hw. unfold kill. set (w0 := upd_client _ w). assert (well_typed (w_client w0)) as H0
    by (revert Hw; by apply well_typed_same). cbv zeta.
  destruct (runner (w_client w0)) as [r|]; [|done]. case_decide; [done|].
  assert (well_typed (w_client (close_gracefully L w0).1)) as H1.
  { unfold close_gracefully. destruct (address (w_client w0)); [|done].
    pose proof (Client_Client_well_typed L w0 H0). by destruct (Client_Client L w0) as [? []]. }
  destruct (close_gracefully L w0) as [w1 g]. simpl in H1.
  assert (∀ dir w, well_typed (w_client w) → well_typed (w_client (kill_cleanup dir w))) as Hcl.
  { intros dir w2. unfold kill_cleanup. case_decide; simpl; case_match; simpl; by apply well_typed_same. }
  apply Hcl. destruct (g && exits_in_time L (w_client w1)); [done|]. revert H1. by apply well_typed_same.
Qed.

(** ** Properties *)

(** C8: The fields of a client fit together in every state that calls of the public
    interface can bring about, in whatever order they come and however they
    fail: a cached protocol client is of the negotiated protocol, dispenses the
    negotiated plugins and uses the multiplexer exactly when the configuration
    asks for it; a multiplexer exists only for gRPC with multiplexing; and both
    only once the plugin's address is known. *)
Theorem Client_well_typed w : reachable w → well_typed (w_client w).
Proof.
  apply (invariant_reachable (λ w, well_typed (w_client w))).
  - intros w0 (config & self & o & managed & ->). by apply well_typed_fresh.
  - intros op w1 w2 Hw Hstep. injection Hstep as <-. destruct op as [E|L|L|L|]; simpl.
    + by apply Start_well_typed.
    + by apply Client_Client_well_typed.
    + pose proof (Start_well_typed (le_start L) w1 Hw). unfold Client_Protocol.
      by destruct (Start (le_start L) w1) as [? []].
    + unfold Kill. destruct (runner (w_client w1)); [|done]. destruct (killOnce (w_client w1)); [done|].
      apply kill_well_typed. revert Hw. by apply well_typed_same.
    + revert Hw. by apply well_typed_same.
Qed.
End typing.

(** ** Concrete instances *)

(** A client that was started and asked for its protocol client. *)
Definition ex_typed : World := (Client_Client (ex_life StreamOK None true) ex_new).1.
Lemma ex_typed_reachable : reachable ex_typed.
Proof.
  unfold ex_typed. apply (reachable_step (OpClient (ex_life StreamOK None true)) ex_new); [|reflexivity].
  apply reachable_init. eexists _, _, _, _. reflexivity.
Qed.
Lemma Client_well_typed_witness :
  client (w_client ex_typed) = Some (GRPCClient (ex_set true) true) ∧
  fits (w_client ex_typed) (GRPCClient (ex_set true) true).
Proof.
  assert (H : client (w_client ex_typed) = Some (GRPCClient (ex_set true) true)) by (vm_compute; reflexivity).
  split; [exact H|]. apply (wt_client _ (Client_well_typed ex_typed ex_typed_reachable)). exact H.
Defined.
