(* ===== verification/EndToEnd.v ===== *)
(** * Host and plugin together

    [Client.Start] hands its settings to the plugin process in environment
    variables; [Serve] reads them there and answers with the handshake line on
    stdout, which [Start] reads.  This file composes the two models: the
    environment the command is started with, as [os/exec] passes it on, is the
    environment of [Serve]; what [Serve] prints is what [Start] scans. *)

From S2P Require Import Prelude GoStd Mtls Config Negotiate ClientData Handshake Listener Serve Start.

(** ** The environment of a process *)

Definition equals : ascii := ascii_of_nat 61.

(** Name and value of an entry: the text before and after the first '='. *)
Fixpoint cut_eq (s : string) : option (string * string) :=
  match s with
  | "" => None
  | String a s' =>
      if decide (a = equals) then Some ("", s')
      else match cut_eq s' with
           | Some (k, v) => Some (String a k, v)
           | None => None
           end
  end.

(** [os/exec] passes the last value of a name on; entries without '=' are
    invisible to [os.Getenv]. *)
Definition put_env (env : environ) (s : string) : environ :=
  match cut_eq s with Some (k, v) => <[k := v]> env | None => env end.
Definition env_of_list (l : list string) : environ := foldl put_env ∅ l.

Definition env_key (s : string) : option string := fst <$> cut_eq s.

Lemma cut_eq_kv k v : no_char equals k = true → cut_eq (kv k v) = Some (k, v).
Proof.
  unfold kv, no_char. induction k as [|a k IH]; [done|]. cbn [str_forall].
  rewrite andb_true_iff, bool_decide_eq_true. intros [Ha Hk].
  change (String a k +:+ "=" +:+ v) with (String a (k +:+ "=" +:+ v)). cbn [cut_eq].
  rewrite decide_False by done. by rewrite IH.
Qed.

Lemma env_key_kv k v : no_char equals k = true → env_key (kv k v) = Some k.
Proof. intros H. unfold env_key. by rewrite cut_eq_kv. Qed.

Lemma foldl_put_env_ne l env k :
  Forall (λ s, env_key s ≠ Some k) l → foldl put_env env l !! k = env !! k.
Proof.
  intros H. revert env. induction H as [|s l Hs Hl IH]; intros env; [done|]. simpl. rewrite IH.
  unfold put_env, env_key in *. destruct (cut_eq s) as [[k' v']|]; [|done].
  rewrite lookup_insert_ne; [done|]. intros ->. by apply Hs.
Qed.

(** A name that is not assigned again keeps its value. *)
Lemma env_of_list_lookup l1 k v l2 :
  no_char equals k = true → Forall (λ s, env_key s ≠ Some k) l2 →
  env_of_list (l1 ++ kv k v :: l2) !! k = Some v.
Proof.
  intros Hk Hl. unfold env_of_list. rewrite foldl_app. simpl. rewrite foldl_put_env_ne by done.
  unfold put_env. rewrite cut_eq_kv by done. by rewrite lookup_insert_eq.
Qed.

(** ** The environment [Start] prepares *)

(** The names [Start] assigns after the magic cookie. *)
Definition reserved : list string :=
  ["PLUGIN_MIN_PORT"; "PLUGIN_MAX_PORT"; "PLUGIN_PROTOCOL_VERSIONS"; envMultiplexGRPC;
   "PLUGIN_CLIENT_CERT"; EnvUnixSocketGroup; EnvUnixSocketDir].

Section env.
Context `{!MapRange Z}.

(** The versions the client offers. *)
Definition offered (c : ClientConfig) : gmap Z PluginSet :=
  client_versions (int_of_uint (ProtocolVersion (cfg_Handshake c))) (cfg_Plugins c)
    (cfg_VersionedPlugins c).

(** The settings that [Start] does not change once it offered its versions. *)
Definition same_offer (c c' : Client) : Prop :=
  cfg_VersionedPlugins (config c') = cfg_VersionedPlugins (config c) ∧
  cfg_AllowedProtocols (config c') = cfg_AllowedProtocols (config c) ∧
  cfg_GRPCBrokerMultiplex (config c') = cfg_GRPCBrokerMultiplex (config c) ∧
  cfg_RunnerFunc (config c') = cfg_RunnerFunc (config c) ∧
  cfg_DisableProcessGroupKill (config c') = cfg_DisableProcessGroupKill (config c).

#[export] Instance same_offer_preorder : PreOrder same_offer.
Proof.
  split; [by intros ?|]. intros ??? H1 H2. unfold same_offer in *. destruct_and!. split_and!; congruence.
Qed.

Lemma store_cmd_offer cmd c : same_offer c (store_cmd cmd c).
Proof. unfold store_cmd. by case_match. Qed.
Lemma store_cmd_tls cmd c : cfg_TLSConfig (config (store_cmd cmd c)) = cfg_TLSConfig (config c).
Proof. unfold store_cmd. by case_match. Qed.

Lemma check_secure_Ret E cmd c c' u :
  check_secure E cmd c = (c', Ret u) → ∃ s, c' = set_cfg (set_cfg_SecureConfig s) c.
Proof.
  unfold check_secure. destruct (cfg_SecureConfig (config c)) as [s|] eqn:Hs.
  - destruct (Check E (cmd_Path cmd) s) as [s' r]. destruct r as [[]| |]; [|done..].
    intros [= <- _]. eauto.
  - intros [= <- _]. exists None. destruct c as [[] ]; simpl in *. by subst.
Qed.

(** The host's side of automatic mTLS: its certificate and its key, and the
    configuration it has until the plugin's certificate is known. *)
Definition host_cert (E : StartEnv) (certPEM keyPEM : string) (cert : list Z) : Prop :=
  generateCert (hs_crypto (se_hs E)) (se_cert E) = Ret (certPEM, keyPEM) ∧
  X509KeyPair (hs_crypto (se_hs E)) certPEM keyPEM = Ret cert.
Definition host_tls (cert : list Z) : TLSConfig := MkTLS cert true None None "localhost".

Lemma auto_mtls_Ret E cmd c c' cmd' :
  auto_mtls E cmd c = (c', Ret cmd') →
  same_offer c c' ∧
  if cfg_AutoMTLS (config c) then
    ∃ certPEM keyPEM cert, host_cert E certPEM keyPEM cert ∧
      cfg_TLSConfig (config c') = Some (host_tls cert) ∧
      cmd_Env cmd' = cmd_Env cmd ++ [kv "PLUGIN_CLIENT_CERT" certPEM]
  else cmd_Env cmd' = cmd_Env cmd.
Proof.
  unfold auto_mtls. intros (x & x' & [= <- <-] & H)%GoM_bind_Ret. destruct (cfg_AutoMTLS (config c)).
  - apply GoM_bind_Ret in H as (x & [certPEM keyPEM] & [= <- Hg] & H).
    apply GoM_bind_Ret in H as (x & cert & [= <- Hk] & H).
    apply GoM_bind_Ret in H as (x & [] & [= <-] & [= <- <-]).
    split; [by etrans; [apply store_cmd_offer|]|]. by exists certPEM, keyPEM, cert.
  - by injection H as <- <-.
Qed.

Lemma unix_socket_config_Ret cmd c c' cmd' :
  unix_socket_config cmd c = (c', Ret cmd') →
  same_offer c c' ∧ cfg_TLSConfig (config c') = cfg_TLSConfig (config c) ∧
  ∃ post, cmd_Env cmd' = cmd_Env cmd ++ post ∧ Forall (λ s, env_key s = Some EnvUnixSocketGroup) post.
Proof.
  unfold unix_socket_config. intros (x & x' & [= <- <-] & H)%GoM_bind_Ret.
  set (u := default _ _) in H. apply GoM_bind_Ret in H as (x & [] & [= <-] & [= <- <-]). split_and!.
  - by etrans; [|apply store_cmd_offer].
  - by rewrite store_cmd_tls.
  - case_decide; [exists []; by rewrite app_nil_r|]. exists [kv EnvUnixSocketGroup (Group u)].
    split; [done|]. apply Forall_singleton. by apply env_key_kv.
Qed.

(** What [prepare_cmd] hands on: the environment ends with the settings, and
    the client knows the versions it offered. *)
Lemma prepare_cmd_Ret E c c' cmd :
  prepare_cmd E c = (c', Ret cmd) →
  same_offer (set_cfg (set_cfg_VersionedPlugins (Some (offered (config c)))) c) c' ∧
  ∃ pre certs post, cmd_Env cmd = pre ++ base_env (config c) (offered (config c)) ++ certs ++ post ∧
    Forall (λ s, env_key s = Some EnvUnixSocketGroup) post ∧
    if cfg_AutoMTLS (config c) then
      ∃ certPEM keyPEM cert, host_cert E certPEM keyPEM cert ∧
        cfg_TLSConfig (config c') = Some (host_tls cert) ∧ certs = [kv "PLUGIN_CLIENT_CERT" certPEM]
    else certs = [].
Proof.
  unfold prepare_cmd. intros (c1 & c1' & [= <- <-] & H)%GoM_bind_Ret. fold (offered (config c)) in H.
  apply GoM_bind_Ret in H as (c2 & [] & [= <-] & H).
  apply GoM_bind_Ret in H as (c3 & [] & [s ->]%check_secure_Ret & H).
  apply GoM_bind_Ret in H as (c4 & cmd4 & (O4 & H4)%auto_mtls_Ret & H).
  apply unix_socket_config_Ret in H as (O5 & T5 & post5 & E5 & F5). split.
  - etrans; [|exact O5]. etrans; [|exact O4]. by etrans; [apply store_cmd_offer|].
  - assert (∀ v, cfg_AutoMTLS (config (set_cfg (set_cfg_SecureConfig s)
      (store_cmd v (set_cfg (set_cfg_VersionedPlugins (Some (offered (config c)))) c)))) =
      cfg_AutoMTLS (config c)) as Ha by (intros v; unfold store_cmd; simpl; by destruct (cfg_Cmd (config c))).
    rewrite Ha in H4. rewrite E5. destruct (cfg_AutoMTLS (config c)).
    + destruct H4 as (certPEM & keyPEM & cert & Hc & Ht & ->). cbn [cmd_Env add_env].
      rewrite <- !app_assoc, (app_assoc (cmd_Env _)).
      eexists _, [kv "PLUGIN_CLIENT_CERT" certPEM], post5. split; [done|]. split; [done|].
      exists certPEM, keyPEM, cert. by rewrite T5.
    + rewrite H4. cbn [cmd_Env add_env]. rewrite <- !app_assoc, (app_assoc (cmd_Env _)).
      by eexists _, [], post5.
Qed.
End env.

(** ** What the plugin reads *)

Section plugin_side.
Context `{!MapRange string} `{!MapRange Z}.

Lemma reserved_no_equals : Forall (λ k, no_char equals k = true) reserved.
Proof. repeat constructor. Qed.

(** The plugin's environment has the versions and the cookie. *)
Lemma plugin_env_lookup E c c' cmd :
  prepare_cmd E c = (c', Ret cmd) →
  MagicCookieKey (cfg_Handshake (config c)) ∉ reserved →
  no_char equals (MagicCookieKey (cfg_Handshake (config c))) = true →
  let env := env_of_list (cmd_Env cmd) in
  Getenv env "PLUGIN_PROTOCOL_VERSIONS" = versions_env (offered (config c)) ∧
  Getenv env (MagicCookieKey (cfg_Handshake (config c))) = MagicCookieValue (cfg_Handshake (config c)) ∧
  (cfg_GRPCBrokerMultiplex (config c) = true → Getenv env envMultiplexGRPC = "true") ∧
  (cfg_AutoMTLS (config c) = true → ∃ certPEM keyPEM cert, host_cert E certPEM keyPEM cert ∧
     cfg_TLSConfig (config c') = Some (host_tls cert) ∧ Getenv env "PLUGIN_CLIENT_CERT" = certPEM).
Proof.
  intros (_ & pre & certs & post0 & Henv & Hpost0 & Hauto)%prepare_cmd_Ret Hres Hne. cbv zeta.
  set (post := certs ++ post0) in *. rewrite Henv.
  assert (Forall (λ s, env_key s = Some "PLUGIN_CLIENT_CERT" ∨ env_key s = Some EnvUnixSocketGroup) post) as Hpost.
  { apply Forall_app. split; [|eapply Forall_impl; [exact Hpost0|auto]].
    destruct (cfg_AutoMTLS (config c)); [destruct Hauto as (? & ? & ? & _ & _ & ->)|by rewrite Hauto].
    apply Forall_singleton. left. by apply env_key_kv. }
  unfold base_env. set (mux := if cfg_GRPCBrokerMultiplex (config c) then _ else _).
  assert (∀ k, k ∉ ["PLUGIN_CLIENT_CERT"; EnvUnixSocketGroup] →
    Forall (λ s, env_key s ≠ Some k) post) as Hp.
  { intros k Hk. eapply Forall_impl; [exact Hpost|]. intros s [Hs|Hs] Hs'; set_solver. }
  assert (∀ k, k ≠ envMultiplexGRPC → Forall (λ s, env_key s ≠ Some k) mux) as Hm.
  { intros k Hk. unfold mux. destruct (cfg_GRPCBrokerMultiplex (config c)); [|done]. apply Forall_singleton.
    rewrite env_key_kv by done. congruence. }
  unfold Getenv. split_and!.
  - change ([?a; ?b; ?c; ?d] ++ mux) with ([a; b; c] ++ d :: mux).
    rewrite <- (app_assoc [_; _; _]), app_assoc. cbn [app].
    rewrite env_of_list_lookup; [done|done|]. apply Forall_app. split; [by apply Hm|by apply Hp; set_solver].
  - cbn [app]. rewrite env_of_list_lookup; [done|done|].
    unfold reserved in Hres. rewrite !not_elem_of_cons in Hres. destruct_and!.
    repeat (apply Forall_cons; split; [rewrite env_key_kv by done; congruence|]).
    apply Forall_app. split; [by apply Hm|apply Hp; set_solver].
  - intros Hmux. unfold mux. rewrite Hmux.
    rewrite <- (app_assoc [_; _; _; _]), app_assoc. cbn [app].
    rewrite env_of_list_lookup; [done|done|]. apply Hp. set_solver.
  - intros Ha. rewrite Ha in Hauto. destruct Hauto as (certPEM & keyPEM & cert & Hc & Ht & Hcs).
    exists certPEM, keyPEM, cert. split_and!; [done|done|]. unfold post. rewrite Hcs.
    rewrite app_assoc. cbn [app]. rewrite env_of_list_lookup; [done|done|].
    eapply Forall_impl; [exact Hpost0|]. by intros s ->.
Qed.

(** The certificate in the line: empty, or what the plugin generated because
    the host sent its own. *)
Definition sent_cert (env : environ) (der : list Z) : list Z :=
  if decide (Getenv env "PLUGIN_CLIENT_CERT" = "") then [] else der.

(** The plugin's side: its certificate, and the configuration it serves with. *)
Definition plugin_cert (SA : ServeAnswers) (der : list Z) : Prop :=
  ∃ certPEM keyPEM, generateCert (sa_crypto SA) (sa_cert SA) = Ret (certPEM, keyPEM) ∧
    X509KeyPair (sa_crypto SA) certPEM keyPEM = Ret der.
Definition plugin_tls (SA : ServeAnswers) (der : list Z) : option TLSConfig :=
  let clientCert := Getenv (sa_env SA) "PLUGIN_CLIENT_CERT" in
  let pool := AppendCertsFromPEM (sa_crypto SA) clientCert in
  if decide (clientCert = "") then None else Some (MkTLS der true (Some pool) (Some pool) "localhost").

Lemma configure_tls_own SA w der :
  srv_TLSProvider (sw_opts w) = None →
  (Getenv (sa_env SA) "PLUGIN_CLIENT_CERT" ≠ "" → plugin_cert SA der) →
  configure_tls SA w = (w, Ret (plugin_tls SA der, EncodeToString (sent_cert (sa_env SA) der))).
Proof.
  intros Ht Hc. unfold configure_tls, sent_cert, plugin_tls, bind at 1, get. rewrite Ht.
  unfold bind at 1, ret at 1. destruct (decide _) as [He|Hne]; [done|].
  destruct (Hc Hne) as (certPEM & keyPEM & -> & Hk). simpl. by rewrite Hk.
Qed.

Lemma build_server_ready SA pt ps l tls w :
  pt = ProtocolNetRPC ∨ (pt = ProtocolGRPC ∧ register_plugins (range (default ∅ ps)) = None) →
  ∃ server w', build_server SA pt ps l tls w = (w', Ret server) ∧ server_Init server = None ∧
    sw_stdout w' = sw_stdout w ∧ sw_opts w' = sw_opts w ∧ sw_stdio w' = sw_stdio w.
Proof.
  unfold build_server, bind, modify, ret. intros [->|[-> Hr]]; simpl.
  - destruct tls; by eexists _, _.
  - destruct (ParseBool _) as [[]| |]; by eexists _, _.
Qed.

(** The line [Serve] prints when nothing fails. *)
Lemma Serve_rest_prints SA v pt ps l w der :
  srv_Test (sw_opts w) = None → srv_TLSProvider (sw_opts w) = None →
  std_files (sw_stdio w) = ProcessFiles → sa_pipe_stdout SA = None → sa_pipe_stderr SA = None →
  (Getenv (sa_env SA) "PLUGIN_CLIENT_CERT" ≠ "" → plugin_cert SA der) →
  pt = ProtocolNetRPC ∨ (pt = ProtocolGRPC ∧ register_plugins (range (default ∅ ps)) = None) →
  sw_stdout (Serve_rest SA v pt ps l w).1 = sw_stdout w +:+
    handshake_output (sa_env SA) v (Listener_Addr l) pt (EncodeToString (sent_cert (sa_env SA) der)).
Proof.
  intros Ht Htls Hio Hp1 Hp2 Hc Hpt.
  pose proof (configure_tls_own SA w der Htls Hc) as Hct.
  destruct (build_server_ready SA pt ps l (plugin_tls SA der) w Hpt) as (server & w' & Hb & Hi & Ho & Hopts & Hstd).
  unfold Serve_rest, bind at 1. rewrite Hct, Hp1, Hp2. unfold pipe, bind at 1 2, ret. cbn [fst snd].
  unfold bind at 1. rewrite Hb, Hi. unfold bind, modify. cbn [fst].
  destruct (await_end_frame SA (Some server) (announce SA v pt l (EncodeToString (sent_cert (sa_env SA) der)) w'))
    as (-> & _). unfold announce, print_stdout. rewrite Hopts, Ht, Hstd, Hio. simpl. by rewrite Ho.
Qed.

Lemma Serve_prints SA o o1 opts l der :
  cookie_ok SA opts → makes_listener SA o o1 l → srv_Test opts = None → srv_TLSProvider opts = None →
  sa_pipe_stdout SA = None → sa_pipe_stderr SA = None →
  (Getenv (sa_env SA) "PLUGIN_CLIENT_CERT" ≠ "" → plugin_cert SA der) →
  let '(v, pt, ps) := (protocolVersion (sa_env SA) opts).2 in
  pt = ProtocolNetRPC ∨ (pt = ProtocolGRPC ∧ register_plugins (range (default ∅ ps)) = None) →
  sw_stdout (Serve SA (start_world o opts)).1 =
    handshake_output (sa_env SA) v (Listener_Addr l) pt (EncodeToString (sent_cert (sa_env SA) der)).
Proof.
  intros Hc Hl Ht Htls Hp1 Hp2 Hcert.
  destruct (Serve_body_listens SA o o1 opts l Hc Hl)
    as (v & pt & ps & w & Hpv & Hbody & _ & _ & _ & _ & Htw & Htlsw & Hout & Hio).
  rewrite Hpv. intros Hpt.
  destruct (Serve_world SA (start_world o opts)) as [->|(code & Hx)];
    [|by apply Serve_body_no_exit in Hx].
  rewrite Hbody.
  assert (∀ w', sw_stdout (run_deferred SA w') = sw_stdout w') as ->
    by (intros w'; apply run_deferred_frame).
  rewrite (Serve_rest_prints SA v pt ps l w der) by first [done | congruence | by rewrite Hio]. by rewrite Hout.
Qed.

(** The transport is always one of the two protocols. *)
Lemma select_version_protocol g m cvs vs cur :
  cur.1.2 = ProtocolNetRPC ∨ cur.1.2 = ProtocolGRPC →
  let pt := (select_version g m cvs vs cur).1.2 in pt = ProtocolNetRPC ∨ pt = ProtocolGRPC.
Proof.
  revert cur. induction vs as [|v vs IH]; intros cur Hcur; simpl; [done|].
  assert (∀ ps, plugin_transport g ps cur.1.2 = ProtocolNetRPC ∨
    plugin_transport g ps cur.1.2 = ProtocolGRPC) as Hpt.
  { intros ps. unfold plugin_transport. destruct g; [|done]. destruct (head _) as [[k p]|]; [|done].
    destruct (is_GRPCPlugin p); auto. }
  case_bool_decide; [apply Hpt|apply IH, Hpt].
Qed.

Lemma protocolVersion_protocol env opts :
  (protocolVersion env opts).2.1.2 = ProtocolNetRPC ∨ (protocolVersion env opts).2.1.2 = ProtocolGRPC.
Proof. unfold protocolVersion. destruct (clientVersions env). apply select_version_protocol. by left. Qed.
End plugin_side.

(** ** Host and plugin agree *)

Section agreement.
Context `{!MapRange string} `{!MapRange Z}.

(** The host: a client that has not been started, with a command and the
    default runner, which starts. *)
Variables (E : StartEnv) (w : World) (c' : Client) (cmd : Cmd) (r : Runner).
Hypothesis Haddress : address (w_client w) = None.
Hypothesis Hvalid : validate (config (w_client w)) = Ret tt.
Hypothesis Hreattach : cfg_Reattach (config (w_client w)) = None.
Hypothesis Hrunnerfunc : cfg_RunnerFunc (config (w_client w)) = None.
Hypothesis Hprepare : prepare_cmd E (w_client w) = (c', Ret cmd).
Hypothesis Hrunner : se_NewCmdRunner E cmd (cfg_DisableProcessGroupKill (config (w_client w))) = Ret r.
Hypothesis Hstart : runner_Start r = None.

(** The plugin: it runs in the environment of the command, has the same cookie
    and nothing fails on its side. *)
Variables (SA : ServeAnswers) (opts : ServeConfig) (o o1 : OS) (l : Listener) (der : list Z).
Let hs := cfg_Handshake (config (w_client w)).
Hypothesis Henv : sa_env SA = env_of_list (cmd_Env cmd).
Hypothesis Hkey : MagicCookieKey (srv_Handshake opts) = MagicCookieKey hs.
Hypothesis Hvalue : MagicCookieValue (srv_Handshake opts) = MagicCookieValue hs.
Hypothesis Hcookie : MagicCookieKey hs ≠ "" ∧ MagicCookieValue hs ≠ "".
Hypothesis Hname : MagicCookieKey hs ∉ reserved ∧ no_char equals (MagicCookieKey hs) = true.
Hypothesis Htest : srv_Test opts = None.
Hypothesis Hprovider : srv_TLSProvider opts = None.
Hypothesis Hpipes : sa_pipe_stdout SA = None ∧ sa_pipe_stderr SA = None.
Hypothesis Hlistener : makes_listener SA o o1 l.
(** Both use the same libraries, which keep their laws. *)
Context (C : Crypto) `{!CryptoLaws C}.
Hypothesis Hhost_crypto : hs_crypto (se_hs E) = C.
Hypothesis Hplugin_crypto : sa_crypto SA = C.

(** The plugin is asked for a certificate only by a host with automatic mTLS,
    and makes one. *)
Hypothesis Hmtls : Getenv (sa_env SA) "PLUGIN_CLIENT_CERT" ≠ "" →
  cfg_AutoMTLS (config (w_client w)) = true ∧ plugin_cert SA der.

Lemma plugin_cert_generated :
  plugin_cert SA der → ∃ certPEM keyPEM x, generated C (sa_cert SA) certPEM keyPEM der x.
Proof.
  intros (certPEM & keyPEM & Hg & Hk). rewrite Hplugin_crypto in Hg, Hk.
  destruct (generateCert_generated C _ _ _ Hg) as (der' & x & Hgen).
  pose proof (gn_keypair _ _ _ _ _ _ Hgen) as Hk'. rewrite Hk in Hk'. injection Hk' as <-. eauto.
Qed.

Lemma plugin_cookie_ok : cookie_ok SA opts.
Proof.
  destruct (plugin_env_lookup E (w_client w) c' cmd Hprepare) as (_ & Hc & _); [apply Hname..|].
  right. rewrite Hkey, Hvalue, Henv. destruct Hcookie. by split_and!.
Qed.

Lemma plugin_newest v :
  int_keys (offered (config (w_client w))) →
  newest_common (server_versions opts) (offered (config (w_client w))) v →
  ∃ pt, (protocolVersion (sa_env SA) opts).2 = (v, pt, default None (server_versions opts !! v)) ∧
    (pt = ProtocolNetRPC ∨ pt = ProtocolGRPC).
Proof.
  intros Hint Hnew. destruct (plugin_env_lookup E (w_client w) c' cmd Hprepare) as (Hv & _ & _);
    [apply Hname..|]. rewrite <- Henv in Hv.
  destruct (protocolVersion_common (sa_env SA) opts _ v Hint Hv Hnew) as [pt Hpt].
  pose proof (protocolVersion_protocol (sa_env SA) opts) as Hp. rewrite Hpt in Hp |- *. eauto.
Qed.

(** What [Start] does when the first line of the plugin's stdout is accepted. *)
Lemma Start_accepts out line c2 a :
  se_wait E = Stdout out → scan_first out = Some line →
  handshake (se_hs E) r line true (set_doneCtx false (set_process E (set_runner (Some r) c'))) = (c2, Ret a) →
  ∃ w', Start E w = (w', Ret a) ∧ w_client w' = set_address (Some a) c2.
Proof.
  intros Hw Hs Hh. unfold Start, bind at 1, get. rewrite Haddress, Hreattach.
  unfold bind at 1, lift at 1. rewrite Hvalid. unfold bind at 1, prepare, bind at 1, on_client at 1.
  rewrite Hprepare. unfold make_runner, bind at 1, get at 1. cbn [w_client upd_client].
  pose proof (prepare_cmd_Ret _ _ _ _ Hprepare) as [(_ & _ & _ & Hrf & Hg) _]. simpl in Hrf, Hg.
  rewrite Hrf, Hrunnerfunc, Hg, Hrunner. unfold lift at 1.
  unfold start_runner, bind at 1, modify at 1. rewrite Hstart.
  unfold bind at 1, modify at 1, or_kill, bind, modify, on_client, await_handshake. simpl.
  rewrite Hw, Hs, Hh. unfold ret. by eexists.
Qed.

(** C5: host and plugin agree, end to end.  The plugin, started in the
    environment [Start] prepared, passes its cookie check and prints a line;
    [Start], reading that line, returns the plugin's address, and both sides
    use the newest version they have in common, each with its own plugin set of
    that version, the protocol the plugin chose, and, with automatic mTLS, the
    host trusts exactly the plugin's certificate. *)
Theorem host_plugin_agree v psc na a rest :
  int_keys (offered (config (w_client w))) →
  newest_common (server_versions opts) (offered (config (w_client w))) v →
  offered (config (w_client w)) !! v = Some psc →
  register_plugins (range (default ∅ (default None (server_versions opts !! v)))) = None →
  clean (Network (Listener_Addr l)) = true → clean (Address (Listener_Addr l)) = true →
  PluginToHost r (Network (Listener_Addr l)) (Address (Listener_Addr l)) = Ret na →
  resolve (se_hs E) na.1 na.2 = Ret a →
  (protocolVersion (sa_env SA) opts).2.1.2 ∈ default [] (cfg_AllowedProtocols (config (w_client w))) →
  let out := sw_stdout (Serve SA (start_world o opts)).1 in
  se_wait E = Stdout (out +:+ rest) → Z.of_nat (String.length out) < MaxScanTokenSize →
  ∃ w', Start E w = (w', Ret a) ∧ negotiatedVersion (w_client w') = v ∧
    (protocolVersion (sa_env SA) opts).2 = (v, protocol (w_client w'), default None (server_versions opts !! v)) ∧
    cfg_Plugins (config (w_client w')) = psc ∧
    (Getenv (sa_env SA) "PLUGIN_CLIENT_CERT" ≠ "" →
     ∃ x t, ParseCertificate C der = Ret x ∧ cfg_TLSConfig (config (w_client w')) = Some t ∧
       RootCAs t = Some [x] ∧ ClientCAs t = Some [x]).
Proof.
  intros Hint Hnew Hpsc Hreg Hcn Hca Hna Hres Hal out Hw Hlen.
  destruct (plugin_newest v Hint Hnew) as (pt & Hpv & Hpt). rewrite Hpv in Hal |- *. simpl in Hal.
  pose proof (Serve_prints SA o o1 opts l der plugin_cookie_ok Hlistener Htest Hprovider
    (proj1 Hpipes) (proj2 Hpipes) (λ H, proj2 (Hmtls H))) as Hout.
  rewrite Hpv in Hout. specialize (Hout ltac:(destruct Hpt; auto)). fold out in Hout.
  pose proof (prepare_cmd_Ret _ _ _ _ Hprepare) as [(Hvp & Hap & Hmx & _) _]. simpl in Hvp, Hap, Hmx.
  destruct (plugin_env_lookup E (w_client w) c' cmd Hprepare) as (_ & _ & Hmux & Htls); [apply Hname..|].
  set (c2 := set_doneCtx false (set_process E (set_runner (Some r) c'))).
  assert (cfg_VersionedPlugins (config c2) = cfg_VersionedPlugins (config c') ∧
    cfg_AllowedProtocols (config c2) = cfg_AllowedProtocols (config c') ∧
    cfg_GRPCBrokerMultiplex (config c2) = cfg_GRPCBrokerMultiplex (config c') ∧
    cfg_TLSConfig (config c2) = cfg_TLSConfig (config c')) as (V2 & A2 & M2 & T2)
    by (unfold c2, set_process; simpl; by destruct (cfg_Cmd (config c'))).
  destruct (handshake_reads_back (se_hs E) r c2 (sa_env SA) rest v psc (Listener_Addr l) pt
    (sent_cert (sa_env SA) der) na a) as (line & c3 & Hscan & Hhs & Hv & Hp & Hps & Hcs & _);
    [done|done|by destruct Hpt as [-> | ->]| |by eapply Hint|by rewrite V2, Hvp|done|done|
     by rewrite A2, Hap| | | |].
  - unfold sent_cert. case_decide as Hd; [by constructor|].
    destruct (plugin_cert_generated (proj2 (Hmtls Hd))) as (? & ? & ? & Hgen). apply Hgen.
  - rewrite M2, Hmx, Henv. intros Hm. by rewrite (Hmux Hm).
  - unfold sent_cert. case_decide as Hd; [done|]. intros _. destruct (Hmtls Hd) as [Hauto Hpc].
    destruct (plugin_cert_generated Hpc) as (? & ? & x & Hgen), (Htls Hauto) as (? & ? & cert & _ & Ht & _).
    split_and!; [|rewrite T2, Ht; by eexists|exists x; rewrite Hhost_crypto; apply Hgen].
    pose proof (EncodeToString_length der). pose proof (gn_size _ _ _ _ _ _ Hgen). lia.
  - rewrite Hout in Hlen. unfold handshake_output in Hlen. rewrite string_length_app in Hlen. lia.
  - rewrite <- Hout in Hscan. destruct (Start_accepts _ line c3 a Hw Hscan Hhs) as (w' & -> & Hc).
    exists w'. rewrite Hc. simpl. split_and!; [done|done|by rewrite Hp|done|].
    intros Hd. unfold sent_cert in Hcs. rewrite decide_False in Hcs by done.
    rewrite Hhost_crypto in Hcs. apply Hcs. intros Hnil.
    destruct (plugin_cert_generated (proj2 (Hmtls Hd))) as (? & ? & ? & Hgen).
    pose proof (gn_size _ _ _ _ _ _ Hgen) as Hs. rewrite Hnil in Hs. simpl in Hs. lia.
Qed.
End agreement.

(** ** Concrete instance *)

(** The gRPC plugin of the negotiation example, started by its client with
    automatic mTLS and multiplexing. *)
Definition ex_host_world : World := ex_world (ex_client None true).
Definition ex_cmd : Cmd :=
  match (prepare_cmd (ex_startenv Timeout) (w_client ex_host_world)).2 with
  | Ret cmd => cmd | _ => MkCmd "" [] None end.
Definition ex_prepared : Client := (prepare_cmd (ex_startenv Timeout) (w_client ex_host_world)).1.
Definition ex_opts : ServeConfig :=
  MkServeConfig (MkHandshake 1 "KEY" "VALUE") None (srv_Plugins ex_serve) (srv_VersionedPlugins ex_serve)
    true None.
Definition ex_plugin_answers : ServeAnswers :=
  MkServeAnswers ex_os (env_of_list (cmd_Env ex_cmd)) ToyCrypto (ex_cert_answers 6) None None 42 ServerDone.
Definition ex_out : string :=
  sw_stdout (Serve ex_plugin_answers (start_world (MkOS ∅ []) ex_opts)).1.
Definition ex_host_env : StartEnv := ex_startenv (Stdout (ex_out +:+ "later output")).

Lemma ex_prepare_ok : prepare_cmd ex_host_env (w_client ex_host_world) = (ex_prepared, Ret ex_cmd).
Proof. vm_compute. reflexivity. Qed.
Lemma ex_listener_ok : makes_listener ex_plugin_answers (MkOS ∅ []) ex_listening ex_rm.
Proof. vm_compute. reflexivity. Qed.
Lemma ex_offered : offered (config (w_client ex_host_world)) = ex_client_versions.
Proof. vm_compute. reflexivity. Qed.
Lemma ex_out_short : Z.of_nat (String.length ex_out) < MaxScanTokenSize.
Proof. vm_compute. reflexivity. Qed.
Lemma ex_registered :
  register_plugins (range (default ∅ (default None (server_versions ex_opts !! 3)))) = None.
Proof. vm_compute. reflexivity. Qed.
Lemma ex_transport : (protocolVersion (sa_env ex_plugin_answers) ex_opts).2.1.2 = ProtocolGRPC.
Proof. vm_compute. reflexivity. Qed.

Example host_plugin_agree_witness :
  ∃ w', Start ex_host_env ex_host_world = (w', Ret (MkAddr "unix" "/plugin123")) ∧
    negotiatedVersion (w_client w') = 3.
Proof.
  destruct (host_plugin_agree ex_host_env ex_host_world ex_prepared ex_cmd ex_runner
    eq_refl eq_refl eq_refl eq_refl ex_prepare_ok eq_refl eq_refl
    ex_plugin_answers ex_opts (MkOS ∅ []) ex_listening ex_rm ex_cert
    eq_refl eq_refl eq_refl) with (C := ToyCrypto) (v := 3) (psc := ex_set true)
    (na := ("unix", "/plugin123")) (a := MkAddr "unix" "/plugin123") (rest := "later output")
    as (w' & H1 & H2 & _).
  - split; discriminate.
  - split; [apply (bool_decide_unpack _); vm_compute; exact I|reflexivity].
  - reflexivity.
  - reflexivity.
  - split; reflexivity.
  - exact ex_listener_ok.
  - exact ToyCrypto_laws.
  - reflexivity.
  - reflexivity.
  - intros _. split; [reflexivity|]. eexists _, _. split; vm_compute; reflexivity.
  - rewrite ex_offered. exact ex_client_int_keys.
  - rewrite ex_offered. exact ex_newest_common.
  - rewrite ex_offered. reflexivity.
  - exact ex_registered.
  - reflexivity.
  - reflexivity.
  - reflexivity.
  - reflexivity.
  - rewrite ex_transport. right; left.
  - reflexivity.
  - exact ex_out_short.
  - exists w'. split; [exact H1|exact H2].
Defined.
