(* ===== verification/AutoMtls.v ===== *)
(** * Automatic mTLS, both sides together

    [Start] makes a certificate and passes it to the plugin in the environment;
    [Serve] makes one of its own and answers with it in the handshake line;
    [loadServerCert] installs that.  The two configurations are then used for
    the main connection, where the host is the TLS client, and for brokered
    connections, where either side may be. *)

From S2P Require Import Prelude GoStd Mtls Config ClientData Handshake Listener Serve Start EndToEnd.

(** ** Definitions *)

(** The time in which the certificates made with [A] are valid. *)
Definition in_window (A : CertAnswers) (now : Z) : Prop :=
  ca_Now_before A - 30 * Second ≤ now < ca_Now_after A + 262980 * Hour - Second.

(** The configuration [t] presents [x] or a certificate signed with its key. *)
Definition presents (C : Crypto) (x : Cert) (t : TLSConfig) : Prop :=
  ∃ y, ParseCertificate C (Certificate t) = Ret y ∧ (y = x ∨ crt_SignedBy y = crt_PublicKey x).

(** ** Lemmas *)

(** A configuration that presents [own] and trusts [peer] and nothing else. *)
Record pinned (C : Crypto) (own peer : Cert) (t : TLSConfig) : Prop := MkPinned {
  pn_own : ParseCertificate C (Certificate t) = Ret own;
  pn_require : RequireClientCert t = true;
  pn_roots : RootCAs t = Some [peer];
  pn_clients : ClientCAs t = Some [peer];
  pn_name : ServerName t = cert_host
}.

Lemma verify_unnamed pool usage name now x :
  verify pool usage name now x = true → verify pool usage None now x = true.
Proof.
  unfold verify. rewrite !andb_true_iff. intros [[[-> ->] _] ->]. done.
Qed.

(** Two configurations that trust each other connect. *)
Lemma pinned_connect C system now x y tx ty :
  pinned C x y tx → pinned C y x ty →
  (∀ usage, verify [x] usage (Some cert_host) now x = true) →
  (∀ usage, verify [y] usage (Some cert_host) now y = true) →
  tls_connect C system now tx ty = true.
Proof.
  intros [Ox _ Rx _ Nx] [Oy Qy _ Cy _] Hx Hy. unfold tls_connect.
  rewrite Oy, Ox, Rx, Cy, Nx, Qy. cbn [default negb orb].
  rewrite Hy. cbn [andb]. by eapply verify_unnamed, Hx.
Qed.

(** Nobody else connects to it or is accepted by it. *)
Lemma pinned_exclusive C system now x y tx t :
  pinned C x y tx →
  (tls_connect C system now tx t = true → presents C y t) ∧
  (tls_connect C system now t tx = true → presents C y t).
Proof.
  intros [Ox Qx Rx Cx _]. unfold tls_connect, presents. rewrite Ox, Rx, Cx, Qx. cbn [default negb orb].
  destruct (ParseCertificate C (Certificate t)) as [z| |]; [|done..].
  split; intros H; exists z; (split; [done|]).
  - apply andb_true_iff in H as [H _]. by eapply verify_pinned.
  - apply andb_true_iff in H as [_ H]. by eapply verify_pinned.
Qed.

Lemma generated_verifies C A c p der x now usage :
  generated C A c p der x → in_window A now → verify [x] usage (Some cert_host) now x = true.
Proof. intros [(k & sn & _ & _ & ->) _ _ _ _ _ _] [Hb Ha]. by apply made_cert_verifies. Qed.

Section mutual.
Context `{!MapRange string} `{!MapRange Z}.

(** The host has prepared a command with automatic mTLS. *)
Variables (E : StartEnv) (c c' : Client) (cmd : Cmd).
Hypothesis Hprepare : prepare_cmd E c = (c', Ret cmd).
Hypothesis Hauto : cfg_AutoMTLS (config c) = true.
Hypothesis Hname : MagicCookieKey (cfg_Handshake (config c)) ∉ reserved ∧
  no_char equals (MagicCookieKey (cfg_Handshake (config c))) = true.

(** The plugin runs in the environment of that command. *)
Variables (SA : ServeAnswers) (sw : ServeWorld) (der : list Z).
Hypothesis Henv : sa_env SA = env_of_list (cmd_Env cmd).
Hypothesis Hprovider : srv_TLSProvider (sw_opts sw) = None.
Hypothesis Hplugin : plugin_cert SA der.

Context (C : Crypto) `{!CryptoLaws C}.
Hypothesis Hhost_crypto : hs_crypto (se_hs E) = C.
Hypothesis Hplugin_crypto : sa_crypto SA = C.

(** The host's certificate, in the plugin's environment. *)
Lemma host_generated :
  ∃ certPEM keyPEM cert x, generated C (se_cert E) certPEM keyPEM cert x ∧
    cfg_TLSConfig (config c') = Some (host_tls cert) ∧ Getenv (sa_env SA) "PLUGIN_CLIENT_CERT" = certPEM.
Proof.
  destruct (plugin_env_lookup E c c' cmd Hprepare) as (_ & _ & _ & H); [apply Hname..|].
  destruct (H Hauto) as (certPEM & keyPEM & cert & [Hg Hk] & Ht & He).
  rewrite Hhost_crypto in Hg, Hk. destruct (generateCert_generated C _ _ _ Hg) as (cert' & x & Hgen).
  pose proof (gn_keypair _ _ _ _ _ _ Hgen) as Hk'. rewrite Hk in Hk'. injection Hk' as <-.
  exists certPEM, keyPEM, cert, x. by rewrite Henv.
Qed.

(** C6: Automatic mTLS: the plugin configures TLS, the host installs the
    certificate of its line, and then each side accepts the other as a client
    and as a server, while the certificates are valid; whoever else one of them
    connects to or accepts must present a certificate made with the peer's
    key. *)
Theorem AutoMTLS_mutual system :
  ∃ tp line ch th xp xh,
    configure_tls SA sw = (sw, Ret (Some tp, line)) ∧
    loadServerCert (se_hs E) line c' = (ch, Ret tt) ∧ cfg_TLSConfig (config ch) = Some th ∧
    ParseCertificate C (Certificate tp) = Ret xp ∧ ParseCertificate C (Certificate th) = Ret xh ∧
    (∀ now, in_window (se_cert E) now → in_window (sa_cert SA) now →
       tls_connect C system now th tp = true ∧ tls_connect C system now tp th = true) ∧
    (∀ now t, tls_connect C system now th t = true ∨ tls_connect C system now t th = true → presents C xp t) ∧
    (∀ now t, tls_connect C system now tp t = true ∨ tls_connect C system now t tp = true → presents C xh t).
Proof.
  destruct host_generated as (hPEM & hKey & hder & xh & Hh & Ht & He).
  destruct (plugin_cert_generated SA der C Hplugin_crypto Hplugin) as (pPEM & pKey & xp & Hp).
  assert (Hne : Getenv (sa_env SA) "PLUGIN_CLIENT_CERT" ≠ "") by (rewrite He; apply Hh).
  pose proof (configure_tls_own SA sw der Hprovider (λ _, Hplugin)) as Hcfg.
  unfold plugin_tls, sent_cert in Hcfg. rewrite !decide_False in Hcfg by done.
  rewrite Hplugin_crypto, He, (gn_pool _ _ _ _ _ _ Hh) in Hcfg.
  pose proof (loadServerCert_ok (se_hs E) der xp c' (host_tls hder) (gn_bytes _ _ _ _ _ _ Hp)
    ltac:(rewrite Hhost_crypto; apply Hp) Ht) as Hload.
  set (tp := MkTLS der true (Some [xh]) (Some [xh]) "localhost") in *.
  set (th := MkTLS hder true (Some [xp]) (Some [xp]) "localhost").
  assert (pinned C xp xh tp) as Pp by (split; [apply Hp|done..]).
  assert (pinned C xh xp th) as Ph by (split; [apply Hh|done..]).
  eexists tp, _, _, th, xp, xh. split; [exact Hcfg|]. split; [exact Hload|].
  split; [done|]. split; [apply Hp|]. split; [apply Hh|]. split_and!.
  - intros now Wh Wp. pose proof (λ u, generated_verifies _ _ _ _ _ _ now u Hh Wh) as Vh.
    pose proof (λ u, generated_verifies _ _ _ _ _ _ now u Hp Wp) as Vp.
    split; by eapply pinned_connect.
  - intros now t. destruct (pinned_exclusive C system now xh xp th t Ph). tauto.
  - intros now t. destruct (pinned_exclusive C system now xp xh tp t Pp). tauto.
Qed.
End mutual.

(** ** A peer without a certificate *)

(** The line of the handshake has a certificate for [Start] to install. *)
Definition carries_cert (line : string) : bool :=
  let parts := Split (TrimSpace line) bar in
  bool_decide (6 ≤ length parts)%nat && bool_decide (50 < String.length (field 5 parts))%nat.

(** What [Start] reads from the plugin has none. *)
Definition without_cert (wait : StartWait) : Prop :=
  ∀ out line, wait = Stdout out → scan_first out = Some line → carries_cert line = false.

Definition same_tls (c c' : Client) : Prop := cfg_TLSConfig (config c') = cfg_TLSConfig (config c).
Definition same_host_tls (w w' : World) : Prop := same_tls (w_client w) (w_client w').

#[local] Instance same_tls_preorder : PreOrder same_tls.
Proof. split; [by intros ?|]. intros ??? H1 H2. unfold same_tls in *. congruence. Qed.
#[local] Instance same_host_tls_preorder : PreOrder same_host_tls.
Proof. split; [by intros ?|]. intros ??? H1 H2. unfold same_host_tls in *. by etrans. Qed.

Section closed.
Context `{!MapRange string} `{!MapRange Z}.

(** A handshake without a certificate leaves the TLS configuration alone. *)
Lemma handshake_same_tls H r line ok : carries_cert line = false → keeps same_tls (handshake H r line ok).
Proof.
  intros Hc. assert (∀ ps, keeps same_tls (check_mux ps)) as Hmux
    by (intros ps c; unfold check_mux; repeat case_match; done).
  unfold handshake. unfold carries_cert in Hc. cbv zeta in Hc |- *. rewrite Hc.
  case_match; [apply keeps_fail; typeclasses eauto|].
  apply keeps_bind; [typeclasses eauto| |intros ?].
  { intros c. unfold wrap_err, lift. by case_match. }
  solve_keeps ltac:(done). all: apply Hmux.
Qed.

Lemma await_handshake_same_tls E r : without_cert (se_wait E) → keeps same_tls (await_handshake E r).
Proof.
  intros Hw. unfold await_handshake. destruct (se_wait E) as [| |out]; [apply keeps_fail; typeclasses eauto..|].
  destruct (scan_first out) as [line|] eqn:Hs; apply handshake_same_tls; [by eapply Hw|done].
Qed.

Lemma on_client_same_tls {A} (m : GoM Client error A) : keeps same_tls m → keeps same_host_tls (on_client m).
Proof. intros Hm w. specialize (Hm (w_client w)). unfold on_client. by destruct (m (w_client w)). Qed.

Lemma make_runner_same_tls E cmd : keeps same_host_tls (make_runner E cmd).
Proof.
  assert (∀ A (m : GoM OS error A), keeps same_host_tls (on_host_os m)) as Hos
    by (intros A m w; unfold on_host_os; by destruct (m (w_os w))).
  unfold make_runner, mkdir_socketDir. solve_keeps ltac:(first [done | apply store_cmd_tls]). all: apply Hos.
Qed.

Lemma start_runner_same_tls E r : without_cert (se_wait E) → keeps same_host_tls (start_runner E r).
Proof.
  intros Hw. unfold start_runner.
  apply keeps_bind; [typeclasses eauto|by apply keeps_modify|intros _].
  destruct (runner_Start r); [apply keeps_fail; typeclasses eauto|].
  apply keeps_bind; [typeclasses eauto| |intros _].
  { apply keeps_modify. intros w. unfold same_host_tls, same_tls, set_process. simpl. by case_match. }
  set (m := bind _ _). assert (keeps same_host_tls m) as Hm.
  { unfold m. solve_keeps ltac:(done). by apply on_client_same_tls, await_handshake_same_tls. }
  intros w. specialize (Hm w). unfold or_kill. by destruct (m w) as [? []].
Qed.

(** [Start] with such a plugin keeps the configuration it prepared. *)
Lemma Start_prepared_tls E w w' a :
  Start E w = (w', Ret a) → address (w_client w) = None → cfg_Reattach (config (w_client w)) = None →
  without_cert (se_wait E) →
  ∃ c cmd, prepare_cmd E (w_client w) = (c, Ret cmd) ∧ same_tls c (w_client w').
Proof.
  intros H Ha Hre Hw. unfold Start in H. apply GoM_bind_Ret in H as (? & ? & [= <- <-] & H).
  rewrite Ha, Hre in H. apply GoM_bind_Ret in H as (w1 & [] & Hv & H). injection Hv as <- _.
  apply GoM_bind_Ret in H as (w2 & r & Hp & H).
  unfold prepare in Hp. apply GoM_bind_Ret in Hp as (w3 & cmd & Hcmd & Hmk).
  unfold on_client in Hcmd. destruct (prepare_cmd E (w_client w)) as [c res]. injection Hcmd as <- ->.
  exists c, cmd. split; [done|].
  pose proof (make_runner_same_tls E cmd (upd_client (λ _, c) w)) as H1. 
  pose proof (start_runner_same_tls E r Hw w2) as H2. rewrite H in H2.
  unfold same_host_tls, same_tls in *. rewrite Hmk in H1. simpl in *. congruence.
Qed.

(** C35: Automatic mTLS fails closed.  A host that has started a plugin whose
    handshake carried no certificate connects only to servers the system's
    roots vouch for as "localhost"; a plugin that could not parse the host's
    certificate, which it only logs, accepts nobody. *)
Theorem AutoMTLS_fails_closed :
  (∀ E w w' a, Start E w = (w', Ret a) → cfg_AutoMTLS (config (w_client w)) = true →
     address (w_client w) = None → cfg_Reattach (config (w_client w)) = None → without_cert (se_wait E) →
     ∃ th, cfg_TLSConfig (config (w_client w')) = Some th ∧
       ∀ C system now t, tls_connect C system now th t = true →
         ∃ y, ParseCertificate C (Certificate t) = Ret y ∧
           verify system ExtKeyUsageServerAuth (Some "localhost") now y = true) ∧
  (∀ SA sw sw' tp line, configure_tls SA sw = (sw', Ret (Some tp, line)) →
     srv_TLSProvider (sw_opts sw) = None →
     AppendCertsFromPEM (sa_crypto SA) (Getenv (sa_env SA) "PLUGIN_CLIENT_CERT") = [] →
     ∀ C system now t, tls_connect C system now t tp = false).
Proof.
  split.
  - intros E w w' a Hst Hauto Ha Hre Hw.
    destruct (Start_prepared_tls E w w' a Hst Ha Hre Hw) as (c & cmd & Hp & ->).
    apply prepare_cmd_Ret in Hp as (_ & ? & ? & ? & _ & _ & Hm). rewrite Hauto in Hm.
    destruct Hm as (? & ? & cert & _ & -> & _). eexists. split; [done|].
    intros C system now t. unfold tls_connect. simpl.
    destruct (ParseCertificate C (Certificate t)) as [y| |]; [|done..].
    destruct (ParseCertificate C cert); [|done..]. intros [H _]%andb_true_iff. eauto.
  - intros SA sw sw' tp line H Hp Hpem C system now t.
    unfold configure_tls, bind at 1, get in H. rewrite Hp in H. unfold bind at 1, ret at 1 in H.
    destruct (decide _) as [?|Hne]; [done|]. rewrite Hpem in H.
    destruct (_ ≫= _) as [cert| |] in H; [|done..]. injection H as _ <- _.
    unfold tls_connect. simpl. repeat case_match; try done. by rewrite verify_no_roots, andb_false_r.
Qed.
End closed.

(** ** Concrete instance *)

Definition ex_serving : ServeWorld := start_world (MkOS ∅ []) ex_opts.

Example AutoMTLS_mutual_witness :
  ∃ tp line ch th, configure_tls ex_plugin_answers ex_serving = (ex_serving, Ret (Some tp, line)) ∧
    loadServerCert (se_hs ex_host_env) line ex_prepared = (ch, Ret tt) ∧
    cfg_TLSConfig (config ch) = Some th ∧
    tls_connect ToyCrypto [] (1700000060 * Second) th tp = true.
Proof.
  destruct (AutoMTLS_mutual ex_host_env (w_client ex_host_world) ex_prepared ex_cmd ex_prepare_ok eq_refl)
    with (SA := ex_plugin_answers) (sw := ex_serving) (der := ex_cert) (C := ToyCrypto) (system := @nil Cert)
    as (tp & line & ch & th & xp & xh & H1 & H2 & H3 & _ & _ & H4 & _).
  - split; [apply (bool_decide_unpack _); vm_compute; exact I|reflexivity].
  - reflexivity.
  - reflexivity.
  - eexists _, _. split; vm_compute; reflexivity.
  - exact ToyCrypto_laws.
  - reflexivity.
  - reflexivity.
  - exists tp, line, ch, th. split; [exact H1|]. split; [exact H2|]. split; [exact H3|].
    apply H4; split; vm_compute; congruence.
Defined.

(** A plugin that answers without a certificate, and one whose host sent
    something that is not a certificate. *)
Lemma ex_line_without_cert : without_cert ex_line.
Proof. intros out line [= <-] Hs. vm_compute in Hs. injection Hs as <-. vm_compute. reflexivity. Qed.

Definition ex_junk_answers : ServeAnswers :=
  MkServeAnswers ex_os {[ "PLUGIN_CLIENT_CERT" := "junk" ]} ToyCrypto (ex_cert_answers 6) None None 42 ServerDone.
Definition ex_junk_tls : TLSConfig :=
  match (configure_tls ex_junk_answers ex_serving).2 with
  | Ret (Some t, _) => t | _ => MkTLS [] false None None "" end.

Lemma ex_junk_configured :
  ∃ line, configure_tls ex_junk_answers ex_serving = (ex_serving, Ret (Some ex_junk_tls, line)).
Proof. eexists. vm_compute. reflexivity. Qed.

Example AutoMTLS_fails_closed_witness :
  (∃ th, cfg_TLSConfig (config (w_client ex_started)) = Some th ∧ tls_connect ToyCrypto [] 0 th th = false) ∧
  ∀ t, tls_connect ToyCrypto [] 0 t ex_junk_tls = false.
Proof.
  destruct AutoMTLS_fails_closed as [Hhost Hplugin]. split.
  - destruct (Hhost _ _ _ _ ex_started_ok eq_refl eq_refl eq_refl ex_line_without_cert) as (th & Ht & H).
    exists th. split; [exact Ht|]. destruct (tls_connect ToyCrypto [] 0 th th) eqn:Hc; [|reflexivity].
    destruct (H _ _ _ _ Hc) as (y & _ & Hv). rewrite verify_no_roots in Hv. discriminate.
  - intros t. destruct ex_junk_configured as (line & Hcfg).
    apply (Hplugin ex_junk_answers ex_serving ex_serving ex_junk_tls line Hcfg); vm_compute; reflexivity.
Defined.
