(* ===== verification/Rendezvous.v ===== *)
(** * The pending table of the brokers

    [MuxBroker] (mux_broker.go) and [GRPCBroker] (grpc_broker.go) pair a
    message from the peer with a local call by a stream id: whoever comes first
    creates a pending entry, a channel of capacity one with a [doneCh], in a
    map; [Run] queues the message and starts a [timeoutWait] goroutine, the
    local call takes it.  Both brokers have this structure with the same field
    and method names; what they queue differs (a connection, a [ConnInfo]), and
    [timeoutWait] of [MuxBroker] also drains the channel when it times out.

    The table is a transition system whose labels are the atomic steps of the
    goroutines; [select] between ready cases is the choice of a label, timers
    fire at or after their deadline. *)

From S2P Require Import Prelude GoStd Config.

(** ** State *)

(** An entry ([muxBrokerPending], [gRPCBrokerPending]): the id it was made for,
    the channel's content and whether [doneCh] is closed. *)
Record Pending (M : Type) : Type := MkPending {
  p_id : Z;
  p_ch : option M;
  p_done : bool
}.
Arguments MkPending {M} p_id p_ch p_done.
Arguments p_id {M} _.
Arguments p_ch {M} _.
Arguments p_done {M} _.

(** A goroutine that works on an entry: the id it was called with, the entry it
    holds, its deadline and, for a local call, whether it closes [doneCh] when
    it has received ([Accept] and [Dial] do, [knock] does not). *)
Record Task : Type := MkTask {
  t_id : Z;
  t_ref : nat;
  t_deadline : Z;
  t_closes : bool
}.

(** [heap] holds the entries, [streams] is the broker's map; [calls] are the
    local calls in progress, [waits] the [timeoutWait] goroutines. The last
    three fields record the history: what arrived, which ids were called, what
    was delivered and what was discarded. *)
Record Table (M : Type) : Type := MkTable {
  now : Z;
  heap : gmap nat (Pending M);
  streams : gmap Z nat;
  fresh : nat;
  calls : gmap nat Task;
  waits : gmap nat Task;
  panicked : bool;
  arrived : list (Z * M);
  called : list Z;
  delivered : list (Z * M);
  discarded : list M
}.
Arguments MkTable {M} now heap streams fresh calls waits panicked arrived called delivered discarded.
Arguments now {M} _.
Arguments heap {M} _.
Arguments streams {M} _.
Arguments fresh {M} _.
Arguments calls {M} _.
Arguments waits {M} _.
Arguments panicked {M} _.
Arguments arrived {M} _.
Arguments called {M} _.
Arguments delivered {M} _.
Arguments discarded {M} _.

Definition empty_table {M} : Table M := MkTable 0 ∅ ∅ 0 ∅ ∅ false [] [] [] [].

(** ** Operations *)

Section operations.
Context {M : Type}.

(** [getStream], [getClientStream], [getServerStream]: the entry of the id,
    created when there is none. *)
Definition getStream (id : Z) (s : Table M) : Table M * nat :=
  match streams s !! id with
  | Some ref => (s, ref)
  | None =>
      let ref := fresh s in
      (MkTable (now s) (<[ref := MkPending id None false]> (heap s)) (<[id := ref]> (streams s))
         (S ref) (calls s) (waits s) (panicked s) (arrived s) (called s) (delivered s) (discarded s),
       ref)
  end.

(** The beginning of a local call: the entry and the timer. *)
Definition begin_call (tid : nat) (id : Z) (closes : bool) (s : Table M) : Table M :=
  let '(s, ref) := getStream id s in
  MkTable (now s) (heap s) (streams s) (fresh s)
    (<[tid := MkTask id ref (now s + BrokerTimeout) closes]> (calls s)) (waits s) (panicked s)
    (arrived s) (id :: called s) (delivered s) (discarded s).

(** The case [<-p.ch] of the call's [select]; closing a closed [doneCh] panics. *)
Definition receive (tid : nat) (s : Table M) : option (Table M) :=
  match calls s !! tid with
  | None => None
  | Some t =>
      match heap s !! t_ref t with
      | Some (MkPending pid (Some m) d) =>
          Some (MkTable (now s) (<[t_ref t := MkPending pid None (d || t_closes t)]> (heap s)) (streams s)
                  (fresh s) (delete tid (calls s)) (waits s) (d && t_closes t) (arrived s) (called s)
                  ((t_id t, m) :: delivered s) (discarded s))
      | _ => None
      end
  end.

(** The case [<-time.After(BrokerTimeout)] of the call's [select]. *)
Definition call_timeout (tid : nat) (s : Table M) : option (Table M) :=
  match calls s !! tid with
  | None => None
  | Some t =>
      if bool_decide (t_deadline t ≤ now s) then
        Some (MkTable (now s) (heap s) (delete (t_id t) (streams s)) (fresh s) (delete tid (calls s))
                (waits s) (panicked s) (arrived s) (called s) (delivered s) (discarded s))
      else None
  end.

(** One iteration of [Run] with a message for [id]: queue it and start
    [timeoutWait], or discard it when the channel is full. *)
Definition arrive (wid : nat) (id : Z) (m : M) (s : Table M) : Table M :=
  let '(s, ref) := getStream id s in
  match heap s !! ref with
  | Some (MkPending pid None d) =>
      MkTable (now s) (<[ref := MkPending pid (Some m) d]> (heap s)) (streams s) (fresh s) (calls s)
        (<[wid := MkTask id ref (now s + BrokerTimeout) false]> (waits s)) (panicked s)
        ((id, m) :: arrived s) (called s) (delivered s) (discarded s)
  | _ =>
      MkTable (now s) (heap s) (streams s) (fresh s) (calls s) (waits s) (panicked s)
        ((id, m) :: arrived s) (called s) (delivered s) (m :: discarded s)
  end.

(** [timeoutWait] deletes the map's entry of the id, whichever entry that is by
    then; on a timeout [MuxBroker] drains the channel. *)
Definition finish_wait (drain : bool) (wid : nat) (t : Task) (s : Table M) : Table M :=
  let ch := heap s !! t_ref t ≫= p_ch in
  MkTable (now s)
    (if drain then alter (λ p, MkPending (p_id p) None (p_done p)) (t_ref t) (heap s) else heap s)
    (delete (t_id t) (streams s)) (fresh s) (calls s) (delete wid (waits s)) (panicked s)
    (arrived s) (called s) (delivered s)
    (if drain then option_list ch ++ discarded s else discarded s).

Definition wait_done (wid : nat) (s : Table M) : option (Table M) :=
  match waits s !! wid with
  | None => None
  | Some t =>
      match heap s !! t_ref t with
      | Some (MkPending _ _ true) => Some (finish_wait false wid t s)
      | _ => None
      end
  end.

Definition wait_timeout (drain : bool) (wid : nat) (s : Table M) : option (Table M) :=
  match waits s !! wid with
  | None => None
  | Some t => if bool_decide (t_deadline t ≤ now s) then Some (finish_wait drain wid t s) else None
  end.

Definition tick (d : Z) (s : Table M) : Table M :=
  MkTable (now s + Z.max 0 d) (heap s) (streams s) (fresh s) (calls s) (waits s) (panicked s)
    (arrived s) (called s) (delivered s) (discarded s).
End operations.

(** ** The transition system *)

Inductive TableStep (M : Type) : Type :=
| BeginCall (tid : nat) (id : Z) (closes : bool)
| Receive (tid : nat)
| CallTimeout (tid : nat)
| Arrive (wid : nat) (id : Z) (m : M)
| WaitDone (wid : nat)
| WaitTimeout (wid : nat)
| Tick (d : Z).
Arguments BeginCall {M} tid id closes.
Arguments Receive {M} tid.
Arguments CallTimeout {M} tid.
Arguments Arrive {M} wid id m.
Arguments WaitDone {M} wid.
Arguments WaitTimeout {M} wid.
Arguments Tick {M} d.

(** Goroutine names are fresh; after a panic nothing runs. *)
Definition table_step {M} (drain : bool) (l : TableStep M) (s : Table M) : option (Table M) :=
  if panicked s then None
  else match l with
       | BeginCall tid id closes =>
           if decide (calls s !! tid = None) then Some (begin_call tid id closes s) else None
       | Receive tid => receive tid s
       | CallTimeout tid => call_timeout tid s
       | Arrive wid id m => if decide (waits s !! wid = None) then Some (arrive wid id m s) else None
       | WaitDone wid => wait_done wid s
       | WaitTimeout wid => wait_timeout drain wid s
       | Tick d => Some (tick d s)
       end.

(** ** Invariants

    The ids are used as the brokers' documentation asks for: each id is called
    at most once, and announced by the peer at most once. *)

Section invariants.
Context {M : Type}.
Implicit Types (s : Table M) (k : Task).

Definition disciplined (s : Table M) : Prop := NoDup (called s) ∧ NoDup (arrived s).*1.

(** The references are well-formed and no call in progress holds an entry whose
    [doneCh] is closed. *)
Record wf (s : Table M) : Prop := MkWf {
  wf_streams : ∀ id ref, streams s !! id = Some ref → ∃ p, heap s !! ref = Some p ∧ p_id p = id;
  wf_fresh : ∀ ref p, heap s !! ref = Some p → (ref < fresh s)%nat;
  wf_calls : ∀ t k, calls s !! t = Some k → t_id k ∈ called s ∧
    ∃ p, heap s !! t_ref k = Some p ∧ p_id p = t_id k ∧ p_done p = false;
  wf_calls_unique : ∀ t1 t2 k1 k2, calls s !! t1 = Some k1 → calls s !! t2 = Some k2 →
    t_id k1 = t_id k2 → t1 = t2;
  wf_done : ∀ ref p, heap s !! ref = Some p → p_done p = true → p_id p ∈ called s;
  wf_panic : panicked s = false
}.

(** Nothing is lost: a queued message has a [timeoutWait] on its entry, a map
    entry has a call or a [timeoutWait] of its id, and every message that
    arrived was delivered under its id, discarded, or is queued. *)
Record live_but (x : option Z) (s : Table M) : Prop := MkLive {
  lv_waits : ∀ w k, waits s !! w = Some k → t_id k ∈ (arrived s).*1 ∧
    ∃ p, heap s !! t_ref k = Some p ∧ p_id p = t_id k;
  lv_queued : ∀ ref p m, heap s !! ref = Some p → p_ch p = Some m →
    p_done p = false ∧ (p_id p, m) ∈ arrived s ∧ ∃ w k, waits s !! w = Some k ∧ t_ref k = ref;
  lv_done : ∀ ref p, heap s !! ref = Some p → p_done p = true → p_id p ∈ (arrived s).*1;
  lv_streams : ∀ id ref, streams s !! id = Some ref → x ≠ Some id →
    (∃ t k, calls s !! t = Some k ∧ t_id k = id) ∨ (∃ w k, waits s !! w = Some k ∧ t_id k = id);
  lv_delivered : ∀ id m, (id, m) ∈ delivered s → (id, m) ∈ arrived s;
  lv_account : ∀ id m, (id, m) ∈ arrived s → (id, m) ∈ delivered s ∨ m ∈ discarded s ∨
    ∃ ref p, heap s !! ref = Some p ∧ p_id p = id ∧ p_ch p = Some m
}.
Definition live : Table M → Prop := live_but None.

Lemma wf_empty : wf empty_table.
Proof. split; try done; intros *; by rewrite lookup_empty. Qed.
Lemma live_empty : live empty_table.
Proof. split; try done; intros *; rewrite ?lookup_empty, ?elem_of_nil; done. Qed.

(** What [getStream] returns. *)
Lemma getStream_ref id s :
  wf s → let '(s', ref) := getStream id s in
  streams s' !! id = Some ref ∧ ∃ p, heap s' !! ref = Some p ∧ p_id p = id.
Proof.
  intros Hwf. unfold getStream. destruct (streams s !! id) as [ref|] eqn:Hs.
  - split; [done|]. by apply (wf_streams s).
  - simpl. rewrite !lookup_insert_eq. eauto.
Qed.

Lemma getStream_frame id s :
  let s' := (getStream id s).1 in
  now s' = now s ∧ calls s' = calls s ∧ waits s' = waits s ∧ panicked s' = panicked s ∧
  arrived s' = arrived s ∧ called s' = called s ∧ delivered s' = delivered s ∧ discarded s' = discarded s.
Proof. unfold getStream. by case_match. Qed.

Lemma getStream_wf id s : wf s → wf (getStream id s).1.
Proof.
  intros Hwf. unfold getStream. destruct (streams s !! id) as [ref|] eqn:Hs; [done|].
  assert (heap s !! fresh s = None) as Hfr.
  { destruct (heap s !! fresh s) eqn:H; [|done]. apply (wf_fresh s) in H; [lia|done]. }
  destruct Hwf as [Hst Hf Hc Hu Hd Hp]. split; simpl; try done.
  - intros id' ref'. rewrite lookup_insert_Some. intros [[<- <-]|[Hne Hr]].
    + rewrite lookup_insert_eq. eauto.
    + destruct (Hst _ _ Hr) as (p & Hp' & Hid). rewrite lookup_insert_ne by congruence. eauto.
  - intros ref p. rewrite lookup_insert_Some. intros [[<- _]|[_ Hr]]; [lia|]. apply Hf in Hr. lia.
  - intros t k Hk. destruct (Hc _ _ Hk) as (Hin & p & Hp' & Hrest). split; [done|].
    exists p. rewrite lookup_insert_ne by congruence. done.
  - intros ref p. rewrite lookup_insert_Some. intros [[<- <-]|[_ Hr]]; [done|]. eauto.
Qed.

Lemma getStream_live id s : wf s → live s → live_but (Some id) (getStream id s).1.
Proof.
  intros Hwf [Hw Hq Hd Hs Hdel Hacc]. unfold getStream.
  destruct (streams s !! id) as [ref|] eqn:Hst; [split; simpl; eauto|].
  assert (heap s !! fresh s = None) as Hfr.
  { destruct (heap s !! fresh s) eqn:H; [|done]. apply (wf_fresh s) in H; [lia|done]. }
  split; simpl; try done.
  - intros w k Hk. destruct (Hw _ _ Hk) as (Hin & p & Hp & Hid). split; [done|].
    exists p. rewrite lookup_insert_ne by congruence. done.
  - intros ref p m. rewrite lookup_insert_Some. intros [[<- <-]|[_ Hr]]; [done|]. eauto.
  - intros ref p. rewrite lookup_insert_Some. intros [[<- <-]|[_ Hr]]; [done|]. eauto.
  - intros id' ref. rewrite lookup_insert_Some. intros [[<- <-]|[Hne Hr]] Hx; [done|]. eauto.
  - intros id' m Hm. destruct (Hacc _ _ Hm) as [?|[?|(ref & p & Hp & Hid & Hch)]]; [by auto..|].
    right. right. exists ref, p. rewrite lookup_insert_ne by congruence. done.
Qed.

(** ** Preservation, step by step *)

Lemma begin_call_wf tid id closes s :
  wf s → calls s !! tid = None → id ∉ called s → wf (begin_call tid id closes s).
Proof.
  intros Hwf Ht Hid. unfold begin_call. pose proof (getStream_wf id s Hwf) as Hwf'.
  pose proof (getStream_ref id s Hwf) as Href.
  pose proof (getStream_frame id s) as (_ & Hcalls & _ & _ & _ & Hcalled & _).
  destruct (getStream id s) as [s' ref]. simpl in *. destruct Href as (Hst' & p & Hp & Hpid).
  destruct Hwf' as [Hst Hf Hc Hu Hd Hpn]. rewrite Hcalls in Hc, Hu. rewrite Hcalled in Hc, Hd.
  assert (p_done p = false) as Hnd.
  { destruct (p_done p) eqn:E; [|done]. destruct Hid. rewrite <- Hpid. eauto. }
  split; simpl; try done; rewrite ?Hcalls, ?Hcalled.
  - intros t k. rewrite lookup_insert_Some. intros [[<- <-]|[_ Hk]]; simpl.
    + split; [left|]. eauto.
    + destruct (Hc _ _ Hk) as [Hin He]. split; [by right|done].
  - assert (∀ t k, calls s !! t = Some k → t_id k ≠ id) as Hfresh.
    { intros t k Hk He. apply Hid. rewrite <- He. by apply Hc in Hk as [? _]. }
    intros t1 t2 k1 k2. rewrite !lookup_insert_Some.
    intros [[<- <-]|[? H1]] [[<- <-]|[? H2]] He; simpl in He; [done| | |by eapply Hu].
    + by apply Hfresh in H2.
    + by apply Hfresh in H1.
  - intros ref' p' Hp' Hd'. right. eauto.
Qed.

Lemma begin_call_live tid id closes s :
  wf s → live s → calls s !! tid = None → live (begin_call tid id closes s).
Proof.
  intros Hwf Hlv Ht. unfold begin_call. pose proof (getStream_live id s Hwf Hlv) as Hl.
  pose proof (getStream_frame id s) as (_ & Hcalls & _).
  destruct (getStream id s) as [s' ref]. simpl in *. destruct Hl as [Hw Hq Hd Hs Hdel Hacc].
  split; simpl; try done. intros id' ref' Hr _. destruct (decide (id' = id)) as [->|Hne].
  - left. eexists tid, _. by rewrite lookup_insert_eq.
  - destruct (Hs _ _ Hr) as [(t & k & Hk & Hid)|Hwt]; [congruence| |by right].
    left. exists t, k. rewrite lookup_insert_ne; [done|]. congruence.
Qed.

Lemma receive_wf tid s s' : wf s → receive tid s = Some s' → wf s'.
Proof.
  intros [Hst Hf Hc Hu Hd Hpn]. unfold receive. destruct (calls s !! tid) as [t|] eqn:Ht; [|done].
  destruct (Hc _ _ Ht) as (Hin & p & Hp & Hpid & Hnd). rewrite Hp.
  destruct p as [pid ch d]. simpl in *. destruct ch as [m|]; [|done]. subst. intros [= <-].
  assert (∀ ref q, <[t_ref t := MkPending (t_id t) (@None M) (t_closes t)]> (heap s) !! ref = Some q →
    ∃ q0, heap s !! ref = Some q0 ∧ p_id q = p_id q0) as Hback.
  { intros ref q. rewrite lookup_insert_Some. intros [[<- <-]|[_ Hq]]; eauto. }
  split; simpl; try done.
  - intros id ref Hr. destruct (Hst _ _ Hr) as (q & Hq & Hid).
    destruct (decide (ref = t_ref t)) as [->|Hne].
    + eexists. rewrite lookup_insert_eq. split; [done|]. rewrite Hp in Hq. by simplify_eq/=.
    + eexists. by rewrite lookup_insert_ne.
  - intros ref q Hq. destruct (Hback _ _ Hq) as (q0 & Hq0 & _). eauto.
  - intros t' k Hk. apply lookup_delete_Some in Hk as [Hne Hk].
    destruct (Hc _ _ Hk) as (Hin' & q & Hq & Hqid & Hqd). split; [done|].
    exists q. rewrite lookup_insert_ne; [done|]. intros He. rewrite <- He, Hp in Hq. simplify_eq/=.
    destruct Hne. by eapply Hu.
  - intros t1 t2 k1 k2 [_ H1]%lookup_delete_Some [_ H2]%lookup_delete_Some. by eapply Hu.
  - intros ref q. rewrite lookup_insert_Some. intros [[<- <-]|[_ Hq]]; simpl; eauto.
Qed.

Lemma receive_live tid s s' : wf s → live s → receive tid s = Some s' → live s'.
Proof.
  intros Hwf [Hw Hq Hd Hs Hdel Hacc]. unfold receive.
  destruct (calls s !! tid) as [t|] eqn:Ht; [|done].
  destruct (wf_calls s Hwf _ _ Ht) as (_ & p & Hp & Hpid & _). rewrite Hp.
  destruct p as [pid ch d]. simpl in *. destruct ch as [m|]; [|done]. subst. intros [= <-].
  destruct (Hq _ _ m Hp eq_refl) as (_ & Harr & w0 & k0 & Hk0 & Href0). simpl in Harr.
  split; simpl; try done.
  - intros w k Hk. destruct (Hw _ _ Hk) as (Hin & q & Hq' & Hqid). split; [done|].
    destruct (decide (t_ref k = t_ref t)) as [He|Hne].
    + rewrite He, lookup_insert_eq. rewrite He, Hp in Hq'. simplify_eq/=. eauto.
    + exists q. by rewrite lookup_insert_ne.
  - intros ref q m'. rewrite lookup_insert_Some. intros [[<- <-]|[_ Hr]]; [done|]. eauto.
  - intros ref q. rewrite lookup_insert_Some. intros [[<- <-]|[_ Hr]]; [|eauto]. simpl. intros _.
    apply list_elem_of_fmap. by exists (t_id t, m).
  - intros id ref Hr Hx. destruct (Hs _ _ Hr Hx) as [(t' & k & Hk & Hid)|Hwt]; [|by right].
    destruct (decide (t' = tid)) as [->|Hne].
    + right. exists w0, k0. split; [done|]. rewrite Ht in Hk. simplify_eq.
      destruct (Hw _ _ Hk0) as (_ & q & Hq' & <-). rewrite Href0, Hp in Hq'. by simplify_eq/=.
    + left. exists t', k. by rewrite lookup_delete_ne.
  - intros id m' [[= -> ->]|Hin]%elem_of_cons; eauto.
  - intros id m' Hm. destruct (Hacc _ _ Hm) as [?|[?|(ref & q & Hq' & Hid & Hch)]];
      [left; by right|by auto|]. destruct (decide (ref = t_ref t)) as [->|Hne].
    + rewrite Hp in Hq'. simplify_eq/=. left. left.
    + right. right. exists ref, q. by rewrite lookup_insert_ne.
Qed.

Lemma call_timeout_wf tid s s' : wf s → call_timeout tid s = Some s' → wf s'.
Proof.
  intros [Hst Hf Hc Hu Hd Hpn]. unfold call_timeout. destruct (calls s !! tid) as [t|] eqn:Ht; [|done].
  case_bool_decide; [|done]. intros [= <-]. split; simpl; try done.
  - intros id ref [_ Hr]%lookup_delete_Some. eauto.
  - intros t' k [_ Hk]%lookup_delete_Some. eauto.
  - intros t1 t2 k1 k2 [_ H1]%lookup_delete_Some [_ H2]%lookup_delete_Some. by eapply Hu.
Qed.

Lemma call_timeout_live tid s s' : live s → call_timeout tid s = Some s' → live s'.
Proof.
  intros [Hw Hq Hd Hs Hdel Hacc]. unfold call_timeout. destruct (calls s !! tid) as [t|] eqn:Ht; [|done].
  case_bool_decide; [|done]. intros [= <-]. split; simpl; try done.
  intros id ref [Hne Hr]%lookup_delete_Some Hx.
  destruct (Hs _ _ Hr Hx) as [(t' & k & Hk & Hid)|Hwt]; [|by right]. left. exists t', k.
  rewrite lookup_delete_ne; [done|]. intros ->. rewrite Ht in Hk. by simplify_eq.
Qed.

Lemma arrive_wf wid id m s : wf s → wf (arrive wid id m s).
Proof.
  intros Hwf. unfold arrive. pose proof (getStream_wf id s Hwf) as Hwf'.
  destruct (getStream id s) as [s' ref]. simpl in *. destruct Hwf' as [Hst Hf Hc Hu Hd Hpn].
  destruct (heap s' !! ref) as [[pid [m'|] d]|] eqn:Hp; [by split..| |by split].
  assert (∀ r q, heap s' !! r = Some q →
    ∃ q', <[ref := MkPending pid (Some m) d]> (heap s') !! r = Some q' ∧ p_id q' = p_id q ∧
      p_done q' = p_done q) as Hfwd.
  { intros r q Hq. destruct (decide (r = ref)) as [->|Hne].
    - rewrite lookup_insert_eq. rewrite Hp in Hq. simplify_eq. eauto.
    - rewrite lookup_insert_ne by done. eauto. }
  split; simpl; try done.
  - intros id' r Hr. destruct (Hst _ _ Hr) as (q & Hq & Hid). destruct (Hfwd _ _ Hq) as (q' & ? & ? & _).
    exists q'. split; [done|congruence].
  - intros r q. rewrite lookup_insert_Some. intros [[<- _]|[_ Hr]]; eauto.
  - intros t k Hk. destruct (Hc _ _ Hk) as (Hin & q & Hq & Hid & Hqd).
    destruct (Hfwd _ _ Hq) as (q' & ? & ? & ?). split; [done|]. exists q'. split_and!; congruence.
  - intros r q. rewrite lookup_insert_Some. intros [[<- <-]|[_ Hr]]; simpl; eauto.
    intros Hd'. apply (Hd _ _ Hp Hd').
Qed.

Lemma arrive_live wid id m s :
  wf s → live s → waits s !! wid = None → id ∉ (arrived s).*1 → live (arrive wid id m s).
Proof.
  intros Hwf Hlv Hwid Hid. unfold arrive.
  pose proof (getStream_live id s Hwf Hlv) as [Hw Hq Hd Hs Hdel Hacc].
  pose proof (getStream_ref id s Hwf) as Href.
  pose proof (getStream_frame id s) as (_ & Hcalls & Hwaits & _ & Harr & _ & Hdeliv & Hdisc).
  destruct (getStream id s) as [s' ref]. simpl in *. destruct Href as (Hst & [pid ch d] & Hp & Hpid).
  simpl in Hpid. subst pid. rewrite Harr, Hwaits in *. rewrite Hp.
  assert (ch = None) as ->.
  { destruct ch as [m'|]; [|done]. destruct (Hq _ _ m' Hp eq_refl) as (_ & Hin & _). destruct Hid.
    apply list_elem_of_fmap. by exists (id, m'). }
  assert (d = false) as -> by (destruct d; [destruct Hid; by apply (Hd _ _ Hp)|done]).
  split; simpl; try done.
  - intros w k. rewrite lookup_insert_Some. intros [[<- <-]|[_ Hk]]; simpl.
    + split; [left|]. rewrite lookup_insert_eq. eauto.
    + destruct (Hw _ _ Hk) as (Hin & q & Hq' & Hqid). split; [by right|].
      destruct (decide (t_ref k = ref)) as [He|Hne].
      * rewrite He, lookup_insert_eq. rewrite He, Hp in Hq'. simplify_eq/=. eauto.
      * exists q. by rewrite lookup_insert_ne.
  - intros r q m'. rewrite lookup_insert_Some. intros [[<- <-]|[Hne Hr]].
    + simpl. intros [= <-]. split_and!; [done|left|]. eexists wid, _. rewrite lookup_insert_eq. done.
    + intros Hch. destruct (Hq _ _ m' Hr Hch) as (? & ? & w & k & Hk & ?).
      split_and!; [done|by right|]. exists w, k. rewrite lookup_insert_ne; [done|]. congruence.
  - intros r q. rewrite lookup_insert_Some. intros [[<- <-]|[Hne Hr]]; [done|]. intros. right. eauto.
  - intros id' r Hr _. destruct (decide (id' = id)) as [->|Hne].
    + right. eexists wid, _. by rewrite lookup_insert_eq.
    + destruct (Hs _ _ Hr) as [Hct|(w & k & Hk & Hi)]; [congruence|by left|].
      right. exists w, k. rewrite lookup_insert_ne; [done|]. congruence.
  - intros id' m' Hin. right. eauto.
  - intros id' m' [[= -> ->]|Hin]%elem_of_cons.
    + right. right. eexists ref, _. rewrite lookup_insert_eq. done.
    + destruct (Hacc _ _ Hin) as [?|[?|(r & q & Hq' & Hqid & Hch)]]; [by auto..|].
      right. right. exists r, q. rewrite lookup_insert_ne; [done|]. intros ->. rewrite Hp in Hq'.
      by simplify_eq/=.
Qed.

(** The heap a [timeoutWait] leaves: the same entries, possibly drained. *)
Lemma finish_wait_heap drain wid t s :
  let s' := finish_wait drain wid t s in
  (∀ r q, heap s !! r = Some q → ∃ q', heap s' !! r = Some q' ∧ p_id q' = p_id q ∧ p_done q' = p_done q ∧
     (p_ch q' = p_ch q ∨ (drain = true ∧ r = t_ref t ∧ p_ch q' = None))) ∧
  (∀ r q', heap s' !! r = Some q' → ∃ q, heap s !! r = Some q ∧ p_id q' = p_id q ∧ p_done q' = p_done q ∧
     (∀ m, p_ch q' = Some m → p_ch q = Some m ∧ (drain = true → r ≠ t_ref t))).
Proof.
  unfold finish_wait. destruct drain; simpl; [|split; [naive_solver|intros r q'; exists q'; naive_solver]].
  split; intros r q; destruct (decide (r = t_ref t)) as [->|Hne];
    rewrite ?lookup_alter_eq, ?lookup_alter_ne by done.
  - intros ->. eexists. split; [done|]. simpl. naive_solver.
  - intros ->. eexists. split; [done|]. naive_solver.
  - intros (q0 & Hq0 & ->)%fmap_Some_1. exists q0. simpl. split_and!; [done..|]. by intros.
  - intros ->. exists q. split_and!; [done..|]. naive_solver.
Qed.

Lemma finish_wait_wf drain wid t s : wf s → wf (finish_wait drain wid t s).
Proof.
  intros [Hst Hf Hc Hu Hd Hpn]. destruct (finish_wait_heap drain wid t s) as [Hfwd Hback].
  split; [..|done].
  - change (streams (finish_wait drain wid t s)) with (delete (t_id t) (streams s)).
    intros id ref [_ Hr]%lookup_delete_Some. destruct (Hst _ _ Hr) as (q & Hq & Hid).
    destruct (Hfwd _ _ Hq) as (q' & ? & ? & _). exists q'. split; [done|congruence].
  - intros ref q Hq. destruct (Hback _ _ Hq) as (q0 & ? & _). eauto.
  - intros t' k Hk. destruct (Hc _ _ Hk) as (? & q & Hq & ? & ?).
    destruct (Hfwd _ _ Hq) as (q' & ? & ? & ? & _). split; [done|]. exists q'. split_and!; congruence.
  - intros t1 t2 k1 k2. apply Hu.
  - intros ref q Hq Hdn. destruct (Hback _ _ Hq) as (q0 & Hq0 & -> & Hdd & _).
    apply (Hd _ _ Hq0). congruence.
Qed.

(** It is safe when the entry is drained, or when nothing is queued there. *)
Lemma finish_wait_live drain wid t s :
  live s → waits s !! wid = Some t → drain = true ∨ heap s !! t_ref t ≫= p_ch = None →
  live (finish_wait drain wid t s).
Proof.
  intros [Hw Hq Hd Hs Hdel Hacc] Ht Hsafe. destruct (finish_wait_heap drain wid t s) as [Hfwd Hback].
  assert (let s' := finish_wait drain wid t s in
    streams s' = delete (t_id t) (streams s) ∧ waits s' = delete wid (waits s) ∧ calls s' = calls s ∧
    arrived s' = arrived s ∧ delivered s' = delivered s ∧
    discarded s' = if drain then option_list (heap s !! t_ref t ≫= p_ch) ++ discarded s else discarded s)
    as (Es & Ew & Ec & Ea & Ed & Edc) by done.
  set (s' := finish_wait drain wid t s) in *. clearbody s'.
  split; rewrite ?Es, ?Ew, ?Ec, ?Ea, ?Ed, ?Edc.
  - intros w k [_ Hk]%lookup_delete_Some. destruct (Hw _ _ Hk) as (? & q & Hq' & ?).
    destruct (Hfwd _ _ Hq') as (q' & ? & ? & _). split; [done|]. exists q'. split; [done|congruence].
  - intros ref q m Hq' Hch. destruct (Hback _ _ Hq') as (q0 & Hq0 & -> & -> & Hm).
    destruct (Hm _ Hch) as [Hch0 Hne]. destruct (Hq _ _ _ Hq0 Hch0) as (? & ? & w & k & Hk & Href).
    split_and!; [done..|]. exists w, k. rewrite lookup_delete_ne; [done|]. intros ->.
    rewrite Ht in Hk. simplify_eq. destruct Hsafe as [Hx|Hx]; [by apply Hne|].
    rewrite Hq0 in Hx. simpl in Hx. congruence.
  - intros ref q Hq' Hdn. destruct (Hback _ _ Hq') as (q0 & Hq0 & -> & Hdd & _).
    apply (Hd _ _ Hq0). congruence.
  - intros id ref [Hne Hr]%lookup_delete_Some Hx.
    destruct (Hs _ _ Hr Hx) as [Hc|(w & k & Hk & Hid)]; [by left|]. right. exists w, k.
    rewrite lookup_delete_ne; [done|]. intros ->. rewrite Ht in Hk. by simplify_eq.
  - done.
  - intros id m Hm. destruct (Hacc _ _ Hm) as [?|[Hin|(ref & q & Hq' & Hid & Hch)]]; [by left|..].
    { right. left. destruct drain; [|done]. set_solver. }
    destruct (Hfwd _ _ Hq') as (q' & Hq2 & Hid' & _ & [Hsame|(-> & -> & _)]).
    + right. right. exists ref, q'. split_and!; [done|congruence..].
    + right. left. rewrite Hq'. simpl. rewrite Hch. left.
Qed.

(** ** Every step *)

(** The history only grows, so discipline is inherited from later states. *)
Lemma disciplined_before drain l s s' :
  table_step drain l s = Some s' → disciplined s' → disciplined s.
Proof.
  unfold table_step, disciplined, receive, call_timeout, wait_done, wait_timeout, begin_call, arrive.
  destruct (panicked s); [done|]. intros H.
  destruct l as [tid id closes|tid|tid|wid id m|wid|wid|d]; simpl in *.
  - case_decide; [|done]. injection H as <-.
    pose proof (getStream_frame id s) as (_ & _ & _ & _ & Ha & Hc & _).
    destruct (getStream id s) as [s1 ref]. simpl in *. rewrite Hc, Ha. by intros [[_ ?]%NoDup_cons ?].
  - repeat case_match; by simplify_eq.
  - repeat case_match; by simplify_eq.
  - case_decide; [|done]. injection H as <-.
    pose proof (getStream_frame id s) as (_ & _ & _ & _ & Ha & Hc & _).
    destruct (getStream id s) as [s1 ref]. simpl in *.
    repeat case_match; simpl; rewrite Hc, Ha; simpl; by intros [? [_ ?]%NoDup_cons].
  - repeat case_match; by simplify_eq.
  - repeat case_match; by simplify_eq.
  - by simplify_eq.
Qed.

Lemma called_before drain l s s' :
  table_step drain l s = Some s' → NoDup (called s') → NoDup (called s).
Proof.
  unfold table_step, receive, call_timeout, wait_done, wait_timeout, begin_call, arrive.
  destruct (panicked s); [done|]. intros H.
  destruct l as [tid id closes|tid|tid|wid id m|wid|wid|d]; simpl in *; try (by repeat case_match; simplify_eq).
  - case_decide; [|done]. injection H as <-. pose proof (getStream_frame id s) as (_ & _ & _ & _ & _ & Hc & _).
    destruct (getStream id s) as [s1 ref]. simpl in *. rewrite Hc. by intros [_ ?]%NoDup_cons.
  - case_decide; [|done]. injection H as <-. pose proof (getStream_frame id s) as (_ & _ & _ & _ & _ & Hc & _).
    destruct (getStream id s) as [s1 ref]. simpl in *. repeat case_match; simpl; by rewrite Hc.
Qed.

(** Well-formedness does not depend on what the peer announces. *)
Lemma table_step_wf drain l s s' :
  table_step drain l s = Some s' → NoDup (called s') → wf s → wf s'.
Proof.
  intros Hstep Hc Hwf. unfold table_step in Hstep. rewrite (wf_panic s Hwf) in Hstep.
  destruct l as [tid id closes|tid|tid|wid id m|wid|wid|d].
  - case_decide; [|done]. injection Hstep as <-. apply begin_call_wf; [done..|].
    unfold begin_call in Hc.
    pose proof (getStream_frame id s) as (_ & _ & _ & _ & _ & Hcc & _).
    destruct (getStream id s) as [s1 ref]. simpl in *. rewrite Hcc in Hc. by apply NoDup_cons in Hc as [].
  - by eapply receive_wf.
  - by eapply call_timeout_wf.
  - case_decide; [|done]. injection Hstep as <-. by apply arrive_wf.
  - unfold wait_done in Hstep. repeat case_match; simplify_eq. by apply finish_wait_wf.
  - unfold wait_timeout in Hstep. repeat case_match; simplify_eq. by apply finish_wait_wf.
  - injection Hstep as <-. destruct Hwf. by split.
Qed.

Lemma table_step_live l s s' :
  table_step true l s = Some s' → disciplined s' → wf s → live s → live s'.
Proof.
  intros Hstep Hdis Hwf Hlv. unfold table_step in Hstep. rewrite (wf_panic s Hwf) in Hstep.
  destruct l as [tid id closes|tid|tid|wid id m|wid|wid|d].
  - case_decide; [|done]. injection Hstep as <-. by apply begin_call_live.
  - by eapply receive_live.
  - by eapply call_timeout_live.
  - case_decide; [|done]. injection Hstep as <-. apply arrive_live; [done..|].
    destruct Hdis as [_ Ha]. unfold arrive in Ha.
    pose proof (getStream_frame id s) as (_ & _ & _ & _ & Haa & _).
    destruct (getStream id s) as [s1 ref]. simpl in *.
    revert Ha. repeat case_match; simpl; rewrite Haa; by intros [? _]%NoDup_cons.
  - unfold wait_done in Hstep. destruct (waits s !! wid) as [t|] eqn:Ht; [|done].
    destruct (heap s !! t_ref t) as [[pid ch []]|] eqn:Hp; [|done..]. injection Hstep as <-.
    apply finish_wait_live; [done..|]. right. rewrite Hp. simpl. destruct ch as [m|]; [|done].
    by destruct (lv_queued _ s Hlv _ _ m Hp eq_refl) as [? _].
  - unfold wait_timeout in Hstep. destruct (waits s !! wid) as [t|] eqn:Ht; [|done].
    case_bool_decide; [|done]. injection Hstep as <-. apply finish_wait_live; auto.
  - injection Hstep as <-. destruct Hlv. by split.
Qed.
End invariants.

(** The table of a broker, as a transition system. *)
Definition table_lts (M : Type) (drain : bool) : LTS (Table M) (TableStep M) := {|
  lts_init s := s = empty_table;
  lts_step := table_step drain
|}.

Section reachable_states.
Context {M : Type}.

Lemma reachable_wf drain (s : Table M) :
  @reachable _ _ (table_lts M drain) s → NoDup (called s) → wf s.
Proof.
  induction 1 as [s ->|l s s' Hr IH Hstep]; intros Hd; [apply wf_empty|].
  simpl in Hstep. eapply table_step_wf; [done..|]. apply IH. by eapply called_before.
Qed.

Lemma reachable_live (s : Table M) :
  @reachable _ _ (table_lts M true) s → disciplined s → live s.
Proof.
  induction 1 as [s ->|l s s' Hr IH Hstep]; intros Hd; [apply live_empty|].
  simpl in Hstep. assert (disciplined s) as Hds by (by eapply disciplined_before).
  eapply table_step_live; [done|done|eapply reachable_wf, Hds; done|by apply IH].
Qed.

(** When no call and no [timeoutWait] runs, the map is empty and nothing is
    queued. *)
Definition quiescent (s : Table M) : Prop := calls s = ∅ ∧ waits s = ∅.

Lemma quiescent_clean (s : Table M) :
  live s → quiescent s → streams s = ∅ ∧
  ∀ id m, (id, m) ∈ arrived s → (id, m) ∈ delivered s ∨ m ∈ discarded s.
Proof.
  intros [Hw Hq Hd Hs Hdel Hacc] [Hc Hwt]. split.
  - apply map_empty. intros id. destruct (streams s !! id) as [ref|] eqn:Hr; [|done].
    destruct (Hs _ _ Hr) as [(t & k & Hk & _)|(w & k & Hk & _)]; [done|..].
    + by rewrite Hc, lookup_empty in Hk.
    + by rewrite Hwt, lookup_empty in Hk.
  - intros id m Hm. destruct (Hacc _ _ Hm) as [?|[?|(ref & q & Hq' & Hid & Hch)]]; [by auto..|].
    destruct (Hq _ _ _ Hq' Hch) as (_ & _ & w & k & Hk & _). by rewrite Hwt, lookup_empty in Hk.
Qed.
End reachable_states.

(** ** Time: every goroutine of the table can end within [BrokerTimeout] *)

Section progress.
Context {M : Type} (drain : bool).
#[local] Instance progress_lts : LTS (Table M) (TableStep M) := table_lts M drain.
Implicit Types s : Table M.

(** No timer is set further than [BrokerTimeout] into the future. *)
Definition timely (s : Table M) : Prop :=
  (∀ t k, calls s !! t = Some k → t_deadline k ≤ now s + BrokerTimeout) ∧
  (∀ w k, waits s !! w = Some k → t_deadline k ≤ now s + BrokerTimeout).

Lemma timely_mono s s' :
  timely s → now s ≤ now s' → calls s' ⊆ calls s → waits s' ⊆ waits s → timely s'.
Proof.
  intros [Hc Hw] Hn Hcs Hws. split; intros t k Hk.
  - specialize (Hc t k (lookup_weaken _ _ _ _ Hk Hcs)). lia.
  - specialize (Hw t k (lookup_weaken _ _ _ _ Hk Hws)). lia.
Qed.

Lemma table_step_timely l s s' : table_step drain l s = Some s' → timely s → timely s'.
Proof.
  unfold table_step, receive, call_timeout, wait_done, wait_timeout. destruct (panicked s); [done|].
  intros H Ht. destruct l as [tid id closes|tid|tid|wid id m|wid|wid|d].
  - case_decide; [|done]. injection H as <-. unfold begin_call.
    pose proof (getStream_frame id s) as (Hn & Hc & Hw & _).
    destruct (getStream id s) as [s1 ref]. destruct Ht as [Htc Htw]. simpl in *.
    split; simpl; rewrite ?Hn, ?Hc, ?Hw; [|done].
    intros t k. rewrite lookup_insert_Some. intros [[<- <-]|[_ Hk]]; simpl; [lia|eauto].
  - repeat case_match; simplify_eq. eapply timely_mono; [done|simpl; lia|apply delete_subseteq|done].
  - repeat case_match; simplify_eq. eapply timely_mono; [done|simpl; lia|apply delete_subseteq|done].
  - case_decide; [|done]. injection H as <-. unfold arrive.
    pose proof (getStream_frame id s) as (Hn & Hc & Hw & _).
    destruct (getStream id s) as [s1 ref]. destruct Ht as [Htc Htw]. simpl in *.
    repeat case_match; split; simpl; rewrite ?Hn, ?Hc, ?Hw; try done.
    intros t k. rewrite lookup_insert_Some. intros [[<- <-]|[_ Hk]]; simpl; [lia|eauto].
  - repeat case_match; simplify_eq. eapply timely_mono; [done|simpl; lia|done|apply delete_subseteq].
  - repeat case_match; simplify_eq. eapply timely_mono; [done|simpl; lia|done|apply delete_subseteq].
  - injection H as <-. eapply timely_mono; [done|simpl; lia|done..].
Qed.

Lemma reachable_timely s : reachable s → timely s.
Proof.
  apply (invariant_reachable timely).
  - intros s0 ->. split; intros *; simpl; by rewrite lookup_empty.
  - intros l s0 s1 Ht Hs. exact (table_step_timely _ _ _ Hs Ht).
Qed.

(** The steps that are only the passage of time. *)
Definition is_timer (l : TableStep M) : Prop :=
  match l with CallTimeout _ | WaitTimeout _ | Tick _ => True | _ => False end.

(** Time does not change the history. *)
Lemma exec_timers_disciplined ls s s' :
  Forall is_timer ls → exec ls s = Some s' → disciplined s → disciplined s'.
Proof.
  intros Hls. revert s. induction Hls as [|l ls Hl Hls IH]; intros s; simpl; [by intros [= <-]|].
  intros (s1 & Hs & He)%bind_Some Hd. apply (IH s1 He).
  assert (called s1 = called s ∧ arrived s1 = arrived s) as [Hc Ha].
  { unfold table_step, call_timeout, wait_timeout in Hs. destruct (panicked s); [done|].
    destruct l; try done; repeat case_match; by simplify_eq. }
  unfold disciplined. by rewrite Hc, Ha.
Qed.

(** Once the deadlines have passed, the timers can fire one after the other. *)
Lemma expire_calls n s :
  size (calls s) = n → panicked s = false → (∀ t k, calls s !! t = Some k → t_deadline k ≤ now s) →
  ∃ ls s', Forall is_timer ls ∧ exec ls s = Some s' ∧ calls s' = ∅ ∧ waits s' = waits s ∧ now s' = now s ∧ panicked s' = false.
Proof.
  revert s. induction n as [|n IH]; intros s Hn Hp Hdl.
  { exists [], s. split_and!; try done. by apply map_size_empty_inv. }
  destruct (map_choose (calls s)) as (tid & t & Ht).
  { intros He. rewrite He, map_size_empty in Hn. done. }
  destruct (call_timeout tid s) as [s1|] eqn:Hct; pose proof Hct as Hs1; unfold call_timeout in Hs1;
    rewrite Ht in Hs1; rewrite bool_decide_true in Hs1 by eauto; [|done].
  injection Hs1 as Hs1. destruct (IH s1) as (ls & s' & Hls & He & Hc & Hw & Hnow & Hp').
  - rewrite <- Hs1. simpl. rewrite map_size_delete, Ht. simpl. lia.
  - by rewrite <- Hs1.
  - rewrite <- Hs1. simpl. intros t' k [_ Hk]%lookup_delete_Some. eauto.
  - exists (CallTimeout tid :: ls), s'. simpl. unfold table_step. rewrite Hp, Hct. simpl.
    rewrite He. subst s1. split_and!; try done. by constructor.
Qed.

Lemma expire_waits n s :
  size (waits s) = n → panicked s = false → (∀ w k, waits s !! w = Some k → t_deadline k ≤ now s) →
  ∃ ls s', Forall is_timer ls ∧ exec ls s = Some s' ∧ waits s' = ∅ ∧ calls s' = calls s ∧ now s' = now s ∧ panicked s' = false.
Proof.
  revert s. induction n as [|n IH]; intros s Hn Hp Hdl.
  { exists [], s. split_and!; try done. by apply map_size_empty_inv. }
  destruct (map_choose (waits s)) as (wid & t & Ht).
  { intros He. rewrite He, map_size_empty in Hn. done. }
  destruct (IH (finish_wait drain wid t s)) as (ls & s' & Hls & He & Hw & Hc & Hnow & Hp').
  - simpl. rewrite map_size_delete, Ht. simpl. lia.
  - done.
  - simpl. intros w k [_ Hk]%lookup_delete_Some. eauto.
  - exists (WaitTimeout wid :: ls), s'. simpl. unfold table_step, wait_timeout. rewrite Hp, Ht.
    rewrite bool_decide_true by eauto. simpl. rewrite He. split_and!; try done. by constructor.
Qed.

Lemma reaches_quiescence s :
  reachable s → panicked s = false →
  ∃ ls s', Forall is_timer ls ∧ exec ls s = Some s' ∧ quiescent s' ∧ now s' = now s + BrokerTimeout.
Proof.
  intros Hr Hp. destruct (reachable_timely s Hr) as [Hc Hw].
  set (s1 := tick BrokerTimeout s). assert (now s1 = now s + BrokerTimeout) as Hn1 by done.
  destruct (expire_calls _ s1 eq_refl Hp) as (ls2 & s2 & L2 & H2 & Hc2 & Hw2 & Hn2 & Hp2).
  { intros t k Hk. rewrite Hn1. eauto. }
  destruct (expire_waits _ s2 eq_refl Hp2) as (ls3 & s3 & L3 & H3 & Hw3 & Hc3 & Hn3 & _).
  { rewrite Hw2, Hn2, Hn1. exact Hw. }
  exists (Tick BrokerTimeout :: ls2 ++ ls3), s3. split_and!.
  - constructor; [done|by apply Forall_app].
  - simpl. unfold table_step. rewrite Hp. simpl. fold s1. by rewrite exec_app, H2.
  - split; congruence.
  - congruence.
Qed.
End progress.

(** ** What is queued

    Facts that need no discipline: an entry of the map is the one of its id,
    and what is queued or delivered under an id satisfies whatever holds of the
    messages put there. *)

Section shape.
Context {M : Type} (Q : Z → M → Prop).
Implicit Types s : Table M.

Record shaped (s : Table M) : Prop := MkShaped {
  sh_streams : ∀ id ref, streams s !! id = Some ref → ∃ p, heap s !! ref = Some p ∧ p_id p = id;
  sh_fresh : ∀ ref p, heap s !! ref = Some p → (ref < fresh s)%nat;
  sh_calls : ∀ t k, calls s !! t = Some k → ∃ p, heap s !! t_ref k = Some p ∧ p_id p = t_id k;
  sh_queued : ∀ ref p m, heap s !! ref = Some p → p_ch p = Some m → Q (p_id p) m;
  sh_delivered : ∀ id m, (id, m) ∈ delivered s → Q id m
}.

Lemma shaped_empty : shaped empty_table.
Proof. split; try done; intros *; simpl; rewrite ?lookup_empty, ?elem_of_nil; done. Qed.

(** Changing one entry without changing its id. *)
Lemma insert_same_id (h : gmap nat (Pending M)) ref p p' :
  h !! ref = Some p → p_id p' = p_id p →
  ∀ r q, h !! r = Some q → ∃ q', <[ref := p']> h !! r = Some q' ∧ p_id q' = p_id q.
Proof.
  intros Hp Hid r q Hq. destruct (decide (r = ref)) as [->|Hne].
  - exists p'. rewrite lookup_insert_eq. split; [done|]. rewrite Hp in Hq. by simplify_eq.
  - exists q. by rewrite lookup_insert_ne.
Qed.

Lemma getStream_shaped id s : shaped s → shaped (getStream id s).1.
Proof.
  intros Hs. unfold getStream. destruct (streams s !! id) as [ref|] eqn:Hst; [done|].
  assert (heap s !! fresh s = None) as Hfr.
  { destruct (heap s !! fresh s) eqn:H; [|done]. apply (sh_fresh s) in H; [lia|done]. }
  destruct Hs as [H1 H2 H3 H4 H5]. split; simpl; try done.
  - intros id' ref'. rewrite lookup_insert_Some. intros [[<- <-]|[Hne Hr]].
    + rewrite lookup_insert_eq. eauto.
    + destruct (H1 _ _ Hr) as (p & Hp' & Hid). rewrite lookup_insert_ne by congruence. eauto.
  - intros ref p. rewrite lookup_insert_Some. intros [[<- _]|[_ Hr]]; [lia|]. apply H2 in Hr. lia.
  - intros t k Hk. destruct (H3 _ _ Hk) as (p & Hp & Hid). exists p.
    rewrite lookup_insert_ne by congruence. done.
  - intros ref p m. rewrite lookup_insert_Some. intros [[<- <-]|[_ Hr]]; [done|]. eauto.
Qed.

Lemma getStream_shaped_ref id s :
  shaped s → ∃ p, heap (getStream id s).1 !! (getStream id s).2 = Some p ∧ p_id p = id.
Proof.
  intros Hs. unfold getStream. destruct (streams s !! id) as [ref|] eqn:Hst; simpl.
  - by apply (sh_streams s Hs).
  - rewrite lookup_insert_eq. eauto.
Qed.

Lemma receive_shaped tid s s' : receive tid s = Some s' → shaped s → shaped s'.
Proof.
  intros H [H1 H2 H3 H4 H5]. unfold receive in H. destruct (calls s !! tid) as [t|] eqn:Ht; [|done].
  destruct (heap s !! t_ref t) as [[pid [m|] d]|] eqn:Hp; [|done..]. injection H as <-.
  destruct (H3 _ _ Ht) as (p & Hp' & Hid). rewrite Hp in Hp'. injection Hp' as <-. simpl in Hid. subst pid.
  pose proof (insert_same_id (heap s) _ _ (MkPending (t_id t) None (d || t_closes t)) Hp eq_refl) as Hins.
  split; simpl.
  - intros id ref Hr. destruct (H1 _ _ Hr) as (q & Hq & Hqid).
    destruct (Hins _ _ Hq) as (q' & ? & ?). exists q'. split; [done|congruence].
  - intros ref q. rewrite lookup_insert_Some. intros [[<- _]|[_ Hq]]; eauto.
  - intros t' k [_ Hk]%lookup_delete_Some. destruct (H3 _ _ Hk) as (q & Hq & Hqid).
    destruct (Hins _ _ Hq) as (q' & ? & ?). exists q'. split; [done|congruence].
  - intros ref q m'. rewrite lookup_insert_Some. intros [[<- <-]|[_ Hq]]; [done|]. eauto.
  - intros id m' [[= -> ->]|Hin]%elem_of_cons; [|eauto]. by apply (H4 _ _ m Hp).
Qed.

Lemma begin_call_shaped tid id closes s : shaped s → shaped (begin_call tid id closes s).
Proof.
  intros Hs. unfold begin_call. pose proof (getStream_shaped id s Hs) as Hs'.
  destruct (getStream_shaped_ref id s Hs) as (p & Hp & Hid).
  destruct (getStream id s) as [s1 ref]. simpl in *.
  destruct Hs' as [H1 H2 H3 H4 H5]. split; simpl; try done.
  intros t k. rewrite lookup_insert_Some. intros [[<- <-]|[_ Hk]]; simpl; eauto.
Qed.

Lemma arrive_shaped wid id m s : Q id m → shaped s → shaped (arrive wid id m s).
Proof.
  intros Hq Hs. unfold arrive. pose proof (getStream_shaped id s Hs) as Hs'.
  destruct (getStream_shaped_ref id s Hs) as (p & Hp & Hid).
  destruct (getStream id s) as [s1 ref]. simpl in *. rewrite Hp.
  destruct Hs' as [H1 H2 H3 H4 H5]. destruct p as [pid [m'|] d]; [by split|]. simpl in Hid. subst pid.
  pose proof (insert_same_id (heap s1) _ _ (MkPending id (Some m) d) Hp eq_refl) as Hins.
  split; simpl; try done.
  - intros id' r Hr. destruct (H1 _ _ Hr) as (q & Hq' & Hqid).
    destruct (Hins _ _ Hq') as (q' & ? & ?). exists q'. split; [done|congruence].
  - intros r q. rewrite lookup_insert_Some. intros [[<- _]|[_ Hq']]; eauto.
  - intros t' k Hk. destruct (H3 _ _ Hk) as (q & Hq' & Hqid).
    destruct (Hins _ _ Hq') as (q' & ? & ?). exists q'. split; [done|congruence].
  - intros r q m'. rewrite lookup_insert_Some. intros [[<- <-]|[_ Hq']]; [by intros [= <-]|]. eauto.
Qed.

Lemma finish_wait_shaped drain wid t s : shaped s → shaped (finish_wait drain wid t s).
Proof.
  intros [H1 H2 H3 H4 H5]. destruct (finish_wait_heap drain wid t s) as [Hfwd Hback]. split; [..|done].
  - change (streams (finish_wait drain wid t s)) with (delete (t_id t) (streams s)).
    intros id ref [_ Hr]%lookup_delete_Some. destruct (H1 _ _ Hr) as (q & Hq & Hid).
    destruct (Hfwd _ _ Hq) as (q' & ? & ? & _). exists q'. split; [done|congruence].
  - intros ref q Hq. destruct (Hback _ _ Hq) as (q0 & ? & _). eauto.
  - intros t' k Hk. destruct (H3 _ _ Hk) as (q & Hq & ?).
    destruct (Hfwd _ _ Hq) as (q' & ? & ? & _). exists q'. split; [done|congruence].
  - intros ref q m Hq Hm. destruct (Hback _ _ Hq) as (q0 & Hq0 & -> & _ & Hch).
    destruct (Hch _ Hm) as [Hm0 _]. eauto.
Qed.

Lemma table_step_shaped drain l s s' :
  (∀ wid id m, l = Arrive wid id m → Q id m) → table_step drain l s = Some s' → shaped s → shaped s'.
Proof.
  intros HQ H Hs. unfold table_step in H. destruct (panicked s); [done|].
  destruct l as [tid id closes|tid|tid|wid id m|wid|wid|d].
  - case_decide; [|done]. injection H as <-. by apply begin_call_shaped.
  - by eapply receive_shaped.
  - unfold call_timeout in H. destruct (calls s !! tid); [|done]. case_bool_decide; [|done].
    injection H as <-. destruct Hs as [H1 H2 H3 H4 H5]. split; simpl; try done.
    + intros id ref [_ Hr]%lookup_delete_Some. eauto.
    + intros t' k [_ Hk]%lookup_delete_Some. eauto.
  - case_decide; [|done]. injection H as <-. apply arrive_shaped; eauto.
  - unfold wait_done in H. repeat case_match; simplify_eq. by apply finish_wait_shaped.
  - unfold wait_timeout in H. repeat case_match; simplify_eq. by apply finish_wait_shaped.
  - injection H as <-. destruct Hs. by split.
Qed.
End shape.
