(* ===== verification/MuxBroker.v ===== *)
(** * [MuxBroker]

    The broker of the net/rpc protocol (mux_broker.go): [NextId], [Dial], the
    [Run] loop, [Accept], [Close] and [timeoutWait] over yamux streams.  The pending
    table is [Rendezvous]; this file adds the wire format (a little-endian
    32-bit id and its acknowledgement) and what becomes of the streams. *)

From S2P Require Import Prelude GoStd Config Rendezvous.

(** ** [NextId], [Dial] *)

(** [atomic.AddUint32(&m.nextID, 1)]: the new counter, which is also the id. *)
Definition NextId (nextID : Z) : Z := uint32 (nextID + 1).

(** The ids handed out by [n] calls. *)
Fixpoint NextIds (n : nat) (nextID : Z) : list Z :=
  match n with
  | O => []
  | S n' => NextId nextID :: NextIds n' (NextId nextID)
  end.

(** The peer's side of a dial: whether the stream opens and takes the id, and
    the bytes it sends back. *)
Record DialAnswers : Type := MkDialAnswers {
  da_OpenStream : option error;
  da_Write : option error;
  da_Read : res error (list Z)
}.

(** What [Dial] did: the bytes written to the new stream, whether the stream
    was closed again, and the result. *)
Record DialResult : Type := MkDialResult {
  dial_wrote : list Z;
  dial_closed : bool;
  dial_res : res error unit
}.

Definition Dial (A : DialAnswers) (id : Z) : DialResult :=
  match da_OpenStream A with
  | Some e => MkDialResult [] false (Err e)
  | None =>
      match da_Write A with
      | Some e => MkDialResult [] true (Err e)
      | None =>
          match da_Read A with
          | Err e => MkDialResult (PutUint32 id) true (Err e)
          | Panic p => MkDialResult (PutUint32 id) false (Panic p)
          | Ret bs =>
              match Uint32 bs with
              | None => MkDialResult (PutUint32 id) true (Err EOF)
              | Some ack =>
                  if decide (ack = id) then MkDialResult (PutUint32 id) false (Ret tt)
                  else MkDialResult (PutUint32 id) true
                         (Err (Errorf "bad ack: %d (expected %d)" [Itoa ack; Itoa id]))
              end
          end
      end
  end.

(** What [Accept] writes back on the stream it received. *)
Definition ack_bytes (id : Z) : list Z := PutUint32 id.

(** ** The broker *)

(** Streams are numbers. The broker keeps its counter and its table; the next
    two fields record the streams returned by [Accept] and the ones closed
    because their id could not be read or acknowledged, the last one whether
    the yamux session is still open. *)
Record MuxBroker : Type := MkMuxBroker {
  mux_nextID : Z;
  mux_table : Table nat;
  mux_accepted : list (Z * nat);
  mux_closed : list nat;
  mux_session : bool
}.

Definition newMuxBroker : MuxBroker := MkMuxBroker 0 empty_table [] [] true.

Definition set_table (t : Table nat) (b : MuxBroker) : MuxBroker :=
  MkMuxBroker (mux_nextID b) t (mux_accepted b) (mux_closed b) (mux_session b).

(** The atomic steps of the broker's goroutines. *)
Inductive MuxStep : Type :=
| MNextId
| MAccept (tid : nat) (id : Z)
| MAcceptTake (tid : nat) (ack_err : option error)
| MAcceptTimeout (tid : nat)
| MStream (wid : nat) (stream : nat) (header : option (list Z))
| MWaitDone (wid : nat)
| MWaitTimeout (wid : nat)
| MClose
| MTick (d : Z).

Definition on_table (l : TableStep nat) (b : MuxBroker) : option MuxBroker :=
  t ← table_step true l (mux_table b); Some (set_table t b).

(** [Close] closes the yamux session, and with it every stream. *)
Definition mux_Close (b : MuxBroker) : MuxBroker :=
  MkMuxBroker (mux_nextID b) (mux_table b) (mux_accepted b) (mux_closed b) false.

(** Writing the acknowledgement succeeds only while the session is open. *)
Definition ack_possible (ack_err : option error) (b : MuxBroker) : bool :=
  match ack_err with None => mux_session b | Some _ => true end.

(** [Accept] after the receive: acknowledge, or close the stream. *)
Definition mux_ack (ack_err : option error) (b : MuxBroker) : MuxBroker :=
  match delivered (mux_table b), ack_err with
  | (id, c) :: _, None => MkMuxBroker (mux_nextID b) (mux_table b) ((id, c) :: mux_accepted b) (mux_closed b) (mux_session b)
  | (id, c) :: _, Some _ => MkMuxBroker (mux_nextID b) (mux_table b) (mux_accepted b) (c :: mux_closed b) (mux_session b)
  | [], _ => b
  end.

(** One iteration of [Run]: a stream whose id cannot be read is closed. *)
Definition mux_stream (wid c : nat) (header : option (list Z)) (b : MuxBroker) : option MuxBroker :=
  match header ≫= Uint32 with
  | None => Some (MkMuxBroker (mux_nextID b) (mux_table b) (mux_accepted b) (c :: mux_closed b) (mux_session b))
  | Some id => on_table (Arrive wid id c) b
  end.

Definition mux_step (l : MuxStep) (b : MuxBroker) : option MuxBroker :=
  match l with
  | MNextId => Some (MkMuxBroker (NextId (mux_nextID b)) (mux_table b) (mux_accepted b) (mux_closed b) (mux_session b))
  | MAccept tid id => on_table (BeginCall tid id true) b
  | MAcceptTake tid ack_err =>
      if ack_possible ack_err b then mux_ack ack_err <$> on_table (Receive tid) b else None
  | MAcceptTimeout tid => on_table (CallTimeout tid) b
  | MStream wid c header => mux_stream wid c header b
  | MWaitDone wid => on_table (WaitDone wid) b
  | MWaitTimeout wid => on_table (WaitTimeout wid) b
  | MClose => Some (mux_Close b)
  | MTick d => on_table (Tick d) b
  end.

#[export] Instance mux_lts : LTS MuxBroker MuxStep := {|
  lts_init b := b = newMuxBroker;
  lts_step := mux_step
|}.

(** ** Lemmas *)

Lemma NextIds_spec n z :
  0 ≤ z → NextIds n (uint32 z) = (λ i, uint32 (z + 1 + Z.of_nat i)) <$> seq 0 n.
Proof.
  revert z. induction n as [|n IH]; intros z Hz; [done|]. cbn [NextIds seq].
  assert (NextId (uint32 z) = uint32 (z + 1)) as ->.
  { unfold NextId, uint32. by rewrite Zplus_mod_idemp_l. }
  rewrite IH by lia. rewrite fmap_cons. f_equal.
  - f_equal. lia.
  - rewrite <- fmap_S_seq, <- list_fmap_compose. apply list_fmap_ext.
    intros i x _. simpl. f_equal. lia.
Qed.

(** Each step of the broker is a step of its table, or leaves it alone. *)
Lemma mux_ack_table e b : mux_table (mux_ack e b) = mux_table b.
Proof. unfold mux_ack. repeat case_match; done. Qed.

Lemma mux_step_table l b b' :
  mux_step l b = Some b' →
  mux_table b' = mux_table b ∨ ∃ tl, table_step true tl (mux_table b) = Some (mux_table b').
Proof.
  assert (∀ tl b1, on_table tl b = Some b1 → table_step true tl (mux_table b) = Some (mux_table b1)) as Ht.
  { intros tl b1. unfold on_table. intros (t & Hs & [= <-])%bind_Some. done. }
  destruct l; simpl; unfold mux_stream; intros H; eauto.
  - by injection H as <-; left.
  - destruct (ack_possible ack_err b); [|done]. apply fmap_Some in H as (b1 & H & ->). rewrite mux_ack_table. eauto.
  - case_match; [eauto|]. injection H as <-. by left.
  - injection H as <-. by left.
Qed.

Lemma mux_reachable_table b :
  reachable b → @reachable _ _ (table_lts nat true) (mux_table b).
Proof.
  induction 1 as [b ->|l b b' Hr IH Hstep]; [by apply reachable_init|].
  destruct (mux_step_table l b b' Hstep) as [->|(tl & Hs)]; [done|]. by eapply reachable_step.
Qed.

(** A delivered stream was returned by [Accept] or closed. *)
Definition settled (b : MuxBroker) : Prop :=
  ∀ id c, (id, c) ∈ delivered (mux_table b) → (id, c) ∈ mux_accepted b ∨ c ∈ mux_closed b.

Lemma table_step_delivered (tl : TableStep nat) t t' :
  table_step true tl t = Some t' → delivered t' = delivered t ∨
  (∃ tid, tl = Receive tid) ∧ ∃ x, delivered t' = x :: delivered t.
Proof.
  unfold table_step, receive, call_timeout, wait_done, wait_timeout, begin_call, arrive.
  destruct (panicked t); [done|]. intros H. destruct tl as [tid id|tid|tid|wid id m|wid|wid|d].
  - case_decide; [|done]. injection H as <-.
    pose proof (getStream_frame id t) as (_ & _ & _ & _ & _ & _ & Hd & _).
    destruct (getStream id t). by left.
  - right. repeat case_match; simplify_eq. eauto.
  - left. repeat case_match; by simplify_eq.
  - left. case_decide; [|done]. injection H as <-.
    pose proof (getStream_frame id t) as (_ & _ & _ & _ & _ & _ & Hd & _).
    destruct (getStream id t). repeat case_match; done.
  - left. repeat case_match; by simplify_eq.
  - left. repeat case_match; by simplify_eq.
  - left. by simplify_eq.
Qed.

Lemma receive_delivers tid (t t' : Table nat) leaks :
  table_step leaks (Receive tid) t = Some t' → ∃ x, delivered t' = x :: delivered t.
Proof.
  unfold table_step, receive. destruct (panicked t); [done|]. intros H.
  repeat case_match; simplify_eq. by eexists.
Qed.

Lemma mux_step_settled l b b' : mux_step l b = Some b' → settled b → settled b'.
Proof.
  assert (∀ tl b1, on_table tl b = Some b1 → mux_accepted b1 = mux_accepted b ∧
    mux_closed b1 = mux_closed b ∧ table_step true tl (mux_table b) = Some (mux_table b1)) as Ht.
  { intros tl b1. unfold on_table. intros (t & Hs & [= <-])%bind_Some. done. }
  assert (∀ tl b1, on_table tl b = Some b1 → (∀ tid, tl ≠ Receive tid) → settled b → settled b1) as Hno.
  { intros tl b1 (Ha & Hc & [Hd|[[tid ->] _]]%table_step_delivered)%Ht Hne; [|by destruct (Hne tid)].
    unfold settled. by rewrite Hd, Ha, Hc. }
  intros H Hs. destruct l; simpl in H; unfold mux_stream in H; try (by eapply Hno).
  - by injection H as <-.
  - destruct (ack_possible ack_err b); [|done]. apply fmap_Some in H as (b1 & H & ->). apply Ht in H as (Ha & Hc & Hst).
    unfold settled. rewrite mux_ack_table.
    apply table_step_delivered in Hst as [Hd|(_ & [id0 c0] & Hd)].
    { rewrite Hd. intros id c Hin. destruct (Hs _ _ Hin).
      all: unfold mux_ack; rewrite Hd; repeat case_match; simpl; rewrite ?Ha, ?Hc; set_solver. }
    intros id c. unfold mux_ack. rewrite Hd. intros [[= -> ->]|Hin]%elem_of_cons.
    + destruct ack_err; simpl; [right|left]; left.
    + destruct (Hs _ _ Hin); destruct ack_err; simpl; rewrite ?Ha, ?Hc; set_solver.
  - case_match; [by eapply Hno|]. injection H as <-. intros id c Hin. simpl.
    destruct (Hs _ _ Hin); [by left|right; by right].
  - by injection H as <-.
Qed.

Lemma reachable_settled b : reachable b → settled b.
Proof.
  apply (invariant_reachable settled).
  - intros b0 ->. intros id c Hin. by apply elem_of_nil in Hin.
  - intros l b0 b1 Hs Hstep. exact (mux_step_settled _ _ _ Hstep Hs).
Qed.

(** [Accept] returns only streams that were delivered to it. *)
Definition honest (b : MuxBroker) : Prop := ∀ x, x ∈ mux_accepted b → x ∈ delivered (mux_table b).

Lemma mux_step_honest l b b' : mux_step l b = Some b' → honest b → honest b'.
Proof.
  assert (∀ tl b1, on_table tl b = Some b1 → honest b → honest b1) as Ht.
  { intros tl b1. unfold on_table. intros (t & Hs & [= <-])%bind_Some Hh x Hx. simpl in *.
    apply table_step_delivered in Hs as [->|(_ & y & ->)]; [by apply Hh|]. right. by apply Hh. }
  intros H Hh. destruct l; simpl in H; unfold mux_stream in H; try (by eapply Ht).
  - by injection H as <-.
  - destruct (ack_possible ack_err b); [|done]. apply fmap_Some in H as (b1 & H & ->). apply Ht in H; [|done]. intros x. rewrite mux_ack_table.
    unfold mux_ack. destruct (delivered (mux_table b1)) as [|[id c] ds] eqn:Hd; [by intros Hx; rewrite <- Hd; apply H|].
    destruct ack_err; simpl; intros Hx; [rewrite <- Hd; by apply H|].
    apply elem_of_cons in Hx as [->|Hx]; [left|]. rewrite <- Hd. by apply H.
  - case_match; [by eapply Ht|]. by injection H as <-.
  - by injection H as <-.
Qed.

(** Once the session is closed nothing more is accepted. *)
Lemma mux_step_closed l b b' :
  mux_step l b = Some b' → mux_session b = false →
  mux_session b' = false ∧ mux_accepted b' = mux_accepted b.
Proof.
  assert (∀ tl b1, on_table tl b = Some b1 → mux_session b1 = mux_session b ∧
    mux_accepted b1 = mux_accepted b) as Ht.
  { intros tl b1. unfold on_table. by intros (t & _ & [= <-])%bind_Some. }
  intros H Hc. destruct l; simpl in H; unfold mux_stream in H;
    try (apply Ht in H as [-> ->]; done); try (by injection H as <-).
  - unfold ack_possible in H. destruct ack_err; [|by rewrite Hc in H].
    apply fmap_Some in H as (b1 & [Hs Ha]%Ht & ->). unfold mux_ack.
    repeat case_match; simpl; rewrite ?Hs; done.
  - case_match; [apply Ht in H as [-> ->]; done|]. by injection H as <-.
Qed.

Lemma reachable_honest b : reachable b → honest b.
Proof.
  apply (invariant_reachable honest).
  - intros b0 -> x Hx. by apply elem_of_nil in Hx.
  - intros l b0 b1 Hh Hstep. exact (mux_step_honest _ _ _ Hstep Hh).
Qed.

(** The timers of [Accept] and [timeoutWait], and the time itself: no call, no
    stream and no receive. *)
Definition mux_timer (l : MuxStep) : bool :=
  match l with MAcceptTimeout _ | MWaitTimeout _ | MTick _ => true | _ => false end.

(** A timer of the table is a timer of the broker. *)
Lemma mux_exec_timers ls b t' :
  Forall is_timer ls → @exec _ _ (table_lts nat true) ls (mux_table b) = Some t' →
  ∃ ms b', forallb mux_timer ms = true ∧ exec ms b = Some b' ∧ mux_table b' = t'.
Proof.
  intros Hls. revert b. induction Hls as [|l ls Hl Hls IH]; intros b; simpl.
  { intros [= <-]. by exists [], b. }
  intros (t1 & Hs & He)%bind_Some. destruct (IH (set_table t1 b) He) as (ms & b' & Htm & Hms & Hb').
  assert (∃ m, mux_timer m = true ∧ mux_step m b = Some (set_table t1 b)) as (m & Hmt & Hm).
  { destruct l; try done;
      [exists (MAcceptTimeout tid)|exists (MWaitTimeout wid)|exists (MTick d)];
      (split; [done|]); simpl; unfold on_table; by rewrite Hs. }
  exists (m :: ms), b'. simpl. by rewrite Hmt, Htm, Hm.
Qed.

Lemma NextIds_NoDup n z : is_uint32 z → Z.of_nat n ≤ 2 ^ 32 → NoDup (NextIds n z).
Proof.
  intros [Hz Hz'] Hn. replace z with (uint32 z) by (unfold uint32; by apply Z.mod_small).
  rewrite NextIds_spec by done. apply NoDup_fmap_2_strong; [|apply NoDup_seq].
  intros i j Hi Hj. apply elem_of_seq in Hi, Hj. unfold uint32. intros He.
  destruct (decide (i ≤ j)%nat).
  - assert (Z.of_nat j - Z.of_nat i = 2 ^ 32 * ((z + 1 + Z.of_nat j) / 2 ^ 32 - (z + 1 + Z.of_nat i) / 2 ^ 32))
      by (Z.to_euclidean_division_equations; lia). nia.
  - assert (Z.of_nat i - Z.of_nat j = 2 ^ 32 * ((z + 1 + Z.of_nat i) / 2 ^ 32 - (z + 1 + Z.of_nat j) / 2 ^ 32))
      by (Z.to_euclidean_division_equations; lia). nia.
Qed.

(** ** Properties *)

(** C33: [NextId] does not repeat an id within 2^32 calls, across the wrap-around
    of its counter. *)
Theorem NextId_unique n z : is_uint32 z → Z.of_nat n ≤ 2 ^ 32 → NoDup (NextIds n z).
Proof. apply NextIds_NoDup. Qed.

(** The id on the wire: the peer's [Run] reads the id that was dialled, and
    [Dial] connects exactly on the acknowledgement of that id; any other
    acknowledgement closes the stream and is reported. *)
Theorem Dial_acknowledged A id :
  is_uint32 id → da_OpenStream A = None → da_Write A = None →
  Uint32 (dial_wrote (Dial A id)) = Some id ∧
  (∀ id', is_uint32 id' → da_Read A = Ret (ack_bytes id') →
     (id' = id → dial_res (Dial A id) = Ret tt ∧ dial_closed (Dial A id) = false) ∧
     (id' ≠ id → dial_closed (Dial A id) = true ∧ ∃ e, dial_res (Dial A id) = Err e)) ∧
  (∀ e, da_Read A = Err e → dial_closed (Dial A id) = true ∧ dial_res (Dial A id) = Err e).
Proof.
  intros Hid Ho Hw. unfold Dial, ack_bytes. rewrite Ho, Hw. split_and!.
  - destruct (da_Read A) as [bs| |]; simpl; [|by apply Uint32_PutUint32..].
    destruct (Uint32 bs); [case_decide|]; simpl; by apply Uint32_PutUint32.
  - intros id' Hid' ->. rewrite Uint32_PutUint32 by done.
    split; intros He; [by rewrite decide_True|]. rewrite decide_False by done. split; [done|]. by eexists.
  - by intros e ->.
Qed.

(** C13: as long as each id is accepted once and dialled once in the broker's
    life, the broker never panics, [Accept] returns only streams dialled for its id, and no stream is lost: each one
    was returned by [Accept], was closed, or is queued with a [timeoutWait]
    that will close it. *)
Theorem MuxBroker_no_stream_lost b :
  reachable b → disciplined (mux_table b) →
  panicked (mux_table b) = false ∧
  (∀ id c, (id, c) ∈ mux_accepted b → (id, c) ∈ arrived (mux_table b)) ∧
  (∀ id c, (id, c) ∈ arrived (mux_table b) →
     (id, c) ∈ mux_accepted b ∨ c ∈ mux_closed b ∨ c ∈ discarded (mux_table b) ∨
     ∃ ref p w k, heap (mux_table b) !! ref = Some p ∧ p_id p = id ∧ p_ch p = Some c ∧
       waits (mux_table b) !! w = Some k ∧ t_ref k = ref).
Proof.
  intros Hr Hd. pose proof (mux_reachable_table b Hr) as Ht.
  pose proof (reachable_wf _ _ Ht (proj1 Hd)) as Hwf. pose proof (reachable_live _ Ht Hd) as Hlv.
  split_and!; [by apply wf_panic|..].
  - intros id c Hin. apply (lv_delivered _ _ Hlv). by apply (reachable_honest b Hr).
  - intros id c Hin. destruct (lv_account _ _ Hlv _ _ Hin) as [Hdel|[Hdis|(ref & p & Hp & Hid & Hch)]].
    + destruct (reachable_settled b Hr _ _ Hdel); auto.
    + auto.
    + destruct (lv_queued _ _ Hlv _ _ _ Hp Hch) as (_ & _ & w & k & Hk & Href).
      right. right. right. eauto 10.
Qed.

(** C18: the broker cleans up after itself: from every state in which each id
    was accepted once and dialled once at most, a run of nothing but the timers
    of [Accept] and [timeoutWait] leads within [BrokerTimeout] to a state without
    goroutines, in which the map is empty and every stream was returned by
    [Accept] or closed. *)
Theorem MuxBroker_cleans_up b :
  reachable b → disciplined (mux_table b) →
  ∃ ms b', forallb mux_timer ms = true ∧ exec ms b = Some b' ∧ quiescent (mux_table b') ∧
    now (mux_table b') = now (mux_table b) + BrokerTimeout ∧
    streams (mux_table b') = ∅ ∧
    (∀ id c, (id, c) ∈ arrived (mux_table b') →
       (id, c) ∈ mux_accepted b' ∨ c ∈ mux_closed b' ∨ c ∈ discarded (mux_table b')).
Proof.
  intros Hr Hd. pose proof (mux_reachable_table b Hr) as Ht.
  destruct (reaches_quiescence true (mux_table b) Ht) as (ls & t' & Hls & He & Hq & Hn).
  { by apply wf_panic, (reachable_wf true), (proj1 Hd). }
  destruct (mux_exec_timers ls b t' Hls He) as (ms & b' & Htm & Hms & <-).
  exists ms, b'. assert (reachable b') as Hr' by (by eapply exec_reachable).
  destruct (quiescent_clean (mux_table b')) as [Hst Hacc]; [|done|].
  { apply reachable_live; [by apply mux_reachable_table|by eapply exec_timers_disciplined]. }
  split_and!; [done..|]. intros id c Hin. destruct (Hacc _ _ Hin) as [Hdel|?]; [|by auto].
  destruct (reachable_settled b' Hr' _ _ Hdel); auto.
Qed.

(** Ids cannot be reused, not even one after the other: a second dial and
    accept of an id whose first stream was already handed over, before its
    [timeoutWait] has run, closes [doneCh] twice and panics. *)
Theorem MuxBroker_reuse_panics :
  ∃ b b', exec [MAccept 0 1; MStream 0 100 (Some (PutUint32 1)); MAcceptTake 0 None] newMuxBroker = Some b ∧
    mux_accepted b = [(1, 100%nat)] ∧ calls (mux_table b) = ∅ ∧
    exec [MStream 1 101 (Some (PutUint32 1)); MAccept 1 1; MAcceptTake 1 None] b = Some b' ∧
    panicked (mux_table b') = true.
Proof. eexists _, _. split_and!; [vm_compute; reflexivity..|]. reflexivity. Qed.

(** Or, if nobody accepts it, the second stream is lost: the [timeoutWait]
    goroutines end on the closed [doneCh] without draining the channel, and the
    stream is neither returned nor closed, leaving the peer's [Dial] blocked. *)
Theorem MuxBroker_reuse_loses_stream :
  ∃ b, exec [MAccept 0 1; MStream 0 100 (Some (PutUint32 1)); MAcceptTake 0 None;
             MStream 1 101 (Some (PutUint32 1)); MWaitDone 0; MWaitDone 1] newMuxBroker = Some b ∧
    quiescent (mux_table b) ∧ (1, 101%nat) ∈ arrived (mux_table b) ∧ streams (mux_table b) = ∅ ∧
    mux_accepted b = [(1, 100%nat)] ∧ mux_closed b = [] ∧ discarded (mux_table b) = [].
Proof. eexists. split_and!; [vm_compute; reflexivity|split; reflexivity|left|reflexivity..]. Qed.

(** After [Close], whatever the goroutines still do, no [Accept] returns a
    stream any more: one that still receives a stream cannot acknowledge it,
    closes it and reports the error. *)
Theorem MuxBroker_closed ls b b' :
  mux_session b = false → exec ls b = Some b' → mux_accepted b' = mux_accepted b.
Proof.
  revert b. induction ls as [|l ls IH]; intros b Hc; simpl; [by intros [= <-]|].
  intros (b1 & Hs & He)%bind_Some. destruct (mux_step_closed l b b1 Hs Hc) as [Hc1 <-]. by apply IH.
Qed.

(** ** Concrete instances *)

(** A stream is queued for a waiting [Accept] when the session is closed. *)
Definition ex_mux_shut : MuxBroker :=
  default newMuxBroker (exec [MAccept 0 1; MStream 0 100 (Some (PutUint32 1)); MClose] newMuxBroker).

Example MuxBroker_closed_witness :
  ∃ b, exec [MAcceptTake 0 (Some EOF)] ex_mux_shut = Some b ∧
    mux_accepted b = mux_accepted ex_mux_shut ∧ mux_closed b = [100%nat].
Proof.
  destruct (exec [MAcceptTake 0 (Some EOF)] ex_mux_shut) as [b|] eqn:He; [|vm_compute in He; discriminate].
  exists b. split; [reflexivity|]. split.
  - apply (MuxBroker_closed [MAcceptTake 0 (Some EOF)] ex_mux_shut b); [vm_compute; reflexivity|exact He].
  - vm_compute in He. injection He as <-. reflexivity.
Defined.

Example NextId_unique_witness : NoDup (NextIds 3 (2 ^ 32 - 2)).
Proof. apply (NextId_unique 3 (2 ^ 32 - 2)); [split; vm_compute; congruence|lia]. Defined.

Example Dial_acknowledged_witness :
  dial_res (Dial (MkDialAnswers None None (Ret (ack_bytes 7))) 7) = Ret tt.
Proof.
  destruct (Dial_acknowledged (MkDialAnswers None None (Ret (ack_bytes 7))) 7) as (_ & H & _);
    [split; vm_compute; congruence|reflexivity..|].
  apply (H 7); [split; vm_compute; congruence|reflexivity..].
Defined.

(** One stream accepted, one still queued. *)
Definition ex_steps : list MuxStep :=
  [MAccept 0 1; MStream 0 100 (Some (PutUint32 1)); MAcceptTake 0 None; MStream 1 101 (Some (PutUint32 2))].
Definition ex_mux : MuxBroker := default newMuxBroker (exec ex_steps newMuxBroker).

Lemma ex_mux_reachable : reachable ex_mux.
Proof. apply (exec_reachable ex_steps newMuxBroker); [by apply reachable_init|vm_compute; reflexivity]. Qed.
Lemma ex_mux_disciplined : disciplined (mux_table ex_mux).
Proof. split; apply (bool_decide_unpack _); vm_compute; exact I. Qed.

Example MuxBroker_no_stream_lost_witness : panicked (mux_table ex_mux) = false.
Proof. exact (proj1 (MuxBroker_no_stream_lost ex_mux ex_mux_reachable ex_mux_disciplined)). Defined.

Example MuxBroker_cleans_up_witness :
  ∃ ms b', forallb mux_timer ms = true ∧ exec ms ex_mux = Some b' ∧ streams (mux_table b') = ∅.
Proof.
  destruct (MuxBroker_cleans_up ex_mux ex_mux_reachable ex_mux_disciplined)
    as (ms & b' & H1 & H2 & _ & _ & H3 & _).
  exists ms, b'. split; [exact H1|]. split; [exact H2|exact H3].
Defined.
