(* ===== verification/GRPCBroker.v ===== *)
(** * [GRPCBroker]

    The broker of the gRPC protocol (grpc_broker.go).  Without multiplexing,
    [Accept] opens a listener and sends its address to the peer, whose [Dial]
    waits for it; with multiplexing, [Dial] knocks and waits for the
    acknowledgement while [listenForKnocks] answers on the other side.  [Run]
    routes the messages of the peer into the pending entries of the client or
    the server streams. *)

From S2P Require Import Prelude GoStd Config ClientData Handshake Listener Helpers Rendezvous.

(** ** Messages *)

Record Knock : Type := MkKnock { k_knock : bool; k_ack : bool; k_error : string }.

Record ConnInfo : Type := MkConnInfo {
  ServiceId : Z;
  ci_Network : string;
  ci_Address : string;
  ci_Knock : option Knock
}.

Definition knock_msg (id : Z) : ConnInfo := MkConnInfo id "" "" (Some (MkKnock true false "")).
Definition ack_msg (id : Z) (ackError : string) : ConnInfo :=
  MkConnInfo id "" "" (Some (MkKnock true true ackError)).

(** [serverKnock] of [Run]: a knock that is not an acknowledgement. *)
Definition serverKnock (msg : ConnInfo) : bool :=
  match ci_Knock msg with Some k => k_knock k && negb (k_ack k) | None => false end.

(** ** State *)

(** A [listenForKnocks] goroutine: not yet running, in its [select] on the
    entry it looked up, sending an acknowledgement, or returned. *)
Inductive ListenLoop : Type := LStarting | LSelect (ref : nat) | LAcking (ref : nat) | LEnded.

(** An [Accept] with multiplexing: its id, the entry whose [doneCh] the returned
    listener closes (none, when [Accept] returned an error), and the goroutine
    it started. *)
Record KnockListener : Type := MkKnockListener {
  ml_id : Z;
  ml_entry : option nat;
  ml_loop : ListenLoop
}.

(** The calls of [streamer.Send] in the source: by [knock], by
    [listenForKnocks] and by [Accept]. *)
Inductive SendOp : Type :=
| SendKnock (id : Z)
| SendAck (lid : nat) (id : Z) (ackError : string)
| SendAddr (id : Z) (network address : string).

Definition send_msg (op : SendOp) : ConnInfo :=
  match op with
  | SendKnock id => knock_msg id
  | SendAck _ id ackError => ack_msg id ackError
  | SendAddr id network address => MkConnInfo id network address None
  end.

(** The two maps, the [Accept]s with multiplexing, the calls of [Send] in
    progress, what was given to [Send] and how the calls ended. *)
Record GRPCBroker : Type := MkGRPCBroker {
  gb_client : Table ConnInfo;
  gb_server : Table ConnInfo;
  gb_listeners : gmap nat KnockListener;
  gb_sending : gmap nat SendOp;
  gb_sent : list ConnInfo;
  gb_knocked : list (Z * res error unit);
  gb_failed : list (Z * error)
}.

Definition newGRPCBroker : GRPCBroker := MkGRPCBroker empty_table empty_table ∅ ∅ [] [] [].

Definition set_client_table t b := MkGRPCBroker t (gb_server b) (gb_listeners b) (gb_sending b)
  (gb_sent b) (gb_knocked b) (gb_failed b).
Definition set_server_table t b := MkGRPCBroker (gb_client b) t (gb_listeners b) (gb_sending b)
  (gb_sent b) (gb_knocked b) (gb_failed b).
Definition set_sending v b := MkGRPCBroker (gb_client b) (gb_server b) (gb_listeners b) v
  (gb_sent b) (gb_knocked b) (gb_failed b).
Definition add_sent m b := MkGRPCBroker (gb_client b) (gb_server b) (gb_listeners b) (gb_sending b)
  (gb_sent b ++ [m]) (gb_knocked b) (gb_failed b).
Definition add_knocked x b := MkGRPCBroker (gb_client b) (gb_server b) (gb_listeners b) (gb_sending b)
  (gb_sent b) (x :: gb_knocked b) (gb_failed b).
Definition add_failed x b := MkGRPCBroker (gb_client b) (gb_server b) (gb_listeners b) (gb_sending b)
  (gb_sent b) (gb_knocked b) (x :: gb_failed b).
Definition put_listener lid l b := MkGRPCBroker (gb_client b) (gb_server b) (<[lid := l]> (gb_listeners b))
  (gb_sending b) (gb_sent b) (gb_knocked b) (gb_failed b).

(** The goroutine of [l] goes on as [loop]. *)
Definition set_loop (loop : ListenLoop) (l : KnockListener) : KnockListener :=
  MkKnockListener (ml_id l) (ml_entry l) loop.

(** ** Operations *)

(** Writing one entry of a table. *)
Definition set_entry (ref : nat) (p : Pending ConnInfo) (s : Table ConnInfo) : Table ConnInfo :=
  MkTable (now s) (<[ref := p]> (heap s)) (streams s) (fresh s) (calls s) (waits s) (panicked s)
    (arrived s) (called s) (delivered s) (discarded s).
Definition delete_stream (id : Z) (s : Table ConnInfo) : Table ConnInfo :=
  MkTable (now s) (heap s) (delete id (streams s)) (fresh s) (calls s) (waits s) (panicked s)
    (arrived s) (called s) (delivered s) (discarded s).

(** A knock for a server stream: queued when the channel is empty, dropped
    otherwise; no [timeoutWait]. *)
Definition offer (id : Z) (m : ConnInfo) (s : Table ConnInfo) : Table ConnInfo :=
  let '(s, ref) := getStream id s in
  match heap s !! ref with
  | Some (MkPending pid None d) => set_entry ref (MkPending pid (Some m) d) s
  | _ => s
  end.

(** One iteration of [Run]. *)
Definition Run_route (wid : nat) (msg : ConnInfo) (b : GRPCBroker) : option GRPCBroker :=
  if serverKnock msg then Some (set_server_table (offer (ServiceId msg) msg (gb_server b)) b)
  else t ← table_step false (Arrive wid (ServiceId msg) msg) (gb_client b); Some (set_client_table t b).

(** The checks of [knock] on the answer. *)
Definition check_ack (id : Z) (msg : ConnInfo) : res error unit :=
  if negb (bool_decide (ServiceId msg = id)) then
    Err (Errorf "handshake failed for multiplexing on id %d; got response for %d"
           [Itoa id; Itoa (ServiceId msg)])
  else match ci_Knock msg with
       | Some (MkKnock true true e) =>
           if decide (e = "") then Ret tt else Err (Errorf "failed to knock for id %d: %s" [Itoa id; e])
       | _ => Err (Errorf "handshake failed for multiplexing on id %d; expected knock and ack" [Itoa id])
       end.

(** The checks of [listenForKnocks] on a knock. *)
Definition check_knock (id : Z) (msg : ConnInfo) : option error :=
  if negb (bool_decide (ServiceId msg = id)) then
    Some (Errorf "knock received with wrong service ID; expected %d but got %d" [Itoa id; Itoa (ServiceId msg)])
  else match ci_Knock msg with
       | Some (MkKnock true false _) => None
       | _ => Some (Errorf "knock received for service ID %d with incorrect values" [Itoa id])
       end.

(** A call of [streamer.Send] begins; [tid] names it until it returns. *)
Definition call_Send (tid : nat) (op : SendOp) (b : GRPCBroker) : option GRPCBroker :=
  if decide (gb_sending b !! tid = None) then
    Some (add_sent (send_msg op) (set_sending (<[tid := op]> (gb_sending b)) b))
  else None.

(** A call in progress of the given kind: [Dial] closes [doneCh], [knock] does not. *)
Definition in_call (closes : bool) (tid : nat) (b : GRPCBroker) : option Task :=
  k ← calls (gb_client b) !! tid;
  if bool_decide (t_closes k = closes) then Some k else None.

Definition knock_receive (tid : nat) (b : GRPCBroker) : option GRPCBroker :=
  in_call false tid b ≫= λ _,
  t ← table_step false (Receive tid) (gb_client b);
  match delivered t with
  | (id, msg) :: _ => Some (add_knocked (id, check_ack id msg) (set_client_table t b))
  | [] => None
  end.

Definition knock_timeout (tid : nat) (b : GRPCBroker) : option GRPCBroker :=
  k ← in_call false tid b;
  t ← table_step false (CallTimeout tid) (gb_client b);
  Some (add_knocked (t_id k, Err (Wrapf "%w: multiplexing knock handshake on id %d" [Itoa (t_id k)] ErrBrokerTimeout))
          (set_client_table t b)).

(** [getServerStream] on the broker. *)
Definition getServerStream (id : Z) (b : GRPCBroker) : GRPCBroker * nat :=
  let '(s, ref) := getStream id (gb_server b) in (set_server_table s b, ref).

(** [Accept] with multiplexing: the entry, the goroutine and the listener;
    [err] is the result of [muxer.Listener]. *)
Definition Accept_mux (lid : nat) (id : Z) (err : option error) (b : GRPCBroker) : option GRPCBroker :=
  if decide (gb_listeners b !! lid = None) then
    let '(b, ref) := getServerStream id b in
    let entry := match err with Some _ => None | None => Some ref end in
    Some (put_listener lid (MkKnockListener id entry LStarting) b)
  else None.

(** [listenForKnocks] looks the entry up itself when it starts to run. *)
Definition listen_start (lid : nat) (b : GRPCBroker) : option GRPCBroker :=
  l ← gb_listeners b !! lid;
  match ml_loop l with
  | LStarting =>
      let '(b, ref) := getServerStream (ml_id l) b in
      Some (put_listener lid (set_loop (LSelect ref) l) b)
  | _ => None
  end.

(** Its [select] receives a knock: the checks, [AcceptKnock] with the result
    [accept], and the call of [Send] with the acknowledgement. *)
Definition listen_knock (lid tid : nat) (accept : option string) (b : GRPCBroker) : option GRPCBroker :=
  l ← gb_listeners b !! lid;
  match ml_loop l with
  | LSelect ref =>
      match heap (gb_server b) !! ref with
      | Some (MkPending pid (Some msg) d) =>
          let b := set_server_table (set_entry ref (MkPending pid None d) (gb_server b)) b in
          match check_knock (ml_id l) msg with
          | Some e => Some (add_failed (ml_id l, e) (put_listener lid (set_loop LEnded l) b))
          | None =>
              call_Send tid (SendAck lid (ml_id l) (default "" accept))
                (put_listener lid (set_loop (LAcking ref) l) b)
          end
      | _ => None
      end
  | _ => None
  end.

(** The other case of its [select]. *)
Definition listen_done (lid : nat) (b : GRPCBroker) : option GRPCBroker :=
  l ← gb_listeners b !! lid;
  match ml_loop l with
  | LSelect ref =>
      match heap (gb_server b) !! ref with
      | Some (MkPending _ _ true) => Some (put_listener lid (set_loop LEnded l) b)
      | _ => None
      end
  | _ => None
  end.

(** Closing the listener: [doneCh] is closed once per entry. *)
Definition listener_close (lid : nat) (b : GRPCBroker) : option GRPCBroker :=
  l ← gb_listeners b !! lid;
  ref ← ml_entry l;
  p ← heap (gb_server b) !! ref;
  Some (set_server_table (delete_stream (ml_id l)
    (set_entry ref (MkPending (p_id p) (p_ch p) true) (gb_server b))) b).

(** Why [Send] fails: the streamer is closed, or gRPC reports an error. *)
Definition send_error (grpc : option string) : error :=
  match grpc with Some what => ErrExt what | None => Errorf "broker closed" [] end.

(** What follows the return of [Send]: [knock] reports an error or looks its
    entry up and waits, [listenForKnocks] returns or loops, [Accept] returns. *)
Definition after_ack (lid : nat) (id : Z) (err : option (option string)) (b : GRPCBroker) : option GRPCBroker :=
  l ← gb_listeners b !! lid;
  match ml_loop l, err with
  | LAcking ref, None => Some (put_listener lid (set_loop (LSelect ref) l) b)
  | LAcking ref, Some e =>
      Some (add_failed (id, Wrapf "error sending back knock acknowledgement: %w" [] (send_error e))
              (put_listener lid (set_loop LEnded l) b))
  | _, _ => None
  end.

Definition after_Send (tid : nat) (err : option (option string)) (b : GRPCBroker) : option GRPCBroker :=
  op ← gb_sending b !! tid;
  let b := set_sending (delete tid (gb_sending b)) b in
  match op, err with
  | SendKnock id, None => t ← table_step false (BeginCall tid id false) (gb_client b); Some (set_client_table t b)
  | SendKnock id, Some e => Some (add_knocked (id, Err (send_error e)) b)
  | SendAck lid id _, _ => after_ack lid id err b
  | SendAddr _ _ _, _ => Some b
  end.

(** [DialWithOptions] without multiplexing, up to the address: the message is
    received as any call's; then the address is translated and resolved. *)
Definition dial_address (H : HandshakeEnv) (translate : option Runner) (msg : ConnInfo) : res error Addr :=
  na ← match translate with
       | Some r => PluginToHost r (ci_Network msg) (ci_Address msg)
       | None => Ret (ci_Network msg, ci_Address msg)
       end;
  if decide (na.1 = "tcp") then ResolveTCPAddr H na.2
  else if decide (na.1 = "unix") then Ret (MkAddr "unix" na.2)
  else Err (Errorf "unknown address type: %s" [ci_Address msg]).

(** [DialWithOptions]: with multiplexing the connection's dialer is [muxDial],
    which knocks; without, it is the address in the message that was waited for
    ([info], an error when it did not come in time). *)
Definition DialWithOptions (NewClient : string → list DialOption → option error) (H : HandshakeEnv)
    (tls : option TLSConfig) (translate : option Runner) (muxed : bool) (id : Z) (info : res error ConnInfo)
    (opts : list DialOption) : res error GRPCConn :=
  if muxed then dialGRPCConn NewClient tls (MuxDialer id) opts
  else
    c ← info;
    addr ← dial_address H translate c;
    dialGRPCConn NewClient tls (NetAddrDialer addr) opts.

(** [Accept] without multiplexing: a new listener, whose address is sent to
    the peer; [send_err] is the result of the streamer. *)
Definition Accept_listener (A : OSAnswers) (env : environ) (cfg : UnixSocketConfig)
    (translate : option Runner) (send_err : option error) (id : Z)
    : GoM (OS * list ConnInfo) error Listener := λ st,
  match serverListener A env cfg st.1 with
  | (o, Ret l) =>
      let a := Listener_Addr l in
      match match translate with
            | Some r => HostToPlugin r (Network a) (Address a)
            | None => Ret (Network a, Address a)
            end with
      | Ret na =>
          match send_err with
          | None => ((o, st.2 ++ [MkConnInfo id na.1 na.2 None]), Ret l)
          | Some e => ((o, st.2), Err e)
          end
      | Err e => ((o, st.2), Err e)
      | Panic p => ((o, st.2), Panic p)
      end
  | (o, Err e) => ((o, st.2), Err e)
  | (o, Panic p) => ((o, st.2), Panic p)
  end.

(** ** The transition system *)

Inductive BrokerStep : Type :=
| GRun (wid : nat) (msg : ConnInfo)
| GDial (tid : nat) (id : Z)
| GDialReceive (tid : nat)
| GDialTimeout (tid : nat)
| GKnock (tid : nat) (id : Z)
| GSent (tid : nat) (err : option (option string))
| GKnockReceive (tid : nat)
| GKnockTimeout (tid : nat)
| GAdvertise (tid : nat) (id : Z) (network address : string)
| GAccept (lid : nat) (id : Z) (err : option error)
| GListenStart (lid : nat)
| GListen (lid tid : nat) (accept : option string)
| GListenDone (lid : nat)
| GListenerClose (lid : nat)
| GWaitDone (wid : nat)
| GWaitTimeout (wid : nat)
| GTick (d : Z).

Definition on_client_table (l : TableStep ConnInfo) (b : GRPCBroker) : option GRPCBroker :=
  t ← table_step false l (gb_client b); Some (set_client_table t b).

(** [DialWithOptions] without multiplexing: its [select] on the entry of the id,
    whose [doneCh] it closes. *)
Definition dial_begin (tid : nat) (id : Z) (b : GRPCBroker) : option GRPCBroker :=
  on_client_table (BeginCall tid id true) b.
Definition dial_receive (tid : nat) (b : GRPCBroker) : option GRPCBroker :=
  in_call true tid b ≫= λ _, on_client_table (Receive tid) b.
Definition dial_timeout (tid : nat) (b : GRPCBroker) : option GRPCBroker :=
  in_call true tid b ≫= λ _, on_client_table (CallTimeout tid) b.

(** The two cases of [timeoutWait]; it deletes the entry in both. *)
Definition timeoutWait_done (wid : nat) (b : GRPCBroker) : option GRPCBroker := on_client_table (WaitDone wid) b.
Definition timeoutWait_timeout (wid : nat) (b : GRPCBroker) : option GRPCBroker := on_client_table (WaitTimeout wid) b.

Definition broker_step (l : BrokerStep) (b : GRPCBroker) : option GRPCBroker :=
  match l with
  | GRun wid msg => Run_route wid msg b
  | GDial tid id => dial_begin tid id b
  | GDialReceive tid => dial_receive tid b
  | GDialTimeout tid => dial_timeout tid b
  | GKnock tid id => call_Send tid (SendKnock id) b
  | GSent tid err => after_Send tid err b
  | GKnockReceive tid => knock_receive tid b
  | GKnockTimeout tid => knock_timeout tid b
  | GAdvertise tid id network address => call_Send tid (SendAddr id network address) b
  | GAccept lid id err => Accept_mux lid id err b
  | GListenStart lid => listen_start lid b
  | GListen lid tid accept => listen_knock lid tid accept b
  | GListenDone lid => listen_done lid b
  | GListenerClose lid => listener_close lid b
  | GWaitDone wid => timeoutWait_done wid b
  | GWaitTimeout wid => timeoutWait_timeout wid b
  | GTick d => on_client_table (Tick d) b
  end.

#[export] Instance broker_lts : LTS GRPCBroker BrokerStep := {|
  lts_init b := b = newGRPCBroker;
  lts_step := broker_step
|}.

(** ** Lemmas: routing *)

Definition client_msg (id : Z) (m : ConnInfo) : Prop := ServiceId m = id ∧ serverKnock m = false.
Definition server_msg (id : Z) (m : ConnInfo) : Prop := ServiceId m = id ∧ serverKnock m = true.

Lemma set_entry_shaped Q ref p p' s :
  heap s !! ref = Some p → p_id p' = p_id p → (∀ m, p_ch p' = Some m → Q (p_id p) m) →
  shaped Q s → shaped Q (set_entry ref p' s).
Proof.
  intros Hp Hid Hq [H1 H2 H3 H4 H5]. pose proof (insert_same_id (heap s) ref p p' Hp Hid) as Hins.
  split; simpl; try done.
  - intros id r Hr. destruct (H1 _ _ Hr) as (q & Hq' & Hqid). destruct (Hins _ _ Hq') as (q' & ? & ?).
    exists q'. split; [done|congruence].
  - intros r q. rewrite lookup_insert_Some. intros [[<- _]|[_ Hr]]; eauto.
  - intros t k Hk. destruct (H3 _ _ Hk) as (q & Hq' & Hqid). destruct (Hins _ _ Hq') as (q' & ? & ?).
    exists q'. split; [done|congruence].
  - intros r q m. rewrite lookup_insert_Some. intros [[<- <-]|[_ Hr]]; [|eauto]. rewrite Hid. apply Hq.
Qed.

Lemma delete_stream_shaped Q id s : shaped Q s → shaped Q (delete_stream id s).
Proof.
  intros [H1 H2 H3 H4 H5]. split; simpl; try done. intros id' r [_ Hr]%lookup_delete_Some. eauto.
Qed.

Lemma offer_shaped Q id m s : Q id m → shaped Q s → shaped Q (offer id m s).
Proof.
  intros Hq Hs. unfold offer. pose proof (getStream_shaped Q id s Hs) as Hs'.
  destruct (getStream_shaped_ref Q id s Hs) as (p & Hp & Hid). destruct (getStream id s) as [s1 ref].
  simpl in *. rewrite Hp. destruct p as [pid [m'|] d]; [done|]. simpl in Hid. subst pid.
  eapply set_entry_shaped; [done|done| |done]. by intros m' [= <-].
Qed.

(** An existing entry stays, with its id. *)
Definition entries_kept (s s' : Table ConnInfo) : Prop :=
  ∀ r q, heap s !! r = Some q → ∃ q', heap s' !! r = Some q' ∧ p_id q' = p_id q.

Lemma getStream_kept Q id s : shaped Q s → entries_kept s (getStream id s).1.
Proof.
  intros Hs r q Hq. unfold getStream. destruct (streams s !! id); [eauto|]. simpl.
  rewrite lookup_insert_ne; [eauto|]. intros <-. apply (sh_fresh Q s Hs) in Hq. lia.
Qed.

Lemma set_entry_kept ref p p' s :
  heap s !! ref = Some p → p_id p' = p_id p → entries_kept s (set_entry ref p' s).
Proof. intros Hp Hid. exact (insert_same_id (heap s) ref p p' Hp Hid). Qed.

Lemma offer_kept Q id m s : shaped Q s → entries_kept s (offer id m s).
Proof.
  intros Hs r q Hq. unfold offer. pose proof (getStream_kept Q id s Hs r q Hq) as Hk.
  destruct (getStream id s) as [s1 ref]. simpl in Hk. destruct Hk as (q1 & Hq1 & Hid1).
  destruct (heap s1 !! ref) as [[pid [m'|] d]|] eqn:Hp; [by eauto| |by eauto].
  destruct (set_entry_kept ref _ (MkPending pid (Some m) d) s1 Hp eq_refl r q1 Hq1) as (q' & ? & ?).
  exists q'. split; [done|congruence].
Qed.

Definition ack_failure (e : error) : Prop :=
  ∃ e', e = Wrapf "error sending back knock acknowledgement: %w" [] e'.
Definition wrong_id (id : Z) (r : res error unit) : Prop :=
  ∃ id', r = Err (Errorf "handshake failed for multiplexing on id %d; got response for %d" [Itoa id; Itoa id']).

Section routing.

(** What is known of the messages that come in. *)
Variable P : ConnInfo → Prop.
Definition client_from (id : Z) (m : ConnInfo) : Prop := client_msg id m ∧ P m.
Definition server_from (id : Z) (m : ConnInfo) : Prop := server_msg id m ∧ P m.

(** What this side sends: addresses, knocks, and acknowledgements of knocks it
    received. *)
Definition answers_peer (m : ConnInfo) : Prop :=
  ci_Knock m = None ∨ (∃ id, m = knock_msg id) ∨ ∃ id e msg, m = ack_msg id e ∧ server_from id msg.

(** The entries an [Accept] and its goroutine hold have its id. *)
Definition holds (l : KnockListener) (ref : nat) : Prop :=
  ml_entry l = Some ref ∨ ml_loop l = LSelect ref ∨ ml_loop l = LAcking ref.

(** The routing invariant. *)
Record routed (b : GRPCBroker) : Prop := MkRouted {
  rt_client : shaped client_from (gb_client b);
  rt_server : shaped server_from (gb_server b);
  rt_listeners : ∀ lid l ref, gb_listeners b !! lid = Some l → holds l ref →
    ∃ p, heap (gb_server b) !! ref = Some p ∧ p_id p = ml_id l;
  rt_failed : ∀ id e, (id, e) ∈ gb_failed b → ack_failure e;
  rt_knocked : ∀ id r, (id, r) ∈ gb_knocked b → ¬ wrong_id id r;
  rt_acked : ∀ id, (id, Ret tt) ∈ gb_knocked b → ∃ msg, client_from id msg ∧ check_ack id msg = Ret tt;
  rt_sent : ∀ m, m ∈ gb_sent b → answers_peer m
}.

Lemma routed_client t b : routed b → shaped client_from t → routed (set_client_table t b).
Proof. intros [] ?. by split. Qed.

Lemma routed_server t b :
  routed b → shaped server_from t → entries_kept (gb_server b) t → routed (set_server_table t b).
Proof.
  intros [H1 H2 H3 H4 H5 H6 H7] Hs Hk. split; simpl; try done. intros lid l ref Hl Hh.
  destruct (H3 _ _ _ Hl Hh) as (p & Hp & <-). destruct (Hk _ _ Hp) as (q & ? & ?). eauto.
Qed.

Lemma routed_sending v b : routed b → routed (set_sending v b).
Proof. intros []. by split. Qed.

Lemma call_Send_routed tid op b b' :
  answers_peer (send_msg op) → call_Send tid op b = Some b' → routed b → routed b'.
Proof.
  unfold call_Send. case_decide; [|done]. intros Hm [= <-] [H1 H2 H3 H4 H5 H6 H7]. split; simpl; try done.
  intros m'. rewrite elem_of_app, list_elem_of_singleton. intros [?| ->]; [by apply H7|done].
Qed.

(** A listener whose entries are in the table. *)
Lemma routed_listener lid l b :
  (∀ ref, holds l ref → ∃ p, heap (gb_server b) !! ref = Some p ∧ p_id p = ml_id l) →
  routed b → routed (put_listener lid l b).
Proof.
  intros Hl [H1 H2 H3 H4 H5 H6 H7]. split; simpl; try done.
  intros lid' l' ref. rewrite lookup_insert_Some. intros [[<- <-]|[_ Hl']]; eauto.
Qed.

(** The goroutine goes on, on an entry it already has. *)
Lemma routed_loop lid l loop b :
  gb_listeners b !! lid = Some l →
  (∀ ref, loop = LSelect ref ∨ loop = LAcking ref → holds l ref) →
  routed b → routed (put_listener lid (set_loop loop l) b).
Proof.
  intros Hl Hloop Hr. apply routed_listener; [|done]. intros ref Hh.
  destruct (rt_listeners b Hr lid l ref Hl) as (p & Hp & Hid); [|by exists p].
  destruct Hh as [?|Hh]; [by left|by apply Hloop].
Qed.

Lemma routed_failed id e b : ack_failure e → routed b → routed (add_failed (id, e) b).
Proof.
  intros He [H1 H2 H3 H4 H5 H6 H7]. split; simpl; try done.
  intros id' e' [[= -> ->]|Hin]%elem_of_cons; eauto.
Qed.

Lemma routed_knocked id r b :
  ¬ wrong_id id r → (r = Ret tt → ∃ msg, client_from id msg ∧ check_ack id msg = Ret tt) →
  routed b → routed (add_knocked (id, r) b).
Proof.
  intros Hw Hr [H1 H2 H3 H4 H5 H6 H7]. split; simpl; try done.
  - intros id' r' [[= -> ->]|Hin]%elem_of_cons; [done|by apply H5].
  - intros id' [[= -> Heq]|Hin]%elem_of_cons; [by apply Hr|by apply H6].
Qed.

Lemma on_client_table_routed l b b' :
  (∀ wid id m, l = Arrive wid id m → client_from id m) →
  on_client_table l b = Some b' → routed b → routed b'.
Proof.
  intros HQ (t & Ht & [= <-])%bind_Some Hr. apply routed_client; [done|].
  eapply table_step_shaped; [done..|apply Hr].
Qed.

(** A knock is answered by its own entry only. *)
Lemma check_ack_right id msg : ServiceId msg = id → ¬ wrong_id id (check_ack id msg).
Proof.
  intros Hid [id' He]. unfold check_ack in He. rewrite bool_decide_true in He by done. simpl in He.
  repeat case_match; by simplify_eq.
Qed.

Lemma listen_knock_routed lid tid accept b b' :
  listen_knock lid tid accept b = Some b' → routed b → routed b'.
Proof.
  unfold listen_knock. intros (l & Hl & H)%bind_Some Hr. destruct (ml_loop l) as [|ref|ref|] eqn:Hloop; try done.
  destruct (rt_listeners b Hr lid l ref Hl) as (p & Hp & Hid); [right; by left|]. rewrite Hp in H.
  destruct p as [pid [msg|] d]; [|done]. simpl in Hid. subst pid.
  pose proof (sh_queued _ _ (rt_server b Hr) _ _ msg Hp eq_refl) as Hfrom. destruct Hfrom as [[Hsid Hk] HP]. simpl in Hsid.
  assert (check_knock (ml_id l) msg = None) as Hck.
  { unfold check_knock. rewrite bool_decide_true by done. simpl. unfold serverKnock in Hk.
    destruct (ci_Knock msg) as [[[] [] e]|]; done. }
  rewrite Hck in H. eapply call_Send_routed; [|exact H|].
  - right. right. by exists (ml_id l), (default "" accept), msg.
  - apply routed_loop; [done| |].
    + intros r [?|[= <-]]; [done|]. right. by left.
    + apply routed_server; [done| |by eapply set_entry_kept].
      eapply set_entry_shaped; [done|done|done|apply Hr].
Qed.

Lemma after_ack_routed lid id err b b' : after_ack lid id err b = Some b' → routed b → routed b'.
Proof.
  unfold after_ack. intros (l & Hl & H)%bind_Some Hr. destruct (ml_loop l) as [|ref|ref|] eqn:Hloop; try done.
  destruct err as [e|]; injection H as <-.
  - apply routed_failed; [by eexists|]. apply routed_loop; [done| |done]. by intros r [?|?].
  - apply routed_loop; [done| |done]. intros r [[= <-]|?]; [|done]. right. by right.
Qed.

Lemma after_Send_routed tid err b b' : after_Send tid err b = Some b' → routed b → routed b'.
Proof.
  unfold after_Send. intros (op & _ & H)%bind_Some Hr.
  assert (routed (set_sending (delete tid (gb_sending b)) b)) as Hr' by (by apply routed_sending).
  destruct op as [id|lid id e|id n a]; [destruct err as [e|]|..].
  - injection H as <-. apply routed_knocked; [|done|done]. intros [id' He]. by destruct e.
  - by eapply (on_client_table_routed (BeginCall tid id false)); [|exact H|].
  - by eapply after_ack_routed.
  - by injection H as <-.
Qed.

Lemma knock_receive_routed tid b b' : knock_receive tid b = Some b' → routed b → routed b'.
Proof.
  unfold knock_receive. intros (k & _ & (t & Ht & H)%bind_Some)%bind_Some Hr.
  assert (routed (set_client_table t b)) as Hr1
    by (apply routed_client; [done|]; eapply table_step_shaped; [|exact Ht|apply Hr]; done).
  destruct (delivered t) as [|[id msg] ds] eqn:Hd; [done|]. injection H as <-.
  assert (client_from id msg) as Hfrom by (apply (sh_delivered _ _ (rt_client _ Hr1)); simpl; rewrite Hd; left).
  apply routed_knocked; [apply check_ack_right, Hfrom|by exists msg|done].
Qed.

(** Looking an entry up. *)
Lemma getStream_routed id b :
  routed b → routed (set_server_table (getStream id (gb_server b)).1 b) ∧
  ∃ p, heap (getStream id (gb_server b)).1 !! (getStream id (gb_server b)).2 = Some p ∧ p_id p = id.
Proof.
  intros Hr. split; [|apply (getStream_shaped_ref server_from), Hr].
  apply routed_server; [done|apply getStream_shaped, Hr|apply (getStream_kept server_from), Hr].
Qed.

Lemma Accept_mux_routed lid id err b b' : Accept_mux lid id err b = Some b' → routed b → routed b'.
Proof.
  unfold Accept_mux, getServerStream. intros H Hr. case_decide as Hl; [|done].
  destruct (getStream_routed id b Hr) as [Hr' (p & Hp & Hid)].
  destruct (getStream id (gb_server b)) as [s1 ref]. simpl in *. injection H as <-.
  apply routed_listener; [|done]. intros r [Hh|[Hh|Hh]]; simpl in Hh; [|done..].
  destruct err; [done|]. injection Hh as <-. eauto.
Qed.

Lemma listen_start_routed lid b b' : listen_start lid b = Some b' → routed b → routed b'.
Proof.
  unfold listen_start, getServerStream. intros (l & Hl & H)%bind_Some Hr. destruct (ml_loop l) eqn:Hloop; try done.
  destruct (getStream_routed (ml_id l) b Hr) as [Hr' (p & Hp & Hid)].
  destruct (getStream (ml_id l) (gb_server b)) as [s1 ref]. simpl in *. injection H as <-.
  apply routed_listener; [|done]. intros r [Hh|[[= <-]|[=]]]; [|by eauto].
  apply (rt_listeners _ Hr' lid l); [done|by left].
Qed.

Lemma listener_close_routed lid b b' : listener_close lid b = Some b' → routed b → routed b'.
Proof.
  unfold listener_close. intros (l & Hl & (ref & Hh & (p & Hp & [= <-])%bind_Some)%bind_Some)%bind_Some Hr.
  apply routed_server; [done| |by eapply set_entry_kept].
  apply delete_stream_shaped. eapply set_entry_shaped; [done|done| |apply Hr].
  simpl. intros m Hm. by apply (sh_queued _ _ (rt_server b Hr) _ _ _ Hp).
Qed.

Lemma broker_step_routed l b b' :
  (∀ wid msg, l = GRun wid msg → P msg) → broker_step l b = Some b' → routed b → routed b'.
Proof.
  intros HP H Hr. destruct l; simpl in H.
  - unfold Run_route in H. specialize (HP _ _ eq_refl). destruct (serverKnock msg) eqn:Hk.
    + injection H as <-. apply routed_server; [done|by apply offer_shaped; [|apply Hr]|].
      apply (offer_kept server_from), Hr.
    + eapply on_client_table_routed; [|exact H|done]. intros ??? [= <- <- <-]. by split.
  - by eapply on_client_table_routed; [|exact H|].
  - apply bind_Some in H as (k & _ & H). by eapply on_client_table_routed; [|exact H|].
  - apply bind_Some in H as (k & _ & H). by eapply on_client_table_routed; [|exact H|].
  - eapply call_Send_routed; [|exact H|done]. right. left. by exists id.
  - by eapply after_Send_routed.
  - by eapply knock_receive_routed.
  - unfold knock_timeout in H. apply bind_Some in H as (k & _ & H). apply bind_Some in H as (t & Ht & H).
    injection H as <-. apply routed_knocked; [by intros [id' He]|done|]. apply routed_client; [done|].
    eapply table_step_shaped; [|exact Ht|apply Hr]; done.
  - eapply call_Send_routed; [|exact H|done]. by left.
  - by eapply Accept_mux_routed.
  - by eapply listen_start_routed.
  - by eapply listen_knock_routed.
  - unfold listen_done in H. apply bind_Some in H as (l & Hl & H). repeat case_match; simplify_eq.
    apply routed_loop; [done| |done]. by intros r [?|?].
  - by eapply listener_close_routed.
  - by eapply on_client_table_routed; [|exact H|].
  - by eapply on_client_table_routed; [|exact H|].
  - by eapply on_client_table_routed; [|exact H|].
Qed.

Lemma routed_new : routed newGRPCBroker.
Proof.
  split; simpl; [apply shaped_empty..| | | | |]; intros *; rewrite ?lookup_empty, ?elem_of_nil; done.
Qed.
End routing.

(** Knowing less of the messages. *)
Lemma routed_mono (P Q : ConnInfo → Prop) b : (∀ m, P m → Q m) → routed P b → routed Q b.
Proof.
  intros HPQ [[A1 A2 A3 A4 A5] [B1 B2 B3 B4 B5] H3 H4 H5 H6 H7].
  split; [split; try done|split; try done|done|done|done|..].
  - intros ref q m Hq Hm. destruct (A4 _ _ _ Hq Hm). split; auto.
  - intros id m Hin. destruct (A5 _ _ Hin). split; auto.
  - intros ref q m Hq Hm. destruct (B4 _ _ _ Hq Hm). split; auto.
  - intros id m Hin. destruct (B5 _ _ Hin). split; auto.
  - intros id Hin. destruct (H6 _ Hin) as (msg & [? ?] & ?). exists msg. split; [split; auto|done].
  - intros m Hm. destruct (H7 _ Hm) as [?|[?|(id & e & msg & -> & [? ?])]]; [by left|right; by left|].
    right. right. exists id, e, msg. split; [done|]. split; auto.
Qed.

Lemma reachable_routed b : reachable b → routed (λ _, True) b.
Proof.
  apply (invariant_reachable (routed (λ _, True))).
  - intros b0 ->. apply routed_new.
  - intros l b0 b1 Hr Hs. by eapply broker_step_routed.
Qed.

(** ** Lemmas: the client table *)

Lemma call_Send_frame tid op b b' :
  call_Send tid op b = Some b' →
  gb_client b' = gb_client b ∧ gb_server b' = gb_server b ∧ gb_listeners b' = gb_listeners b ∧
  gb_sending b !! tid = None ∧ gb_sending b' = <[tid := op]> (gb_sending b) ∧ gb_sent b' = gb_sent b ++ [send_msg op].
Proof. unfold call_Send. case_decide; [|done]. by intros [= <-]. Qed.

Lemma client_step_table l b b' :
  broker_step l b = Some b' →
  gb_client b' = gb_client b ∨
  ∃ tl, table_step false tl (gb_client b) = Some (gb_client b') ∧
    match tl with
    | BeginCall tid id true => l = GDial tid id
    | Arrive wid _ m => l = GRun wid m
    | _ => True
    end.
Proof.
  assert (∀ tl b1 b2, on_client_table tl b1 = Some b2 →
    table_step false tl (gb_client b1) = Some (gb_client b2)) as Ht.
  { intros tl b1 b2 (t & Hs & [= <-])%bind_Some. done. }
  intros H. destruct l; simpl in H.
  - unfold Run_route in H. destruct (serverKnock msg); [left; by injection H as <-|].
    right. eexists. split; [exact (Ht _ _ _ H)|done].
  - right. eexists. split; [exact (Ht _ _ _ H)|done].
  - apply bind_Some in H as (k & _ & H). right. eexists. split; [exact (Ht _ _ _ H)|done].
  - apply bind_Some in H as (k & _ & H). right. eexists. split; [exact (Ht _ _ _ H)|done].
  - left. by apply call_Send_frame in H as [-> _].
  - unfold after_Send in H. apply bind_Some in H as (op & _ & H).
    destruct op as [id|lid id e|id n a]; [destruct err|..].
    + left. by injection H as <-.
    + right. eexists. split; [exact (Ht (BeginCall tid id false) _ _ H)|done].
    + left. unfold after_ack in H. apply bind_Some in H as (l & _ & H). repeat case_match; by simplify_eq.
    + left. by injection H as <-.
  - unfold knock_receive in H. apply bind_Some in H as (k & _ & H). apply bind_Some in H as (t & Hs & H).
    destruct (delivered t) as [|[id msg] ds]; [done|]. injection H as <-. right. eexists. by split; [exact Hs|].
  - unfold knock_timeout in H. apply bind_Some in H as (k & _ & H). apply bind_Some in H as (t & Hs & H).
    injection H as <-. right. eexists. by split; [exact Hs|].
  - left. by apply call_Send_frame in H as [-> _].
  - left. unfold Accept_mux, getServerStream in H. case_decide; [|done]. destruct (getStream _ _). by injection H as <-.
  - left. unfold listen_start, getServerStream in H. apply bind_Some in H as (l & _ & H). destruct (getStream _ _).
    repeat case_match; by simplify_eq.
  - left. unfold listen_knock in H. apply bind_Some in H as (l & _ & H). repeat case_match; simplify_eq; [done|].
    by apply call_Send_frame in H as [-> _].
  - left. unfold listen_done in H. apply bind_Some in H as (l & _ & H). repeat case_match; by simplify_eq.
  - left. unfold listener_close in H. apply bind_Some in H as (l & _ & H).
    apply bind_Some in H as (ref & _ & H). by apply bind_Some in H as (p & _ & [= <-]).
  - right. eexists. split; [exact (Ht _ _ _ H)|done].
  - right. eexists. split; [exact (Ht _ _ _ H)|done].
  - right. eexists. split; [exact (Ht _ _ _ H)|done].
Qed.

Lemma reachable_client_table b :
  reachable b → @reachable _ _ (table_lts ConnInfo false) (gb_client b).
Proof.
  induction 1 as [b ->|l b b' Hr IH Hstep]; [by apply reachable_init|].
  destruct (client_step_table l b b' Hstep) as [->|(tl & Hs & _)]; [done|]. by eapply reachable_step.
Qed.

(** A table on which no call closes [doneCh] never has a closed one. *)
Definition unclosed (s : Table ConnInfo) : Prop :=
  panicked s = false ∧ (∀ r p, heap s !! r = Some p → p_done p = false) ∧
  (∀ t k, calls s !! t = Some k → t_closes k = false).

Lemma getStream_unclosed id s : unclosed s → unclosed (getStream id s).1.
Proof.
  intros (Hp & Hh & Hc). unfold getStream. destruct (streams s !! id); [done|].
  split_and!; simpl; try done. intros r p. rewrite lookup_insert_Some. intros [[_ <-]|[_ Hr]]; eauto.
Qed.

Lemma table_step_unclosed l s s' :
  (∀ tid id, l ≠ BeginCall tid id true) → table_step false l s = Some s' → unclosed s → unclosed s'.
Proof.
  intros Hl H Hu. pose proof Hu as (Hp & Hh & Hc). unfold table_step in H. rewrite Hp in H.
  destruct l as [tid id closes|tid|tid|wid id m|wid|wid|d].
  - case_decide; [|done]. injection H as <-. unfold begin_call.
    pose proof (getStream_unclosed id s Hu) as Hu'. destruct (getStream id s) as [s1 ref].
    destruct Hu' as (Hp' & Hh' & Hc'). split_and!; simpl; try done.
    intros t k. rewrite lookup_insert_Some. intros [[<- <-]|[_ Hk]]; [|eauto].
    simpl. destruct closes; [by destruct (Hl tid id)|done].
  - unfold receive in H. destruct (calls s !! tid) as [k|] eqn:Hk; [|done].
    destruct (heap s !! t_ref k) as [[pid [m|] d]|] eqn:Hq; [|done..]. injection H as <-.
    pose proof (Hh _ _ Hq) as Hd. pose proof (Hc _ _ Hk) as Hcl. simpl in Hd. subst d. rewrite Hcl.
    split_and!; simpl; try done.
    + intros r p. rewrite lookup_insert_Some. intros [[_ <-]|[_ Hr]]; eauto.
    + intros t k' [_ Hk']%lookup_delete_Some. eauto.
  - unfold call_timeout in H. repeat case_match; simplify_eq. split_and!; simpl; try done.
    intros t' k' [_ Hk']%lookup_delete_Some. eauto.
  - case_decide; [|done]. injection H as <-. unfold arrive.
    pose proof (getStream_unclosed id s Hu) as Hu'. destruct (getStream id s) as [s1 ref].
    destruct Hu' as (Hp' & Hh' & Hc'). simpl in *.
    destruct (heap s1 !! ref) as [[pid [m'|] d]|] eqn:Hq; (split_and!; simpl; try done).
    intros r p. rewrite lookup_insert_Some. intros [[<- <-]|[_ Hr]]; [by apply (Hh' _ _ Hq)|eauto].
  - unfold wait_done in H. repeat case_match; by simplify_eq.
  - unfold wait_timeout in H. repeat case_match; by simplify_eq.
  - by injection H as <-.
Qed.

(** ** Properties *)

(** C19: routing.  A call receives only messages sent for its id, and never a
    knock; a [listenForKnocks] goroutine receives only knocks for its id, so
    that it ends with an error only when the acknowledgement cannot be sent,
    and the two errors the code marks as impossible are; a knock is never
    answered for another id. *)
Theorem GRPCBroker_routes b :
  reachable b →
  (∀ id msg, (id, msg) ∈ delivered (gb_client b) → ServiceId msg = id ∧ serverKnock msg = false) ∧
  (∀ id e, (id, e) ∈ gb_failed b → ack_failure e) ∧
  (∀ id r, (id, r) ∈ gb_knocked b → ¬ wrong_id id r).
Proof.
  intros Hr%reachable_routed. split_and!; [|apply Hr..].
  intros id msg Hin. apply (sh_delivered _ _ (rt_client _ b Hr) _ _ Hin).
Qed.

(** C27: as long as this side dials or knocks for each id at most once, no [Dial]
    closes a closed channel, whatever the peer announces and however often: the
    broker does not panic. *)
Theorem GRPCBroker_no_panic b :
  reachable b → NoDup (called (gb_client b)) → panicked (gb_client b) = false.
Proof. intros Hr Hd. by apply wf_panic, (reachable_wf false); [apply reachable_client_table|]. Qed.

(** With multiplexing, when all connections are made by knocking, the
    broker never panics, however often an id is knocked for. *)
Theorem GRPCBroker_mux_no_panic ls b :
  exec ls newGRPCBroker = Some b → (∀ tid id, GDial tid id ∉ ls) → panicked (gb_client b) = false.
Proof.
  intros He Hls. assert (∀ b0, unclosed (gb_client b0) → exec ls b0 = Some b → unclosed (gb_client b)) as Hind.
  { clear He. induction ls as [|l ls IH]; intros b0 Hu; simpl; [by intros [= <-]|].
    intros (b1 & Hs & He)%bind_Some. apply (IH ltac:(set_solver) b1); [|done].
    destruct (client_step_table l b0 b1 Hs) as [->|(tl & Ht & Hd)]; [done|].
    eapply table_step_unclosed; [|exact Ht|done]. intros tid id ->.
    apply (Hls tid id). rewrite Hd. left. }
  apply (Hind newGRPCBroker); [|done]. split_and!; [done|..]; intros *; simpl; by rewrite lookup_empty.
Qed.

(** An address sent by [Accept] is the one [Dial] connects to: without an
    address translator, the peer resolves the message of a Unix listener to the
    listener's own address. *)
Theorem Accept_Dial_address A env cfg H id o sent o' sent' l :
  GOOS A ≠ "windows" →
  Accept_listener A env cfg None None id (o, sent) = ((o', sent'), Ret l) →
  ∃ msg, sent' = sent ++ [msg] ∧ ServiceId msg = id ∧ serverKnock msg = false ∧
    dial_address H None msg = Ret (Listener_Addr l) ∧ Listener_Addr l ∈ listening o'.
Proof.
  intros Hgo. unfold Accept_listener, serverListener. rewrite decide_False by done. simpl.
  unfold bind. destruct (serverListenerUnix A cfg o) as [o1 [r|e|p]] eqn:Hl; [|done..].
  unfold ret. simpl. intros [= <- <- <-].
  apply serverListenerUnix_spec in Hl as (path & f & _ & -> & Hlis & _). simpl in *.
  eexists. split_and!; [done..|]. rewrite Hlis. left.
Qed.

(** A dialled connection has the broker's credentials, and its dialer knocks for
    the id or connects to the address the message for the id held, unless the
    caller's options override them. *)
Theorem DialWithOptions_dials NewClient H tls translate muxed id info opts conn :
  DialWithOptions NewClient H tls translate muxed id info opts = Ret conn →
  last_option credentials opts = None → last_option context_dialer opts = None →
  last_option credentials (gc_options conn) = Some tls ∧
  ((muxed = true ∧ last_option context_dialer (gc_options conn) = Some (MuxDialer id)) ∨
   (muxed = false ∧ ∃ c addr, info = Ret c ∧ dial_address H translate c = Ret addr ∧
      last_option context_dialer (gc_options conn) = Some (NetAddrDialer addr))).
Proof.
  unfold DialWithOptions. intros Hd Hc Hx. destruct muxed.
  - apply dialGRPCConn_last in Hd as (_ & -> & -> & _). rewrite Hc, Hx. eauto.
  - apply res_bind_Ret in Hd as (c & -> & Hd). apply res_bind_Ret in Hd as (addr & Ha & Hd).
    apply dialGRPCConn_last in Hd as (_ & -> & -> & _). rewrite Hc, Hx. eauto 10.
Qed.

(** [Accept] leaks its listener when the address cannot be translated or
    sent: the error is returned and the listener stays open. *)
Theorem Accept_leaks_listener A env cfg tr send_err id o sent o1 l e :
  serverListener A env cfg o = (o1, Ret l) →
  (Accept_listener A env cfg tr send_err id (o, sent)).2 = Err e →
  (Accept_listener A env cfg tr send_err id (o, sent)).1 = (o1, sent).
Proof.
  intros Hl. unfold Accept_listener. simpl. rewrite Hl. repeat case_match; by simplify_eq/=.
Qed.

(** Two knocks for one id: the second is sent 4.9 seconds after the first was
    acknowledged, and its acknowledgement arrives 0.1 seconds later. *)
Definition first_knock : list BrokerStep := [GKnock 0 7; GSent 0 None; GRun 0 (ack_msg 7 ""); GKnockReceive 0].
Definition second_knock : list BrokerStep :=
  [GTick 4900000000; GKnock 1 7; GSent 1 None; GTick 100000000; GWaitTimeout 0; GRun 1 (ack_msg 7 "");
   GTick 4900000000; GKnockTimeout 1].
Definition after_first : GRPCBroker := default newGRPCBroker (exec first_knock newGRPCBroker).
Definition after_second : GRPCBroker := default newGRPCBroker (exec second_knock after_first).

(** An acknowledged knock can still time out: [knock] never closes the
    entry's [doneCh], so the [timeoutWait] of an earlier knock for the same id
    outlives it and deletes the entry the next knock waits on; the
    acknowledgement then goes to a new entry nobody reads. *)
Theorem knock_misses_its_ack :
  exec first_knock newGRPCBroker = Some after_first ∧ gb_knocked after_first = [(7, Ret tt)] ∧
  exec second_knock after_first = Some after_second ∧
  gb_knocked after_second =
    [(7, Err (Wrapf "%w: multiplexing knock handshake on id %d" ["7"] ErrBrokerTimeout)); (7, Ret tt)] ∧
  arrived (gb_client after_second) = [(7, ack_msg 7 ""); (7, ack_msg 7 "")].
Proof. split_and!; vm_compute; reflexivity. Qed.

(** A listener closed before its [listenForKnocks] goroutine ran: the goroutine
    looks the id up again, makes a new entry whose [doneCh] nobody will close,
    and keeps acknowledging knocks for a listener that is gone. *)
Definition closed_early : list BrokerStep :=
  [GAccept 0 7 None; GListenerClose 0; GListenStart 0; GRun 0 (knock_msg 7); GListen 0 0 None; GSent 0 None].
Theorem listenForKnocks_outlives_listener :
  ∃ b, exec closed_early newGRPCBroker = Some b ∧ gb_sent b = [ack_msg 7 ""] ∧
    (ml_loop <$> gb_listeners b !! 0%nat) = Some (LSelect 1) ∧ streams (gb_server b) !! 7 = Some 1%nat ∧
    ∀ b', listener_close 0 b = Some b' → listen_done 0 b' = None.
Proof.
  eexists. split; [vm_compute; reflexivity|]. split_and!; [reflexivity..|].
  intros b' Hb. vm_compute in Hb. injection Hb as <-. reflexivity.
Qed.

(** ** Concrete instances *)

(** A knock received by the listening side, which acknowledges it. *)
Definition ex_listening_steps : list BrokerStep :=
  [GAccept 0 7 None; GListenStart 0; GRun 0 (knock_msg 7); GListen 0 0 None; GSent 0 None; GListenerClose 0;
   GListenDone 0].
Definition ex_broker : GRPCBroker := default newGRPCBroker (exec ex_listening_steps newGRPCBroker).

Lemma ex_broker_exec : exec ex_listening_steps newGRPCBroker = Some ex_broker.
Proof. vm_compute. reflexivity. Qed.
Lemma ex_broker_reachable : reachable ex_broker.
Proof. apply (exec_reachable ex_listening_steps newGRPCBroker); [by apply reachable_init|exact ex_broker_exec]. Qed.

Example GRPCBroker_routes_witness :
  gb_sent ex_broker = [ack_msg 7 ""] ∧ ∀ id e, (id, e) ∈ gb_failed ex_broker → ack_failure e.
Proof.
  split; [vm_compute; reflexivity|].
  exact (proj1 (proj2 (GRPCBroker_routes ex_broker ex_broker_reachable))).
Defined.

Definition ex_dial_steps : list BrokerStep :=
  [GDial 0 3; GRun 0 (MkConnInfo 3 "unix" "/tmp/s" None); GDialReceive 0; GRun 1 (MkConnInfo 3 "unix" "/tmp/s" None);
   GWaitDone 0].
Definition ex_dialled : GRPCBroker := default newGRPCBroker (exec ex_dial_steps newGRPCBroker).
Lemma ex_dialled_reachable : reachable ex_dialled.
Proof. apply (exec_reachable ex_dial_steps newGRPCBroker); [by apply reachable_init|vm_compute; reflexivity]. Qed.
Lemma ex_dialled_once : NoDup (called (gb_client ex_dialled)).
Proof. apply (bool_decide_unpack _). vm_compute. exact I. Qed.

Example GRPCBroker_no_panic_witness :
  length (arrived (gb_client ex_dialled)) = 2%nat ∧ panicked (gb_client ex_dialled) = false.
Proof.
  split; [vm_compute; reflexivity|]. exact (GRPCBroker_no_panic ex_dialled ex_dialled_reachable ex_dialled_once).
Defined.

Example GRPCBroker_mux_no_panic_witness : panicked (gb_client ex_broker) = false.
Proof.
  apply (GRPCBroker_mux_no_panic ex_listening_steps ex_broker ex_broker_exec).
  intros tid id. unfold ex_listening_steps. rewrite !not_elem_of_cons. split_and!; try discriminate.
  apply not_elem_of_nil.
Defined.

Definition ex_accept_cfg : UnixSocketConfig := MkUnixSocket "" "" "/tmp".

Example Accept_Dial_address_witness :
  dial_address ex_hsenv None (MkConnInfo 9 "unix" "/tmp/plugin123" None) = Ret (MkAddr "unix" "/tmp/plugin123").
Proof.
  destruct (Accept_Dial_address ex_os ∅ ex_accept_cfg ex_hsenv 9 (MkOS ∅ []) []
    (Accept_listener ex_os ∅ ex_accept_cfg None None 9 (MkOS ∅ [], [])).1.1
    [MkConnInfo 9 "unix" "/tmp/plugin123" None]
    (UnixRmListener (MkRmListener (MkAddr "unix" "/tmp/plugin123") "/tmp/plugin123")))
    as (msg & Heq & _ & _ & H & _); [discriminate|vm_compute; reflexivity|].
  injection Heq as <-. exact H.
Defined.

Example Accept_leaks_listener_witness :
  listening (Accept_listener ex_os ∅ ex_accept_cfg None (Some EOF) 9 (MkOS ∅ [], [])).1.1 =
  [MkAddr "unix" "/tmp/plugin123"].
Proof.
  rewrite (Accept_leaks_listener ex_os ∅ ex_accept_cfg None (Some EOF) 9 (MkOS ∅ []) []
    (serverListener ex_os ∅ ex_accept_cfg (MkOS ∅ [])).1
    (UnixRmListener (MkRmListener (MkAddr "unix" "/tmp/plugin123") "/tmp/plugin123")) EOF);
    vm_compute; reflexivity.
Defined.
