(* ===== verification/Streamer.v ===== *)
(** * The broker's message stream

    grpc_broker.go: [gRPCBrokerServer] and [gRPCBrokerClientImpl], the two
    implementations of the [streamer] interface.  [Send] hands a message to the
    goroutine of [StartStream] that calls the gRPC stream and waits for its
    answer; the other half of [StartStream] receives messages and hands them to
    [Recv]; [Close] ends both.  The two implementations differ only in that the
    client opens the gRPC stream itself, which may fail. *)

From S2P Require Import Prelude GoStd Config GRPCBroker.

(** ** State *)

(** A call of [Send]: in its [select], waiting on [ch], or returned. *)
Inductive SendState : Type :=
| Offering (m : ConnInfo)
| Handed (m : ConnInfo)
| Replied (m : ConnInfo) (r : res error unit).

(** The sending goroutine: not started, in its [select], with a message in
    hand (to be sent and answered), or returned. *)
Inductive SendLoop : Type := SendOff | SendSelect | SendBusy (tid : nat) (m : ConnInfo) | SendEnd.

(** The receiving loop: not started, in [stream.Recv], in the [select] with a
    message, or returned. *)
Inductive RecvLoop : Type := RecvOff | RecvWait | RecvHolds (m : ConnInfo) | RecvEnd.

Record streamer : Type := MkStreamer {
  so_quit : bool;                       (* the quit channel is closed *)
  so_closes : nat;                      (* how often [close(s.quit)] ran *)
  so_ctx : bool;                        (* the stream's context is done *)
  so_sends : gmap nat SendState;        (* the calls of Send *)
  so_send : SendLoop;
  so_recv : RecvLoop;
  so_out : list (nat * ConnInfo);       (* sent on the gRPC stream, with the call *)
  so_in : list ConnInfo;                (* received from the gRPC stream *)
  so_got : list ConnInfo                (* returned by Recv *)
}.

Definition newStreamer : streamer := MkStreamer false 0 false ∅ SendOff RecvOff [] [] [].

Definition set_send (sends : gmap nat SendState) (loop : SendLoop) (out : list (nat * ConnInfo)) (s : streamer)
    : streamer :=
  MkStreamer (so_quit s) (so_closes s) (so_ctx s) sends loop (so_recv s) out (so_in s) (so_got s).
Definition set_recv (loop : RecvLoop) (inp got : list ConnInfo) (s : streamer) : streamer :=
  MkStreamer (so_quit s) (so_closes s) (so_ctx s) (so_sends s) (so_send s) loop (so_out s) inp got.

(** ** Operations *)

(** [Close]: [s.o.Do(func() { close(s.quit) })] *)
Definition streamer_Close (s : streamer) : streamer :=
  if so_quit s then s
  else MkStreamer true (S (so_closes s)) (so_ctx s) (so_sends s) (so_send s) (so_recv s)
         (so_out s) (so_in s) (so_got s).

(** What [Send] returns: nil, the error of a closed streamer, or gRPC's. *)
Definition send_result (err : option (option string)) : res error unit :=
  match err with Some grpc => Err (send_error grpc) | None => Ret tt end.
Definition broker_closed : error := send_error None.

(** [StartStream]: the client's stream may fail to open, which closes the
    streamer; otherwise both loops start. *)
Definition StartStream (open : option error) (s : streamer) : option streamer :=
  match so_send s, so_recv s with
  | SendOff, RecvOff =>
      match open with
      | Some _ => Some (streamer_Close (set_recv RecvEnd (so_in s) (so_got s)
                          (set_send (so_sends s) SendEnd (so_out s) s)))
      | None => Some (set_recv RecvWait (so_in s) (so_got s) (set_send (so_sends s) SendSelect (so_out s) s))
      end
  | _, _ => None
  end.

(** *** [Send] *)

(** A call makes its channel and enters the [select]. *)
Definition Send_enter (tid : nat) (m : ConnInfo) (s : streamer) : option streamer :=
  if decide (so_sends s !! tid = None) then
    Some (set_send (<[tid := Offering m]> (so_sends s)) (so_send s) (so_out s) s)
  else None.

(** [case <-s.quit: return errors.New("broker closed")] *)
Definition Send_quit (tid : nat) (s : streamer) : option streamer :=
  match so_quit s, so_sends s !! tid with
  | true, Some (Offering m) =>
      Some (set_send (<[tid := Replied m (Err broker_closed)]> (so_sends s)) (so_send s) (so_out s) s)
  | _, _ => None
  end.

(** *** The sending goroutine of [StartStream] *)

(** [s.send <- &sendErr{...}] of a call meets [se := <-s.send] of the loop. *)
Definition sender_take (tid : nat) (s : streamer) : option streamer :=
  match so_send s, so_sends s !! tid with
  | SendSelect, Some (Offering m) =>
      Some (set_send (<[tid := Handed m]> (so_sends s)) (SendBusy tid m) (so_out s) s)
  | _, _ => None
  end.

(** [err := stream.Send(se.i); se.ch <- err], and the call returns [<-ch]. *)
Definition sender_answer (err : option string) (s : streamer) : option streamer :=
  match so_send s with
  | SendBusy tid m =>
      let r := send_result (Some <$> err) in
      let out := match err with Some _ => so_out s | None => so_out s ++ [(tid, m)] end in
      Some (set_send (<[tid := Replied m r]> (so_sends s)) SendSelect out s)
  | _ => None
  end.

(** [case <-doneCh: return] and [case <-s.quit: return] *)
Definition sender_stop (s : streamer) : option streamer :=
  match so_send s with
  | SendSelect => if so_ctx s || so_quit s then Some (set_send (so_sends s) SendEnd (so_out s) s) else None
  | _ => None
  end.

(** *** The receiving loop of [StartStream], and [Recv] *)

(** [i, err := stream.Recv()]; an error returns, which closes the streamer. *)
Definition receiver_take (r : option ConnInfo) (s : streamer) : option streamer :=
  match so_recv s, r with
  | RecvWait, Some m => Some (set_recv (RecvHolds m) (so_in s ++ [m]) (so_got s) s)
  | RecvWait, None => Some (streamer_Close (set_recv RecvEnd (so_in s) (so_got s) s))
  | _, _ => None
  end.

(** [s.recv <- i] meets [case i := <-s.recv: return i, nil] of [Recv]. *)
Definition Recv (s : streamer) : option streamer :=
  match so_recv s with
  | RecvHolds m => Some (set_recv RecvWait (so_in s) (so_got s ++ [m]) s)
  | _ => None
  end.

(** [case <-doneCh: return nil] and [case <-s.quit: return nil] *)
Definition receiver_stop (s : streamer) : option streamer :=
  match so_recv s with
  | RecvHolds m =>
      if so_ctx s || so_quit s then Some (streamer_Close (set_recv RecvEnd (so_in s) (so_got s) s)) else None
  | _ => None
  end.

(** The context of the gRPC stream ends, on either side's initiative. *)
Definition context_done (s : streamer) : streamer :=
  MkStreamer (so_quit s) (so_closes s) true (so_sends s) (so_send s) (so_recv s) (so_out s) (so_in s) (so_got s).

#[export] Hint Unfold Send_enter Send_quit sender_take sender_answer sender_stop receiver_take Recv receiver_stop
  context_done : streamer.

(** The cases of the [select] statements and the calls between them. *)
Inductive StreamStep : Type :=
| TStart (open : option error)
| TSend (tid : nat) (m : ConnInfo)            (* a call of Send *)
| THand (tid : nat)                           (* s.send <- se *)
| TAnswer (err : option string)               (* err := stream.Send(se.i); se.ch <- err *)
| TSendQuit (tid : nat)                       (* Send: <-s.quit *)
| TSendStop                                   (* the sending goroutine: <-doneCh or <-s.quit *)
| TRecv (r : option ConnInfo)                 (* stream.Recv; None is an error *)
| TDeliver                                    (* s.recv <- i, taken by Recv *)
| TRecvStop                                   (* the receiving loop: <-doneCh or <-s.quit *)
| TClose
| TContextDone.

Definition stream_step (l : StreamStep) (s : streamer) : option streamer :=
  match l with
  | TStart open => StartStream open s
  | TSend tid m => Send_enter tid m s
  | THand tid => sender_take tid s
  | TAnswer err => sender_answer err s
  | TSendQuit tid => Send_quit tid s
  | TSendStop => sender_stop s
  | TRecv r => receiver_take r s
  | TDeliver => Recv s
  | TRecvStop => receiver_stop s
  | TClose => Some (streamer_Close s)
  | TContextDone => Some (context_done s)
  end.

#[export] Instance streamer_lts : LTS streamer StreamStep := {|
  lts_init s := s = newStreamer;
  lts_step := stream_step
|}.

(** ** The invariant *)

(** What holds also between the return of the receiving loop and its deferred
    [Close]. *)
Record stream_pre (s : streamer) : Prop := MkStreamPre {
  iv_closes : so_closes s = if so_quit s then 1%nat else 0%nat;
  iv_busy : ∀ tid m, so_send s = SendBusy tid m → so_sends s !! tid = Some (Handed m);
  iv_handed : ∀ tid m, so_sends s !! tid = Some (Handed m) → so_send s = SendBusy tid m;
  iv_sent : ∀ tid m, so_sends s !! tid = Some (Replied m (Ret tt)) ↔ (tid, m) ∈ so_out s;
  iv_nodup : NoDup (so_out s).*1;
  iv_recv : match so_recv s with
            | RecvOff => so_in s = [] ∧ so_got s = []
            | RecvWait => so_got s = so_in s
            | RecvHolds m => so_got s ++ [m] = so_in s
            | RecvEnd => so_got s = so_in s ∨ ∃ m, so_got s ++ [m] = so_in s
            end
}.

Definition stream_inv (s : streamer) : Prop := stream_pre s ∧ (so_recv s = RecvEnd → so_quit s = true).

Lemma close_inv s : stream_pre s → stream_inv (streamer_Close s).
Proof.
  intros Hp. unfold streamer_Close. destruct (so_quit s) eqn:Hq; [by split|].
  destruct Hp as [Hc ? ? ? ? ?]. rewrite Hq in Hc. split; [|done]. constructor; simpl; try done. by rewrite Hc.
Qed.

(** Replacing the entry of a call that was never answered positively. *)
Lemma sends_insert (sends : gmap nat SendState) (out : list (nat * ConnInfo)) tid st :
  (∀ t m, sends !! t = Some (Replied m (Ret tt)) ↔ (t, m) ∈ out) →
  (∀ m, sends !! tid ≠ Some (Replied m (Ret tt))) → (∀ m, st ≠ Replied m (Ret tt)) →
  ∀ t m, <[tid := st]> sends !! t = Some (Replied m (Ret tt)) ↔ (t, m) ∈ out.
Proof.
  intros Hs Hold Hst t m. destruct (decide (t = tid)) as [->|]; [|by rewrite lookup_insert_ne].
  rewrite lookup_insert_eq. split; [by intros [= Heq]; destruct (Hst m)|].
  intros Hin%Hs. by destruct (Hold m).
Qed.

Lemma send_inv tid st loop s :
  stream_inv s → (∀ m, so_sends s !! tid ≠ Some (Replied m (Ret tt))) → (∀ m, st ≠ Replied m (Ret tt)) →
  (∀ t m, loop = SendBusy t m → <[tid := st]> (so_sends s) !! t = Some (Handed m)) →
  (∀ t m, <[tid := st]> (so_sends s) !! t = Some (Handed m) → loop = SendBusy t m) →
  stream_inv (set_send (<[tid := st]> (so_sends s)) loop (so_out s) s).
Proof.
  intros [[Hc Hb Hh Hs Hn Hr] Hq] Hold Hst Hbusy Hhand. split; [|done].
  constructor; simpl; [done|done|done|by apply sends_insert|done|done].
Qed.

Lemma answer_inv tid m err s :
  stream_inv s → so_send s = SendBusy tid m → so_sends s !! tid = Some (Handed m) →
  stream_inv (set_send (<[tid := Replied m (send_result (Some <$> err))]> (so_sends s))
    SendSelect (match err with Some _ => so_out s | None => so_out s ++ [(tid, m)] end) s).
Proof.
  intros Hinv Hbusy Hsend.
  assert (Hno : ∀ t m' r, <[tid := Replied m r]> (so_sends s) !! t = Some (Handed m') → SendSelect = SendBusy t m').
  { intros t m' r. destruct Hinv as [[_ _ Hh _ _ _] _]. destruct (decide (t = tid)) as [->|];
      [by rewrite lookup_insert_eq|rewrite lookup_insert_ne by done]. intros Ht%Hh. congruence. }
  destruct err as [e|]; [apply send_inv; try done; [by rewrite Hsend|intros t m'; apply Hno]|].
  destruct Hinv as [[Hc Hb Hh Hs Hn Hr] Hq]. split; [|done].
  assert (Hfresh : tid ∉ (so_out s).*1).
  { rewrite list_elem_of_fmap. intros ([t m'] & -> & Hin%Hs). simpl in *. congruence. }
  constructor; simpl; [done|done|intros t m'; apply Hno|..|done].
  - intros t m'. rewrite elem_of_app, list_elem_of_singleton. destruct (decide (t = tid)) as [->|].
    + rewrite lookup_insert_eq. split; [intros [= <-]; by right|]. intros [Hin|[= ->]]; [|done].
      destruct Hfresh. rewrite list_elem_of_fmap. by exists (tid, m').
    + rewrite lookup_insert_ne by done. rewrite Hs. naive_solver.
  - rewrite fmap_app, NoDup_app. split; [done|]. split; [|apply NoDup_singleton].
    intros x Hx Hy. apply list_elem_of_singleton in Hy as ->. done.
Qed.

Lemma stream_step_inv l s s' : stream_step l s = Some s' → stream_inv s → stream_inv s'.
Proof.
  intros H Hinv. pose proof Hinv as [[Hc Hb Hh Hs Hn Hr] Hq].
  destruct l as [open|tid m|tid|err|tid| |r| | | |]; simpl in H; autounfold with streamer in H.
  - unfold StartStream in H. destruct (so_send s) eqn:Hsend; try discriminate.
    destruct (so_recv s) eqn:Hrecv; try discriminate. destruct Hr as [Hi Hg].
    destruct open; injection H as <-; [apply close_inv|split; [|done]]; constructor; simpl; try done;
      try (intros ? ? Hx%Hh; congruence); by rewrite Hi, Hg; auto.
  - case_decide as Hf; [|done]. injection H as <-. apply send_inv; try done; [by rewrite Hf|..].
    + intros t m' Ht. rewrite lookup_insert_ne; [by apply Hb|]. intros ->. by rewrite (Hb _ _ Ht) in Hf.
    + intros t m'. rewrite lookup_insert_Some. intros [[_ [=]]|[_ Ht]]. by apply Hh.
  - destruct (so_send s) eqn:Hsend; try discriminate.
    destruct (so_sends s !! tid) as [[m|m|m r]|] eqn:Htid; try discriminate. injection H as <-.
    apply send_inv; try done; [by rewrite Htid|..].
    + intros t m' [= <- <-]. by rewrite lookup_insert_eq.
    + intros t m'. rewrite lookup_insert_Some. intros [[<- [= <-]]|[_ Ht%Hh]]; congruence.
  - destruct (so_send s) as [| |tid m|] eqn:Hsend; try discriminate. injection H as <-.
    apply answer_inv; [done|done|by apply Hb].
  - destruct (so_quit s) eqn:Hquit; [|done].
    destruct (so_sends s !! tid) as [[m|m|m r]|] eqn:Htid; try discriminate. injection H as <-.
    apply send_inv; try done; [by rewrite Htid|..].
    + intros t m' Ht. rewrite lookup_insert_ne; [by apply Hb|]. intros ->. by rewrite (Hb _ _ Ht) in Htid.
    + intros t m'. rewrite lookup_insert_Some. intros [[_ [=]]|[_ Ht]]. by apply Hh.
  - destruct (so_send s) eqn:Hsend; try discriminate. destruct (so_ctx s || so_quit s); [|done].
    injection H as <-. split; [|done]. constructor; simpl; try done. intros ? ? Hx%Hh. congruence.
  - destruct (so_recv s) eqn:Hrecv; try discriminate. destruct r as [m|]; injection H as <-.
    + split; [|done]. constructor; simpl; try done. by rewrite Hr.
    + apply close_inv. constructor; simpl; try done. by left.
  - destruct (so_recv s) as [| |m|] eqn:Hrecv; try discriminate. injection H as <-.
    split; [|done]. constructor; simpl; done.
  - destruct (so_recv s) as [| |m|] eqn:Hrecv; try discriminate. destruct (so_ctx s || so_quit s); [|done].
    injection H as <-. apply close_inv. constructor; simpl; try done. by right; exists m.
  - injection H as <-. by apply close_inv, Hinv.
  - injection H as <-. split; [|done]. constructor; simpl; done.
Qed.

Lemma stream_reachable_inv s : reachable s → stream_inv s.
Proof.
  apply (invariant_reachable stream_inv).
  - intros s0 ->. split; [|done]. constructor; simpl; try done; [set_solver|]. by constructor.
  - intros l s0 s1 Hi Hs. by eapply stream_step_inv.
Qed.

(** Both loops start together, and the sending goroutine ends only with the
    context or the streamer. *)
Definition loops_ok (s : streamer) : Prop :=
  (so_send s = SendOff ↔ so_recv s = RecvOff) ∧ (so_send s = SendEnd → so_ctx s = true ∨ so_quit s = true).

Lemma close_loops s :
  (so_send s = SendOff ↔ so_recv s = RecvOff) → loops_ok (streamer_Close s).
Proof. intros H. unfold streamer_Close. destruct (so_quit s) eqn:Hq; split; auto. Qed.

Lemma stream_step_loops l s s' : stream_step l s = Some s' → loops_ok s → loops_ok s'.
Proof.
  intros H Hl. pose proof Hl as [Hoff Hend].
  destruct l as [open|tid m|tid|err|tid| |r| | | |]; simpl in H; unfold StartStream in H; autounfold with streamer in H;
    repeat (case_match; try discriminate); simplify_eq; try done; try (apply close_loops; simpl; naive_solver);
    split; simpl; try naive_solver.
  intros _. by apply orb_true_iff.
Qed.

Lemma stream_reachable_loops s : reachable s → loops_ok s.
Proof. apply (invariant_reachable loops_ok); [by intros s0 ->|intros l s0 s1 Hi Hs; by eapply stream_step_loops]. Qed.

(** The run [ls] makes the call [tid] of [Send] return [r]. *)
Definition answered_by (ls : list StreamStep) (s : streamer) (tid : nat) (m : ConnInfo) (r : res error unit) : Prop :=
  ∃ s', exec ls s = Some s' ∧ so_sends s' !! tid = Some (Replied m r).

Lemma quit_answers s tid m :
  so_quit s = true → so_sends s !! tid = Some (Offering m) → answered_by [TSendQuit tid] s tid m (Err broker_closed).
Proof.
  intros Hq Hm. unfold answered_by. simpl. unfold Send_quit. rewrite Hq, Hm. eexists. split; [done|].
  simpl. by rewrite lookup_insert_eq.
Qed.

Lemma select_answers s tid m err :
  so_send s = SendSelect → so_sends s !! tid = Some (Offering m) →
  answered_by [THand tid; TAnswer err] s tid m (send_result (Some <$> err)).
Proof.
  intros Hs Hm. unfold answered_by. simpl. unfold sender_take. rewrite Hs, Hm. simpl. eexists. split; [done|].
  simpl. by rewrite lookup_insert_eq.
Qed.

(** The end of the receiving loop closes the streamer and leaves the calls. *)
Lemma receiver_end_answers s tid m :
  so_recv s ≠ RecvOff → so_recv s ≠ RecvEnd → so_ctx s = true → so_sends s !! tid = Some (Offering m) →
  ∃ l, (l = TRecv None ∨ l = TRecvStop) ∧ answered_by [l; TSendQuit tid] s tid m (Err broker_closed).
Proof.
  intros Hoff Hend Hc Hm.
  assert (∀ l s1, stream_step l s = Some (streamer_Close s1) → so_sends s1 = so_sends s →
    answered_by [l; TSendQuit tid] s tid m (Err broker_closed)) as Hl.
  { intros l s1 Hs Hs1. destruct (quit_answers (streamer_Close s1) tid m) as (s2 & He & Hs2).
    1,2: unfold streamer_Close; destruct (so_quit s1) eqn:?; simpl; congruence.
    exists s2. split; [|done]. cbn [exec]. change (lts_step l s) with (stream_step l s). by rewrite Hs. }
  destruct (so_recv s) as [| |mr|] eqn:Hr; try done; [exists (TRecv None)|exists TRecvStop]; (split; [auto|]);
    (eapply Hl; [simpl; unfold receiver_take, receiver_stop; by rewrite Hr, ?Hc|done]).
Qed.

(** ** Properties *)

(** C21: [Send] answers truthfully: it returns nil exactly for the messages that
    went out on the gRPC stream, each of them once; the quit channel is closed
    at most once. *)
Theorem Send_exactly_once s :
  reachable s →
  (∀ tid m, so_sends s !! tid = Some (Replied m (Ret tt)) ↔ (tid, m) ∈ so_out s) ∧
  NoDup (so_out s).*1 ∧ (so_closes s ≤ 1)%nat.
Proof. intros [[Hc _ _ Hs Hn _] _]%stream_reachable_inv. split_and!; [done|done|]. case_match; lia. Qed.

(** [Recv] returns the peer's messages in the order they came, without loss
    or duplication; at most the last one is dropped, when the stream ends. *)
Theorem Recv_in_order s :
  reachable s →
  ∃ lost, so_got s ++ lost = so_in s ∧ (length lost ≤ 1)%nat ∧
    (so_recv s = RecvWait → lost = []).
Proof.
  intros [[_ _ _ _ _ Hr] _]%stream_reachable_inv. destruct (so_recv s).
  - destruct Hr as [-> ->]. exists []. split_and!; simpl; done || lia.
  - exists []. rewrite app_nil_r. simpl. split_and!; [done|lia|done].
  - exists [m]. split_and!; [done|simpl; lia|done].
  - destruct Hr as [->|[m <-]]; [exists []; rewrite app_nil_r|exists [m]]; split_and!; simpl; done || lia.
Qed.

(** C28: once [StartStream] runs or the streamer is closed, no call of [Send] is
    left waiting.  One that handed its message over is the one the sending
    goroutine answers next.  One still in its [select] returns by the closed
    [quit], or hands its message to the sending goroutine, which answers it
    after the message it may be busy with; if that goroutine has returned, it
    did so on a closed [quit] or a finished context, and with a finished context
    the end of the receiving loop, the error of [stream.Recv] or its own
    [doneCh] case, closes [quit].  Only before [StartStream] does a call wait:
    neither case of its [select] is ready. *)
Theorem Send_not_stuck s tid m :
  reachable s →
  (so_sends s !! tid = Some (Handed m) → ∀ err, answered_by [TAnswer err] s tid m (send_result (Some <$> err))) ∧
  (so_sends s !! tid = Some (Offering m) →
    (so_quit s = true → answered_by [TSendQuit tid] s tid m (Err broker_closed)) ∧
    match so_send s with
    | SendOff => so_quit s = false → stream_step (TSendQuit tid) s = None ∧ stream_step (THand tid) s = None
    | SendSelect => ∀ err, answered_by [THand tid; TAnswer err] s tid m (send_result (Some <$> err))
    | SendBusy _ _ => ∀ err' err,
        answered_by [TAnswer err'; THand tid; TAnswer err] s tid m (send_result (Some <$> err))
    | SendEnd => so_quit s = false → so_ctx s = true ∧
        ∃ l, (l = TRecv None ∨ l = TRecvStop) ∧ answered_by [l; TSendQuit tid] s tid m (Err broker_closed)
    end).
Proof.
  intros Hr. destruct (stream_reachable_inv s Hr) as [[_ Hb Hh _ _ _] Hq].
  destruct (stream_reachable_loops s Hr) as [Hoff Hend]. split.
  - intros Hm err. unfold answered_by. simpl. unfold sender_answer. rewrite (Hh _ _ Hm). eexists. split; [done|].
    simpl. by rewrite lookup_insert_eq.
  - intros Hm. split; [intros; by apply quit_answers|]. destruct (so_send s) as [| |t m'|] eqn:Hs.
    + intros Hnq. simpl. unfold Send_quit, sender_take. by rewrite Hnq, Hs.
    + intros err. by apply select_answers.
    + intros err' err. assert (t ≠ tid) by (intros ->; rewrite (Hb _ _ eq_refl) in Hm; done).
      assert (∃ s1, stream_step (TAnswer err') s = Some s1 ∧ so_send s1 = SendSelect ∧
        so_sends s1 !! tid = Some (Offering m)) as (s1 & He & H1 & H2).
      { simpl. unfold sender_answer. rewrite Hs. eexists. split_and!; [done..|]. simpl. by rewrite lookup_insert_ne. }
      destruct (select_answers s1 tid m err H1 H2) as (s2 & He2 & Hs2). exists s2. split; [|done].
      cbn [exec]. change (lts_step (TAnswer err') s) with (stream_step (TAnswer err') s). by rewrite He.
    + intros Hnq. destruct (Hend eq_refl) as [Hc|?]; [|congruence]. split; [done|].
      apply receiver_end_answers; try done; [by intros ?%Hoff|intros ?%Hq; congruence].
Qed.

(** ** Concrete instances *)

Definition ex_msg (id : Z) : ConnInfo := MkConnInfo id "unix" "/tmp/s" None.
Definition ex_stream_steps : list StreamStep :=
  [TSend 0 (ex_msg 1); TSend 1 (ex_msg 2); TStart None; THand 1; TRecv (Some (ex_msg 8)); TAnswer None; TDeliver;
   TSend 2 (ex_msg 3); THand 0; TRecv (Some (ex_msg 9)); TClose; TRecvStop].
Definition ex_streamer : streamer := default newStreamer (exec ex_stream_steps newStreamer).

Lemma ex_streamer_reachable : reachable ex_streamer.
Proof.
  apply (exec_reachable ex_stream_steps newStreamer); [by apply reachable_init|vm_compute; reflexivity].
Qed.

Lemma Send_exactly_once_witness : so_out ex_streamer = [(1%nat, ex_msg 2)] ∧ (so_closes ex_streamer ≤ 1)%nat.
Proof. split; [vm_compute; reflexivity|]. apply (Send_exactly_once ex_streamer ex_streamer_reachable). Defined.

Lemma Recv_in_order_witness :
  so_got ex_streamer = [ex_msg 8] ∧ ∃ lost, so_got ex_streamer ++ lost = so_in ex_streamer ∧ (length lost ≤ 1)%nat ∧
    (so_recv ex_streamer = RecvWait → lost = []).
Proof. split; [vm_compute; reflexivity|]. apply (Recv_in_order ex_streamer ex_streamer_reachable). Defined.

(** The context ends and the sending goroutine returns while a call waits. *)
Definition ex_abandoned_steps : list StreamStep := [TStart None; TContextDone; TSendStop; TSend 4 (ex_msg 5)].
Definition ex_abandoned : streamer := default newStreamer (exec ex_abandoned_steps newStreamer).
Lemma ex_abandoned_reachable : reachable ex_abandoned.
Proof.
  apply (exec_reachable ex_abandoned_steps newStreamer); [by apply reachable_init|vm_compute; reflexivity].
Qed.

Lemma Send_not_stuck_witness :
  answered_by [TAnswer None] ex_streamer 0 (ex_msg 1) (Ret tt) ∧
  answered_by [TSendQuit 2] ex_streamer 2 (ex_msg 3) (Err broker_closed) ∧
  ∃ l, (l = TRecv None ∨ l = TRecvStop) ∧
    answered_by [l; TSendQuit 4] ex_abandoned 4 (ex_msg 5) (Err broker_closed).
Proof.
  split; [|split].
  - apply (proj1 (Send_not_stuck ex_streamer 0 (ex_msg 1) ex_streamer_reachable) eq_refl None).
  - apply (proj2 (Send_not_stuck ex_streamer 2 (ex_msg 3) ex_streamer_reachable) eq_refl). reflexivity.
  - apply (proj2 (proj2 (Send_not_stuck ex_abandoned 4 (ex_msg 5) ex_abandoned_reachable) eq_refl) eq_refl).
Defined.
