(* ===== verification/BrokerPair.v ===== *)
(** * Two gRPC brokers

    The host's and the plugin's [GRPCBroker], each with its [streamer], connected
    by the two directions of one gRPC stream.  A broker's call of [Send] is a
    call of its streamer and goes on when that returns; what a streamer hands to
    the gRPC stream arrives at the other one in the same order, as far as it
    arrives; what a streamer's [Recv] returns is routed by [Run].  Both brokers
    work with multiplexing or both without, as [Start] and [Serve] agreed: with
    it connections are made by knocks, without it by [Accept]'s announcements. *)

From S2P Require Import Prelude GoStd Config Rendezvous GRPCBroker Streamer.

(** ** The composed system *)

(** A side: its broker, its streamer, and the messages under way to it. *)
Record Side : Type := MkSide {
  sd_broker : GRPCBroker;
  sd_stream : streamer;
  sd_wire : list ConnInfo
}.

Definition newSide : Side := MkSide newGRPCBroker newStreamer [].

Definition deliver_to (peer : Side) (ms : list ConnInfo) : Side :=
  MkSide (sd_broker peer) (sd_stream peer) (sd_wire peer ++ ms).

(** One side moves: its broker (other than by a message or the return of
    [Send]); its streamer on its own; [stream.Recv] takes the next message;
    [Recv] hands it to [Run]; a call of [Send] returns to the broker. *)
Inductive SideStep : Type :=
| SBroker (l : BrokerStep)
| SStream (l : StreamStep)
| SArrive
| SReceive (wid : nat)
| SReturn (tid : nat) (err : option (option string)).

(** The steps of a broker that need no input. *)
Definition broker_internal (l : BrokerStep) : bool :=
  match l with GRun _ _ | GSent _ _ => false | _ => true end.
Definition stream_internal (l : StreamStep) : bool :=
  match l with TSend _ _ | TDeliver | TRecv (Some _) => false | _ => true end.

(** What [b.muxer.Enabled()] selects in [Accept] and [DialWithOptions]. *)
Definition in_mode (mux : bool) (l : BrokerStep) : bool :=
  match l with
  | GDial _ _ | GDialReceive _ | GDialTimeout _ | GAdvertise _ _ _ _ => negb mux
  | GKnock _ _ | GKnockReceive _ | GKnockTimeout _ | GAccept _ _ _ | GListenStart _ | GListen _ _ _
  | GListenDone _ | GListenerClose _ => mux
  | _ => true
  end.

(** The call of [Send] that a step may begin. *)
Definition send_tid (l : BrokerStep) : option nat :=
  match l with
  | GKnock tid _ | GAdvertise tid _ _ _ | GListen _ tid _ => Some tid
  | _ => None
  end.
Definition began (l : BrokerStep) (b b' : GRPCBroker) : option (nat * SendOp) :=
  tid ← send_tid l;
  match gb_sending b !! tid, gb_sending b' !! tid with
  | None, Some op => Some (tid, op)
  | _, _ => None
  end.

Definition side_step (mux : bool) (l : SideStep) (me peer : Side) : option (Side * Side) :=
  let b := sd_broker me in let s := sd_stream me in
  match l with
  | SBroker l =>
      if broker_internal l && in_mode mux l then
        b' ← broker_step l b;
        s' ← match began l b b' with
             | Some (tid, op) => stream_step (TSend tid (send_msg op)) s
             | None => Some s
             end;
        Some (MkSide b' s' (sd_wire me), peer)
      else None
  | SStream l =>
      if stream_internal l then
        s' ← stream_step l s;
        Some (MkSide b s' (sd_wire me), deliver_to peer (drop (length (so_out s)) (so_out s')).*2)
      else None
  | SArrive =>
      match sd_wire me with
      | m :: rest => s' ← stream_step (TRecv (Some m)) s; Some (MkSide b s' rest, peer)
      | [] => None
      end
  | SReceive wid =>
      match so_recv s with
      | RecvHolds m =>
          s' ← stream_step TDeliver s; b' ← broker_step (GRun wid m) b;
          Some (MkSide b' s' (sd_wire me), peer)
      | _ => None
      end
  | SReturn tid err =>
      match so_sends s !! tid with
      | Some (Replied m r) =>
          if decide (r = send_result err) then
            b' ← broker_step (GSent tid err) b; Some (MkSide b' s (sd_wire me), peer)
          else None
      | _ => None
      end
  end.

Record Pair : Type := MkPair { pr_mux : bool; pr_host : Side; pr_plugin : Side }.

Inductive PairStep : Type := OnHost (l : SideStep) | OnPlugin (l : SideStep).

Definition pair_step (l : PairStep) (p : Pair) : option Pair :=
  match l with
  | OnHost l => '(h, pl) ← side_step (pr_mux p) l (pr_host p) (pr_plugin p); Some (MkPair (pr_mux p) h pl)
  | OnPlugin l => '(pl, h) ← side_step (pr_mux p) l (pr_plugin p) (pr_host p); Some (MkPair (pr_mux p) h pl)
  end.

#[export] Instance pair_lts : LTS Pair PairStep := {|
  lts_init p := ∃ mux, p = MkPair mux newSide newSide;
  lts_step := pair_step
|}.

(** ** What a stream promises *)

(** One direction of the connection, ideally: messages are put in and taken out
    in order; what was not taken out may never be. *)
Record Fifo : Type := MkFifo { ff_put : list ConnInfo; ff_got : list ConnInfo }.
Inductive FifoStep : Type := FPut (m : ConnInfo) | FGet.

Definition fifo_step (l : FifoStep) (f : Fifo) : option Fifo :=
  match l with
  | FPut m => Some (MkFifo (ff_put f ++ [m]) (ff_got f))
  | FGet => m ← ff_put f !! length (ff_got f); Some (MkFifo (ff_put f) (ff_got f ++ [m]))
  end.

#[export] Instance fifo_lts : LTS Fifo FifoStep := {|
  lts_init f := f = MkFifo [] [];
  lts_step := fifo_step
|}.

(** ** Lemmas: one step of a streamer *)

Definition state_msg (st : SendState) : ConnInfo :=
  match st with Offering m | Handed m | Replied m _ => m end.

(** What a step adds to the messages sent, received and returned. *)
Lemma stream_step_grows l s s' :
  stream_step l s = Some s' →
  (∃ new, so_out s' = so_out s ++ new) ∧ (stream_internal l = false → so_out s' = so_out s) ∧
  so_in s' = so_in s ++ match l with TRecv (Some m) => [m] | _ => [] end ∧
  (∃ new, so_got s' = so_got s ++ new) ∧
  (∀ m, l = TDeliver → so_recv s = RecvHolds m → so_got s' = so_got s ++ [m]) ∧
  (stream_internal l = true → so_got s' = so_got s).
Proof.
  assert (∀ {A} (x : list A), ∃ new, x = x ++ new) as Hno by (intros A x; exists []; by rewrite app_nil_r).
  assert (∀ x, so_out (streamer_Close x) = so_out x ∧ so_in (streamer_Close x) = so_in x ∧
    so_got (streamer_Close x) = so_got x) as Hcl by (intros x; unfold streamer_Close; by destruct (so_quit x)).
  intros H. destruct l; simpl in H; unfold StartStream in H; autounfold with streamer in H; repeat case_match; simplify_eq/=;
    rewrite ?(proj1 (Hcl _)), ?(proj1 (proj2 (Hcl _))), ?(proj2 (proj2 (Hcl _))), ?app_nil_r; simpl;
    split_and!; (done || (by eauto) || naive_solver).
Qed.

(** Where the messages of the calls come from. *)
Lemma stream_step_msgs l s s' tid st :
  stream_step l s = Some s' → stream_inv s → so_sends s' !! tid = Some st →
  l = TSend tid (state_msg st) ∨ ∃ st0, so_sends s !! tid = Some st0 ∧ state_msg st0 = state_msg st.
Proof.
  assert (∀ x, so_sends (streamer_Close x) = so_sends x) as Hcl
    by (intros x; unfold streamer_Close; by destruct (so_quit x)).
  intros H [Hp _] Hst. pose proof (iv_busy _ Hp) as Hb.
  destruct l; simpl in H; unfold StartStream in H; autounfold with streamer in H; repeat case_match; simplify_eq/=;
    rewrite ?Hcl in Hst; simpl in Hst; try (right; by eexists);
    rewrite lookup_insert_Some in Hst; destruct Hst as [[<- <-]|[_ Hst]];
    try (right; eexists; split; [eassumption|reflexivity]).
  - by left.
  - right. eexists. by split; [apply Hb|].
  - right. eexists. by split; [apply Hb|].
Qed.

(** ** Lemmas: one step of a broker *)

(** What a step adds to the messages given to [Send]: the one it begins. *)
Lemma broker_step_sent l b b' :
  broker_step l b = Some b' →
  gb_sent b' = gb_sent b ++ match began l b b' with Some (_, op) => [send_msg op] | None => [] end.
Proof.
  assert (∀ tl b1 b2, on_client_table tl b1 = Some b2 → gb_sent b2 = gb_sent b1) as Ht
    by (by intros tl b1 b2 (t & _ & [= <-])%bind_Some).
  assert (∀ tid op b1 b2, call_Send tid op b1 = Some b2 →
    match gb_sending b1 !! tid, gb_sending b2 !! tid with None, Some op' => Some (tid, op') | _, _ => None end =
      Some (tid, op) ∧ gb_sent b2 = gb_sent b1 ++ [send_msg op]) as Hc.
  { intros tid op b1 b2 (_ & _ & _ & Hn & Hs & Ho)%call_Send_frame. by rewrite Hn, Hs, lookup_insert_eq. }
  intros H. destruct l; simpl in H; unfold began; cbn [send_tid mbind option_bind]; rewrite ?app_nil_r.
  - unfold Run_route in H. destruct (serverKnock msg); [by injection H as <-|]. by eapply Ht.
  - by eapply Ht.
  - apply bind_Some in H as (k & _ & H). by eapply Ht.
  - apply bind_Some in H as (k & _ & H). by eapply Ht.
  - apply Hc in H as [-> ->]. done.
  - unfold after_Send, after_ack in H. apply bind_Some in H as (op & _ & H).
    destruct op; [destruct err; [by injection H as <-|by eapply (Ht _ (set_sending _ b))]| |by injection H as <-].
    apply bind_Some in H as (l & _ & H). repeat case_match; by simplify_eq.
  - unfold knock_receive in H. apply bind_Some in H as (k & _ & H).
    apply bind_Some in H as (t & _ & H). destruct (delivered t) as [|[]]; [done|]. by injection H as <-.
  - unfold knock_timeout in H. apply bind_Some in H as (k & _ & H).
    apply bind_Some in H as (t & _ & H). by injection H as <-.
  - apply Hc in H as [-> ->]. done.
  - unfold Accept_mux, getServerStream in H. case_decide; [|done]. destruct (getStream _ _). by injection H as <-.
  - unfold listen_start, getServerStream in H. apply bind_Some in H as (l & _ & H). destruct (getStream _ _).
    repeat case_match; by simplify_eq.
  - unfold listen_knock in H. apply bind_Some in H as (l & _ & H). destruct (ml_loop l) as [|ref|ref|]; try done.
    destruct (heap (gb_server b) !! ref) as [[pid [msg|] d]|]; try done.
    destruct (check_knock (ml_id l) msg).
    + injection H as <-. simpl. destruct (gb_sending b !! tid); by rewrite app_nil_r.
    + apply Hc in H as [Heq Hs]. cbn in Heq, Hs. by rewrite Heq, Hs.
  - unfold listen_done in H. apply bind_Some in H as (l & _ & H). repeat case_match; by simplify_eq.
  - unfold listener_close in H. apply bind_Some in H as (l & _ & H).
    apply bind_Some in H as (ref & _ & H). by apply bind_Some in H as (p & _ & [= <-]).
  - by eapply Ht.
  - by eapply Ht.
  - by eapply Ht.
Qed.

(** ** The invariant *)

Definition said (s : Side) (m : ConnInfo) : Prop := m ∈ gb_sent (sd_broker s).

(** A side's streamer is in order and carries only what its broker said. *)
Record own (me : Side) : Prop := MkOwn {
  ow_stream : stream_inv (sd_stream me);
  ow_calls : ∀ tid st, so_sends (sd_stream me) !! tid = Some st → said me (state_msg st)
}.

(** A side has heard its peer: its broker has only messages the peer said, and
    what the peer's streamer sent has been received or is under way. *)
Record heard (me peer : Side) : Prop := MkHeard {
  hd_broker : routed (said peer) (sd_broker me);
  hd_wire : (so_out (sd_stream peer)).*2 = so_in (sd_stream me) ++ sd_wire me
}.

(** What a streamer received was said. *)
Lemma heard_in me peer m : own peer → heard me peer → m ∈ so_in (sd_stream me) → said peer m.
Proof.
  intros [[Hp _] Hc] [_ Hw] Hin.
  assert (m ∈ (so_out (sd_stream peer)).*2) as Hm by (rewrite Hw, elem_of_app; by left).
  apply list_elem_of_fmap in Hm as ([tid m'] & -> & Hout). apply (iv_sent _ Hp) in Hout. exact (Hc _ _ Hout).
Qed.

Lemma holds_in s m : stream_inv s → so_recv s = RecvHolds m → m ∈ so_in s.
Proof. intros [Hp _] Hr. pose proof (iv_recv _ Hp) as H. rewrite Hr in H. rewrite <- H. set_solver. Qed.

(** A step of a side's streamer keeps it in order. *)
Lemma own_stream l me s' b' w :
  own me → stream_step l (sd_stream me) = Some s' → (∀ m, said me m → m ∈ gb_sent b') →
  (∀ tid m, l = TSend tid m → m ∈ gb_sent b') → own (MkSide b' s' w).
Proof.
  intros [Hi Hc] Hs Hmore Hl. split; simpl; [by eapply stream_step_inv|]. unfold said. simpl.
  intros tid st Hst. destruct (stream_step_msgs _ _ _ _ _ Hs Hi Hst) as [->|(st0 & H0 & <-)]; eauto.
Qed.

(** The peer says more, or sends more. *)
Lemma heard_more me me' peer peer' :
  heard me peer → sd_broker me' = sd_broker me → (∀ m, said peer m → said peer' m) →
  (so_out (sd_stream peer')).*2 = so_in (sd_stream me') ++ sd_wire me' → heard me' peer'.
Proof. intros [Hb _] He Hm Hw. split; [|done]. rewrite He. by eapply routed_mono. Qed.

(** The side that moves has still heard its peer. *)
Lemma heard_broker l me peer me' peer' :
  heard me peer → broker_step l (sd_broker me) = Some (sd_broker me') →
  (∀ wid m, l = GRun wid m → said peer m) → sd_broker peer' = sd_broker peer →
  (so_out (sd_stream peer')).*2 = so_in (sd_stream me') ++ sd_wire me' → heard me' peer'.
Proof.
  intros [Hb _] Hs Hl He Hw. split; [|done]. unfold said in *. rewrite He.
  eapply broker_step_routed; [exact Hl|exact Hs|exact Hb].
Qed.

(** The four together, for one pair of sides. *)
Definition linked (me peer : Side) : Prop := own me ∧ own peer ∧ heard me peer ∧ heard peer me.

Lemma linked_broker mux l me peer me' peer' :
  side_step mux (SBroker l) me peer = Some (me', peer') → linked me peer → linked me' peer'.
Proof.
  intros H (Ome & Opeer & Hme & Hpeer). cbn [side_step] in H. destruct (broker_internal l && in_mode mux l) eqn:Hint; [apply andb_true_iff in Hint as [Hint _]|done].
  apply bind_Some in H as (b' & Hb & H). apply bind_Some in H as (s' & Hs & [= <- <-]).
  pose proof (broker_step_sent _ _ _ Hb) as Hsent.
  assert (∀ m, said me m → m ∈ gb_sent b') as Hmore by (intros m Hm; rewrite Hsent, elem_of_app; by left).
  assert (own (MkSide b' s' (sd_wire me)) ∧ so_out s' = so_out (sd_stream me) ∧ so_in s' = so_in (sd_stream me))
    as (Ome' & Hout & Hin).
  { destruct (began l (sd_broker me) b') as [[tid op]|].
    - destruct (stream_step_grows _ _ _ Hs) as (_ & Ho & Hi & _). rewrite (Ho eq_refl), Hi, app_nil_r.
      split; [|done]. eapply own_stream; [exact Ome|exact Hs|done|].
      intros tid' m [= _ <-]. rewrite Hsent, elem_of_app. right. set_solver.
    - injection Hs as <-. split; [|done]. destruct Ome as [Hi Hc]. split; [done|].
      intros tid st Hst. unfold said. simpl. by apply Hmore, (Hc tid). }
  split_and!; [done|done| |].
  - eapply heard_broker; [exact Hme|exact Hb| |done|simpl; rewrite Hin; apply Hme].
    intros wid m ->. done.
  - eapply heard_more; [exact Hpeer|done|exact Hmore|]. simpl. rewrite Hout. apply Hpeer.
Qed.

Lemma linked_stream mux l me peer me' peer' :
  side_step mux (SStream l) me peer = Some (me', peer') → linked me peer → linked me' peer'.
Proof.
  intros H (Ome & Opeer & Hme & Hpeer). cbn [side_step] in H. destruct (stream_internal l) eqn:Hint; [|done].
  apply bind_Some in H as (s' & Hs & [= <- <-]).
  destruct (stream_step_grows _ _ _ Hs) as ((new & Hout) & _ & Hin & _).
  assert (so_in s' = so_in (sd_stream me)) as Hin' by (rewrite Hin; destruct l as [| | | | | |[]| | | |]; by rewrite ?app_nil_r).
  rewrite Hout, drop_app_length. split_and!.
  - eapply own_stream; [exact Ome|exact Hs|done|]. by intros tid m ->.
  - by destruct Opeer.
  - eapply heard_more; [exact Hme|done|done|]. simpl. rewrite Hin'. apply Hme.
  - eapply heard_more; [exact Hpeer|done|done|]. simpl. rewrite Hout, fmap_app, (hd_wire _ _ Hpeer).
    by rewrite <- app_assoc.
Qed.

Lemma linked_arrive mux me peer me' peer' :
  side_step mux SArrive me peer = Some (me', peer') → linked me peer → linked me' peer'.
Proof.
  intros H (Ome & Opeer & Hme & Hpeer). cbn [side_step] in H. destruct (sd_wire me) as [|m rest] eqn:Hw; [done|].
  apply bind_Some in H as (s' & Hs & [= <- <-]).
  destruct (stream_step_grows (TRecv (Some m)) _ _ Hs) as (_ & Hout & Hin & _). split_and!.
  - eapply (own_stream (TRecv (Some m))); [exact Ome|exact Hs|done|done].
  - done.
  - eapply heard_more; [exact Hme|done|done|]. simpl. rewrite Hin, <- app_assoc. simpl.
    rewrite <- Hw. apply Hme.
  - eapply heard_more; [exact Hpeer|done|done|]. simpl. rewrite (Hout eq_refl). apply Hpeer.
Qed.

Lemma linked_receive mux wid me peer me' peer' :
  side_step mux (SReceive wid) me peer = Some (me', peer') → linked me peer → linked me' peer'.
Proof.
  intros H (Ome & Opeer & Hme & Hpeer). cbn [side_step] in H.
  destruct (so_recv (sd_stream me)) as [| |m|] eqn:Hr; try done.
  apply bind_Some in H as (s' & Hs & H). apply bind_Some in H as (b' & Hb & [= <- <-]).
  destruct (stream_step_grows TDeliver _ _ Hs) as (_ & Hout & Hin & _). rewrite app_nil_r in Hin.
  pose proof (broker_step_sent _ _ _ Hb) as Hsent. rewrite app_nil_r in Hsent. split_and!.
  - eapply (own_stream TDeliver); [exact Ome|exact Hs| |done]. intros m'. by rewrite Hsent.
  - done.
  - eapply heard_broker; [exact Hme|exact Hb| |done|simpl; rewrite Hin; apply Hme].
    intros w m' [= <- <-]. eapply heard_in; [exact Opeer|exact Hme|]. apply holds_in; [apply Ome|done].
  - eapply heard_more; [exact Hpeer|done| |simpl; rewrite (Hout eq_refl); apply Hpeer].
    intros m'. unfold said. simpl. by rewrite Hsent.
Qed.

Lemma linked_return mux tid err me peer me' peer' :
  side_step mux (SReturn tid err) me peer = Some (me', peer') → linked me peer → linked me' peer'.
Proof.
  intros H (Ome & Opeer & Hme & Hpeer). cbn [side_step] in H.
  destruct (so_sends (sd_stream me) !! tid) as [[| |m r]|] eqn:Hr; try done. case_decide; [|done].
  apply bind_Some in H as (b' & Hb & [= <- <-]).
  pose proof (broker_step_sent _ _ _ Hb) as Hsent. rewrite app_nil_r in Hsent. split_and!.
  - destruct Ome as [Hi Hc]. split; [done|]. unfold said. simpl. by rewrite Hsent.
  - done.
  - eapply heard_broker; [exact Hme|exact Hb|done|done|apply Hme].
  - eapply heard_more; [exact Hpeer|done| |apply Hpeer]. intros m'. unfold said. simpl. by rewrite Hsent.
Qed.

Lemma side_step_linked mux l me peer me' peer' :
  side_step mux l me peer = Some (me', peer') → linked me peer → linked me' peer'.
Proof.
  destruct l; [apply linked_broker|apply linked_stream|apply linked_arrive|apply linked_receive|apply linked_return].
Qed.

Lemma linked_sym me peer : linked me peer → linked peer me.
Proof. unfold linked. tauto. Qed.

Lemma pair_reachable_linked p : reachable p → linked (pr_host p) (pr_plugin p).
Proof.
  apply (invariant_reachable (λ p, linked (pr_host p) (pr_plugin p))).
  - assert (own newSide) by (split; [apply stream_reachable_inv; by apply reachable_init|by intros]).
    assert (heard newSide newSide) by (split; [apply routed_new|done]). by intros p0 [mux ->].
  - intros [l|l] p0 p1 Hl H; simpl in H; apply bind_Some in H as ([x y] & Hs & [= <-]).
    + by eapply side_step_linked.
    + apply linked_sym. by eapply side_step_linked, linked_sym.
Qed.

Lemma dialled_address me peer id msg :
  linked me peer → (id, msg) ∈ delivered (gb_client (sd_broker me)) → ServiceId msg = id ∧ said peer msg.
Proof.
  intros (_ & _ & Hme & _) Hd.
  by destruct (sh_delivered _ _ (rt_client _ _ (hd_broker _ _ Hme)) _ _ Hd) as [[Hid _] Hsaid].
Qed.

(** What the steps do to the streams. *)
Lemma side_step_streams mux l me peer me' peer' :
  side_step mux l me peer = Some (me', peer') →
  (∃ new, so_out (sd_stream me') = so_out (sd_stream me) ++ new) ∧
  (∃ new, so_got (sd_stream me') = so_got (sd_stream me) ++ new) ∧ sd_stream peer' = sd_stream peer.
Proof.
  assert (∀ {A} (x : list A), ∃ new, x = x ++ new) as Hno by (intros A x; exists []; by rewrite app_nil_r).
  assert (∀ tl s s', stream_step tl s = Some s' →
    (∃ new, so_out s' = so_out s ++ new) ∧ (∃ new, so_got s' = so_got s ++ new)) as Hg.
  { intros tl s s' Hs. destruct (stream_step_grows _ _ _ Hs) as (? & _ & _ & ? & _). done. }
  intros H. destruct l as [l|l| |wid|tid err]; cbn [side_step] in H.
  - destruct (broker_internal l && in_mode mux l); [|done]. apply bind_Some in H as (b' & _ & H).
    apply bind_Some in H as (s' & Hs & [= <- <-]). simpl.
    destruct (began _ _ _) as [[tid op]|]; [destruct (Hg _ _ _ Hs); auto|injection Hs as <-; auto].
  - destruct (stream_internal l); [|done]. apply bind_Some in H as (s' & Hs & [= <- <-]).
    destruct (Hg _ _ _ Hs). auto.
  - destruct (sd_wire me) as [|m rest]; [done|]. apply bind_Some in H as (s' & Hs & [= <- <-]).
    destruct (Hg _ _ _ Hs). auto.
  - destruct (so_recv (sd_stream me)) as [| |m|]; try done. apply bind_Some in H as (s' & Hs & H).
    apply bind_Some in H as (b' & _ & [= <- <-]). destruct (Hg _ _ _ Hs). auto.
  - destruct (so_sends (sd_stream me) !! tid) as [[| |m r]|]; try done. case_decide; [|done].
    apply bind_Some in H as (b' & _ & [= <- <-]). auto.
Qed.

(** What [Recv] returned is what was sent, up to what did not arrive. *)
Lemma linked_prefix me peer :
  linked me peer → so_got (sd_stream me) `prefix_of` (so_out (sd_stream peer)).*2.
Proof.
  intros ([[Hp _] _] & _ & [_ Hw] & _). rewrite Hw. apply prefix_app_r.
  pose proof (iv_recv _ Hp) as Hr. destruct (so_recv (sd_stream me)).
  - destruct Hr as [-> ->]. done.
  - by rewrite Hr.
  - rewrite <- Hr. by apply prefix_app_r.
  - destruct Hr as [->|[m <-]]; [done|by apply prefix_app_r].
Qed.

(** The ideal channel puts [new] in and takes [got] out. *)
Lemma fifo_puts new f : exec (FPut <$> new) f = Some (MkFifo (ff_put f ++ new) (ff_got f)).
Proof.
  revert f. induction new as [|m new IH]; intros [p g]; simpl; [by rewrite app_nil_r|].
  rewrite IH. simpl. by rewrite <- app_assoc.
Qed.

Lemma fifo_gets got f :
  ff_got f ++ got `prefix_of` ff_put f →
  exec (replicate (length got) FGet) f = Some (MkFifo (ff_put f) (ff_got f ++ got)).
Proof.
  revert f. induction got as [|m got IH]; intros [p g]; simpl; [by rewrite app_nil_r|].
  intros Hp. assert (p !! length g = Some m) as ->.
  { destruct Hp as [k ->]. rewrite <- app_assoc. simpl. by rewrite list_lookup_middle. }
  simpl. rewrite IH; simpl; rewrite <- app_assoc; done.
Qed.

Lemma fifo_catch_up put got new1 new2 :
  got ++ new2 `prefix_of` put ++ new1 →
  ∃ ls, exec ls (MkFifo put got) = Some (MkFifo (put ++ new1) (got ++ new2)).
Proof.
  intros Hp. exists ((FPut <$> new1) ++ replicate (length new2) FGet).
  rewrite exec_app, fifo_puts. simpl. by rewrite fifo_gets.
Qed.

(** ** Counting messages *)

Definition count {A} (Q : A → bool) (l : list A) : nat := length (filter (λ x, Q x = true) l).

Lemma count_app {A} (Q : A → bool) l k : count Q (l ++ k) = (count Q l + count Q k)%nat.
Proof. unfold count. by rewrite filter_app, length_app. Qed.
Lemma count_cons {A} (Q : A → bool) x l : count Q (x :: l) = ((if Q x then 1 else 0) + count Q l)%nat.
Proof. unfold count. rewrite filter_cons. destruct (Q x) eqn:H; [by rewrite decide_True|by rewrite decide_False]. Qed.
Lemma count_submseteq {A} (Q : A → bool) l k : l ⊆+ k → (count Q l ≤ count Q k)%nat.
Proof. intros [z Hz]%submseteq_Permutation. assert (count Q k = count Q (l ++ z)) as -> by (unfold count; by rewrite Hz).
  rewrite count_app. lia. Qed.
Lemma count_impl {A} (Q R : A → bool) l :
  (∀ x, Q x = true → R x = true) → (count Q l ≤ count R l)%nat.
Proof.
  intros H. induction l as [|x l IH]; [done|]. rewrite !count_cons. specialize (H x).
  destruct (Q x), (R x); try lia; by specialize (H eq_refl).
Qed.

(** The messages queued in the entries of a table. *)
Definition weight (Q : ConnInfo → bool) (p : Pending ConnInfo) : nat :=
  match p_ch p with Some m => if Q m then 1 else 0 | None => 0 end.
Definition held (Q : ConnInfo → bool) (h : gmap nat (Pending ConnInfo)) : nat :=
  map_fold (λ _ p n, weight Q p + n)%nat 0%nat h.

Lemma held_insert Q h r p :
  (held Q (<[r := p]> h) + default 0 (weight Q <$> h !! r) = held Q h + weight Q p)%nat.
Proof.
  assert (∀ h', h' !! r = None → ∀ q, held Q (<[r := q]> h') = (weight Q q + held Q h')%nat) as Hnew.
  { intros h' Hr q. unfold held. rewrite map_fold_insert_L; [done|intros; lia|done]. }
  destruct (h !! r) as [q|] eqn:Hr; simpl; [|rewrite Hnew by done; lia].
  rewrite <- (insert_delete_id h r q Hr) at 2. rewrite <- insert_delete_eq.
  rewrite !Hnew by apply lookup_delete_eq. lia.
Qed.

Lemma held_getStream Q id (t : Table ConnInfo) : (held Q (heap (getStream id t).1) ≤ held Q (heap t))%nat.
Proof.
  unfold getStream. destruct (streams t !! id); [done|]. simpl.
  pose proof (held_insert Q (heap t) (fresh t) (MkPending id None false)) as H. unfold weight at 2 in H. simpl in H. lia.
Qed.

(** A step of the client table: what is delivered was queued, and what is
    queued came in. *)
Lemma table_step_tally Q l t t' :
  table_step false l t = Some t' →
  (count Q (delivered t').*2 + held Q (heap t') ≤
   count Q (delivered t).*2 + held Q (heap t) + match l with Arrive _ _ m => if Q m then 1 else 0 | _ => 0 end)%nat.
Proof.
  unfold table_step. destruct (panicked t); [done|]. destruct l as [tid id c|tid|tid|wid id m|wid|wid|d]; intros H.
  - case_decide; [|done]. injection H as <-. unfold begin_call. pose proof (held_getStream Q id t) as Hg.
    pose proof (getStream_frame id t) as (_ & _ & _ & _ & _ & _ & Hd & _).
    destruct (getStream id t) as [t1 ref]. simpl in *. rewrite Hd. lia.
  - unfold receive in H. destruct (calls t !! tid) as [k|]; [|done].
    destruct (heap t !! t_ref k) as [[pid [m|] d]|] eqn:Hk; try done. injection H as <-.
    cbn [delivered heap]. rewrite fmap_cons, count_cons. cbn [snd].
    pose proof (held_insert Q (heap t) (t_ref k) (MkPending pid None (d || t_closes k))) as Hi.
    rewrite Hk in Hi. unfold weight in Hi. simpl in Hi. lia.
  - unfold call_timeout in H. repeat case_match; simplify_eq/=. lia.
  - case_decide; [|done]. injection H as <-. unfold arrive. pose proof (held_getStream Q id t) as Hg.
    pose proof (getStream_frame id t) as (_ & _ & _ & _ & _ & _ & Hd & _).
    destruct (getStream id t) as [t1 ref]. simpl in *.
    destruct (heap t1 !! ref) as [[pid [m'|] d]|] eqn:Hk; simpl; rewrite Hd; [lia| |lia].
    pose proof (held_insert Q (heap t1) ref (MkPending pid (Some m) d)) as Hi.
    rewrite Hk in Hi. unfold weight in Hi. simpl in Hi. lia.
  - unfold wait_done, finish_wait in H. repeat case_match; simplify_eq/=; lia.
  - unfold wait_timeout, finish_wait in H. repeat case_match; simplify_eq/=; lia.
  - injection H as <-. simpl. lia.
Qed.

Lemma offer_tally Q id m t : (held Q (heap (offer id m t)) ≤ held Q (heap t) + if Q m then 1 else 0)%nat.
Proof.
  unfold offer. pose proof (held_getStream Q id t) as Hg. destruct (getStream id t) as [t1 ref]. simpl in *.
  destruct (heap t1 !! ref) as [[pid [m'|] d]|] eqn:Hk; simpl; [lia| |lia].
  pose proof (held_insert Q (heap t1) ref (MkPending pid (Some m) d)) as Hi.
  rewrite Hk in Hi. unfold weight in Hi. simpl in Hi. lia.
Qed.

(** The messages of the knock protocol, for an id. *)
Definition ok_ack (id : Z) (m : ConnInfo) : bool := match check_ack id m with Ret _ => true | _ => false end.
Definition any_ack (id : Z) (m : ConnInfo) : bool :=
  bool_decide (ServiceId m = id) && match ci_Knock m with Some k => k_knock k && k_ack k | None => false end.
Definition knock_for (id : Z) (m : ConnInfo) : bool := bool_decide (ServiceId m = id) && serverKnock m.
(** A [knock] for the id that returned nil. *)
Definition knock_ok (id : Z) (x : Z * res error unit) : bool :=
  match x.2 with Ret _ => bool_decide (x.1 = id) | _ => false end.

Lemma ok_ack_any id m : ok_ack id m = true → any_ack id m = true.
Proof.
  unfold ok_ack, any_ack, check_ack. destruct (bool_decide (ServiceId m = id)); simpl; [|done].
  by destruct (ci_Knock m) as [[[] [] e]|].
Qed.

Lemma check_knock_for id m : check_knock id m = None → knock_for id m = true.
Proof.
  unfold check_knock, knock_for, serverKnock. destruct (bool_decide (ServiceId m = id)); simpl; [|done].
  by destruct (ci_Knock m) as [[[] [] e]|].
Qed.

(** ** Lemmas: what a broker has for its messages *)

Lemma table_step_delivered_grows l (t t' : Table ConnInfo) :
  table_step false l t = Some t' → ∃ new, delivered t' = new ++ delivered t.
Proof.
  assert (∀ x : list (Z * ConnInfo), ∃ new, x = new ++ x) as Hno by (intros x; by exists []).
  unfold table_step, receive, call_timeout, wait_done, wait_timeout, begin_call, arrive.
  destruct (panicked t); [done|]. destruct l as [tid id c|tid|tid|wid id m|wid|wid|d]; intros H.
  1,4: case_decide; [|done]; injection H as <-; pose proof (getStream_frame id t) as (_ & _ & _ & _ & _ & _ & Hd & _);
    destruct (getStream id t); simpl in *; repeat case_match; simpl; rewrite Hd; apply Hno.
  all: repeat case_match; simplify_eq/=; try apply Hno. by eexists [_].
Qed.

Lemma broker_step_tally Q l b b' :
  broker_step l b = Some b' →
  (count Q (delivered (gb_client b')).*2 + held Q (heap (gb_client b')) ≤
   count Q (delivered (gb_client b)).*2 + held Q (heap (gb_client b)) +
   match l with GRun _ m => if Q m then 1 else 0 | _ => 0 end)%nat.
Proof.
  intros [->|(tl & Ht & Hl)]%client_step_table; [lia|]. pose proof (table_step_tally Q _ _ _ Ht) as H.
  destruct tl as [| | |wid id m| | |]; [lia..|by subst l|lia|lia|lia].
Qed.

Lemma broker_step_delivered l b b' :
  broker_step l b = Some b' → ∃ new, delivered (gb_client b') = new ++ delivered (gb_client b).
Proof. intros [->|(tl & Ht & _)]%client_step_table; [by exists []|by eapply table_step_delivered_grows]. Qed.

(** A [knock] returns nil on a message that was delivered to it. *)
Lemma broker_step_knocked l b b' :
  broker_step l b = Some b' →
  gb_knocked b' = gb_knocked b ∨ (∃ id e, gb_knocked b' = (id, Err e) :: gb_knocked b) ∨
  ∃ id m, gb_knocked b' = (id, check_ack id m) :: gb_knocked b ∧
    delivered (gb_client b') = (id, m) :: delivered (gb_client b).
Proof.
  assert (∀ tl b1 b2, on_client_table tl b1 = Some b2 → gb_knocked b2 = gb_knocked b1) as Ht
    by (by intros tl b1 b2 (t & _ & [= <-])%bind_Some).
  assert (∀ tid op b1 b2, call_Send tid op b1 = Some b2 → gb_knocked b2 = gb_knocked b1) as Hc
    by (unfold call_Send; intros tid op b1 b2; case_decide; [by intros [= <-]|done]).
  intros H. destruct l; simpl in H; try (left; first [by eapply Ht | by eapply Hc]).
  - left. unfold Run_route in H. destruct (serverKnock msg); [by injection H as <-|]. by eapply Ht.
  - left. apply bind_Some in H as (k & _ & H). by eapply Ht.
  - left. apply bind_Some in H as (k & _ & H). by eapply Ht.
  - unfold after_Send, after_ack in H. apply bind_Some in H as (op & _ & H).
    destruct op; [destruct err|..].
    + injection H as <-. right. left. by eexists _, _.
    + left. by eapply (Ht _ (set_sending _ b)).
    + left. apply bind_Some in H as (l & _ & H). repeat case_match; by simplify_eq.
    + left. by injection H as <-.
  - unfold knock_receive in H. apply bind_Some in H as (k & _ & H). apply bind_Some in H as (t & Hs & H).
    right. right. unfold table_step, receive in Hs. repeat (case_match; try done); simplify_eq/=. by eexists _, _.
  - unfold knock_timeout in H. apply bind_Some in H as (k & _ & H). apply bind_Some in H as (t & Hs & H).
    injection H as <-. right. left. by eexists _, _.
  - left. unfold Accept_mux, getServerStream in H. case_decide; [|done]. destruct (getStream _ _). by injection H as <-.
  - left. unfold listen_start, getServerStream in H. apply bind_Some in H as (l & _ & H). destruct (getStream _ _).
    repeat case_match; by simplify_eq.
  - left. unfold listen_knock in H. apply bind_Some in H as (l & _ & H). repeat case_match; simplify_eq; [done|].
    by apply Hc in H.
  - left. unfold listen_done in H. apply bind_Some in H as (l & _ & H). repeat case_match; by simplify_eq.
  - left. unfold listener_close in H. apply bind_Some in H as (l & _ & H).
    apply bind_Some in H as (ref & _ & H). by apply bind_Some in H as (p & _ & [= <-]).
Qed.

(** A [listenForKnocks] goroutine answers a knock it took from its entry. *)
Lemma listen_knock_tally id lid tid accept b b' :
  listen_knock lid tid accept b = Some b' →
  (count (any_ack id) (gb_sent b') + held (knock_for id) (heap (gb_server b')) ≤
   count (any_ack id) (gb_sent b) + held (knock_for id) (heap (gb_server b)))%nat.
Proof.
  unfold listen_knock. intros (l & _ & H)%bind_Some. destruct (ml_loop l) as [|ref|ref|]; try done.
  destruct (heap (gb_server b) !! ref) as [[pid [msg|] d]|] eqn:Hp; try done.
  pose proof (held_insert (knock_for id) (heap (gb_server b)) ref (MkPending pid None d)) as Hi.
  rewrite Hp in Hi. unfold weight in Hi. simpl in Hi.
  destruct (check_knock (ml_id l) msg) eqn:Hck; [injection H as <-; simpl; lia|].
  apply call_Send_frame in H as (_ & -> & _ & _ & _ & ->). simpl. rewrite count_app, count_cons.
  apply check_knock_for in Hck. unfold any_ack at 2. simpl.
  assert (bool_decide (ml_id l = id) = true → knock_for id msg = true) as Himp
    by (intros Hb%bool_decide_eq_true; by subst id).
  destruct (bool_decide (ml_id l = id)); simpl; [rewrite Himp in Hi by done|]; unfold count at 2; simpl; lia.
Qed.

Lemma broker_step_acks id l b b' :
  broker_step l b = Some b' →
  (count (any_ack id) (gb_sent b') + held (knock_for id) (heap (gb_server b')) ≤
   count (any_ack id) (gb_sent b) + held (knock_for id) (heap (gb_server b)) +
   match l with GRun _ m => if knock_for id m then 1 else 0 | _ => 0 end)%nat.
Proof.
  assert (∀ tl b1 b2, on_client_table tl b1 = Some b2 → gb_sent b2 = gb_sent b1 ∧ gb_server b2 = gb_server b1) as Ht
    by (by intros tl b1 b2 (t & _ & [= <-])%bind_Some).
  assert (∀ tid op b1 b2, call_Send tid op b1 = Some b2 → any_ack id (send_msg op) = false →
    count (any_ack id) (gb_sent b2) = count (any_ack id) (gb_sent b1) ∧ gb_server b2 = gb_server b1) as Hc.
  { intros tid op b1 b2 (_ & -> & _ & _ & _ & ->)%call_Send_frame Hno. rewrite count_app, count_cons, Hno.
    unfold count at 2. simpl. split; [lia|done]. }
  intros H. destruct l; simpl in H.
  all: try (apply Ht in H as [-> ->]; lia).
  all: try (apply bind_Some in H as (k & _ & [-> ->]%Ht); lia).
  - unfold Run_route in H. destruct (serverKnock msg); [injection H as <-|apply Ht in H as [-> ->]; lia].
    simpl. pose proof (offer_tally (knock_for id) (ServiceId msg) msg (gb_server b)). lia.
  - apply Hc in H as [-> ->]; [lia|]. unfold any_ack. simpl. apply andb_false_r.
  - unfold after_Send, after_ack in H. apply bind_Some in H as (op & _ & H).
    destruct op; [destruct err; [injection H as <-; simpl; lia|]| |injection H as <-; simpl; lia].
    + apply (Ht _ (set_sending _ b)) in H as [-> ->]. simpl. lia.
    + apply bind_Some in H as (l & _ & H). repeat case_match; simplify_eq/=; lia.
  - unfold knock_receive in H. apply bind_Some in H as (k & _ & H). apply bind_Some in H as (t & _ & H).
    destruct (delivered t) as [|[]]; [done|]. injection H as <-. simpl. lia.
  - unfold knock_timeout in H. apply bind_Some in H as (k & _ & H). apply bind_Some in H as (t & _ & [= <-]). simpl. lia.
  - apply Hc in H as [-> ->]; [lia|]. unfold any_ack. simpl. apply andb_false_r.
  - unfold Accept_mux, getServerStream in H. case_decide; [|done].
    pose proof (held_getStream (knock_for id) id0 (gb_server b)) as Hg.
    destruct (getStream _ _). injection H as <-. simpl in *. lia.
  - unfold listen_start, getServerStream in H. apply bind_Some in H as (l & _ & H).
    pose proof (held_getStream (knock_for id) (ml_id l) (gb_server b)) as Hg.
    destruct (getStream _ _). repeat case_match; simplify_eq/=. lia.
  - pose proof (listen_knock_tally id _ _ _ _ _ H). lia.
  - unfold listen_done in H. apply bind_Some in H as (l & _ & H). repeat case_match; simplify_eq/=. lia.
  - unfold listener_close in H. apply bind_Some in H as (l & _ & H).
    apply bind_Some in H as (ref & _ & H). apply bind_Some in H as (p & Hp & [= <-]). simpl.
    pose proof (held_insert (knock_for id) (heap (gb_server b)) ref (MkPending (p_id p) (p_ch p) true)) as Hi.
    rewrite Hp in Hi. unfold weight in Hi. simpl in Hi. lia.
Qed.

(** ** Lemmas: the tallies of a side *)

(** The messages of the calls of [Send], whatever became of them. *)
Definition call_msgs (s : streamer) : gmap nat ConnInfo := state_msg <$> so_sends s.

Lemma stream_step_calls l s s' :
  stream_step l s = Some s' → stream_inv s →
  match l with
  | TSend tid m => call_msgs s !! tid = None ∧ call_msgs s' = <[tid := m]> (call_msgs s)
  | _ => call_msgs s' = call_msgs s
  end.
Proof.
  assert (∀ x, so_sends (streamer_Close x) = so_sends x) as Hcl
    by (intros x; unfold streamer_Close; by destruct (so_quit x)).
  assert (∀ tid st st', so_sends s !! tid = Some st → state_msg st' = state_msg st →
    state_msg <$> <[tid := st']> (so_sends s) = state_msg <$> so_sends s) as Hsame.
  { intros tid st st' Hst He. rewrite fmap_insert, He. apply insert_id. by rewrite lookup_fmap, Hst. }
  intros H [Hp _]. pose proof (iv_busy _ Hp) as Hb. unfold call_msgs.
  destruct l; simpl in H; unfold StartStream in H; autounfold with streamer in H; repeat case_match; simplify_eq/=;
    rewrite ?Hcl; simpl; try done; try (by eapply Hsame).
  all: try (eapply Hsame; [by apply Hb|done]).
  split; [|by rewrite fmap_insert]. rewrite lookup_fmap. by match goal with H : so_sends s !! _ = None |- _ => rewrite H end.
Qed.

Record tallied (me : Side) : Prop := MkTallied {
  ta_delivered : ∀ Q, (count Q (delivered (gb_client (sd_broker me))).*2 + held Q (heap (gb_client (sd_broker me)))
    ≤ count Q (so_got (sd_stream me)))%nat;
  ta_knocked : ∀ id, (count (knock_ok id) (gb_knocked (sd_broker me))
    ≤ count (ok_ack id) (delivered (gb_client (sd_broker me))).*2)%nat;
  ta_acks : ∀ id, (count (any_ack id) (gb_sent (sd_broker me)) + held (knock_for id) (heap (gb_server (sd_broker me)))
    ≤ count (knock_for id) (so_got (sd_stream me)))%nat;
  ta_calls : (map_to_list (call_msgs (sd_stream me))).*2 ≡ₚ gb_sent (sd_broker me)
}.

Lemma tallied_stream me s' w :
  tallied me → (∃ new, so_got s' = so_got (sd_stream me) ++ new) → call_msgs s' = call_msgs (sd_stream me) →
  tallied (MkSide (sd_broker me) s' w).
Proof.
  intros [H1 H2 H3 H4] [new Hg] Hc. split; simpl; [|done| |by rewrite Hc].
  - intros Q. rewrite Hg, count_app. specialize (H1 Q). lia.
  - intros id. rewrite Hg, count_app. specialize (H3 id). lia.
Qed.

Lemma tallied_broker l me b' s' w :
  tallied me → broker_step l (sd_broker me) = Some b' →
  (∃ new, so_got s' = so_got (sd_stream me) ++ match l with GRun _ m => [m] | _ => [] end ++ new) →
  (map_to_list (call_msgs s')).*2 ≡ₚ gb_sent b' → tallied (MkSide b' s' w).
Proof.
  intros [H1 H2 H3 H4] Hb [new Hg] Hc.
  assert (∀ Q, count Q (so_got s') = (count Q (so_got (sd_stream me)) +
    match l with GRun _ m => if Q m then 1 else 0 | _ => 0 end + count Q new)%nat) as Hgot.
  { intros Q. rewrite Hg, !count_app. destruct l; try (unfold count at 2; simpl; lia).
    rewrite count_cons. change (count Q []) with 0%nat. lia. }
  split; simpl; [| | |done].
  - intros Q. pose proof (broker_step_tally Q _ _ _ Hb). rewrite Hgot. specialize (H1 Q). lia.
  - intros id. specialize (H2 id). destruct (broker_step_delivered _ _ _ Hb) as [new' Hd].
    destruct (broker_step_knocked _ _ _ Hb) as [->|[(i & e & ->)|(i & m & -> & Hd')]].
    + rewrite Hd, fmap_app, count_app. lia.
    + rewrite count_cons, Hd, fmap_app, count_app. change (knock_ok id (i, Err e)) with false. cbv iota. lia.
    + rewrite Hd', fmap_cons, !count_cons. cbn [snd].
      assert (knock_ok id (i, check_ack i m) = true → ok_ack id m = true) as Himp.
      { unfold knock_ok, ok_ack. cbn [fst snd]. destruct (decide (i = id)) as [->|Hne]; [by destruct (check_ack id m)|].
        by rewrite bool_decide_false by done; destruct (check_ack i m). }
      destruct (knock_ok _ _), (ok_ack id m); try lia; by specialize (Himp eq_refl).
  - intros id. pose proof (broker_step_acks id _ _ _ Hb). rewrite Hgot. specialize (H3 id). lia.
Qed.

Lemma side_step_tallied mux l me peer me' peer' :
  side_step mux l me peer = Some (me', peer') → own me → tallied me → tallied me'.
Proof.
  intros H Ho Ht. pose proof (ta_calls _ Ht) as Hc. pose proof (ow_stream _ Ho) as Hi.
  destruct l as [l|l| |wid|tid err]; cbn [side_step] in H.
  - destruct (broker_internal l && in_mode mux l) eqn:Hint; [apply andb_true_iff in Hint as [Hint _]|done].
    apply bind_Some in H as (b' & Hb & H). apply bind_Some in H as (s' & Hs & [= <- <-]).
    pose proof (broker_step_sent _ _ _ Hb) as Hsent.
    destruct (began l (sd_broker me) b') as [[tid op]|].
    + destruct (stream_step_grows _ _ _ Hs) as (_ & _ & _ & Hg & _).
      destruct (stream_step_calls _ _ _ Hs Hi) as [Hf Hcalls].
      eapply tallied_broker; [done|done|by destruct l|]. rewrite Hcalls, Hsent, map_to_list_insert by done.
      rewrite fmap_cons, Hc. simpl. by rewrite Permutation_app_comm.
    + injection Hs as <-. eapply tallied_broker; [done|done| |by rewrite Hsent, app_nil_r].
      exists []. destruct l; by rewrite ?app_nil_r.
  - destruct (stream_internal l) eqn:Hint; [|done]. apply bind_Some in H as (s' & Hs & [= <- <-]).
    destruct (stream_step_grows _ _ _ Hs) as (_ & _ & _ & Hg & _).
    apply tallied_stream; [done|done|]. pose proof (stream_step_calls _ _ _ Hs Hi) as Hcalls. by destruct l.
  - destruct (sd_wire me) as [|m rest]; [done|]. apply bind_Some in H as (s' & Hs & [= <- <-]).
    destruct (stream_step_grows _ _ _ Hs) as (_ & _ & _ & Hg & _).
    apply tallied_stream; [done|done|]. exact (stream_step_calls _ _ _ Hs Hi).
  - destruct (so_recv (sd_stream me)) as [| |m|] eqn:Hr; try done. apply bind_Some in H as (s' & Hs & H).
    apply bind_Some in H as (b' & Hb & [= <- <-]).
    destruct (stream_step_grows _ _ _ Hs) as (_ & _ & _ & _ & Hg & _).
    pose proof (broker_step_sent _ _ _ Hb) as Hsent. rewrite app_nil_r in Hsent.
    eapply tallied_broker; [done|exact Hb|exists []; by rewrite (Hg m eq_refl Hr), app_nil_r|].
    rewrite Hsent. by rewrite (stream_step_calls _ _ _ Hs Hi).
  - destruct (so_sends (sd_stream me) !! tid) as [[| |m r]|]; try done. case_decide; [|done].
    apply bind_Some in H as (b' & Hb & [= <- <-]).
    pose proof (broker_step_sent _ _ _ Hb) as Hsent. rewrite app_nil_r in Hsent.
    eapply tallied_broker; [done|exact Hb|by exists []; rewrite app_nil_r|by rewrite Hsent].
Qed.

(** The other side is not touched, but for the messages on their way to it. *)
Lemma side_step_peer mux l me peer me' peer' :
  side_step mux l me peer = Some (me', peer') →
  sd_broker peer' = sd_broker peer ∧ sd_stream peer' = sd_stream peer.
Proof.
  intros H. destruct l; cbn [side_step] in H; repeat (case_match; try done);
    repeat (apply bind_Some in H as (? & _ & H)); by simplify_eq/=.
Qed.

Lemma tallied_peer peer peer' :
  sd_broker peer' = sd_broker peer → sd_stream peer' = sd_stream peer → tallied peer → tallied peer'.
Proof. intros Hb Hs []. split; rewrite ?Hb, ?Hs; done. Qed.

(** Without multiplexing only addresses are sent. *)
Definition addresses (s : Side) : Prop := ∀ m, m ∈ gb_sent (sd_broker s) → ci_Knock m = None.

(** Without multiplexing a broker has no calls of [Send] but [Accept]'s, and no
    listeners that would answer knocks. *)
Lemma side_step_addresses l me peer me' peer' :
  side_step false l me peer = Some (me', peer') → addresses me → addresses me'.
Proof.
  intros H Ha. unfold addresses.
  assert (∀ bl b', broker_step bl (sd_broker me) = Some b' → in_mode false bl = true →
    ∀ m, m ∈ gb_sent b' → ci_Knock m = None) as Hb.
  { intros bl b' Hs Hm m. rewrite (broker_step_sent _ _ _ Hs), elem_of_app. intros [?|Hin]; [by apply Ha|].
    unfold began in Hin. destruct bl; simpl in Hm, Hin; try done; try (by apply elem_of_nil in Hin).
    apply call_Send_frame in Hs as (_ & _ & _ & Hn & Hs' & _).
    rewrite Hn, Hs', lookup_insert_eq in Hin. simpl in Hin. by apply list_elem_of_singleton in Hin as ->. }
  destruct l as [l|l| |wid|tid err]; cbn [side_step] in H.
  - destruct (broker_internal l && in_mode false l) eqn:Hint; [apply andb_true_iff in Hint as [_ Hm]|done].
    apply bind_Some in H as (b' & Hs & H). apply bind_Some in H as (s' & _ & [= <- <-]). by eapply Hb.
  - destruct (stream_internal l); [|done]. by apply bind_Some in H as (s' & _ & [= <- <-]).
  - destruct (sd_wire me); [done|]. by apply bind_Some in H as (s' & _ & [= <- <-]).
  - destruct (so_recv (sd_stream me)); try done. apply bind_Some in H as (s' & _ & H).
    apply bind_Some in H as (b' & Hs & [= <- <-]). by eapply Hb.
  - repeat (case_match; try done). apply bind_Some in H as (b' & Hs & [= <- <-]). by eapply Hb.
Qed.

Definition tallies (p : Pair) : Prop :=
  tallied (pr_host p) ∧ tallied (pr_plugin p) ∧
  (pr_mux p = false → addresses (pr_host p) ∧ addresses (pr_plugin p)).

Lemma pair_reachable_tallies p : reachable p → tallies p.
Proof.
  intros Hr. cut (linked (pr_host p) (pr_plugin p) ∧ tallies p); [by intros [_ ?]|].
  revert p Hr. apply (invariant_reachable (λ p, linked (pr_host p) (pr_plugin p) ∧ tallies p)).
  - intros p0 Hi. split; [apply pair_reachable_linked; by apply reachable_init|]. destruct Hi as [mux ->].
    assert (tallied newSide) by (split; done).
    assert (addresses newSide) by (intros m Hm; by apply elem_of_nil in Hm). done.
  - intros [l|l] p0 p1 (Hl & H1 & H2 & H3) H; simpl in H; apply bind_Some in H as ([x y] & Hs & [= <-]);
      destruct (side_step_peer _ _ _ _ _ _ Hs) as [Eb Es]; unfold tallies; cbn [pr_mux pr_host pr_plugin].
    + split; [by eapply side_step_linked|]. split_and!.
      * eapply side_step_tallied; [exact Hs|apply Hl|done].
      * by eapply tallied_peer.
      * intros Hm. rewrite Hm in Hs. destruct (H3 Hm) as [A1 A2].
        split; [by eapply side_step_addresses|]. unfold addresses. by rewrite Eb.
    + split; [apply linked_sym; by eapply side_step_linked, linked_sym|]. split_and!.
      * by eapply tallied_peer.
      * eapply side_step_tallied; [exact Hs|apply Hl|done].
      * intros Hm. rewrite Hm in Hs. destruct (H3 Hm) as [A1 A2].
        split; [unfold addresses; by rewrite Eb|by eapply side_step_addresses].
Qed.

(** What [Recv] returned on one side the other gave to [Send], each call once. *)
Lemma linked_sent me peer :
  linked me peer → tallied peer → so_got (sd_stream me) ⊆+ gb_sent (sd_broker peer).
Proof.
  intros Hl Ht. pose proof Hl as (_ & [[Hp _] _] & _).
  transitivity (so_out (sd_stream peer)).*2.
  { destruct (linked_prefix _ _ Hl) as [k ->]. by apply submseteq_inserts_r. }
  rewrite <- (ta_calls _ Ht). apply fmap_submseteq, NoDup_submseteq.
  - eapply NoDup_fmap_1, (iv_nodup _ Hp).
  - intros [tid m] Hin%(iv_sent _ Hp). apply elem_of_map_to_list. unfold call_msgs. by rewrite lookup_fmap, Hin.
Qed.

(** The chain from a successful knock back to the call that made it. *)
Lemma knock_chain me peer id :
  linked me peer → tallied me → tallied peer →
  (count (knock_ok id) (gb_knocked (sd_broker me)) ≤ count (ok_ack id) (gb_sent (sd_broker peer)))%nat ∧
  (count (any_ack id) (gb_sent (sd_broker peer)) ≤ count (knock_for id) (so_got (sd_stream peer)))%nat ∧
  (count (knock_for id) (so_got (sd_stream peer)) ≤ count (knock_for id) (gb_sent (sd_broker me)))%nat.
Proof.
  intros Hl Tme Tpeer.
  pose proof (count_submseteq (ok_ack id) _ _ (linked_sent me peer Hl Tpeer)).
  pose proof (count_submseteq (knock_for id) _ _ (linked_sent peer me (linked_sym _ _ Hl) Tme)).
  pose proof (ta_knocked _ Tme id). pose proof (ta_delivered _ Tme (ok_ack id)). pose proof (ta_acks _ Tpeer id). lia.
Qed.

(** An announcement reaches at most one [Dial]. *)
Lemma delivered_once me peer Q :
  linked me peer → tallied me → tallied peer →
  (count Q (delivered (gb_client (sd_broker me))).*2 ≤ count Q (gb_sent (sd_broker peer)))%nat.
Proof.
  intros Hl Tme Tpeer. pose proof (count_submseteq Q _ _ (linked_sent me peer Hl Tpeer)).
  pose proof (ta_delivered _ Tme Q). lia.
Qed.

(** ** Properties *)

(** One direction of the composed system and the ideal channel. *)
Definition carries (me peer : Side) (f : Fifo) : Prop :=
  ff_put f = (so_out (sd_stream peer)).*2 ∧ ff_got f = so_got (sd_stream me).

Lemma carries_step me peer me' peer' f :
  carries me peer f → linked me' peer' →
  (∃ new, so_out (sd_stream peer') = so_out (sd_stream peer) ++ new) →
  (∃ new, so_got (sd_stream me') = so_got (sd_stream me) ++ new) →
  ∃ ls f', exec ls f = Some f' ∧ carries me' peer' f'.
Proof.
  destruct f as [put got]. intros [Hp Hg] Hl [n1 H1] [n2 H2]. simpl in *.
  pose proof (linked_prefix _ _ Hl) as Hpre. rewrite H1, H2, fmap_app, <- Hp, <- Hg in Hpre.
  destruct (fifo_catch_up _ _ _ _ Hpre) as [ls Hls]. eexists ls, _. split; [exact Hls|].
  unfold carries. simpl. by rewrite H1, H2, fmap_app, Hp, Hg.
Qed.

Lemma same_grows {A} (x y : list A) : y = x → ∃ new, y = x ++ new.
Proof. intros ->. exists []. by rewrite app_nil_r. Qed.
Lemma pair_carries p l p' :
  reachable p → pair_step l p = Some p' →
  (∀ f, carries (pr_host p) (pr_plugin p) f →
     ∃ ls f', exec ls f = Some f' ∧ carries (pr_host p') (pr_plugin p') f') ∧
  (∀ f, carries (pr_plugin p) (pr_host p) f →
     ∃ ls f', exec ls f = Some f' ∧ carries (pr_plugin p') (pr_host p') f').
Proof.
  intros Hr Hs. assert (linked (pr_host p') (pr_plugin p')) as Hl
    by (apply pair_reachable_linked; by eapply reachable_step).
  pose proof (linked_sym _ _ Hl) as Hl'.
  destruct l as [l|l]; simpl in Hs; apply bind_Some in Hs as ([x y] & Hs & [= <-]); simpl in *;
    apply side_step_streams in Hs as (Ho & Hg & Hsame);
    (split; intros f Hf; eapply carries_step; try eassumption; apply same_grows; by rewrite Hsame).
Qed.

(** C7: Between two brokers each direction of the stream refines an ideal first-in
    first-out channel: in every interleaving, what [Recv] has returned on one
    side are the first messages for which [Send] succeeded on the other, in
    their order, each once. *)
Theorem streams_refine_fifo p :
  reachable p →
  (∃ f, reachable f ∧ carries (pr_host p) (pr_plugin p) f) ∧
  (∃ f, reachable f ∧ carries (pr_plugin p) (pr_host p) f).
Proof.
  intros Hr. split.
  - apply (reachable_refines (λ p f, carries (pr_host p) (pr_plugin p) f)); [|intros|done].
    + intros p0 [mux ->]. by exists (MkFifo [] []).
    + by eapply pair_carries.
  - apply (reachable_refines (λ p f, carries (pr_plugin p) (pr_host p) f)); [|intros|done].
    + intros p0 [mux ->]. by exists (MkFifo [] []).
    + by eapply pair_carries.
Qed.

(** C9: end to end between two brokers with their streams, in both directions
    and in every interleaving.  Without multiplexing, what a [Dial] receives for
    an id is the address that an [Accept] of the peer announced for that very id,
    and no announcement is received twice.  With multiplexing, every [knock] that
    returned nil has an acknowledgement without an error of its own that the peer
    gave to [Send]; the peer never gives it more acknowledgements for an id than
    it has received knocks for that id, and these are no more than this side gave
    to [Send]. *)
Theorem brokers_agree p :
  reachable p →
  ∀ me peer, (me, peer) = (pr_host p, pr_plugin p) ∨ (me, peer) = (pr_plugin p, pr_host p) →
  (pr_mux p = false →
    (∀ id msg, (id, msg) ∈ delivered (gb_client (sd_broker me)) →
      ∃ network address, msg = MkConnInfo id network address None ∧ msg ∈ gb_sent (sd_broker peer)) ∧
    ∀ Q, (count Q (delivered (gb_client (sd_broker me))).*2 ≤ count Q (gb_sent (sd_broker peer)))%nat) ∧
  (∀ id,
    (count (knock_ok id) (gb_knocked (sd_broker me)) ≤ count (ok_ack id) (gb_sent (sd_broker peer)))%nat ∧
    (count (any_ack id) (gb_sent (sd_broker peer)) ≤ count (knock_for id) (so_got (sd_stream peer)))%nat ∧
    (count (knock_for id) (so_got (sd_stream peer)) ≤ count (knock_for id) (gb_sent (sd_broker me)))%nat).
Proof.
  intros Hr me peer Hor. pose proof (pair_reachable_linked p Hr) as Hl.
  destruct (pair_reachable_tallies p Hr) as (T1 & T2 & Ha).
  assert (linked me peer ∧ tallied me ∧ tallied peer ∧ (pr_mux p = false → addresses peer)) as (L & Tm & Tp & A).
  { destruct Hor as [[= -> ->]|[= -> ->]]; [|apply linked_sym in Hl]; split_and!; try done; naive_solver. }
  split; [|intros id; by apply knock_chain]. intros Hm. split; [|intros Q; by apply delivered_once].
  intros id msg Hd. destruct (dialled_address _ _ _ _ L Hd) as [Hid Hsaid]. pose proof (A Hm msg Hsaid) as Hk.
  destruct msg as [i n a k]. simpl in *. subst. eauto.
Qed.

(** ** Concrete instances *)

(** A call of [Send] with number [tid], from its begin to its return. *)
Definition ex_send (side other : SideStep → PairStep) (begin : BrokerStep) (tid wid : nat) : list PairStep :=
  [side (SBroker begin); side (SStream (THand tid)); side (SStream (TAnswer None)); side (SReturn tid None);
   other SArrive; other (SReceive wid)].

Definition ex_streams : list PairStep := [OnHost (SStream (TStart None)); OnPlugin (SStream (TStart None))].

(** Without multiplexing the plugin announces 4 and 5, and the host dials 4. *)
Definition ex_plain_steps : list PairStep :=
  ex_streams ++
  ex_send OnPlugin OnHost (GAdvertise 0 4 "unix" "/tmp/p4") 0 0 ++
  ex_send OnPlugin OnHost (GAdvertise 1 5 "unix" "/tmp/p5") 1 1 ++
  [OnHost (SBroker (GDial 0 4)); OnHost (SBroker (GDialReceive 0))].
Definition ex_plain : Pair :=
  default (MkPair false newSide newSide) (exec ex_plain_steps (MkPair false newSide newSide)).

(** With multiplexing the host knocks for 7, on which the plugin listens. *)
Definition ex_mux_steps : list PairStep :=
  ex_streams ++
  [OnPlugin (SBroker (GAccept 0 7 None)); OnPlugin (SBroker (GListenStart 0))] ++
  ex_send OnHost OnPlugin (GKnock 1 7) 1 0 ++
  ex_send OnPlugin OnHost (GListen 0 1 None) 1 1 ++
  [OnHost (SBroker (GKnockReceive 1))].
Definition ex_mux_pair : Pair :=
  default (MkPair true newSide newSide) (exec ex_mux_steps (MkPair true newSide newSide)).

Lemma ex_plain_reachable : reachable ex_plain.
Proof.
  apply (exec_reachable ex_plain_steps (MkPair false newSide newSide)); [|vm_compute; reflexivity].
  apply reachable_init. by exists false.
Qed.
Lemma ex_mux_pair_reachable : reachable ex_mux_pair.
Proof.
  apply (exec_reachable ex_mux_steps (MkPair true newSide newSide)); [|vm_compute; reflexivity].
  apply reachable_init. by exists true.
Qed.

Lemma brokers_agree_witness :
  (4, MkConnInfo 4 "unix" "/tmp/p4" None) ∈ delivered (gb_client (sd_broker (pr_host ex_plain))) ∧
  (∃ network address, MkConnInfo 4 "unix" "/tmp/p4" None = MkConnInfo 4 network address None ∧
    MkConnInfo 4 "unix" "/tmp/p4" None ∈ gb_sent (sd_broker (pr_plugin ex_plain))) ∧
  gb_knocked (sd_broker (pr_host ex_mux_pair)) = [(7, Ret tt)] ∧
  (1 ≤ count (ok_ack 7) (gb_sent (sd_broker (pr_plugin ex_mux_pair))))%nat ∧
  (count (any_ack 7) (gb_sent (sd_broker (pr_plugin ex_mux_pair))) ≤
     count (knock_for 7) (so_got (sd_stream (pr_plugin ex_mux_pair))))%nat.
Proof.
  destruct (brokers_agree ex_plain ex_plain_reachable (pr_host ex_plain) (pr_plugin ex_plain) (or_introl eq_refl))
    as [H1 _].
  destruct (brokers_agree ex_mux_pair ex_mux_pair_reachable (pr_host ex_mux_pair) (pr_plugin ex_mux_pair)
    (or_introl eq_refl)) as [_ H2].
  assert (Hd : (4, MkConnInfo 4 "unix" "/tmp/p4" None) ∈ delivered (gb_client (sd_broker (pr_host ex_plain)))).
  { vm_compute. left. }
  destruct (H1 eq_refl) as [H3 _]. destruct (H2 7) as (H4 & H5 & _).
  split; [exact Hd|]. split; [exact (H3 _ _ Hd)|]. split; [vm_compute; reflexivity|]. split; [exact H4|exact H5].
Defined.

Lemma streams_refine_fifo_witness :
  so_got (sd_stream (pr_host ex_plain)) =
    [MkConnInfo 4 "unix" "/tmp/p4" None; MkConnInfo 5 "unix" "/tmp/p5" None] ∧
  ∃ f, reachable f ∧ carries (pr_host ex_plain) (pr_plugin ex_plain) f.
Proof. split; [vm_compute; reflexivity|]. apply (streams_refine_fifo ex_plain ex_plain_reachable). Defined.
