(* ===== verification/BrokerServe.v ===== *)
(** * Serving a brokered connection

    grpc_broker.go: [GRPCBroker.AcceptAndServe] after its [Accept], and
    [GRPCBroker.Close].  A run group runs two actors: the gRPC server on the new
    listener, and a watcher of the broker's [doneCh].  The group library
    (oklog/run) is known by its documentation: when the first actor returns,
    the interrupt functions of all actors are called in turn, and [Run] returns
    when every actor has. *)

From S2P Require Import Prelude GoStd Config.

(** ** State *)

(** The group: waiting for a first return, in the server's interrupt function
    ([GracefulStop]), in the watcher's ([close(closeCh)]), waiting for the
    other actor, or returned. *)
Inductive Group : Type := GroupWait | GroupGraceful | GroupClose | GroupJoin | GroupDone.

Record Brokered : Type := MkBrokered {
  bs_doneCh : bool;            (* the broker's doneCh is closed *)
  bs_doneCh_closes : nat;
  bs_serve : bool;             (* server.Serve(ln) has not returned *)
  bs_watch : bool;             (* the watcher has not returned *)
  bs_group : Group;
  bs_closeCh : nat;            (* how often closeCh was closed *)
  bs_draining : bool;          (* GracefulStop was called *)
  bs_inflight : nat;           (* RPC handlers that have not returned *)
  bs_listener : bool           (* ln is open *)
}.

(** [AcceptAndServe] when the group starts. *)
Definition accepted : Brokered := MkBrokered false 0 true true GroupWait 0 false 0 true.

(** [GRPCBroker.Close]: [doneCh] is closed under its [sync.Once]. *)
Definition GRPCBroker_Close (s : Brokered) : Brokered :=
  if bs_doneCh s then s
  else MkBrokered true (S (bs_doneCh_closes s)) (bs_serve s) (bs_watch s) (bs_group s) (bs_closeCh s)
         (bs_draining s) (bs_inflight s) (bs_listener s).

Definition set_actors (serve watch : bool) (s : Brokered) : Brokered :=
  MkBrokered (bs_doneCh s) (bs_doneCh_closes s) serve watch (bs_group s) (bs_closeCh s)
    (bs_draining s) (bs_inflight s) (bs_listener s).
Definition set_handlers (n : nat) (s : Brokered) : Brokered :=
  MkBrokered (bs_doneCh s) (bs_doneCh_closes s) (bs_serve s) (bs_watch s) (bs_group s) (bs_closeCh s)
    (bs_draining s) n (bs_listener s).
Definition set_group (g : Group) (closeCh : nat) (draining listener : bool) (s : Brokered) : Brokered :=
  MkBrokered (bs_doneCh s) (bs_doneCh_closes s) (bs_serve s) (bs_watch s) g closeCh draining
    (bs_inflight s) listener.

(** ** Steps *)

Inductive ServeStep : Type :=
| BCall | BReturn                (* an RPC begins, or its handler returns *)
| BBrokerClose                   (* somebody closes the broker *)
| BServeError                    (* the listener fails *)
| BServeStop                     (* Serve returns after GracefulStop *)
| BWatch                         (* the watcher's select *)
| BFirst                         (* g.Run: the first actor has returned *)
| BGraceful                      (* server.GracefulStop() returns *)
| BCloseCh                       (* close(closeCh) *)
| BJoin.                         (* g.Run returns; ln.Close() *)

Definition AcceptAndServe_step (l : ServeStep) (s : Brokered) : option Brokered :=
  match l with
  | BCall => if bs_serve s && negb (bs_draining s) then Some (set_handlers (S (bs_inflight s)) s) else None
  | BReturn => match bs_inflight s with S n => Some (set_handlers n s) | O => None end
  | BBrokerClose => Some (GRPCBroker_Close s)
  | BServeError => if bs_serve s then Some (set_actors false (bs_watch s) s) else None
  | BServeStop =>
      if bs_serve s && bs_draining s && bool_decide (bs_inflight s = 0%nat)
      then Some (set_actors false (bs_watch s) s) else None
  | BWatch =>
      if bs_watch s && (bs_doneCh s || bool_decide (0 < bs_closeCh s)%nat)
      then Some (set_actors (bs_serve s) false s) else None
  | BFirst =>
      match bs_group s with
      | GroupWait => if bs_serve s && bs_watch s then None
                     else Some (set_group GroupGraceful (bs_closeCh s) true (bs_listener s) s)
      | _ => None
      end
  | BGraceful =>
      match bs_group s with
      | GroupGraceful => if bool_decide (bs_inflight s = 0%nat)
                         then Some (set_group GroupClose (bs_closeCh s) (bs_draining s) (bs_listener s) s) else None
      | _ => None
      end
  | BCloseCh =>
      match bs_group s with
      | GroupClose => Some (set_group GroupJoin (S (bs_closeCh s)) (bs_draining s) (bs_listener s) s)
      | _ => None
      end
  | BJoin =>
      match bs_group s with
      | GroupJoin => if bs_serve s || bs_watch s then None
                     else Some (set_group GroupDone (bs_closeCh s) (bs_draining s) false s)
      | _ => None
      end
  end.

#[export] Instance brokered_lts : LTS Brokered ServeStep := {|
  lts_init s := s = accepted;
  lts_step := AcceptAndServe_step
|}.

(** ** The invariant *)

Definition group_closes (g : Group) : nat := match g with GroupJoin | GroupDone => 1 | _ => 0 end.

Record brokered_inv (s : Brokered) : Prop := MkBrokeredInv {
  bi_done : bs_doneCh_closes s = if bs_doneCh s then 1%nat else 0%nat;
  bi_closeCh : bs_closeCh s = group_closes (bs_group s);
  bi_draining : bs_draining s = match bs_group s with GroupWait => false | _ => true end;
  bi_listener : bs_listener s = match bs_group s with GroupDone => false | _ => true end;
  bi_drained : match bs_group s with GroupClose | GroupJoin | GroupDone => bs_inflight s = 0%nat | _ => True end
}.

Lemma brokered_step_inv l s s' : AcceptAndServe_step l s = Some s' → brokered_inv s → brokered_inv s'.
Proof.
  intros H [H1 H2 H3 H4 H5]. destruct s as [d dc sv wt g cc dr n li]. simpl in *.
  destruct l; simpl in H; unfold GRPCBroker_Close in H; simpl in H; repeat (case_match; simpl in *; simplify_eq);
    try case_bool_decide; try done; constructor; simpl in *; try done; try congruence; try lia.
Qed.

Lemma brokered_reachable_inv s : reachable s → brokered_inv s.
Proof.
  apply (invariant_reachable brokered_inv).
  - by intros s0 ->.
  - intros l s0 s1 Hi Hs. by eapply brokered_step_inv.
Qed.

(** ** Termination *)

Definition own_move (l : ServeStep) : bool :=
  match l with BCall | BReturn | BBrokerClose | BServeError => false | _ => true end.

Definition group_left (g : Group) : nat :=
  match g with GroupWait => 4 | GroupGraceful => 3 | GroupClose => 2 | GroupJoin => 1 | GroupDone => 0 end.
Definition moves_left (s : Brokered) : nat :=
  (if bs_serve s then 1 else 0) + (if bs_watch s then 1 else 0) + group_left (bs_group s).

Lemma own_move_decreases l s s' :
  own_move l = true → AcceptAndServe_step l s = Some s' → (moves_left s' < moves_left s)%nat.
Proof.
  intros Ho H. destruct s as [d dc sv wt g cc dr n li], l; try discriminate; simpl in H; unfold moves_left;
    destruct g, sv, wt; try discriminate; repeat (case_match; try discriminate); simplify_eq/=; lia.
Qed.

(** The reason to end, and that nothing is pending, persist. *)
Definition ending (s : Brokered) : Prop := (bs_doneCh s = true ∨ bs_serve s = false) ∧ bs_inflight s = 0%nat.

Lemma own_move_ending l s s' : own_move l = true → AcceptAndServe_step l s = Some s' → ending s → ending s'.
Proof.
  unfold ending. intros Ho H [Hor Hn]. destruct s as [d dc sv wt g cc dr n li], l; try discriminate; simpl in *;
    repeat (case_match; try discriminate); simplify_eq/=; auto.
Qed.

Lemma own_exec_ending ls s s' : forallb own_move ls = true → exec ls s = Some s' → ending s → ending s'.
Proof.
  revert s. induction ls as [|l ls IH]; intros s Hown He Hend; simpl in He; [by injection He as <-|].
  simpl in Hown. apply andb_true_iff in Hown as [Hl Hls].
  destruct (AcceptAndServe_step l s) as [s1|] eqn:Hs; [|done]. by eapply IH, own_move_ending.
Qed.

Lemma ending_quiescent s :
  brokered_inv s → ending s → (∀ l, own_move l = true → AcceptAndServe_step l s = None) →
  bs_group s = GroupDone ∧ bs_listener s = false ∧ bs_closeCh s = 1%nat.
Proof.
  intros [H1 H2 H3 H4 H5] [Hor Hn] Hq.
  pose proof (Hq BServeStop eq_refl) as Q1. pose proof (Hq BWatch eq_refl) as Q2.
  pose proof (Hq BFirst eq_refl) as Q3. pose proof (Hq BGraceful eq_refl) as Q4.
  pose proof (Hq BCloseCh eq_refl) as Q5. pose proof (Hq BJoin eq_refl) as Q6.
  clear Hq H1 H5. destruct s as [d dc sv wt g cc dr n li]. simpl in *. subst n cc dr li.
  rewrite bool_decide_eq_true_2 in Q1, Q4 by done.
  destruct g, sv, wt, d; simpl in *; done || naive_solver.
Qed.

(** ** Properties *)

(** C34: a brokered server ends: when the broker is closed or the listener fails,
    and no RPC is pending, every run of [AcceptAndServe]'s own goroutines is
    finite and stops only with the group returned and the listener closed;
    neither [closeCh] nor [doneCh] is ever closed twice. *)
Theorem AcceptAndServe_ends s :
  reachable s →
  (bs_closeCh s ≤ 1)%nat ∧ (bs_doneCh_closes s ≤ 1)%nat ∧
  (∀ ls s', forallb own_move ls = true → exec ls s = Some s' → (length ls ≤ moves_left s)%nat) ∧
  (∀ ls s', ending s → forallb own_move ls = true → exec ls s = Some s' →
    (∀ l, own_move l = true → AcceptAndServe_step l s' = None) →
    bs_group s' = GroupDone ∧ bs_listener s' = false).
Proof.
  intros Hr. pose proof (brokered_reachable_inv s Hr) as [H1 H2 _ _ _]. split_and!.
  - rewrite H2. destruct (bs_group s); simpl; lia.
  - rewrite H1. case_match; lia.
  - intros ls s' Hown He. pose proof (exec_decreases own_move moves_left ls s s' own_move_decreases Hown He). lia.
  - intros ls s' Hend Hown He Hq. destruct (ending_quiescent s') as (? & ? & _); [| |done|done].
    + by eapply brokered_reachable_inv, exec_reachable.
    + by eapply own_exec_ending.
Qed.

(** ** Concrete instances *)

Definition ex_closing : Brokered := default accepted (exec [BCall; BBrokerClose; BReturn; BBrokerClose] accepted).
Definition ex_close_steps : list ServeStep := [BWatch; BFirst; BServeStop; BGraceful; BCloseCh; BJoin].
Definition ex_closed : Brokered := default accepted (exec ex_close_steps ex_closing).

Lemma ex_closing_reachable : reachable ex_closing.
Proof.
  apply (exec_reachable [BCall; BBrokerClose; BReturn; BBrokerClose] accepted);
    [by apply reachable_init|vm_compute; reflexivity].
Qed.

Lemma AcceptAndServe_ends_witness : bs_group ex_closed = GroupDone ∧ bs_listener ex_closed = false.
Proof.
  apply (AcceptAndServe_ends ex_closing ex_closing_reachable) with (ls := ex_close_steps).
  - split; [by left|done].
  - done.
  - vm_compute. reflexivity.
  - intros []; done.
Defined.
