(* ===== verification/CmdRunner.v ===== *)
(** * The default runner

    internal/cmdrunner: [CmdRunner], which starts the plugin as a child process
    in a process group of its own and kills the whole group, and
    [CmdAttachedRunner], which reattaches to a running process.  The operating
    system is a table of live processes with their process groups. *)

From S2P Require Import Prelude GoStd Config.

(** ** Processes *)

(** A live process: its process group, and the plugin it descends from ([None]
    for a process that has nothing to do with plugins). *)
Record Proc : Type := MkProc {
  pr_pgid : Z;
  pr_plugin : option nat
}.
Notation Procs := (gmap Z Proc).

Definition ESRCH : error := ErrExt "no such process".

(** [syscall.Kill(-pid, SIGKILL)]: every process of the group dies. *)
Definition kill_group (pid : Z) (ps : Procs) : Procs * res error unit :=
  if bool_decide (map_Forall (λ _ p, pr_pgid p ≠ pid) ps) then (ps, Err ESRCH)
  else (filter (λ kv, pr_pgid kv.2 ≠ pid) ps, Ret tt).

(** ** The runner interface *)

(** What the client uses of an attached runner: [Kill] acts on the process
    table, [ID] names the plugin. *)
Class AttachedRunner (R : Type) : Type := {
  ar_Kill : R → Procs → Procs * res error unit;
  ar_ID : R → string
}.

(** ** cmd_runner_posix.go, cmd_runner_windows.go *)

(** [syscall.SysProcAttr], the fields that matter: [Pgid] is the group to join
    with [Setpgid], zero for a new one. *)
Record SysProcAttr : Type := MkAttr { Setsid : bool; Setpgid : bool; Pgid : Z }.

Definition configureProcessGroup (windows : bool) (attr : option SysProcAttr) : option SysProcAttr :=
  if windows then attr
  else match attr with
       | None => Some (MkAttr false true 0)
       | Some a => if Setsid a then Some a else Some (MkAttr (Setsid a) true (Pgid a))
       end.

Definition killProcessGroup (windows : bool) (pid : Z) (ps : Procs) : Procs * res error unit :=
  if windows then (ps, Err (Errorf "process group kill not supported on windows" []))
  else kill_group pid ps.

(** ** [CmdRunner] *)

(** [cr_process] is [cmd.Process]; [cr_reaped] says that [cmd.Wait] returned. *)
Record CmdRunner : Type := MkCmdRunner {
  cr_windows : bool;
  cr_path : string;
  cr_pid : Z;
  disableProcessGroup : bool;
  cr_attr : option SysProcAttr;
  cr_process : option Z;
  cr_reaped : bool
}.

(** [NewCmdRunner] takes the path early; the pipes may fail. *)
Definition NewCmdRunner (windows : bool) (path : string) (attr : option SysProcAttr)
    (pipe_err : option error) : res error CmdRunner :=
  match pipe_err with
  | Some e => Err e
  | None => Ret (MkCmdRunner windows path 0 false attr None false)
  end.

Definition SetDisableProcessGroup (v : bool) (c : CmdRunner) : CmdRunner :=
  MkCmdRunner (cr_windows c) (cr_path c) (cr_pid c) v (cr_attr c) (cr_process c) (cr_reaped c).

(** The group of the new process: its own with [Setsid], with [Setpgid] its own or
    the one that [Pgid] names, else the host's. *)
Definition new_group (attr : option SysProcAttr) (pid hostgrp : Z) : Z :=
  match attr with
  | Some a =>
      if Setsid a then pid
      else if Setpgid a then if decide (Pgid a = 0) then pid else Pgid a
      else hostgrp
  | None => hostgrp
  end.

(** [CmdRunner.Start]: [pid] is what the system assigns, [plugin] the identity
    of the new plugin, [start_err] the failure of [cmd.Start]. *)
Definition CmdRunner_Start (start_err : option error) (pid hostgrp : Z) (plugin : nat)
    : GoM (CmdRunner * Procs) error unit := λ st,
  let '(c, ps) := st in
  let attr := if disableProcessGroup c then cr_attr c
              else configureProcessGroup (cr_windows c) (cr_attr c) in
  let c := MkCmdRunner (cr_windows c) (cr_path c) (cr_pid c) (disableProcessGroup c) attr
             (cr_process c) (cr_reaped c) in
  match cr_process c, start_err with
  | Some _, _ => ((c, ps), Err (ErrExt "exec: already started"))
  | None, Some e => ((c, ps), Err e)
  | None, None =>
      ((MkCmdRunner (cr_windows c) (cr_path c) pid (disableProcessGroup c) attr (Some pid) false,
        <[pid := MkProc (new_group attr pid hostgrp) (Some plugin)]> ps), Ret tt)
  end.

(** [os.Process.Kill]: a process that was waited for is done; a process that
    has died but was not waited for can still be signalled. *)
Definition Process_Kill (pid : Z) (reaped : bool) (ps : Procs) : Procs * res error unit :=
  if reaped then (ps, Err ErrProcessDone) else (delete pid ps, Ret tt).

Definition CmdRunner_Kill (c : CmdRunner) (ps : Procs) : Procs * res error unit :=
  match cr_process c with
  | None => (ps, Ret tt)
  | Some pid =>
      let '(ps1, r1) := if disableProcessGroup c then (ps, Err ESRCH)
                        else killProcessGroup (cr_windows c) (cr_pid c) ps in
      match r1 with
      | Ret _ => (ps1, Ret tt)
      | _ =>
          let '(ps2, r2) := Process_Kill pid (cr_reaped c) ps1 in
          match r2 with
          | Err e => if Is e ErrProcessDone then (ps2, Ret tt) else (ps2, Err e)
          | r => (ps2, r)
          end
      end
  end.

(** [cmd.Wait] returns once the process is gone, and reaps it. *)
Definition CmdRunner_Wait (st : CmdRunner * Procs) : option (CmdRunner * Procs) :=
  let '(c, ps) := st in
  match cr_process c with
  | Some pid =>
      if decide (ps !! pid = None)
      then Some (MkCmdRunner (cr_windows c) (cr_path c) (cr_pid c) (disableProcessGroup c)
                   (cr_attr c) (cr_process c) true, ps)
      else None
  | None => None
  end.

Definition CmdRunner_ID (c : CmdRunner) : string := Itoa (cr_pid c).

#[export] Instance CmdRunner_attached : AttachedRunner CmdRunner :=
  {| ar_Kill := CmdRunner_Kill; ar_ID := CmdRunner_ID |}.

(** The address translation of both runners is the identity. *)
Definition addr_identity (network address : string) : res error (string * string) := Ret (network, address).

(** ** Reattaching *)

Record CmdAttachedRunner : Type := MkAttached { at_pid : Z; at_reaped : bool }.

(** [ReattachFunc]: the process must be found and the address answer. *)
Definition ReattachFunc (pid : Z) (find_err dial_err : option error) : res error CmdAttachedRunner :=
  match find_err, dial_err with
  | None, None => Ret (MkAttached pid false)
  | _, _ => Err ErrProcessNotFound
  end.

#[export] Instance CmdAttached_attached : AttachedRunner CmdAttachedRunner :=
  {| ar_Kill c := Process_Kill (at_pid c) (at_reaped c); ar_ID c := Itoa (at_pid c) |}.

(** [_pidAlive]: finding the process and sending it signal 0. *)
Definition pidAlive (find_err signal_err : option error) : bool :=
  match find_err with
  | Some _ => false
  | None => match signal_err with None => true | Some _ => false end
  end.

(** [pidWait]: one look per tick of a one-second ticker; [alive n] is the answer
    at the [n]-th tick. The result is the number of ticks waited. *)
Fixpoint pidWait (fuel : nat) (alive : nat → bool) (n : nat) : option nat :=
  match fuel with
  | O => None
  | S fuel' => if alive n then pidWait fuel' alive (S n) else Some (S n)
  end.

(** ** The life of the process group *)

(** What happens around the runner: processes fork and exit, a process of the
    plugin may leave its group ([setsid], [setpgid]), the host waits, and the
    system gives ids out again. *)
Inductive ProcStep : Type :=
| PFork (parent child : Z)
| PLeave (pid : Z)
| PExit (pid : Z)
| PWait
| PSpawn (pid : Z).

(** A child is in its parent's group; a new process leads a group of its own.
    The system reuses a process id only when no process and no group has it;
    the id of a plugin that was not waited for is not free either. *)
Definition pid_free (c : CmdRunner) (ps : Procs) (pid : Z) : bool :=
  bool_decide (ps !! pid = None) &&
  bool_decide (map_Forall (λ _ p, pr_pgid p ≠ pid) ps) &&
  (cr_reaped c || negb (bool_decide (cr_process c = Some pid))).

Definition proc_step (l : ProcStep) (st : CmdRunner * Procs) : option (CmdRunner * Procs) :=
  let '(c, ps) := st in
  match l with
  | PFork parent child =>
      p ← ps !! parent;
      if pid_free c ps child then Some (c, <[child := p]> ps) else None
  | PLeave pid =>
      p ← ps !! pid;
      match pr_plugin p with
      | Some plugin => Some (c, <[pid := MkProc pid (Some plugin)]> ps)
      | None => None
      end
  | PExit pid => Some (c, delete pid ps)
  | PWait => CmdRunner_Wait st
  | PSpawn pid => if pid_free c ps pid then Some (c, <[pid := MkProc pid None]> ps) else None
  end.

Fixpoint proc_run (ls : list ProcStep) (st : CmdRunner * Procs) : option (CmdRunner * Procs) :=
  match ls with
  | [] => Some st
  | l :: ls' => st' ← proc_step l st; proc_run ls' st'
  end.

(** ** Lemmas *)

(** The plugin's processes are the members of its group, as long as the
    plugin's id has not been given out again; until the host has waited for it
    the id itself can only be the plugin's. *)
Definition grouped (plugin : nat) (st : CmdRunner * Procs) : Prop :=
  ∃ pid, cr_process st.1 = Some pid ∧ cr_pid st.1 = pid ∧
    (∀ q p, st.2 !! q = Some p → (pr_pgid p = pid ↔ pr_plugin p = Some plugin)) ∧
    (cr_reaped st.1 = false → ∀ p, st.2 !! pid = Some p → pr_plugin p = Some plugin).

(** The id of a plugin that was not waited for is not free. *)
Lemma pid_free_other c ps pid q :
  cr_process c = Some pid → cr_reaped c = false → pid_free c ps q = true → q ≠ pid.
Proof.
  intros Hp Hr Hf ->. unfold pid_free in Hf. rewrite Hr, Hp, (bool_decide_true (Some pid = Some pid)) in Hf by done.
  by rewrite andb_false_r in Hf.
Qed.

Lemma grouped_step plugin l st st' :
  proc_step l st = Some st' → (∀ q, l = PSpawn q → cr_process st.1 ≠ Some q) → (∀ q, l ≠ PLeave q) →
  grouped plugin st → grouped plugin st'.
Proof.
  destruct st as [c ps]. intros H Hspawn Hleave (pid & Hp & Hpid & Hg & Hown). simpl in *.
  destruct l as [parent child|q|q| |q]; [|by destruct (Hleave q)|..]; simpl in H.
  - destruct (ps !! parent) as [p|] eqn:Hpar; simpl in H; [|done].
    destruct (pid_free c ps child) eqn:Hf; [|done]. injection H as <-. exists pid. split_and!; [done..| |].
    + simpl. intros q p'. rewrite lookup_insert_Some. intros [[_ <-]|[_ Hq]]; eauto.
    + simpl. intros Hr p'. rewrite lookup_insert_ne; [by apply Hown|]. by eapply pid_free_other.
  - injection H as <-. exists pid. split_and!; [done..| |]; simpl.
    + intros q' p [_ Hq]%lookup_delete_Some. eauto.
    + intros Hr p [_ Hq]%lookup_delete_Some. eauto.
  - rewrite Hp in H. case_decide; [|done]. injection H as <-. by exists pid.
  - destruct (pid_free c ps q); [|done]. injection H as <-. exists pid.
    assert (q ≠ pid) as Hne by (intros ->; by destruct (Hspawn pid eq_refl)).
    split_and!; [done..| |]; simpl.
    + intros q' p. rewrite lookup_insert_Some. intros [[<- <-]|[_ Hq]]; [|eauto]. by simpl; split.
    + intros Hr p. rewrite lookup_insert_ne by done. by apply Hown.
Qed.

Lemma proc_step_runner l st st' :
  proc_step l st = Some st' →
  cr_process st'.1 = cr_process st.1 ∧ disableProcessGroup st'.1 = disableProcessGroup st.1 ∧
  cr_windows st'.1 = cr_windows st.1.
Proof.
  destruct st as [c ps]. destruct l as [parent child|q|q| |q]; simpl; intros H.
  - destruct (ps !! parent); simpl in H; [|done]. destruct (pid_free _ _ _); [|done]. by injection H as <-.
  - destruct (ps !! q) as [[? []]|]; simpl in H; [|done..]. by injection H as <-.
  - by injection H as <-.
  - repeat case_match; by simplify_eq/=.
  - destruct (pid_free _ _ _); [|done]. by injection H as <-.
Qed.

Lemma grouped_run plugin ls st st' pid :
  cr_process st.1 = Some pid → PSpawn pid ∉ ls → (∀ q, PLeave q ∉ ls) →
  proc_run ls st = Some st' → grouped plugin st →
  grouped plugin st' ∧ cr_process st'.1 = Some pid ∧
  disableProcessGroup st'.1 = disableProcessGroup st.1 ∧ cr_windows st'.1 = cr_windows st.1.
Proof.
  revert st. induction ls as [|l ls IH]; intros st Hp Hn Hlv; simpl; [by intros [= <-]|].
  intros (st1 & Hs & Hr)%bind_Some Hg. destruct (proc_step_runner _ _ _ Hs) as (H1 & H2 & H3).
  rewrite <- H2, <- H3. apply IH; [congruence|set_solver|set_solver|done|].
  eapply grouped_step; [done| |intros q ->; by apply (Hlv q); left|done].
  intros q -> Hq. rewrite Hp in Hq. simplify_eq. set_solver.
Qed.

(** The command does not name a process group for the plugin to join. *)
Definition own_group (attr : option SysProcAttr) : Prop :=
  match attr with Some a => Setsid a = true ∨ Pgid a = 0 | None => True end.

(** Starting puts the plugin in a group of its own. *)
Lemma CmdRunner_Start_grouped c ps pid hostgrp plugin :
  cr_windows c = false → disableProcessGroup c = false → cr_process c = None → own_group (cr_attr c) →
  (∀ q p, ps !! q = Some p → pr_pgid p ≠ pid ∧ pr_plugin p ≠ Some plugin) →
  let '(st, r) := CmdRunner_Start None pid hostgrp plugin (c, ps) in
  r = Ret tt ∧ grouped plugin st ∧ cr_process st.1 = Some pid ∧
  disableProcessGroup st.1 = false ∧ cr_windows st.1 = false.
Proof.
  intros Hw Hd Hp Hown Hps. unfold CmdRunner_Start. rewrite Hd, Hw, Hp. simpl.
  set (attr := match cr_attr c with None => _ | Some a => _ end).
  assert (new_group attr pid hostgrp = pid) as ->.
  { unfold attr, new_group. destruct (cr_attr c) as [a|]; [|done]. simpl in Hown.
    destruct (Setsid a) eqn:Hs; [by rewrite Hs|]. destruct Hown as [?|H0]; [done|]. simpl. by rewrite decide_True. }
  split_and!; [done| |done..]. exists pid. split_and!; [done..| |]; simpl.
  - intros q p. rewrite lookup_insert_Some. intros [[<- <-]|[_ Hq]]; [done|]. by destruct (Hps _ _ Hq).
  - intros _ p. rewrite lookup_insert_eq. by intros [= <-].
Qed.

(** Killing the group of a plugin removes exactly its processes. *)
Lemma CmdRunner_Kill_grouped plugin c ps :
  grouped plugin (c, ps) → disableProcessGroup c = false → cr_windows c = false →
  let '(ps', r) := CmdRunner_Kill c ps in
  r = Ret tt ∧ ∀ q p, ps' !! q = Some p ↔ ps !! q = Some p ∧ pr_plugin p ≠ Some plugin.
Proof.
  intros (pid & Hp & Hpid & Hg & Hown) Hd Hw. simpl in *. unfold CmdRunner_Kill, killProcessGroup, kill_group.
  rewrite Hp, Hd, Hw, Hpid. case_bool_decide as Hall.
  - assert (∀ q p, ps !! q = Some p → pr_plugin p ≠ Some plugin) as Hno.
    { intros q p Hq. rewrite <- (Hg _ _ Hq). by apply (Hall q p). }
    unfold Process_Kill. destruct (cr_reaped c); simpl; (split; [done|]); intros q p.
    + naive_solver.
    + rewrite lookup_delete_Some. split; [naive_solver|]. intros [Hq Hne]. split; [|done].
      intros <-. by destruct (Hno _ _ Hq (Hown eq_refl _ Hq)).
  - split; [done|]. intros q p. rewrite map_lookup_filter_Some. simpl.
    split; intros [Hq Hne]; (split; [done|]); [by rewrite <- (Hg _ _ Hq)|by rewrite (Hg _ _ Hq)].
Qed.

(** ** Properties *)

(** C20: killing the runner kills the whole plugin: whatever the plugin's
    processes forked in the meantime, no process that descends from it is left,
    and every other process is untouched, as long as the command does not name a
    process group to join, none of the plugin's processes leaves its group and
    the system has not given the plugin's process id to a new group. *)
Theorem CmdRunner_kills_tree c ps pid hostgrp plugin ls c' ps' :
  cr_windows c = false → disableProcessGroup c = false → cr_process c = None → own_group (cr_attr c) →
  (∀ q p, ps !! q = Some p → pr_pgid p ≠ pid ∧ pr_plugin p ≠ Some plugin) →
  PSpawn pid ∉ ls → (∀ q, PLeave q ∉ ls) →
  proc_run ls (CmdRunner_Start None pid hostgrp plugin (c, ps)).1 = Some (c', ps') →
  let '(ps'', r) := ar_Kill c' ps' in
  r = Ret tt ∧ ∀ q p, ps'' !! q = Some p ↔ ps' !! q = Some p ∧ pr_plugin p ≠ Some plugin.
Proof.
  intros Hw Hd Hp Hown Hps Hn Hlv Hrun.
  pose proof (CmdRunner_Start_grouped c ps pid hostgrp plugin Hw Hd Hp Hown Hps) as Hs.
  destruct (CmdRunner_Start None pid hostgrp plugin (c, ps)) as [st r]. destruct Hs as (_ & Hg & Hp' & Hd' & Hw').
  destruct (grouped_run plugin ls st (c', ps') pid Hp' Hn Hlv Hrun Hg) as (Hg' & _ & Hd2 & Hw2).
  apply CmdRunner_Kill_grouped; [done|simpl in *; congruence..].
Qed.

(** A command with a group of the caller's to join keeps it, and the plugin's
    process id is then not the id of its group: [Kill] falls back to the plugin
    alone and reports success, and the processes the plugin forked live on. *)
Theorem CmdRunner_foreign_group_survives c ps pid hostgrp plugin b grp child :
  cr_windows c = false → disableProcessGroup c = false → cr_process c = None →
  cr_attr c = Some (MkAttr false b grp) → grp ≠ 0 → grp ≠ pid → child ≠ pid → ps !! child = None →
  (∀ q p, ps !! q = Some p → pr_pgid p ≠ pid ∧ pr_pgid p ≠ child) → grp ≠ child →
  ∃ c' ps', proc_run [PFork pid child] (CmdRunner_Start None pid hostgrp plugin (c, ps)).1 = Some (c', ps') ∧
    let '(ps'', r) := CmdRunner_Kill c' ps' in
    r = Ret tt ∧ ps'' !! pid = None ∧ ps'' !! child = Some (MkProc grp (Some plugin)).
Proof.
  intros Hw Hd Hp Ha H0 Hgp Hcp Hc Hps Hgc. unfold CmdRunner_Start. rewrite Hd, Hw, Hp, Ha. simpl.
  rewrite decide_False by done. rewrite lookup_insert_eq. simpl.
  assert (∀ q, q ≠ grp → (q = pid ∨ q = child) →
    map_Forall (λ _ p, pr_pgid p ≠ q) (<[pid := MkProc grp (Some plugin)]> ps)) as Hno.
  { intros q Hq Hor i p. rewrite lookup_insert_Some. intros [[_ <-]|[_ Hi]]; [by simpl|].
    destruct (Hps _ _ Hi), Hor; by subst q. }
  unfold pid_free. simpl. rewrite lookup_insert_ne by done.
  rewrite (bool_decide_true (ps !! child = None)), (bool_decide_true (map_Forall _ _)) by auto.
  rewrite (bool_decide_false (Some pid = Some child)) by congruence. simpl. eexists _, _. split; [done|].
  unfold CmdRunner_Kill. simpl. unfold kill_group. rewrite bool_decide_true.
  - unfold Process_Kill. simpl. split_and!; [done|apply lookup_delete_eq|].
    by rewrite lookup_delete_ne, lookup_insert_eq.
  - intros i p. rewrite lookup_insert_Some. intros [[_ <-]|[_ Hi]]; [by simpl|]. by apply (Hno pid (not_eq_sym Hgp) (or_introl eq_refl) i p Hi).
Qed.

(** Once the plugin has exited and was waited for, its process id can
    belong to an unrelated process group, and [Kill] then kills that group: the
    group kill is not guarded by the state of the process as
    [os.Process.Kill] is. *)
Theorem CmdRunner_kills_reused_group c ps pid p :
  cr_windows c = false → disableProcessGroup c = false → cr_process c = Some pid → cr_pid c = pid →
  cr_reaped c = true → ps !! pid = Some p → pr_pgid p = pid → pr_plugin p = None →
  (CmdRunner_Kill c ps).1 !! pid = None.
Proof.
  intros Hw Hd Hp Hpid Hr Hq Hgrp Hfor. unfold CmdRunner_Kill, killProcessGroup, kill_group.
  rewrite Hp, Hd, Hw, Hpid. rewrite bool_decide_false by (intros Hall; by apply (Hall pid p)).
  simpl. destruct (filter _ ps !! pid) eqn:H; [|done]. apply map_lookup_filter_Some in H as [H Hne].
  simpl in Hne. congruence.
Qed.

(** [pidWait] returns at the first tick at which the process is gone, and
    not before. *)
Theorem pidWait_returns alive n :
  (∀ m, (m < n)%nat → alive m = true) → alive n = false →
  ∃ fuel, ∀ fuel', (fuel ≤ fuel')%nat → pidWait fuel' alive 0 = Some (S n).
Proof.
  intros Hlt Hn. exists (S n). intros fuel Hf.
  assert (∀ k fuel', (k ≤ n)%nat → (S n - k ≤ fuel')%nat → pidWait fuel' alive k = Some (S n)) as H.
  { intros k fuel' Hk. remember (n - k)%nat as d eqn:Hd. revert k fuel' Hk Hd.
    induction d as [|d IH]; intros k fuel' Hk Hd Hf'; (destruct fuel' as [|fuel']; [lia|]); simpl.
    - assert (k = n) as -> by lia. by rewrite Hn.
    - rewrite Hlt by lia. apply IH; lia. }
  apply H; lia.
Qed.

(** ** Concrete instances *)

Definition ex_cmd_runner : CmdRunner := MkCmdRunner false "/bin/plugin" 0 false None None false.
Definition ex_procs : Procs := {[ 1 := MkProc 1 None; 10 := MkProc 10 None ]}.
(** The plugin (42) forks twice and exits. *)
Definition ex_life_steps : list ProcStep := [PFork 42 43; PFork 43 44; PFork 10 11; PExit 42; PWait].
Definition ex_after_life : CmdRunner * Procs :=
  default (ex_cmd_runner, ∅) (proc_run ex_life_steps (CmdRunner_Start None 42 10 7 (ex_cmd_runner, ex_procs)).1).

Lemma ex_procs_other q p : ex_procs !! q = Some p → pr_pgid p ≠ 42 ∧ pr_plugin p ≠ Some 7%nat.
Proof.
  unfold ex_procs. intros [[<- <-]|[_ H]]%lookup_insert_Some; [done|].
  by apply lookup_singleton_Some in H as [<- <-].
Qed.
Lemma ex_after_life_ok :
  proc_run ex_life_steps (CmdRunner_Start None 42 10 7 (ex_cmd_runner, ex_procs)).1 =
  Some (ex_after_life.1, ex_after_life.2).
Proof. vm_compute. reflexivity. Qed.

Example CmdRunner_kills_tree_witness :
  (ar_Kill ex_after_life.1 ex_after_life.2).2 = Ret tt.
Proof.
  pose proof (CmdRunner_kills_tree ex_cmd_runner ex_procs 42 10 7 ex_life_steps ex_after_life.1 ex_after_life.2
    eq_refl eq_refl eq_refl I ex_procs_other) as H.
  destruct (ar_Kill ex_after_life.1 ex_after_life.2) as [ps r]. apply H; [| |exact ex_after_life_ok].
  - unfold ex_life_steps. rewrite !not_elem_of_cons. split_and!; try discriminate. apply not_elem_of_nil.
  - intros q. unfold ex_life_steps. rewrite !not_elem_of_cons. split_and!; try discriminate. apply not_elem_of_nil.
Defined.

Definition ex_grouped_runner : CmdRunner :=
  MkCmdRunner false "/bin/plugin" 0 false (Some (MkAttr false false 10)) None false.
Example CmdRunner_foreign_group_survives_witness :
  ∃ c' ps', proc_run [PFork 42 43] (CmdRunner_Start None 42 10 7 (ex_grouped_runner, ex_procs)).1 = Some (c', ps') ∧
    let '(ps'', r) := CmdRunner_Kill c' ps' in
    r = Ret tt ∧ ps'' !! 42 = None ∧ ps'' !! 43 = Some (MkProc 10 (Some 7%nat)).
Proof.
  apply (CmdRunner_foreign_group_survives ex_grouped_runner ex_procs 42 10 7 false 10 43);
    try reflexivity; try discriminate.
  unfold ex_procs. intros q p [[<- <-]|[_ H]]%lookup_insert_Some; [split; discriminate|].
  apply lookup_singleton_Some in H as [<- <-]. split; discriminate.
Defined.

Example CmdRunner_kills_reused_group_witness :
  (CmdRunner_Kill (MkCmdRunner false "/bin/plugin" 42 false None (Some 42) true)
     {[ 42 := MkProc 42 None ]}).1 !! 42 = None.
Proof.
  apply (CmdRunner_kills_reused_group (MkCmdRunner false "/bin/plugin" 42 false None (Some 42) true)
    {[ 42 := MkProc 42 None ]} 42 (MkProc 42 None)); reflexivity.
Defined.

Example pidWait_returns_witness :
  ∃ fuel, ∀ fuel', (fuel ≤ fuel')%nat → pidWait fuel' (λ n, bool_decide (n < 3)%nat) 0 = Some 4%nat.
Proof.
  apply (pidWait_returns (λ n, bool_decide (n < 3)%nat) 3); [|reflexivity].
  intros m Hm. apply bool_decide_true. exact Hm.
Defined.
