(* ===== verification/Diagnose.v ===== *)
(** * Diagnostics of the default runner, and the Windows process functions

    internal/cmdrunner: [Diagnose] of cmd_runner.go with the notes about the
    command (notes_unix.go, notes_windows.go), and [_pidAlive] of
    process_windows.go under [pidWait]. *)

From S2P Require Import Prelude GoStd Config CmdRunner.

(** A line break of the source's string literals. *)
Definition nl : string := String (ascii_of_nat 10) "".

(** ** [additionalNotesAboutCommand] *)

(** [syscall.Stat_t]: owner and group. *)
Record StatT : Type := MkStatT { Uid : Z; Gid : Z }.

(** What the system says about a path and its users. [cs_elf], [cs_macho] and
    [cs_pe] are the machine of a file that could be opened in that format. *)
Record CommandSystem : Type := MkCommandSystem {
  cs_windows : bool;
  cs_Stat : string → res error (string * option StatT);
  cs_LookupId : Z → res error string;
  cs_LookupGroupId : Z → res error string;
  cs_Getuid : Z;
  cs_Getgid : Z;
  cs_elf : string → res error string;
  cs_macho : string → res error string;
  cs_pe : string → res error Z;
  cs_GOARCH : string
}.

(** [peTypes] of cmd_runner.go. *)
Definition peTypes (machine : Z) : option string :=
  if decide (machine = 332) then Some "386"            (* 0x14c *)
  else if decide (machine = 448) then Some "arm"       (* 0x1c0 *)
  else if decide (machine = 25188) then Some "loong64" (* 0x6264 *)
  else if decide (machine = 34404) then Some "amd64"   (* 0x8664 *)
  else if decide (machine = 43620) then Some "arm64"   (* 0xaa64 *)
  else None.

Section notes.
Variable Y : CommandSystem.

Definition name_or (r : res error string) : string := match r with Ret n => n | _ => "?" end.

Definition owner_line (what : string) (id : Z) (name : string) (current : Z) (currentName : string) : string :=
  "  " +:+ what +:+ ": " +:+ Itoa id +:+ " [" +:+ name +:+ "] (current: " +:+ Itoa current +:+ " [" +:+
  currentName +:+ "])" +:+ nl.

(** The owner and group, which only the Unix version looks up. *)
Definition owner_notes (sys : option StatT) : string :=
  if cs_windows Y then ""
  else match sys with
       | None => ""
       | Some st =>
           owner_line "Owner" (Uid st) (name_or (cs_LookupId Y (Uid st))) (cs_Getuid Y)
             (name_or (cs_LookupId Y (cs_Getuid Y))) +:+
           owner_line "Group" (Gid st) (name_or (cs_LookupGroupId Y (Gid st))) (cs_Getgid Y)
             (name_or (cs_LookupGroupId Y (cs_Getgid Y)))
       end.

Definition arch_line (format machine : string) : string :=
  "  " +:+ format +:+ " architecture: " +:+ machine +:+ " (current architecture: " +:+ cs_GOARCH Y +:+ ")" +:+ nl.

(** The first of the three formats in which the file can be opened. *)
Definition arch_notes (path : string) : string :=
  match cs_elf Y path with
  | Ret machine => arch_line "ELF" machine
  | _ =>
      match cs_macho Y path with
      | Ret cpu => arch_line "MachO" cpu
      | _ =>
          match cs_pe Y path with
          | Ret machine => arch_line "PE" (default "unknown" (peTypes machine))
          | _ => ""
          end
      end
  end.

Definition additionalNotesAboutCommand (path : string) : string :=
  match cs_Stat Y path with
  | Ret (mode, sys) =>
      nl +:+ "Additional notes about plugin:" +:+ nl +:+ "  Path: " +:+ path +:+ nl +:+ "  Mode: " +:+ mode +:+ nl +:+
      owner_notes sys +:+ arch_notes path
  | _ => ""
  end.

(** The text of [unrecognizedRemotePluginMessage] before its [%s]. *)
Definition unrecognizedRemotePluginMessage : string :=
  "This usually means" +:+ nl +:+
  "  the plugin was not compiled for this architecture," +:+ nl +:+
  "  the plugin is missing dynamic-link libraries necessary to run," +:+ nl +:+
  "  the plugin is not executable by this process due to file permissions, or" +:+ nl +:+
  "  the plugin failed to negotiate the initial go-plugin protocol handshake" +:+ nl.

Definition Diagnose (path : string) : string :=
  unrecognizedRemotePluginMessage +:+ additionalNotesAboutCommand path.
End notes.

(** ** process_windows.go *)

Definition exit_STILL_ACTIVE : Z := 259.

(** [_pidAlive]: the process can be opened and its exit code is the one that
    means it has none. *)
Definition pidAlive_windows (OpenProcess : option error) (GetExitCodeProcess : res error Z) : bool :=
  match OpenProcess with
  | Some _ => false
  | None => match GetExitCodeProcess with Ret ec => bool_decide (ec = exit_STILL_ACTIVE) | _ => false end
  end.

(** What Windows answers about a process that ends with [code] at tick [n]
    while somebody holds a handle to it. *)
Definition exit_code (n : nat) (code : Z) (tick : nat) : res error Z :=
  Ret (if bool_decide (tick < n)%nat then exit_STILL_ACTIVE else code).

(** ** Lemmas *)

Lemma pidWait_alive alive fuel k : (∀ n, alive n = true) → pidWait fuel alive k = None.
Proof. intros Ha. revert k. induction fuel as [|fuel IH]; intros k; simpl; [done|]. by rewrite Ha. Qed.

(** ** Properties *)

(** The diagnosis always tells the user what usually went wrong; it adds notes
    exactly when the file exists, names an architecture for files in a known
    format only, and says nothing about owners on Windows. *)
Theorem Diagnose_notes Y path :
  (∃ notes, Diagnose Y path = unrecognizedRemotePluginMessage +:+ notes) ∧
  ((∃ st, cs_Stat Y path = Ret st) ↔ additionalNotesAboutCommand Y path ≠ "") ∧
  (arch_notes Y path = "" ↔ ∀ m c p, cs_elf Y path ≠ Ret m ∧ cs_macho Y path ≠ Ret c ∧ cs_pe Y path ≠ Ret p) ∧
  (cs_windows Y = true → ∀ sys, owner_notes Y sys = "").
Proof.
  split_and!; [by eexists|..].
  - unfold additionalNotesAboutCommand. destruct (cs_Stat Y path) as [[mode sys]|e|w]; split; try done; [by eexists|by intros []..].
  - unfold arch_notes, arch_line. destruct (cs_elf Y path) as [m| |];
      [split; [done|intros H; by destruct (H m "" 0)]|..];
      (destruct (cs_macho Y path) as [c| |]; [split; [done|intros H; by destruct (H "" c 0) as (_ & ? & _)]|..]);
      (destruct (cs_pe Y path) as [p| |]; [split; [done|intros H; by destruct (H "" "" p) as (_ & _ & ?)]|..]); done.
  - intros Hw sys. unfold owner_notes. by rewrite Hw.
Qed.

(** On Windows [pidWait] over [_pidAlive] sees a process that ends with any exit
    code but one, at the tick at which it ends. *)
Theorem pidWait_windows n code fuel :
  code ≠ exit_STILL_ACTIVE → (n < fuel)%nat →
  pidWait fuel (λ tick, pidAlive_windows None (exit_code n code tick)) 0 = Some (S n).
Proof.
  intros Hc Hf.
  assert (∀ k f, (k ≤ n)%nat → (n - k < f)%nat →
    pidWait f (λ tick, pidAlive_windows None (exit_code n code tick)) k = Some (S n)) as H; [|apply H; lia].
  intros k f. revert k. induction f as [|f IH]; intros k Hk Hlt; [lia|]. simpl. unfold exit_code.
  destruct (decide (k = n)) as [->|].
  - rewrite (bool_decide_false (n < n)%nat) by lia. by rewrite bool_decide_false.
  - rewrite (bool_decide_true (k < n)%nat) by lia. rewrite bool_decide_true by done. apply IH; lia.
Qed.

(** A plugin that exits with status 259 is taken for alive for as long as a
    handle to it is open: the wait for it never returns. *)
Theorem pidWait_windows_259 n fuel :
  pidWait fuel (λ tick, pidAlive_windows None (exit_code n exit_STILL_ACTIVE tick)) 0 = None.
Proof.
  apply pidWait_alive. intros t. unfold pidAlive_windows, exit_code. apply bool_decide_true. by case_bool_decide.
Qed.

(** ** Concrete instances *)

Definition ex_system : CommandSystem :=
  MkCommandSystem false (λ _, Ret ("-rwxr-xr-x", Some (MkStatT 1000 1000))) (λ _, Ret "alice") (λ _, Err EOF) 0 0
    (λ _, Err EOF) (λ _, Err EOF) (λ _, Ret 34404) "arm64".
Example ex_notes : arch_notes ex_system "/bin/p" = "  PE architecture: amd64 (current architecture: arm64)" +:+ nl.
Proof. reflexivity. Qed.
Lemma pidWait_windows_witness :
  pidWait 10 (λ tick, pidAlive_windows None (exit_code 4 1 tick)) 0 = Some 5%nat.
Proof. apply (pidWait_windows 4 1 10); [discriminate|lia]. Defined.
