(* ===== verification/GRPCStdio.v ===== *)
(** * Standard output over gRPC

    grpc_stdio.go: [copyChan] cuts the plugin's stdout and stderr into chunks,
    [StreamStdio] sends them to the host as they come, and the client's [Run]
    writes them to the host's writers. *)

From S2P Require Import Prelude GoStd Config.

(** ** Data *)

Inductive Channel : Type := STDOUT | STDERR | OtherChannel (n : Z).
#[export] Instance Channel_eq_dec : EqDecision Channel.
Proof. solve_decision. Defined.

Record StdioData : Type := MkStdioData { sd_Channel : Channel; sd_Data : list Z }.

Definition grpcStdioBuffer : nat := 1024.

(** ** [copyChan] *)

(** One [Read]: the bytes (at most the buffer) and the error, possibly both. *)
Record ReadResult : Type := MkRead { rd_bytes : list Z; rd_err : option error }.

(** The chunks sent on the channel: data first, then the error. *)
Fixpoint copyChan (reads : list ReadResult) : list (list Z) :=
  match reads with
  | [] => []
  | MkRead bs err :: reads' =>
      (if bool_decide (bs = []) then [] else [bs]) ++
      match err with Some _ => [] | None => copyChan reads' end
  end.

(** ** [StreamStdio] *)

(** A call of [StreamStdio]: what the host received from it, the chunk it has
    taken and not yet sent, and whether the call is in its loop. *)
Record StdioStream : Type := MkStdioStream {
  sx_sent : list StdioData;
  sx_hand : option StdioData;
  sx_open : bool
}.

(** The chunks that the two [copyChan] goroutines still offer, and the calls of
    [StreamStdio], which may be several at a time. *)
Record StdioServer : Type := MkStdio {
  st_stdout : list (list Z);
  st_stderr : list (list Z);
  st_streams : list StdioStream
}.

Definition pending (c : Channel) (s : StdioServer) : list (list Z) :=
  match c with STDOUT => st_stdout s | STDERR => st_stderr s | OtherChannel _ => [] end.

Definition set_pending (c : Channel) (v : list (list Z)) (s : StdioServer) : StdioServer :=
  match c with
  | STDOUT => MkStdio v (st_stderr s) (st_streams s)
  | STDERR => MkStdio (st_stdout s) v (st_streams s)
  | OtherChannel _ => s
  end.

Definition set_stream (sid : nat) (x : StdioStream) (s : StdioServer) : StdioServer :=
  MkStdio (st_stdout s) (st_stderr s) (<[sid := x]> (st_streams s)).

(** A call of [StreamStdio] begins; the [select] of one takes a chunk of a
    channel, or ends with the context; [Send] returns. *)
Inductive StdioStep : Type :=
| StdioOpen
| StdioTake (sid : nat) (c : Channel)
| StdioSend (sid : nat) (send_err : option error)
| StdioDone (sid : nat).

Definition StreamStdio_step (l : StdioStep) (s : StdioServer) : option StdioServer :=
  match l with
  | StdioOpen => Some (MkStdio (st_stdout s) (st_stderr s) (st_streams s ++ [MkStdioStream [] None true]))
  | StdioTake sid c =>
      match st_streams s !! sid, pending c s with
      | Some (MkStdioStream sent None true), bs :: rest =>
          let s := set_pending c rest s in
          if decide (bs = []) then Some s
          else Some (set_stream sid (MkStdioStream sent (Some (MkStdioData c bs)) true) s)
      | _, _ => None
      end
  | StdioSend sid send_err =>
      match st_streams s !! sid with
      | Some (MkStdioStream sent (Some d) true) =>
          Some (set_stream sid
            match send_err with
            | None => MkStdioStream (sent ++ [d]) None true
            | Some _ => MkStdioStream sent None false
            end s)
      | _ => None
      end
  | StdioDone sid =>
      match st_streams s !! sid with
      | Some (MkStdioStream sent None true) => Some (set_stream sid (MkStdioStream sent None false) s)
      | _ => None
      end
  end.

(** ** The client's [Run] *)

(** A failing writer does not stop the loop, a panicking one does (it is
    recovered outside the loop). *)
Record Written : Type := MkWritten { wr_stdout : list Z; wr_stderr : list Z }.

(** What one message adds to the writers, and whether the loop goes on. *)
Definition write_data (outcome : WriteOutcome) (d : StdioData) (w : Written) : Written * bool :=
  let bs := match outcome with
            | WriteOK => sd_Data d
            | WriteErr n => take n (sd_Data d)
            | WritePanic => []
            end in
  let continue := match outcome with WritePanic => false | _ => true end in
  match sd_Channel d with
  | STDOUT => (MkWritten (wr_stdout w ++ bs) (wr_stderr w), continue)
  | STDERR => (MkWritten (wr_stdout w) (wr_stderr w ++ bs), continue)
  | OtherChannel _ => (w, true)
  end.

(** The loop: an error of [Recv] ends it. *)
Fixpoint stdio_Run (outcome : StdioData → WriteOutcome) (msgs : list (res error StdioData)) (w : Written)
    : Written :=
  match msgs with
  | Ret d :: msgs' =>
      let '(w', continue) := write_data (outcome d) d w in
      if continue then stdio_Run outcome msgs' w' else w'
  | _ => w
  end.

(** ** Lemmas *)

(** The bytes of one channel among the messages. *)
Definition channel_bytes (c : Channel) (ds : list StdioData) : list Z :=
  concat (sd_Data <$> filter (λ d, sd_Channel d = c) ds).

Lemma channel_bytes_app c ds1 ds2 :
  channel_bytes c (ds1 ++ ds2) = channel_bytes c ds1 ++ channel_bytes c ds2.
Proof. unfold channel_bytes. by rewrite filter_app, fmap_app, concat_app. Qed.

Lemma channel_bytes_one c d : channel_bytes c [d] = if decide (sd_Channel d = c) then sd_Data d else [].
Proof. unfold channel_bytes. rewrite filter_cons, filter_nil. case_decide; simpl; by rewrite ?app_nil_r. Qed.

(** The bytes before the first error of the reader. *)
Fixpoint read_bytes (reads : list ReadResult) : list Z :=
  match reads with
  | [] => []
  | MkRead bs err :: reads' => bs ++ match err with Some _ => [] | None => read_bytes reads' end
  end.

Lemma copyChan_bytes reads : concat (copyChan reads) = read_bytes reads.
Proof.
  induction reads as [|[bs err] reads IH]; [done|]. simpl. rewrite concat_app. f_equal.
  - case_bool_decide; [by subst|]. simpl. by rewrite app_nil_r.
  - destruct err; [done|apply IH].
Qed.

Lemma copyChan_nonempty reads : Forall (λ bs, bs ≠ []) (copyChan reads).
Proof.
  induction reads as [|[bs err] reads IH]; [by constructor|]. simpl. apply Forall_app. split.
  - case_bool_decide; by repeat constructor.
  - destruct err; [by constructor|done].
Qed.

(** The chunks of one channel, and of one call, in a sequence of taken ones. *)
Definition chunks (c : Channel) (taken : list (nat * StdioData)) : list (list Z) :=
  sd_Data <$> filter (λ d, sd_Channel d = c) taken.*2.
Definition taken_by (sid : nat) (taken : list (nat * StdioData)) : list StdioData :=
  (filter (λ x, x.1 = sid) taken).*2.
Definition nonempty (l : list (list Z)) : list (list Z) := filter (λ bs, bs ≠ []) l.

Lemma chunks_snoc c taken sid d :
  chunks c (taken ++ [(sid, d)]) = chunks c taken ++ if decide (sd_Channel d = c) then [sd_Data d] else [].
Proof.
  unfold chunks. rewrite fmap_app, filter_app, fmap_app. f_equal. simpl. rewrite filter_cons, filter_nil.
  by case_decide.
Qed.

Lemma taken_by_snoc sid taken sid' d :
  taken_by sid (taken ++ [(sid', d)]) = taken_by sid taken ++ if decide (sid' = sid) then [d] else [].
Proof. unfold taken_by. rewrite filter_app, fmap_app. f_equal. rewrite filter_cons, filter_nil. simpl. by case_decide. Qed.

(** A call sent what it took, but for the chunk in its hand or, when it is over,
    for one chunk whose [Send] failed. *)
Definition accounts (own : list StdioData) (x : StdioStream) : Prop :=
  ∃ rest, own = sx_sent x ++ rest ∧ (length rest ≤ 1)%nat ∧ (sx_open x = true → rest = option_list (sx_hand x)).

Section stream.
Variables (out0 err0 : list (list Z)).

#[local] Instance stdio_lts : LTS StdioServer StdioStep := {|
  lts_init s := s = MkStdio out0 err0 [];
  lts_step := StreamStdio_step
|}.

Definition original (c : Channel) : list (list Z) :=
  match c with STDOUT => out0 | STDERR => err0 | OtherChannel _ => [] end.

(** The chunks in the order they were taken account for the channels and for
    the calls. *)
Record conserved (taken : list (nat * StdioData)) (s : StdioServer) : Prop := MkConserved {
  cv_channels : ∀ c, chunks c taken ++ nonempty (pending c s) = nonempty (original c);
  cv_streams : ∀ sid x, st_streams s !! sid = Some x → accounts (taken_by sid taken) x;
  cv_calls : ∀ sid d, (sid, d) ∈ taken → (sid < length (st_streams s))%nat
}.

Lemma pending_set c c' v s :
  pending c' (set_pending c v s) =
  if decide (c = c') then match c with OtherChannel _ => [] | _ => v end else pending c' s.
Proof. destruct c, c'; simpl; repeat case_decide; try done; congruence. Qed.

Lemma set_pending_streams c v s : st_streams (set_pending c v s) = st_streams s.
Proof. by destruct c. Qed.
Lemma set_stream_pending sid x c s : pending c (set_stream sid x s) = pending c s.
Proof. by destruct c. Qed.

(** Replacing the state of one call. *)
Lemma set_stream_accounts taken sid x0 x (xs : list StdioStream) :
  (∀ i y, xs !! i = Some y → accounts (taken_by i taken) y) → xs !! sid = Some x0 →
  (accounts (taken_by sid taken) x0 → accounts (taken_by sid taken) x) →
  ∀ i y, <[sid := x]> xs !! i = Some y → accounts (taken_by i taken) y.
Proof.
  intros Hall H0 Hx i y. rewrite list_lookup_insert_Some.
  intros [(<- & <- & _)|[_ Hi]]; [by apply Hx, Hall|by apply Hall].
Qed.

(** Taking a chunk off a channel. *)
Lemma take_conserved taken s sid c sent bs rest :
  conserved taken s → st_streams s !! sid = Some (MkStdioStream sent None true) → pending c s = bs :: rest →
  bs ≠ [] → conserved (taken ++ [(sid, MkStdioData c bs)])
    (set_stream sid (MkStdioStream sent (Some (MkStdioData c bs)) true) (set_pending c rest s)).
Proof.
  intros [H1 H2 H3] Hs Hp Hb. split.
  - intros c'. rewrite set_stream_pending, pending_set, chunks_snoc, <- H1. cbn [sd_Channel sd_Data].
    case_decide as Hc; [|by rewrite app_nil_r]. subst c'. rewrite Hp, <- app_assoc. f_equal. unfold nonempty.
    rewrite filter_cons, decide_True by done. by destruct c.
  - intros i y. simpl. rewrite set_pending_streams, list_lookup_insert_Some, taken_by_snoc.
    intros [(<- & <- & _)|[Hne Hi]].
    + rewrite decide_True by done. destruct (H2 _ _ Hs) as (rest' & -> & _ & Hr). simpl in Hr.
      rewrite (Hr eq_refl), app_nil_r. exists [MkStdioData c bs]. by split_and!; simpl; [|lia|].
    + rewrite decide_False, app_nil_r by done. by apply H2.
  - intros i d. simpl. rewrite set_pending_streams, length_insert, elem_of_app, list_elem_of_singleton.
    intros [?|[= -> _]]; [by eapply H3|]. by eapply lookup_lt_Some.
Qed.

Lemma stdio_step_conserved l s s' taken :
  StreamStdio_step l s = Some s' → conserved taken s → ∃ taken', conserved taken' s'.
Proof.
  intros H Hc. pose proof Hc as [H1 H2 H3]. destruct l as [|sid c|sid send_err|sid]; simpl in H.
  - injection H as <-. exists taken. split; simpl; [by intros []; apply H1| |].
    + intros i y [Hi|[Hi [_ <-]%list_lookup_singleton_Some]]%lookup_app_Some; [by apply H2|].
      exists []. split_and!; simpl; [|lia|done]. unfold taken_by.
      destruct (filter _ taken) as [|[j d] l] eqn:Hf; [done|].
      assert ((j, d) ∈ filter (λ x : nat * StdioData, x.1 = i) taken) as Hin by (rewrite Hf; left).
      apply list_elem_of_filter in Hin as [Hj Hin]. simpl in Hj. subst j. specialize (H3 _ _ Hin). lia.
    + intros i d Hin%H3. rewrite length_app. lia.
  - destruct (st_streams s !! sid) as [[sent [] []]|] eqn:Hs; try done.
    destruct (pending c s) as [|bs rest] eqn:Hp; [done|]. case_decide as Hb; injection H as <-.
    + exists taken. split; rewrite ?set_pending_streams; [|done|done]. intros c'. rewrite pending_set, <- H1.
      case_decide as Hcc; [subst c'|done]. rewrite Hp. subst bs. by destruct c.
    + eexists. by eapply take_conserved.
  - destruct (st_streams s !! sid) as [[sent [d|] []]|] eqn:Hs; try done. injection H as <-. exists taken.
    split; simpl; rewrite ?length_insert; [by intros []; apply H1| |done].
    eapply set_stream_accounts; [done|done|]. intros (rest & -> & Hl & Hr). simpl in *. rewrite (Hr eq_refl).
    destruct send_err; [exists [d]|exists []]; simpl; rewrite ?app_nil_r; split_and!; done || lia.
  - destruct (st_streams s !! sid) as [[sent [] []]|] eqn:Hs; try done. injection H as <-. exists taken.
    split; simpl; rewrite ?length_insert; [by intros []; apply H1| |done].
    eapply set_stream_accounts; [done|done|]. intros (rest & -> & Hl & Hr). simpl in *. by exists rest.
Qed.

Lemma reachable_conserved s : reachable s → ∃ taken, conserved taken s.
Proof.
  apply (invariant_reachable (λ s, ∃ taken, conserved taken s)).
  - intros s0 ->. exists []. split; simpl; [by intros []|done|]. intros sid d Hin. by apply elem_of_nil in Hin.
  - intros l s0 s1 [taken Hc] Hs. by eapply stdio_step_conserved.
Qed.

(** ** Properties *)

(** C30: output is neither reordered, duplicated nor dropped, whatever calls of
    [StreamStdio] there are, at a time or one after the other.  There is an order
    in which the chunks were taken, each by one call: per channel they are, in
    that order, the beginning of what the plugin wrote, and the rest is still in
    the channel; and each call has sent the host the chunks it took, in that
    order, but for the one in its hand, or, when it has ended, for at most one,
    its last, whose [Send] failed. *)
Theorem StreamStdio_conserves s :
  reachable s →
  ∃ taken : list (nat * StdioData),
    (∀ c, chunks c taken ++ nonempty (pending c s) = nonempty (original c)) ∧
    (∀ sid d, (sid, d) ∈ taken → is_Some (st_streams s !! sid)) ∧
    ∀ sid x, st_streams s !! sid = Some x →
      ∃ rest, taken_by sid taken = sx_sent x ++ rest ∧ (length rest ≤ 1)%nat ∧
        (sx_open x = true → rest = option_list (sx_hand x)).
Proof.
  intros (taken & [H1 H2 H3])%reachable_conserved. exists taken. split_and!; [done| |done].
  intros sid d Hin%H3. by apply lookup_lt_is_Some.
Qed.
End stream.

(** The host's writers receive, per channel, exactly the bytes of the
    messages in order, up to the first error of the stream; messages of an
    unknown channel are dropped. *)
Theorem stdio_Run_writes ds rest w :
  (∀ d, rest ≠ Ret d :: tail rest) →
  stdio_Run (λ _, WriteOK) ((Ret <$> ds) ++ rest) w =
  MkWritten (wr_stdout w ++ channel_bytes STDOUT ds) (wr_stderr w ++ channel_bytes STDERR ds).
Proof.
  intros Hrest. revert w. induction ds as [|d ds IH]; intros w.
  - unfold channel_bytes. rewrite !filter_nil. simpl. rewrite !app_nil_r.
    destruct rest as [|[d|e|p] rest]; [by destruct w| |by destruct w..]. by destruct (Hrest d).
  - change (d :: ds) with ([d] ++ ds). rewrite !channel_bytes_app, !channel_bytes_one.
    destruct d as [[] bs]; simpl; rewrite IH; simpl; by rewrite <- ?app_assoc.
Qed.

(** [copyChan] sends every byte the plugin wrote before the end of its
    output, in chunks that are never empty. *)
Theorem copyChan_complete reads :
  concat (copyChan reads) = read_bytes reads ∧ Forall (λ bs, bs ≠ []) (copyChan reads).
Proof. split; [apply copyChan_bytes|apply copyChan_nonempty]. Qed.

(** ** Concrete instances *)

(** Two calls share the channels; the first one's second [Send] fails. *)
Definition ex_stream : StdioServer :=
  MkStdio [[4]] [] [MkStdioStream [MkStdioData STDOUT [1; 2]] None false;
                    MkStdioStream [MkStdioData STDERR [9]] (Some (MkStdioData STDOUT [5])) true].

Lemma ex_stream_reachable : @reachable _ _ (stdio_lts [[1; 2]; [3]; [5]; [4]] [[9]]) ex_stream.
Proof.
  apply (exec_reachable [StdioOpen; StdioOpen; StdioTake 0 STDOUT; StdioTake 1 STDERR; StdioSend 0 None;
      StdioTake 0 STDOUT; StdioSend 1 None; StdioTake 1 STDOUT; StdioSend 0 (Some EOF)]
    (MkStdio [[1; 2]; [3]; [5]; [4]] [[9]] [])); [by apply reachable_init|vm_compute; reflexivity].
Qed.

Example StreamStdio_conserves_witness :
  ∃ taken, chunks STDOUT taken = [[1; 2]; [3]; [5]] ∧
    ∃ rest, taken_by 0 taken = [MkStdioData STDOUT [1; 2]] ++ rest ∧ (length rest ≤ 1)%nat.
Proof.
  destruct (StreamStdio_conserves _ _ _ ex_stream_reachable) as (taken & H1 & _ & H3).
  exists taken. split.
  - apply (app_inj_2 _ [[1; 2]; [3]; [5]] [[4]] [[4]] eq_refl (H1 STDOUT)).
  - destruct (H3 0%nat _ eq_refl) as (rest & Hr & Hl & _). exists rest. split; [exact Hr|exact Hl].
Defined.

Definition ex_messages : list StdioData := [MkStdioData STDOUT [1; 2]; MkStdioData STDERR [9]; MkStdioData STDOUT [3]].
Example stdio_Run_writes_witness :
  stdio_Run (λ _, WriteOK) ((Ret <$> ex_messages) ++ [Err EOF]) (MkWritten [] []) =
  MkWritten [1; 2; 3] [9].
Proof. apply (stdio_Run_writes ex_messages [Err EOF] (MkWritten [] [])). intros d. discriminate. Defined.
