(* ===== verification/LogPump.v ===== *)
(** * The stderr pump

    client.go: [logStderr] reads the plugin's stderr line by line, mirrors it to
    the host's writer and turns the lines into log calls; log_entry.go:
    [parseJSON] and [flattenKVPairs] read the lines a plugin's hclog printed.

    [encoding/json], [time] and the hclog logger are answers of the environment
    [LogEnv]; [bufio.Reader.ReadLine] is modelled. *)

From S2P Require Import Prelude GoStd Config Negotiate ClientData Handshake.

(** ** Data *)

(** The levels of hclog, in their order. *)
Inductive Level : Type := NoLevel | LTrace | LDebug | LInfo | LWarn | LError | LOff.
#[export] Instance Level_eq_dec : EqDecision Level.
Proof. solve_decision. Defined.
Definition level_num (l : Level) : Z :=
  match l with NoLevel => 0 | LTrace => 1 | LDebug => 2 | LInfo => 3 | LWarn => 4 | LError => 5 | LOff => 6 end.

(** A value of type [any] as [json.Unmarshal] builds it. *)
Inductive Json : Type :=
| JNull
| JBool (b : bool)
| JNumber (digits : string)
| JString (s : string)
| JArray (l : list Json)
| JObject (l : list (string * Json)).

(** Nanoseconds since year 1, the zero [time.Time]. *)
Definition Time : Type := Z.

Record logEntryKV : Type := MkKV { kv_Key : string; kv_Value : Json }.
Record logEntry : Type := MkEntry {
  en_Message : string;
  en_Level : string;
  en_Timestamp : Time;
  en_KVPairs : list logEntryKV
}.

(** One call of the logger: the method, the message and its arguments, values
    of type [any]. *)
Inductive Any : Type := AnyJson (j : Json) | AnyString (s : string) | AnyError (e : error).
Record LogCall : Type := MkCall { lc_level : Level; lc_msg : string; lc_args : list Any }.

Record LogEnv : Type := MkLogEnv {
  lg_level : Level;                                  (* l.GetLevel() *)
  lg_Unmarshal : string → res error (gmap string Json);
  lg_ParseTime : string → res error Time;
  lg_FormatTime : Time → string;
  lg_LevelFromString : string → Level;
  lg_write : nat → WriteOutcome;                     (* the n-th write to config.Stderr *)
  lg_panics : LogCall → bool                         (* the logger panics on the call *)
}.

(** ** log_entry.go *)

Fixpoint flattenKVPairs (kvs : list logEntryKV) : list Any :=
  match kvs with
  | [] => []
  | kv :: kvs' => AnyString (kv_Key kv) :: AnyJson (kv_Value kv) :: flattenKVPairs kvs'
  end.

(** The checked assertion [v.(string)] on [raw[key]]. *)
Definition string_at (key : string) (raw : gmap string Json) : option string :=
  match raw !! key with Some (JString s) => Some s | _ => None end.

Section parse.
Context `{!MapRange string}.
Variable env : LogEnv.

Definition parseJSON (input : string) : res error logEntry :=
  raw ← lg_Unmarshal env input;
  let message := default "" (string_at "@message" raw) in
  let raw := delete "@message" raw in
  let level := default "" (string_at "@level" raw) in
  let raw := delete "@level" raw in
  t ← match string_at "@timestamp" raw with
      | Some s => lg_ParseTime env s
      | None => Ret 0
      end;
  let raw := delete "@timestamp" raw in
  Ret (MkEntry message level t ((λ '(k, v), MkKV k v) <$> range raw)).

(** ** logStderr *)

(** The log call of a complete line, if any, and the new value of [inPanic]. *)
Definition log_line (inPanic : bool) (line : string) : option LogCall * bool :=
  match parseJSON line with
  | Ret entry =>
      let logLevel := lg_LevelFromString env (en_Level entry) in
      if bool_decide (logLevel ≠ NoLevel) && bool_decide (level_num logLevel < level_num (lg_level env))
      then (None, inPanic)
      else
        let out := flattenKVPairs (en_KVPairs entry) ++
                   [AnyString "timestamp"; AnyString (lg_FormatTime env (en_Timestamp entry))] in
        match logLevel with
        | LTrace | LDebug | LInfo | LWarn | LError => (Some (MkCall logLevel (en_Message entry) out), inPanic)
        | NoLevel | LOff => (Some (MkCall LDebug line []), inPanic)
        end
  | _ =>
      if HasPrefix line "[TRACE]" then (Some (MkCall LTrace line []), inPanic)
      else if HasPrefix line "[DEBUG]" then (Some (MkCall LDebug line []), inPanic)
      else if HasPrefix line "[INFO]" then (Some (MkCall LInfo line []), inPanic)
      else if HasPrefix line "[WARN]" then (Some (MkCall LWarn line []), inPanic)
      else if HasPrefix line "[ERROR]" then (Some (MkCall LError line []), inPanic)
      else if HasPrefix line "panic: " || HasPrefix line "fatal error: " then (Some (MkCall LError line []), true)
      else if inPanic then (Some (MkCall LError line []), inPanic)
      else (Some (MkCall LDebug line []), inPanic)
  end.
End parse.

(** What the pump has done: the bytes the mirror accepted, how often it was
    written to, and the log calls. *)
Record Pump : Type := MkPump { pu_stderr : string; pu_writes : nat; pu_log : list LogCall }.

(** The first [n] bytes. *)
Fixpoint str_take (n : nat) (s : string) : string :=
  match n, s with
  | S n', String a s' => String a (str_take n' s')
  | _, _ => ""
  end.

(** [_, _ = c.config.Stderr.Write(bs)] *)
Definition write_stderr (env : LogEnv) (bs : string) : GoM Pump error unit := λ p,
  let n := pu_writes p in
  match lg_write env n with
  | WriteOK => (MkPump (pu_stderr p +:+ bs) (S n) (pu_log p), Ret tt)
  | WriteErr k => (MkPump (pu_stderr p +:+ str_take k bs) (S n) (pu_log p), Ret tt)
  | WritePanic => (MkPump (pu_stderr p) (S n) (pu_log p), Panic "writer")
  end.

Definition log_call (env : LogEnv) (c : LogCall) : GoM Pump error unit := λ p,
  (MkPump (pu_stderr p) (pu_writes p) (pu_log p ++ [c]), if lg_panics env c then Panic "logger" else Ret tt).

(** [bufio.Reader.ReadSlice('\n')] on the rest of the stream with a buffer of
    [n] bytes: a line without its line feed, a full buffer, or the rest of the
    stream. *)
Inductive SliceEnd : Type := Delim | Full | AtEnd.
Fixpoint ReadSlice (n : nat) (s : string) : string * SliceEnd * string :=
  match n with
  | O => ("", Full, s)
  | S n' =>
      match s with
      | "" => ("", AtEnd, "")
      | String a s' =>
          if decide (a = newline) then ("", Delim, s')
          else let '(line, e, rest) := ReadSlice n' s' in (String a line, e, rest)
      end
  end.

(** [bufio.Reader.ReadLine]: the line and [isPrefix], and the rest of the
    stream; [fin] is the error at its end.  A carriage return at the end of a
    full buffer is put back, since it may belong to the line's end. *)
Definition ReadLine (size : nat) (fin : error) (s : string) : res error (string * bool) * string :=
  match ReadSlice size s with
  | (line, Full, rest) =>
      if decide (drop_cr line = line) then (Ret (line, true), rest)
      else (Ret (drop_cr line, true), String carriage rest)
  | (line, Delim, rest) => (Ret (drop_cr line, false), rest)
  | (line, AtEnd, rest) => if decide (line = "") then (Err fin, rest) else (Ret (line, false), rest)
  end.

(** [bufio.NewReaderSize]: at least 16 bytes. *)
Definition reader_size (PluginLogBufferSize : Z) : nat := Z.to_nat (Z.max 16 PluginLogBufferSize).

Section pump.
Context `{!MapRange string}.
Variables (env : LogEnv) (size : nat) (fin : error).

Definition newline_str : string := String newline "".

(** The loop of [logStderr]; it returns [false] only when [fuel] is used up. *)
Fixpoint pump (fuel : nat) (continuation inPanic : bool) (s : string) : GoM Pump error bool :=
  match fuel with
  | O => ret false
  | S fuel' =>
      match ReadLine size fin s with
      | (Ret (line, isPrefix), rest) =>
          write_stderr env line ;;
          if isPrefix || continuation then
            log_call env (MkCall LDebug line []) ;;
            (if isPrefix then ret tt else write_stderr env newline_str) ;;
            pump fuel' isPrefix inPanic rest
          else
            write_stderr env newline_str ;;
            if decide (lg_level env = LOff) then pump fuel' continuation inPanic rest
            else
              let '(call, inPanic') := log_line env inPanic line in
              match call with Some c => log_call env c | None => ret tt end ;;
              pump fuel' continuation inPanic' rest
      | (Err e, _) =>
          if Is e EOF then ret true
          else log_call env (MkCall LError "reading plugin stderr" [AnyString "error"; AnyError e]) ;; ret true
      | (Panic why, _) => lift (Panic why)
      end
  end.

(** The whole goroutine: a panic is recovered and logged; the result says that
    it came to its end, where both wait groups are released. *)
Definition logStderr (stderr : string) (p : Pump) : Pump * bool :=
  match pump (S (String.length stderr)) false false stderr p with
  | (p', Ret finished) => (p', finished)
  | (p', Err _) => (p', true)
  | (p', Panic why) =>
      (MkPump (pu_stderr p') (pu_writes p')
         (pu_log p' ++ [MkCall LError "panic in plugin stderr log pump (recovered)" [AnyString "panic"; AnyString why]]),
       true)
  end.
End pump.

(** ** Lines of text *)

(** What a reader of lines makes of a text: [\r\n] ends a line like [\n]. *)
Definition at_newline (s : string) : bool :=
  match s with String a _ => bool_decide (a = newline) | "" => false end.
Fixpoint crlf (s : string) : string :=
  match s with
  | "" => ""
  | String a s' => if bool_decide (a = carriage) && at_newline s' then crlf s' else String a (crlf s')
  end.

(** The last line is terminated. *)
Fixpoint complete (s : string) : bool :=
  match s with
  | "" => true
  | String a "" => bool_decide (a = newline)
  | String _ s' => complete s'
  end.

Lemma no_char_cons c a s : no_char c (String a s) = true ↔ a ≠ c ∧ no_char c s = true.
Proof. unfold no_char. cbn [str_forall]. rewrite andb_true_iff, bool_decide_eq_true. done. Qed.

Lemma newline_carriage : newline ≠ carriage.
Proof. done. Qed.

Lemma drop_cr_cons a b s : drop_cr (String a (String b s)) = String a (drop_cr (String b s)).
Proof. done. Qed.

(** [drop_cr] either does nothing or drops a carriage return. *)
Lemma drop_cr_inv s : drop_cr s = s ∨ s = drop_cr s +:+ String carriage "".
Proof.
  induction s as [|a [|b s] IH]; [by left| |].
  - cbn [drop_cr]. case_decide; [subst; by right|by left].
  - rewrite drop_cr_cons. destruct IH as [IH|IH]; [left; by f_equal|right].
    change ((String a (drop_cr (String b s))) +:+ String carriage "") with
      (String a (drop_cr (String b s) +:+ String carriage "")). by f_equal.
Qed.

Lemma crlf_app_end line rest :
  no_char newline line = true → crlf (line +:+ String newline rest) = drop_cr line +:+ String newline (crlf rest).
Proof.
  induction line as [|a [|b line] IH]; intros Hn.
  - done.
  - cbn [drop_cr]. simpl. case_decide; case_bool_decide; done.
  - apply no_char_cons in Hn as [Ha Hn]. rewrite drop_cr_cons.
    change (String a (String b line) +:+ String newline rest) with (String a (String b line +:+ String newline rest)).
    change (String a (drop_cr (String b line)) +:+ String newline (crlf rest)) with
      (String a (drop_cr (String b line) +:+ String newline (crlf rest))).
    rewrite <- IH by done. apply no_char_cons in Hn as [Hb _]. cbn [crlf].
    change (at_newline (String b line +:+ String newline rest)) with (bool_decide (b = newline)).
    rewrite (bool_decide_eq_false_2 _ Hb). by rewrite andb_false_r.
Qed.

Lemma crlf_app line rest :
  no_char newline line = true → drop_cr line = line ∨ at_newline rest = false →
  crlf (line +:+ rest) = line +:+ crlf rest.
Proof.
  induction line as [|a [|b line] IH]; intros Hn Hor; [done| |].
  - change (String a "" +:+ rest) with (String a rest). cbn [crlf].
    destruct Hor as [Hd|Hr]; [|by rewrite Hr, andb_false_r].
    cbn [drop_cr] in Hd. case_decide; [done|]. by rewrite bool_decide_eq_false_2.
  - apply no_char_cons in Hn as [Ha Hn].
    change (String a (String b line) +:+ rest) with (String a (String b line +:+ rest)).
    change (String a (String b line) +:+ crlf rest) with (String a (String b line +:+ crlf rest)).
    rewrite <- IH; [|done|]. 2: { destruct Hor as [Hd|]; [left|by right]. rewrite drop_cr_cons in Hd. by injection Hd. }
    apply no_char_cons in Hn as [Hb _]. cbn [crlf].
    change (at_newline (String b line +:+ rest)) with (bool_decide (b = newline)).
    by rewrite (bool_decide_eq_false_2 _ Hb), andb_false_r.
Qed.

Lemma complete_app l s : s ≠ "" → complete (l +:+ s) = complete s.
Proof.
  intros Hs. induction l as [|a l IH]; [done|]. rewrite <- IH.
  change (String a l +:+ s) with (String a (l +:+ s)). destruct l; [by destruct s|done].
Qed.

Lemma complete_no_newline s : s ≠ "" → no_char newline s = true → complete s = false.
Proof.
  intros Hs. induction s as [|a [|b s] IH]; intros [Ha Hn]%no_char_cons || intros Hn; [done| |].
  - cbn. by rewrite bool_decide_eq_false_2.
  - by apply IH.
Qed.

(** ** Reading a line *)

Lemma ReadSlice_spec n s line e rest :
  ReadSlice n s = (line, e, rest) →
  no_char newline line = true ∧ (String.length line ≤ n)%nat ∧
  match e with
  | Delim => s = line +:+ String newline rest
  | Full => s = line +:+ rest ∧ String.length line = n
  | AtEnd => s = line ∧ rest = ""
  end.
Proof.
  revert s line rest. induction n as [|n IH]; intros s line rest H; simpl in H.
  - injection H as <- <- <-. done.
  - destruct s as [|a s]; [injection H as <- <- <-; repeat split; simpl; lia|].
    case_decide as Ha; [injection H as <- <- <-; subst a; repeat split; simpl; lia|].
    destruct (ReadSlice n s) as [[l' e'] r'] eqn:Hs. injection H as <- <- <-.
    destruct (IH _ _ _ Hs) as (Hn & Hl & He). repeat split; [by apply no_char_cons|simpl; lia|].
    destruct e'; [by rewrite He|destruct He as [-> <-]; done|by destruct He as [-> ->]].
Qed.

(** A line of a text, read with a buffer of any size. *)
Lemma ReadLine_spec size fin s :
  (2 ≤ size)%nat →
  match ReadLine size fin s with
  | (Ret (line, true), rest) => crlf s = line +:+ crlf rest ∧ (String.length rest < String.length s)%nat ∧
      (rest ≠ "" → complete rest = complete s)
  | (Ret (line, false), rest) => (String.length rest < String.length s)%nat ∧
      (crlf s = line +:+ String newline (crlf rest) ∧ (rest ≠ "" → complete rest = complete s) ∨
       rest = "" ∧ crlf s = line ∧ complete s = false)
  | (Err e, _) => e = fin ∧ s = ""
  | (Panic _, _) => False
  end.
Proof.
  intros Hsize. unfold ReadLine. destruct (ReadSlice size s) as [[line e] rest] eqn:Hs.
  apply ReadSlice_spec in Hs as (Hn & Hlen & He). destruct e.
  - subst s. split; [rewrite string_length_app; simpl; lia|left].
    split; [by apply crlf_app_end|]. intros Hr.
    rewrite complete_app by done. by destruct rest.
  - destruct He as [-> Hl]. case_decide as Hd.
    + split; [by apply crlf_app; auto|]. split; [rewrite string_length_app; lia|].
      intros Hr. by rewrite complete_app.
    + destruct (drop_cr_inv line) as [?|Hcr]; [done|].
      assert (Hn' : no_char newline (drop_cr line) = true).
      { rewrite Hcr in Hn. unfold no_char in Hn. rewrite str_forall_app in Hn.
        by apply andb_true_iff in Hn as [? _]. }
      assert (Hl' : String.length line = S (String.length (drop_cr line))).
      { rewrite Hcr at 1. rewrite string_length_app. simpl. lia. }
      assert (Heq : line +:+ rest = drop_cr line +:+ String carriage rest).
      { rewrite Hcr at 1. by rewrite string_app_assoc. }
      rewrite Heq. split; [apply crlf_app; auto|].
      split; [rewrite string_length_app; simpl; lia|].
      intros _. by rewrite complete_app.
  - destruct He as [-> ->]. case_decide; [done|].
    split; [destruct line; [done|simpl; lia]|right]. split; [done|]. split; [|by apply complete_no_newline].
    pose proof (crlf_app line "" Hn (or_intror eq_refl)) as H'. by rewrite !string_app_nil_r in H'.
Qed.

(** ** The pump *)

(** A host whose writer and logger work. *)
Definition healthy (env : LogEnv) : Prop :=
  (∀ n, lg_write env n = WriteOK) ∧ (∀ c, lg_panics env c = false).

(** The log calls of complete lines. *)
Fixpoint log_lines `{!MapRange string} (env : LogEnv) (inPanic : bool) (lines : list string) : list LogCall :=
  match lines with
  | [] => []
  | l :: ls =>
      let '(c, inPanic') := log_line env inPanic l in option_list c ++ log_lines env inPanic' ls
  end.

(** Lines as a plugin prints them. *)
Fixpoint print_lines (lines : list string) : string :=
  match lines with [] => "" | l :: ls => l +:+ String newline (print_lines ls) end.

(** A line that the buffer holds with its end. *)
Definition fits (size : nat) (line : string) : Prop :=
  no_char newline line = true ∧ drop_cr line = line ∧ (String.length line < size)%nat.

Lemma ReadSlice_line n line rest :
  no_char newline line = true → (String.length line < n)%nat →
  ReadSlice n (line +:+ String newline rest) = (line, Delim, rest).
Proof.
  revert n. induction line as [|a line IH]; intros n Hn Hl; (destruct n as [|n]; [simpl in Hl; lia|]).
  - done.
  - apply no_char_cons in Hn as [Ha Hn].
    change (String a line +:+ String newline rest) with (String a (line +:+ String newline rest)).
    cbn [ReadSlice]. rewrite decide_False by done. simpl in Hl. by rewrite IH by (done || lia).
Qed.

Section pump_lemmas.
Context `{!MapRange string}.
Variables (env : LogEnv) (size : nat) (fin : error).
Hypothesis Hsize : (2 ≤ size)%nat.

(** Only a panic of the writer or of the logger ends the pump early. *)
Lemma pump_finishes fuel continuation inPanic s p :
  (String.length s < fuel)%nat →
  ∃ p', pump env size fin fuel continuation inPanic s p = (p', Ret true) ∨
    ∃ why, pump env size fin fuel continuation inPanic s p = (p', Panic why).
Proof.
  revert continuation inPanic s p. induction fuel as [|fuel IH]; intros continuation inPanic s p Hlen; [lia|].
  pose proof (ReadLine_spec size fin s Hsize) as HR. simpl.
  destruct (ReadLine size fin s) as [[[line isPrefix]|e|why] rest]; [| |done].
  - assert (Hrest : (String.length rest < fuel)%nat) by (destruct isPrefix, HR; intuition lia).
    unfold bind, write_stderr, log_call, ret. cbn -[pump log_line].
    repeat (case_match; cbn -[pump log_line] in *; simplify_eq); eauto.
  - unfold bind, log_call, ret. case_match; [eauto|]. simpl. destruct (lg_panics env _); eauto.
Qed.

Hypothesis Henv : healthy env.

(** Run the writes and the log calls of a healthy host. *)
Ltac run_healthy :=
  repeat (progress (unfold bind, write_stderr, log_call, ret; rewrite ?(proj1 Henv), ?(proj2 Henv); cbn -[pump log_line])).

(** One round of the loop: what it mirrors does not depend on what it logs. *)
Lemma pump_round fuel continuation inPanic s line isPrefix rest p :
  ReadLine size fin s = (Ret (line, isPrefix), rest) →
  ∃ p' continuation' inPanic',
    pump env size fin (S fuel) continuation inPanic s p = pump env size fin fuel continuation' inPanic' rest p' ∧
    pu_stderr p' = pu_stderr p +:+ line +:+ (if isPrefix then "" else newline_str).
Proof.
  intros HR. cbn [pump]. rewrite HR. run_healthy.
  destruct isPrefix; [|destruct continuation]; run_healthy; 
    [do 3 eexists; split; [reflexivity|]; simpl; by rewrite ?string_app_nil_r, ?string_app_assoc..|].
  case_decide; [do 3 eexists; split; [reflexivity|]; simpl; by rewrite string_app_assoc|].
  destruct (log_line env inPanic line) as [[c|] inPanic']; run_healthy; do 3 eexists;
    (split; [reflexivity|]); simpl; by rewrite string_app_assoc.
Qed.

Lemma pump_mirror fuel continuation inPanic s p :
  (String.length s < fuel)%nat →
  ∃ p' tail, pump env size fin fuel continuation inPanic s p = (p', Ret true) ∧
    pu_stderr p' = pu_stderr p +:+ crlf s +:+ tail ∧
    (tail = "" ∨ tail = newline_str ∧ complete s = false).
Proof.
  revert continuation inPanic s p. induction fuel as [|fuel IH]; intros continuation inPanic s p Hlen; [lia|].
  pose proof (ReadLine_spec size fin s Hsize) as HR.
  destruct (ReadLine size fin s) as [[[line isPrefix]|e|why] rest] eqn:Hline; [| |done].
  2: { destruct HR as [-> ->]. simpl. rewrite Hline.
       destruct (Is fin EOF); run_healthy;
         (eexists _, ""; split; [reflexivity|]; split; [by rewrite !string_app_nil_r|by left]). }
  destruct (pump_round fuel continuation inPanic _ _ _ _ p Hline) as (p1 & c1 & i1 & -> & Hp1).
  destruct (IH c1 i1 rest p1) as (p2 & tail & -> & Hp2 & Htail); [destruct isPrefix, HR; intuition lia|].
  assert (Hnil : rest = "" → tail = "") by (intros ->; by destruct Htail as [?|[_ [=]]]).
  assert (Hkeep : (rest ≠ "" → complete rest = complete s) → tail = "" ∨ tail = newline_str ∧ complete s = false).
  { intros Hk. destruct Htail as [?|[-> Hr]]; [by left|]. right. split; [done|]. rewrite <- Hk; [done|].
    intros ->. by specialize (Hnil eq_refl). }
  destruct isPrefix; simpl in HR.
  - destruct HR as (Hc & _ & Hk). exists p2, tail. split; [done|]. split; [|auto].
    rewrite Hp2, Hp1, Hc, string_app_nil_r. by rewrite !string_app_assoc.
  - destruct HR as [_ [[Hc Hk]|(Hr & Hc & Hk)]].
    + exists p2, tail. split; [done|]. split; [|auto]. rewrite Hp2, Hp1, Hc. by rewrite !string_app_assoc.
    + exists p2, newline_str. split; [done|]. split; [|by right].
      rewrite Hp2, Hp1, Hc, Hr, (Hnil Hr). simpl. by rewrite string_app_nil_r.
Qed.

(** Lines that fit the buffer are logged one by one. *)
Lemma pump_log fuel inPanic lines p :
  lg_level env ≠ LOff → fin = EOF → Forall (fits size) lines →
  (String.length (print_lines lines) < fuel)%nat →
  pu_log (pump env size fin fuel false inPanic (print_lines lines) p).1 = pu_log p ++ log_lines env inPanic lines.
Proof.
  intros Hon Hfin. revert inPanic fuel p. induction lines as [|l lines IH]; intros inPanic fuel p Hall Hlen;
    (destruct fuel as [|fuel]; [lia|]).
  - cbn [print_lines pump]. unfold ReadLine. destruct size as [|n]; [lia|]. cbn [ReadSlice].
    rewrite decide_True by done. rewrite Hfin. simpl. by rewrite app_nil_r.
  - inversion Hall as [|? ? (Hn & Hd & Hl) Hall']; subst. cbn [print_lines pump log_lines] in *.
    unfold ReadLine. rewrite ReadSlice_line by done. rewrite Hd. run_healthy.
    rewrite decide_False by done. rewrite string_length_app in Hlen. simpl in Hlen.
    destruct (log_line env inPanic l) as [[c|] inPanic']; run_healthy; rewrite IH by (done || lia); simpl;
      by rewrite <- ?app_assoc.
Qed.
End pump_lemmas.

(** ** The log calls *)

Section calls.
Context `{!MapRange string}.
Variable env : LogEnv.

(** A line without a level: neither JSON nor tagged. *)
Definition untagged (line : string) : Prop :=
  (∀ e, parseJSON env line ≠ Ret e) ∧
  Forall (λ tag, HasPrefix line tag = false) ["[TRACE]"; "[DEBUG]"; "[INFO]"; "[WARN]"; "[ERROR]"].
Definition panic_line (line : string) : Prop :=
  untagged line ∧ HasPrefix line "panic: " || HasPrefix line "fatal error: " = true.

Lemma log_line_untagged inPanic line :
  untagged line →
  log_line env inPanic line =
  if HasPrefix line "panic: " || HasPrefix line "fatal error: " then (Some (MkCall LError line []), true)
  else (Some (MkCall (if inPanic then LError else LDebug) line []), inPanic).
Proof.
  intros [HJ HT]. unfold log_line. repeat (apply Forall_cons in HT as [-> HT]).
  destruct (parseJSON env line); [by edestruct HJ| |]; case_match; by destruct inPanic.
Qed.

Lemma log_line_inPanic line : (log_line env true line).2 = true.
Proof. unfold log_line. repeat case_match; done. Qed.

Lemma log_lines_inPanic lines : log_lines env true lines = omap (λ l, (log_line env true l).1) lines.
Proof.
  induction lines as [|l lines IH]; [done|]. cbn [log_lines omap list_omap].
  pose proof (log_line_inPanic l). destruct (log_line env true l) as [[c|] b]; simpl in *; subst; by rewrite IH.
Qed.

Lemma log_lines_app inPanic lines1 lines2 :
  ∃ inPanic', log_lines env inPanic (lines1 ++ lines2) =
    log_lines env inPanic lines1 ++ log_lines env inPanic' lines2.
Proof.
  revert inPanic. induction lines1 as [|l lines1 IH]; intros inPanic; [by exists inPanic|].
  simpl. destruct (log_line env inPanic l) as [c inP]. destruct (IH inP) as [i ->]. exists i.
  by rewrite app_assoc.
Qed.
End calls.

(** ** JSON lines *)

Lemma string_at_delete k k' raw : k ≠ k' → string_at k (delete k' raw) = string_at k raw.
Proof. intros Hk. unfold string_at. by rewrite lookup_delete_ne. Qed.

Lemma range_keys `{!MapRange string} (raw : gmap string Json) :
  NoDup (kv_Key <$> ((λ '(k, v), MkKV k v) <$> range raw)).
Proof.
  rewrite <- list_fmap_compose. rewrite (list_fmap_ext _ fst) by (by intros ? [] ?).
  rewrite range_perm. apply NoDup_fst_map_to_list.
Qed.

Lemma range_without `{!MapRange string} (raw : gmap string Json) a b c k v :
  MkKV k v ∈ ((λ '(k, v), MkKV k v) <$> range (delete c (delete b (delete a raw)))) ↔
  raw !! k = Some v ∧ k ∉ [a; b; c].
Proof.
  rewrite list_elem_of_fmap. setoid_rewrite range_perm. split.
  - intros ([k' v'] & [= -> ->] & Hin%elem_of_map_to_list).
    rewrite !lookup_delete_Some in Hin. split; [tauto|]. set_solver.
  - intros [Hk Hn]. exists (k, v). split; [done|]. apply elem_of_map_to_list.
    rewrite !lookup_delete_Some. set_solver.
Qed.

(** ** Properties *)

(** C23: the pump always comes to its end and releases the client's wait groups,
    whatever the plugin prints and even when the host's writer or logger
    panics; with a host whose writer and logger work, the mirror receives the
    plugin's stderr byte for byte (up to [\r\n] line ends, and one line feed
    after an unterminated last line), whatever the buffer size and the log
    level. *)
Theorem logStderr_mirrors `{!MapRange string} env bufsize fin stderr p :
  (logStderr env (reader_size bufsize) fin stderr p).2 = true ∧
  (healthy env →
   ∃ tail, pu_stderr (logStderr env (reader_size bufsize) fin stderr p).1 = pu_stderr p +:+ crlf stderr +:+ tail ∧
     (tail = "" ∨ tail = newline_str ∧ complete stderr = false)).
Proof.
  assert (Hsize : (2 ≤ reader_size bufsize)%nat) by (unfold reader_size; lia). unfold logStderr. split.
  - destruct (pump_finishes env _ fin Hsize (S (String.length stderr)) false false stderr p) as (p' & [->|[why ->]]);
      [lia|done|done].
  - intros Henv.
    destruct (pump_mirror env _ fin Hsize Henv (S (String.length stderr)) false false stderr p)
      as (p' & tail & -> & H); [lia|eauto].
Qed.

(** Once a plugin has printed the first line of a Go panic, every later line
    that carries no level of its own is logged as an error, so that the whole
    stack trace is visible. *)
Theorem logStderr_panic_trace `{!MapRange string} env bufsize lines1 line lines2 p :
  healthy env → lg_level env ≠ LOff →
  Forall (fits (reader_size bufsize)) (lines1 ++ line :: lines2) → panic_line env line →
  pu_log (logStderr env (reader_size bufsize) EOF (print_lines (lines1 ++ line :: lines2)) p).1 =
    pu_log p ++ log_lines env false lines1 ++
    MkCall LError line [] :: omap (λ l, (log_line env true l).1) lines2 ∧
  (∀ l, l ∈ lines2 → untagged env l → (log_line env true l).1 = Some (MkCall LError l [])).
Proof.
  intros Henv Hon Hall [Hu Hp].
  assert (Hsize : (2 ≤ reader_size bufsize)%nat) by (unfold reader_size; lia). split.
  - unfold logStderr.
    destruct (pump_mirror env _ EOF Hsize Henv (S (String.length (print_lines (lines1 ++ line :: lines2))))
      false false _ p (Nat.lt_succ_diag_r _)) as (p' & tail & Heq & _).
    pose proof (pump_log env _ EOF Hsize Henv _ false _ p Hon eq_refl Hall (Nat.lt_succ_diag_r _)) as Hlog.
    rewrite Heq in Hlog |- *. simpl in *. rewrite Hlog. f_equal.
    destruct (log_lines_app env false lines1 (line :: lines2)) as [i ->]. f_equal. cbn [log_lines].
    rewrite log_line_untagged by done. rewrite Hp. simpl. by rewrite log_lines_inPanic.
  - intros l _ Hl. rewrite log_line_untagged by done. by case_match.
Qed.

(** [parseJSON] fails exactly when the line is no JSON object or its
    timestamp cannot be parsed; otherwise the entry carries the line's message
    and level, and every other pair of the object exactly once. *)
Theorem parseJSON_spec `{!MapRange string} env input :
  match lg_Unmarshal env input with
  | Ret raw =>
      match string_at "@timestamp" raw ≫= λ s, match lg_ParseTime env s with Ret _ => None | r => Some r end with
      | Some r => ∀ e, parseJSON env input ≠ Ret e
      | None => ∃ entry, parseJSON env input = Ret entry ∧
          en_Message entry = default "" (string_at "@message" raw) ∧
          en_Level entry = default "" (string_at "@level" raw) ∧
          NoDup (kv_Key <$> en_KVPairs entry) ∧
          (∀ k v, MkKV k v ∈ en_KVPairs entry ↔
            raw !! k = Some v ∧ k ∉ ["@message"; "@level"; "@timestamp"])
      end
  | _ => ∀ e, parseJSON env input ≠ Ret e
  end.
Proof.
  unfold parseJSON. destruct (lg_Unmarshal env input) as [raw|e|w]; [|done..]. cbn [mbind res_mbind].
  rewrite (string_at_delete "@timestamp" "@level"), (string_at_delete "@timestamp" "@message") by done.
  destruct (string_at "@timestamp" raw) as [s|]; simpl; [destruct (lg_ParseTime env s); simpl; [|done..]|];
    (eexists; split; [reflexivity|]; simpl; rewrite (string_at_delete "@level" "@message") by done;
     split_and!; [done|done|apply range_keys|intros k v; apply range_without]).
Qed.

(** ** Concrete instances *)

Definition ex_logenv : LogEnv :=
  MkLogEnv LTrace
    (λ s, if HasPrefix s "{" then Ret {[ "@message" := JString "hi"; "@level" := JString "warn"; "n" := JNumber "1" ]}
          else Err (ErrExt "invalid character"))
    (λ _, Err (ErrExt "parsing time")) (λ _, "T") (λ l, if decide (l = "warn") then LWarn else NoLevel)
    (λ _, WriteOK) (λ _, false).

Definition ex_trace : list string := ["starting"; "panic: boom"; "goroutine 1 [running]:"; "[INFO] tagged"; "{}"].

Lemma logStderr_mirrors_witness :
  ∃ tail, pu_stderr (logStderr ex_logenv (reader_size 0) EOF
      ("a long line that does not fit" +:+ String carriage (String newline "end")) (MkPump "" 0 [])).1 =
    "" +:+ crlf ("a long line that does not fit" +:+ String carriage (String newline "end")) +:+ tail ∧
    (tail = "" ∨ tail = newline_str ∧
      complete ("a long line that does not fit" +:+ String carriage (String newline "end")) = false).
Proof.
  apply (logStderr_mirrors ex_logenv 0 EOF
    ("a long line that does not fit" +:+ String carriage (String newline "end")) (MkPump "" 0 [])).
  by split.
Defined.

Lemma logStderr_panic_trace_witness :
  pu_log (logStderr ex_logenv (reader_size 100) EOF (print_lines ex_trace) (MkPump "" 0 [])).1 =
  [MkCall LDebug "starting" []; MkCall LError "panic: boom" []; MkCall LError "goroutine 1 [running]:" [];
   MkCall LInfo "[INFO] tagged" [];
   MkCall LWarn "hi" [AnyString "n"; AnyJson (JNumber "1"); AnyString "timestamp"; AnyString "T"]].
Proof.
  refine (proj1 (logStderr_panic_trace ex_logenv 100 ["starting"] "panic: boom"
    ["goroutine 1 [running]:"; "[INFO] tagged"; "{}"] (MkPump "" 0 []) _ _ _ _)); [by split|done| |].
  - repeat (constructor; [repeat split; vm_compute; lia|]). constructor.
  - split; [|done]. split; [by intros e|]. by repeat constructor.
Defined.
