(* ===== verification/GRPCMux.v ===== *)
(** * Multiplexed broker connections

    internal/grpcmux and the [muxDial]/[listenForKnocks] half of
    grpc_broker.go: several gRPC connections over one yamux session.  Streams
    carry no name, so the dialling side knocks with an id, waits for the
    acknowledgement and then opens a stream; the listening side gives the next
    stream to the listener of that id.  One side is modelled as a dialler and
    the other as an implementation of the [GRPCMuxer] interface: the plugin's
    [ServerMuxer] or the host's [ClientMuxer]. *)

From S2P Require Import Prelude GoStd Config.

(** ** Establishing the plugin's session: [acceptSession] and [session] *)

(** The error that [acceptSession] is about to send, whether [sessionErrCh] is
    closed, and [m.sess]. *)
Record SessionState : Type := MkSession { ss_err : option error; ss_closed : bool; ss_sess : bool }.

Definition acceptSession (accept yamux : option error) : SessionState :=
  match accept with
  | Some e => MkSession (Some e) false false
  | None => match yamux with
            | Some e => MkSession (Some e) false false
            | None => MkSession None true true
            end
  end.

Definition defaultSessionInitTimeout : Z := 5 * Second.
Definition session_timeout (sessionInitTimeout : Z) : Z :=
  if bool_decide (sessionInitTimeout ≤ 0) then defaultSessionInitTimeout else sessionInitTimeout.

(** One call of [session]; [None] for the state of an [acceptSession] that has
    not come to an end within the timeout. *)
Definition session (st : option SessionState) : option SessionState * res error unit :=
  match st with
  | None => (None, Err (Errorf "timed out waiting for connection to be established" []))
  | Some (MkSession (Some e) _ sess) => (Some (MkSession None true sess), Err e)
  | Some (MkSession None closed sess) =>
      (st, if closed then
             if sess then Ret tt else Err (Errorf "no connection established and no error received" [])
           else Err (Errorf "timed out waiting for connection to be established" []))
  end.

(** ** The interface *)

(** A stream of the session, with the id its dialler knocked for; [None] is a
    stream opened without a knock. *)
Definition Stream : Type := option Z.

(** What the broker uses of a muxer.  [mx_AcceptKnock] is [None] where it blocks;
    [mx_Incoming] is the arrival of a stream; [mux_move] are the muxer's own
    goroutines (the accept loops). *)
Class GRPCMuxer (M Lb : Type) : Type := {
  mx_Listener : Z → M → M;
  mx_AcceptKnock : Z → M → option (M * res error unit);
  mx_Incoming : Stream → M → M;
  mux_move : Lb → M → option M;
  routed_to : M → list (option Z * Stream)      (* who got which stream; None is the main listener *)
}.

(** ** The plugin's muxer *)

(** The accept loop: in [session.Accept], with a stream in hand, sending it to a
    listener's channel, or returned with an error. *)
Inductive Loop : Type :=
| LoopAccept
| LoopConn (c : Stream)
| LoopSend (ref : nat) (id : Z) (c : Stream)
| LoopFailed (e : error).

Record ServerMuxer : Type := MkServerMuxer {
  sm_knockCh : option Z;                   (* capacity 1 *)
  sm_acceptChannels : gmap Z nat;          (* a channel by its creation number *)
  sm_next : nat;
  sm_done : gset nat;                      (* channels whose listener is closed *)
  sm_streams : list Stream;                (* opened, not yet accepted *)
  sm_loop : Loop;
  sm_got : list (option Z * Stream)
}.

Definition NewGRPCServerMuxer : ServerMuxer := MkServerMuxer None ∅ 0 ∅ [] LoopAccept [].

Definition server_Listener (id : Z) (m : ServerMuxer) : ServerMuxer :=
  MkServerMuxer (sm_knockCh m) (<[id := sm_next m]> (sm_acceptChannels m)) (S (sm_next m)) (sm_done m)
    (sm_streams m) (sm_loop m) (sm_got m).

(** [m.knockCh <- id; return nil] *)
Definition server_AcceptKnock (id : Z) (m : ServerMuxer) : option (ServerMuxer * res error unit) :=
  match sm_knockCh m with
  | Some _ => None
  | None => Some (MkServerMuxer (Some id) (sm_acceptChannels m) (sm_next m) (sm_done m) (sm_streams m)
                    (sm_loop m) (sm_got m), Ret tt)
  end.

Definition server_Incoming (c : Stream) (m : ServerMuxer) : ServerMuxer :=
  MkServerMuxer (sm_knockCh m) (sm_acceptChannels m) (sm_next m) (sm_done m) (sm_streams m ++ [c])
    (sm_loop m) (sm_got m).

Definition set_loop (knockCh : option Z) (streams : list Stream) (loop : Loop) (got : list (option Z * Stream))
    (m : ServerMuxer) : ServerMuxer :=
  MkServerMuxer knockCh (sm_acceptChannels m) (sm_next m) (sm_done m) streams loop got.

(** [blockedServerListener.Accept]: the listener of the channel takes the stream
    the loop sends, unless its [doneCh] is closed. *)
Definition listener_takes (ref : nat) (id : Z) (c : Stream) (m : ServerMuxer) : option ServerMuxer :=
  if decide (ref ∈ sm_done m) then None
  else Some (set_loop (sm_knockCh m) (sm_streams m) LoopAccept (sm_got m ++ [(Some id, c)]) m).

(** The accept loop moves, or a brokered listener is closed. *)
Inductive ServerMove : Type := SAccept | SRoute | SDeliver | SDone (id : Z).

Definition server_move (l : ServerMove) (m : ServerMuxer) : option ServerMuxer :=
  match l, sm_loop m with
  | SAccept, LoopAccept =>
      match sm_streams m with
      | c :: cs => Some (set_loop (sm_knockCh m) cs (LoopConn c) (sm_got m) m)
      | [] => None
      end
  | SRoute, LoopConn c =>
      Some match sm_knockCh m with
           | Some id =>
               match sm_acceptChannels m !! id with
               | Some ref => set_loop None (sm_streams m) (LoopSend ref id c) (sm_got m) m
               | None => set_loop None (sm_streams m)
                   (LoopFailed (Errorf "received knock on ID %d that doesn't have a listener" [Itoa id])) (sm_got m) m
               end
           | None => set_loop None (sm_streams m) LoopAccept (sm_got m ++ [(None, c)]) m
           end
  | SDeliver, LoopSend ref id c => listener_takes ref id c m
  | SDone id, _ =>
      ref ← sm_acceptChannels m !! id;
      Some (MkServerMuxer (sm_knockCh m) (sm_acceptChannels m) (sm_next m) ({[ref]} ∪ sm_done m) (sm_streams m)
              (sm_loop m) (sm_got m))
  | _, _ => None
  end.

#[export] Instance server_muxer : GRPCMuxer ServerMuxer ServerMove := {|
  mx_Listener := server_Listener;
  mx_AcceptKnock := server_AcceptKnock;
  mx_Incoming := server_Incoming;
  mux_move := server_move;
  routed_to := sm_got
|}.

(** ** The host's muxer *)

(** Listeners by their creation number: the id and whether [waitCh] (capacity 1)
    is full; the listeners inside [session.Accept]. *)
Record ClientMuxer : Type := MkClientMuxer {
  cm_acceptListeners : gmap Z nat;
  cm_next : nat;
  cm_wait : gmap nat (Z * bool);
  cm_accepting : list nat;
  cm_streams : list Stream;
  cm_got : list (option Z * Stream)
}.

Definition newClientMuxer : ClientMuxer := MkClientMuxer ∅ 0 ∅ [] [] [].

Definition client_Listener (id : Z) (m : ClientMuxer) : ClientMuxer :=
  MkClientMuxer (<[id := cm_next m]> (cm_acceptListeners m)) (S (cm_next m))
    (<[cm_next m := (id, false)]> (cm_wait m)) (cm_accepting m) (cm_streams m) (cm_got m).

Definition client_AcceptKnock (id : Z) (m : ClientMuxer) : option (ClientMuxer * res error unit) :=
  match cm_acceptListeners m !! id with
  | None => Some (m, Err (Errorf "no listener for id %d" [Itoa id]))
  | Some ref =>
      match cm_wait m !! ref with
      | Some (i, false) =>
          Some (MkClientMuxer (cm_acceptListeners m) (cm_next m) (<[ref := (i, true)]> (cm_wait m))
                  (cm_accepting m) (cm_streams m) (cm_got m), Ret tt)
      | _ => None
      end
  end.

Definition client_Incoming (c : Stream) (m : ClientMuxer) : ClientMuxer :=
  MkClientMuxer (cm_acceptListeners m) (cm_next m) (cm_wait m) (cm_accepting m) (cm_streams m ++ [c]) (cm_got m).

(** A listener's [Accept] is unblocked, and then gets a stream of the session. *)
Inductive ClientMove : Type := CUnblock (ref : nat) | CAccept (ref : nat).

Definition client_move (l : ClientMove) (m : ClientMuxer) : option ClientMuxer :=
  match l with
  | CUnblock ref =>
      match cm_wait m !! ref with
      | Some (id, true) =>
          if decide (ref ∈ cm_accepting m) then None
          else Some (MkClientMuxer (cm_acceptListeners m) (cm_next m) (<[ref := (id, false)]> (cm_wait m))
                       (ref :: cm_accepting m) (cm_streams m) (cm_got m))
      | _ => None
      end
  | CAccept ref =>
      match cm_streams m, cm_wait m !! ref with
      | c :: cs, Some (id, _) =>
          if decide (ref ∈ cm_accepting m) then
            Some (MkClientMuxer (cm_acceptListeners m) (cm_next m) (cm_wait m)
                    (filter (λ r, r ≠ ref) (cm_accepting m)) cs (cm_got m ++ [(Some id, c)]))
          else None
      | _, _ => None
      end
  end.

#[export] Instance client_muxer : GRPCMuxer ClientMuxer ClientMove := {|
  mx_Listener := client_Listener;
  mx_AcceptKnock := client_AcceptKnock;
  mx_Incoming := client_Incoming;
  mux_move := client_move;
  routed_to := cm_got
|}.

(** ** Knocking and dialling *)

(** [muxDial] under [dialMutex]: nobody dials, a knock waits for its
    acknowledgement, or it has it and opens the stream. *)
Inductive DialPhase : Type := Idle | Knocked (id : Z) | Acked (id : Z).

Record System (M : Type) : Type := MkSystem {
  sy_dial : DialPhase;
  sy_wire : list Z;                (* knocks under way to listenForKnocks *)
  sy_acks : list (Z * bool);       (* acknowledgements, and whether they carry no error *)
  sy_mux : M
}.
Arguments MkSystem {M}.
Arguments sy_dial {M}.
Arguments sy_wire {M}.
Arguments sy_acks {M}.
Arguments sy_mux {M}.

Inductive SystemStep (Lb : Type) : Type :=
| YListen (id : Z)
| YKnock (id : Z)
| YAcceptKnock
| YAck
| YKnockTimeout
| YReap (id : Z)                   (* timeoutWait drops an acknowledgement nobody took *)
| YDial (ok : bool)
| YRedial                          (* the main connection is dialled again *)
| YMux (l : Lb).
Arguments YListen {Lb}.
Arguments YKnock {Lb}.
Arguments YAcceptKnock {Lb}.
Arguments YAck {Lb}.
Arguments YKnockTimeout {Lb}.
Arguments YReap {Lb}.
Arguments YDial {Lb}.
Arguments YRedial {Lb}.
Arguments YMux {Lb}.

(** The acknowledgement for an id: acknowledgements are kept by id. *)
Fixpoint take_ack (id : Z) (acks : list (Z * bool)) : option (bool * list (Z * bool)) :=
  match acks with
  | [] => None
  | (id', ok) :: rest =>
      if decide (id' = id) then Some (ok, rest)
      else match take_ack id rest with
           | Some (b, rest') => Some (b, (id', ok) :: rest')
           | None => None
           end
  end.

Definition system_step {M Lb} `{!GRPCMuxer M Lb} (l : SystemStep Lb) (s : System M) : option (System M) :=
  match l, sy_dial s with
  | YListen id, d => Some (MkSystem d (sy_wire s) (sy_acks s) (mx_Listener id (sy_mux s)))
  | YKnock id, Idle => Some (MkSystem (Knocked id) (sy_wire s ++ [id]) (sy_acks s) (sy_mux s))
  | YAcceptKnock, d =>
      match sy_wire s with
      | id :: rest =>
          '(m, r) ← mx_AcceptKnock id (sy_mux s);
          Some (MkSystem d rest (sy_acks s ++ [(id, match r with Ret _ => true | _ => false end)]) m)
      | [] => None
      end
  | YAck, Knocked id =>
      match take_ack id (sy_acks s) with
      | Some (ok, rest) => Some (MkSystem (if ok then Acked id else Idle) (sy_wire s) rest (sy_mux s))
      | None => None
      end
  | YKnockTimeout, Knocked id => Some (MkSystem Idle (sy_wire s) (sy_acks s) (sy_mux s))
  | YReap id, d =>
      match take_ack id (sy_acks s) with
      | Some (_, rest) => Some (MkSystem d (sy_wire s) rest (sy_mux s))
      | None => None
      end
  | YDial ok, Acked id =>
      Some (MkSystem Idle (sy_wire s) (sy_acks s) (if ok then mx_Incoming (Some id) (sy_mux s) else sy_mux s))
  | YRedial, d => Some (MkSystem d (sy_wire s) (sy_acks s) (mx_Incoming None (sy_mux s)))
  | YMux lb, d => m ← mux_move lb (sy_mux s); Some (MkSystem d (sy_wire s) (sy_acks s) m)
  | _, _ => None
  end.

(** The system once the control connection is served. *)
Definition connected {M} (m : M) : System M := MkSystem Idle [] [] m.

#[export] Instance server_lts : LTS (System ServerMuxer) (SystemStep ServerMove) := {|
  lts_init s := s = connected NewGRPCServerMuxer;
  lts_step := system_step
|}.
#[export] Instance client_lts : LTS (System ClientMuxer) (SystemStep ClientMove) := {|
  lts_init s := s = connected newClientMuxer;
  lts_step := system_step
|}.

(** The main connection is not dialled again. *)
Definition no_redial {Lb} (l : SystemStep Lb) : bool := match l with YRedial => false | _ => true end.

(** ** Lemmas: the streams a dialler may still open *)

Definition owed_acks (acks : list (Z * bool)) : list Stream :=
  omap (λ a : Z * bool, if a.2 then Some (Some a.1) else None) acks.
Definition owed {M} (s : System M) : list Stream :=
  owed_acks (sy_acks s) ++ match sy_dial s with Acked id => [Some id] | _ => [] end.

Lemma take_ack_owed id acks ok rest :
  take_ack id acks = Some (ok, rest) →
  owed_acks acks ≡ₚ (if ok then [Some id] else []) ++ owed_acks rest.
Proof.
  revert rest. induction acks as [|[i b] acks IH]; intros rest H; simpl in H; [done|].
  case_decide as Hi.
  - injection H as -> ->. subst i. by destruct ok.
  - destruct (take_ack id acks) as [[ok' rest']|]; [|done]. injection H as -> <-.
    unfold owed_acks in *. simpl. specialize (IH _ eq_refl). destruct b; [|done].
    rewrite IH. destruct ok; [apply Permutation_swap|done].
Qed.

(** Taking an acknowledgement, and dropping one, owe no more than before. *)
Lemma owed_YAck {M} id acks ok rest w w' (m m' : M) :
  take_ack id acks = Some (ok, rest) →
  owed (MkSystem (if ok then Acked id else Idle) w' rest m') ⊆+ owed (MkSystem (Knocked id) w acks m).
Proof.
  intros H%take_ack_owed. unfold owed. simpl. rewrite app_nil_r, H. apply Permutation_submseteq.
  destruct ok; simpl; [by rewrite Permutation_app_comm|by rewrite app_nil_r].
Qed.

Lemma owed_YReap {M} id d acks ok rest w w' (m m' : M) :
  take_ack id acks = Some (ok, rest) → owed (MkSystem d w' rest m') ⊆+ owed (MkSystem d w acks m).
Proof.
  intros H%take_ack_owed. unfold owed. simpl. rewrite H, <- app_assoc. apply submseteq_inserts_l. done.
Qed.

Lemma submseteq_nil (l : list Stream) : l ⊆+ [] → l = [].
Proof. intros H. by apply submseteq_nil_r in H. Qed.

(** ** Lemmas: the plugin's muxer *)

(** The streams that have no listener yet. *)
Definition unrouted (m : ServerMuxer) : list Stream :=
  match sm_loop m with LoopConn c => [c] | _ => [] end ++ sm_streams m.

(** Every stream under way or promised by an acknowledgement belongs to the
    knock in [knockCh]. *)
Definition knocked_for (m : ServerMuxer) : list Stream :=
  match sm_knockCh m with Some id => [Some id] | None => [] end.
Definition server_phase (s : System ServerMuxer) : Prop :=
  owed s ++ unrouted (sy_mux s) ⊆+ knocked_for (sy_mux s).

Record server_inv (s : System ServerMuxer) : Prop := MkServerInv {
  si_got : ∀ x c, (x, c) ∈ sm_got (sy_mux s) → x = c;
  si_send : ∀ ref id c, sm_loop (sy_mux s) = LoopSend ref id c → c = Some id;
  si_phase : server_phase s
}.

Lemma server_phase_frame s s' :
  owed s' ⊆+ owed s → sm_knockCh (sy_mux s') = sm_knockCh (sy_mux s) →
  unrouted (sy_mux s') = unrouted (sy_mux s) → server_phase s → server_phase s'.
Proof.
  unfold server_phase, knocked_for. intros Ho -> -> H. etrans; [|exact H]. by apply submseteq_app.
Qed.

(** A stream under way, where only one may be. *)
Lemma owed_singleton {M} (s : System M) c cs id :
  owed s ++ c :: cs ⊆+ [Some id] → c = Some id ∧ cs = [] ∧ owed s = [].
Proof.
  intros H. apply submseteq_length_Permutation in H as Hp; [|rewrite length_app; simpl; lia].
  rewrite (Permutation_app_comm (owed s)) in Hp. simpl in Hp. apply Permutation_singleton_r in Hp.
  injection Hp as -> Hp. by apply app_eq_nil in Hp as [-> ->].
Qed.

(** Routing: the stream in hand is the one that was knocked for. *)
Lemma server_phase_conn s c :
  server_phase s → sm_loop (sy_mux s) = LoopConn c →
  ∃ id, c = Some id ∧ sm_knockCh (sy_mux s) = Some id ∧ sm_streams (sy_mux s) = [] ∧ owed s = [].
Proof.
  unfold server_phase, knocked_for, unrouted. intros H Hc. rewrite Hc in H. simpl in H.
  destruct (sm_knockCh (sy_mux s)) as [id|].
  - apply owed_singleton in H as (-> & -> & ->). eauto.
  - apply submseteq_nil, app_eq_nil in H as [_ [=]].
Qed.

Lemma server_done_inv d w a i m m' :
  server_move (SDone i) m = Some m' → server_inv (MkSystem d w a m) → server_inv (MkSystem d w a m').
Proof.
  intros H [Hg Hs Hp]. simpl in *. destruct (sm_acceptChannels m !! i); [|done]. injection H as <-.
  constructor; simpl; [done|done|]. by eapply server_phase_frame; [..|exact Hp].
Qed.

Lemma server_move_inv d w a l m m' :
  server_move l m = Some m' → server_inv (MkSystem d w a m) → server_inv (MkSystem d w a m').
Proof.
  intros H Hinv. destruct l as [| | |i]; [..|by eapply server_done_inv]; destruct Hinv as [Hg Hs Hp];
    simpl in *; destruct (sm_loop m) as [|c|ref id c|e] eqn:Hl; try discriminate.
  - destruct (sm_streams m) as [|c cs] eqn:Hst; [done|]. injection H as <-. constructor; simpl; [done|done|].
    eapply server_phase_frame; [..|exact Hp]; try done. unfold unrouted. simpl. by rewrite Hl, Hst.
  - destruct (server_phase_conn _ _ Hp Hl) as (id & -> & Hk & Hst & Ho). simpl in *. rewrite Hk, Hst in H.
    destruct (sm_acceptChannels m !! id) as [ref|]; injection H as <-; (constructor; simpl; [done|..]);
      try (by intros; simplify_eq); unfold server_phase; change (owed _) with (owed (MkSystem d w a m));
      by rewrite Ho.
  - unfold listener_takes in H. case_decide; [done|]. injection H as <-. constructor; simpl; [|done|].
    + intros x c'. rewrite elem_of_app, list_elem_of_singleton. intros [?|[= -> ->]]; [by apply Hg|].
      by rewrite (Hs _ _ _ eq_refl).
    + eapply server_phase_frame; [..|exact Hp]; try done. unfold unrouted. simpl. by rewrite Hl.
Qed.

Lemma server_AcceptKnock_inv d id w acks m m' r :
  server_AcceptKnock id m = Some (m', r) → server_inv (MkSystem d (id :: w) acks m) →
  server_inv (MkSystem d w (acks ++ [(id, match r with Ret _ => true | _ => false end)]) m').
Proof.
  unfold server_AcceptKnock. intros H [Hg Hs Hp]. destruct (sm_knockCh m) eqn:Hk; [done|]. injection H as <- <-.
  constructor; simpl; [done|done|]. unfold server_phase, knocked_for in *. simpl in *. rewrite Hk in Hp.
  apply submseteq_nil, app_eq_nil in Hp as [Ho Hu]. unfold owed, unrouted, owed_acks in *. simpl in *.
  apply app_eq_nil in Ho as [Ha Hd]. by rewrite omap_app, Ha, Hd, Hu.
Qed.

Lemma server_step_inv l s s' :
  no_redial l = true → system_step l s = Some s' → server_inv s → server_inv s'.
Proof.
  intros Hr H Hinv. destruct s as [d w a m], l as [id|id| | | |id|ok| |lb]; try discriminate; simpl in H.
  3: { destruct w as [|id rest]; [done|]. destruct (server_AcceptKnock id m) as [[m' r]|] eqn:Hk; [|done].
       injection H as <-. by eapply server_AcceptKnock_inv. }
  7: { destruct (server_move lb m) as [m'|] eqn:Hm; [|done]. simpl in H. injection H as <-.
       by eapply server_move_inv. }
  all: destruct Hinv as [Hg Hs Hp].
  - injection H as <-. constructor; simpl; [done|done|]. by eapply server_phase_frame; [..|exact Hp].
  - destruct d; try discriminate. injection H as <-. constructor; simpl; [done|done|].
    by eapply server_phase_frame; [..|exact Hp].
  - destruct d as [|id|id]; try discriminate. destruct (take_ack id a) as [[ok rest]|] eqn:Ht; [|done].
    injection H as <-. constructor; simpl; [done|done|].
    eapply server_phase_frame; [by eapply owed_YAck|done|done|exact Hp].
  - destruct d as [|id|id]; try discriminate. injection H as <-. constructor; simpl; [done|done|].
    by eapply server_phase_frame; [..|exact Hp].
  - destruct (take_ack id a) as [[ok rest]|] eqn:Ht; [|done]. injection H as <-. constructor; simpl; [done|done|].
    eapply server_phase_frame; [by eapply owed_YReap|done|done|exact Hp].
  - destruct d as [|id|id]; try discriminate. injection H as <-. unfold server_phase, owed in Hp. simpl in Hp.
    destruct ok; (constructor; simpl; [done|done|]); unfold server_phase; (etrans; [|exact Hp]);
      unfold owed; simpl; rewrite app_nil_r.
    + apply Permutation_submseteq. unfold unrouted. simpl. rewrite <- app_assoc. f_equiv.
      rewrite app_assoc. apply Permutation_app_comm.
    + rewrite <- app_assoc. apply submseteq_skips_l. by apply submseteq_inserts_l.
Qed.

Lemma server_run_inv ls s :
  exec ls (connected NewGRPCServerMuxer) = Some s → forallb no_redial ls = true → server_inv s.
Proof.
  intros He Hr. refine (exec_invariant_when no_redial server_inv ls _ s _ Hr _ He).
  - intros l s0 s1 Hl Hi Hs. by apply (server_step_inv l s0 s1).
  - constructor; simpl; [set_solver|done|]. unfold server_phase. done.
Qed.

(** ** Lemmas: the host's muxer *)

(** No listener is unblocked. *)
Definition shut (m : ClientMuxer) : Prop :=
  cm_accepting m = [] ∧ map_Forall (λ _ (x : Z * bool), x.2 = false) (cm_wait m).

#[export] Instance shut_dec m : Decision (shut m).
Proof. unfold shut. apply and_dec; [apply _|]. refine (map_Forall_dec _ _). intros ? x. apply (decide (x.2 = false)). Defined.

(** What the host's side cannot order, a knock while the listener of an earlier
    knock waits for its stream, is excluded: a knock is sent only when no earlier
    one is under way and no listener is unblocked. *)
Definition patient (l : SystemStep ClientMove) (s : System ClientMuxer) : bool :=
  match l with
  | YKnock _ => bool_decide (sy_wire s = []) && bool_decide (shut (sy_mux s))
  | _ => true
  end.

Fixpoint patient_run (ls : list (SystemStep ClientMove)) (s : System ClientMuxer) : bool :=
  match ls with
  | [] => true
  | l :: ls' => patient l s && match system_step l s with Some s' => patient_run ls' s' | None => true end
  end.

(** Exactly one listener, of this id, is unblocked. *)
Definition unblocked (id : Z) (m : ClientMuxer) : Prop :=
  ∃ ref,
    (cm_wait m !! ref = Some (id, true) ∧ cm_accepting m = [] ∨
     cm_wait m !! ref = Some (id, false) ∧ cm_accepting m = [ref]) ∧
    ∀ ref' id' b, ref' ≠ ref → cm_wait m !! ref' = Some (id', b) → b = false.

(** At most one knock is under way; once it is accepted, every stream under way
    or promised belongs to the one unblocked listener. *)
Definition client_phase (s : System ClientMuxer) : Prop :=
  let m := sy_mux s in
  shut m ∧ owed s ++ cm_streams m = [] ∧ (length (sy_wire s) ≤ 1)%nat ∨
  ∃ id, unblocked id m ∧ sy_wire s = [] ∧ owed s ++ cm_streams m ⊆+ [Some id].

Record client_inv (s : System ClientMuxer) : Prop := MkClientInv {
  ci_got : ∀ x c, (x, c) ∈ cm_got (sy_mux s) → x = c;
  ci_ids : ∀ id ref, cm_acceptListeners (sy_mux s) !! id = Some ref → ∃ b, cm_wait (sy_mux s) !! ref = Some (id, b);
  ci_next : ∀ ref x, cm_wait (sy_mux s) !! ref = Some x → (ref < cm_next (sy_mux s))%nat;
  ci_phase : client_phase s
}.

Lemma shut_listener id m :
  shut m → shut (client_Listener id m).
Proof.
  intros [Ha Hw]. split; [done|]. by apply map_Forall_insert_2.
Qed.

Lemma unblocked_listener id i m :
  (∀ ref x, cm_wait m !! ref = Some x → (ref < cm_next m)%nat) →
  unblocked id m → unblocked id (client_Listener i m).
Proof.
  intros Hn (ref & Hor & Hw).
  assert (Hne : cm_next m ≠ ref) by (destruct Hor as [[H _]|[H _]]; specialize (Hn _ _ H); lia).
  exists ref. simpl. rewrite lookup_insert_ne by done. split; [done|]. intros ref' i' b Hr.
  rewrite lookup_insert_Some. intros [[_ [= _ <-]]|[_ H]]; [done|by eapply Hw].
Qed.

(** Opening the door of a listener, from a state where all are closed. *)
Lemma AcceptKnock_unblocks id m m' r :
  (∀ i ref, cm_acceptListeners m !! i = Some ref → ∃ b, cm_wait m !! ref = Some (i, b)) →
  shut m → client_AcceptKnock id m = Some (m', r) →
  cm_got m' = cm_got m ∧ cm_next m' = cm_next m ∧ cm_streams m' = cm_streams m ∧
  cm_acceptListeners m' = cm_acceptListeners m ∧ dom (cm_wait m') = dom (cm_wait m) ∧
  (∀ i ref, cm_acceptListeners m !! i = Some ref → ∃ b, cm_wait m' !! ref = Some (i, b)) ∧
  match r with Ret _ => unblocked id m' | _ => shut m' end.
Proof.
  intros Hids [Ha Hw] H. unfold client_AcceptKnock in H.
  destruct (cm_acceptListeners m !! id) as [ref|] eqn:Hl; [|injection H as <- <-; by repeat split].
  destruct (Hids _ _ Hl) as [b Hr]. rewrite Hr in H. destruct b; [done|]. injection H as <- <-. simpl.
  split_and!; try done.
  - rewrite dom_insert_lookup_L; [done|by eexists].
  - intros i ref' Hi. destruct (Hids _ _ Hi) as [b Hb]. destruct (decide (ref' = ref)) as [->|].
    + rewrite lookup_insert_eq. exists true. congruence.
    + rewrite lookup_insert_ne by done. by eexists.
  - exists ref. simpl. rewrite lookup_insert_eq. split; [by left|]. intros ref' i b Hne.
    rewrite lookup_insert_ne by done. intros Hi. by apply (Hw _ _ Hi).
Qed.

(** What a listener's [Accept] does to the phase. *)
Lemma unblock_kept ref id i m m' :
  client_move (CUnblock ref) m = Some m' → cm_wait m !! ref = Some (i, true) → unblocked id m → unblocked id m'.
Proof.
  intros H Hr (ref0 & Hor & Hw). simpl in H. rewrite Hr in H. case_decide; [done|]. injection H as <-.
  destruct (decide (ref = ref0)) as [->|Hne]; [|by specialize (Hw _ _ _ Hne Hr)].
  destruct Hor as [[Hr0 Ha]|[Hr0 _]]; [|congruence]. exists ref0. simpl. rewrite lookup_insert_eq, Ha.
  split; [right; split; [congruence|done]|]. intros ref' i' b Hne. rewrite lookup_insert_ne by done. by apply Hw.
Qed.

Lemma client_unblock_inv d w a ref m m' :
  client_move (CUnblock ref) m = Some m' → client_inv (MkSystem d w a m) → client_inv (MkSystem d w a m').
Proof.
  intros H [Hg Hi Hn Hp]. pose proof H as H'. simpl in H', Hg, Hi, Hn.
  destruct (cm_wait m !! ref) as [[i []]|] eqn:Hr; [|done..]. case_decide; [done|]. injection H' as Hm.
  assert (Hshut : ¬ shut m) by (intros [_ Hw]; by specialize (Hw _ _ Hr)).
  assert (Hun : ∀ id, unblocked id m → unblocked id m') by (intros id; by eapply unblock_kept).
  assert (Hs : cm_streams m' = cm_streams m) by by rewrite <- Hm.
  constructor; simpl.
  - by rewrite <- Hm.
  - rewrite <- Hm. simpl. intros id ref' Hl. destruct (Hi _ _ Hl) as [b Hb].
    destruct (decide (ref' = ref)) as [->|]; [rewrite lookup_insert_eq|rewrite lookup_insert_ne by done]; [|eauto].
    exists false. congruence.
  - rewrite <- Hm. simpl. intros ref' x. rewrite lookup_insert_Some. intros [[<- _]|[_ Hx]]; [by eapply Hn|by eapply Hn].
  - unfold client_phase in *. simpl in *. rewrite Hs. destruct Hp as [[? _]|(id & Hu & Hw & Ht)]; [done|].
    right. exists id. split_and!; [by apply Hun|done|exact Ht].
Qed.

Lemma client_accept_inv d w a ref m m' :
  client_move (CAccept ref) m = Some m' → client_inv (MkSystem d w a m) → client_inv (MkSystem d w a m').
Proof.
  intros H [Hg Hi Hn Hp]. simpl in *. destruct (cm_streams m) as [|c cs] eqn:Hs; [done|].
  destruct (cm_wait m !! ref) as [[id b]|] eqn:Hr; [|done]. case_decide as Ha; [|done]. injection H as <-.
  destruct Hp as [(_ & Ht & _)|(id0 & (ref0 & Hor & Hw) & Hwire & Ht)]; simpl in *; rewrite Hs in Ht;
    [by apply app_eq_nil in Ht as [_ [=]]|].
  destruct (owed_singleton _ _ _ _ Ht) as (-> & -> & Ho).
  destruct Hor as [[_ Hacc]|[Hr0 Hacc]]; rewrite Hacc in Ha; [by apply elem_of_nil in Ha|].
  apply list_elem_of_singleton in Ha as ->. rewrite Hr in Hr0. injection Hr0 as -> ->.
  constructor; simpl; [|done|done|].
  - intros x c. rewrite elem_of_app, list_elem_of_singleton. intros [?|[= -> ->]]; [by apply Hg|done].
  - left. split_and!; [|change (owed _) with (owed (MkSystem d w a m)); by rewrite Ho|by rewrite Hwire; simpl; lia].
    split; simpl.
    + rewrite Hacc, filter_cons_False by (intros Hx; by apply Hx). done.
    + intros ref' [i b] Hx. simpl. destruct (decide (ref' = ref0)) as [->|]; [rewrite Hr in Hx; by injection Hx|by eapply Hw].
Qed.

Lemma client_listener_inv d w a id m :
  client_inv (MkSystem d w a m) → client_inv (MkSystem d w a (client_Listener id m)).
Proof.
  intros [Hg Hi Hn Hp]. simpl in *. constructor; simpl; [done|..].
  - intros i ref. rewrite lookup_insert_Some. intros [[<- <-]|[Hne Hl]]; [rewrite lookup_insert_eq; eauto|].
    destruct (Hi _ _ Hl) as [b Hb]. rewrite lookup_insert_ne; [eauto|]. specialize (Hn _ _ Hb). lia.
  - intros ref x. rewrite lookup_insert_Some. intros [[<- _]|[_ Hx]]; [lia|]. specialize (Hn _ _ Hx). lia.
  - destruct Hp as [[Hsh Ht]|(i & Hu & Ht)]; [left|right; exists i]; (split; [|exact Ht]).
    + by apply shut_listener.
    + by apply unblocked_listener.
Qed.

Lemma client_AcceptKnock_inv d id w acks m m' r :
  client_AcceptKnock id m = Some (m', r) → client_inv (MkSystem d (id :: w) acks m) →
  client_inv (MkSystem d w (acks ++ [(id, match r with Ret _ => true | _ => false end)]) m').
Proof.
  intros Hk [Hg Hi Hn Hp]. destruct Hp as [(Hsh & Ht & Hlen)|(? & _ & [=] & _)]. simpl in *.
  destruct w; [|simpl in Hlen; lia].
  destruct (AcceptKnock_unblocks _ _ _ _ Hi Hsh Hk) as (G1 & G2 & G3 & G4 & G5 & G6 & G7).
  constructor; simpl; [by rewrite G1|by rewrite G4|..].
  - intros ref x Hx. rewrite G2. assert (Hd : ref ∈ dom (cm_wait m)) by (rewrite <- G5; by apply elem_of_dom_2 in Hx).
    apply elem_of_dom in Hd as [y Hy]. by eapply Hn.
  - apply app_eq_nil in Ht as [Ho Hst]. unfold owed, owed_acks in Ho. simpl in Ho. apply app_eq_nil in Ho as [Ha Hd].
    unfold client_phase, owed, owed_acks. simpl. rewrite G3, omap_app, Ha, Hd, Hst.
    destruct r; [right; by exists id|left; by repeat split; try apply G7; simpl; lia..].
Qed.

(** What only takes from the streams under way keeps the phase. *)
Lemma client_phase_frame d d' w acks acks' m m' :
  owed (MkSystem d' w acks' m') ++ cm_streams m' ⊆+ owed (MkSystem d w acks m) ++ cm_streams m →
  cm_wait m' = cm_wait m → cm_accepting m' = cm_accepting m →
  client_phase (MkSystem d w acks m) → client_phase (MkSystem d' w acks' m').
Proof.
  intros Ho Hw Ha. unfold client_phase, shut, unblocked. simpl. rewrite Hw, Ha.
  intros [(Hs & Ht & Hl)|(id & Hu & Hl & Ht)].
  - left. rewrite Ht in Ho. apply submseteq_nil in Ho. done.
  - right. exists id. split_and!; [done|done|]. by etrans.
Qed.

Lemma client_step_inv l s s' :
  no_redial l = true → patient l s = true → system_step l s = Some s' → client_inv s → client_inv s'.
Proof.
  intros Hr Hpat H Hinv. destruct s as [d w a m], l as [id|id| | | |id|ok| |lb]; try discriminate; simpl in H.
  1: injection H as <-; by apply client_listener_inv.
  2: { destruct w as [|id rest]; [done|]. destruct (client_AcceptKnock id m) as [[m' r]|] eqn:Hk; [|done].
       injection H as <-. by eapply client_AcceptKnock_inv. }
  6: { destruct (client_move lb m) as [m'|] eqn:Hm; [|done]. simpl in H. injection H as <-.
       destruct lb; [by eapply client_unblock_inv|by eapply client_accept_inv]. }
  all: destruct Hinv as [Hg Hi Hn Hp].
  - destruct d; try discriminate. injection H as <-. constructor; simpl; [done..|].
    simpl in Hpat. apply andb_true_iff in Hpat as [Hw Hsh].
    apply bool_decide_eq_true in Hw. apply bool_decide_eq_true in Hsh. subst w.
    destruct Hp as [(_ & Ht & _)|(i & (ref & Hor & _) & _)]; [left; split_and!; [done|exact Ht|simpl; lia]|].
    exfalso. destruct Hsh as [Ha Hf]. simpl in *. destruct Hor as [[Hx _]|[_ Hx]]; [by specialize (Hf _ _ Hx)|congruence].
  - destruct d as [|id|id]; try discriminate. destruct (take_ack id a) as [[ok rest]|] eqn:Ht; [|done].
    injection H as <-. constructor; simpl; [done..|].
    eapply client_phase_frame; [|done|done|exact Hp]. apply submseteq_app; [by eapply owed_YAck|done].
  - destruct d as [|id|id]; try discriminate. injection H as <-. constructor; simpl; [done..|].
    by eapply client_phase_frame; [..|exact Hp].
  - destruct (take_ack id a) as [[ok rest]|] eqn:Ht; [|done]. injection H as <-. constructor; simpl; [done..|].
    eapply client_phase_frame; [|done|done|exact Hp]. apply submseteq_app; [by eapply owed_YReap|done].
  - destruct d as [|id|id]; try discriminate. injection H as <-.
    destruct ok; (constructor; simpl; [done..|]);
      (refine (client_phase_frame _ _ _ _ _ _ _ _ _ _ Hp); [|done|done]); unfold owed; simpl; rewrite app_nil_r, <- app_assoc;
      apply submseteq_skips_l.
    + apply Permutation_submseteq, Permutation_app_comm.
    + by apply submseteq_inserts_l.
Qed.

Lemma client_run_inv ls s s' :
  exec ls s = Some s' → forallb no_redial ls = true → patient_run ls s = true → client_inv s → client_inv s'.
Proof.
  revert s. induction ls as [|l ls IH]; intros s He Hr Hp Hi; simpl in *; [by injection He as <-|].
  apply andb_true_iff in Hr as [Hl Hls]. apply andb_true_iff in Hp as [Hpl Hps].
  destruct (system_step l s) as [s1|] eqn:Hs; [|done]. simpl in He.
  eapply (IH s1); try done. by eapply client_step_inv.
Qed.

Lemma client_init_inv : client_inv (connected newClientMuxer).
Proof.
  constructor; simpl; [set_solver|set_solver|set_solver|].
  left. split_and!; [split; [done|apply map_Forall_empty]|done|simpl; lia].
Qed.

(** A loop that sends to the channel of a closed listener never moves again. *)
Definition stuck (s : System ServerMuxer) : Prop :=
  ∃ ref id c, sm_loop (sy_mux s) = LoopSend ref id c ∧ ref ∈ sm_done (sy_mux s).

Lemma stuck_step l s s' :
  system_step l s = Some s' → stuck s → stuck s' ∧ sm_got (sy_mux s') = sm_got (sy_mux s).
Proof.
  intros H (ref & id & c & Hl & Hd). unfold stuck.
  destruct s as [d w a m], l as [i|i| | | |i|ok| |lb]; simpl in *.
  - injection H as <-. simpl. eauto 10.
  - destruct d; simplify_eq/=; eauto 10.
  - destruct w; [done|]. unfold server_AcceptKnock in H. destruct (sm_knockCh m); [done|]. simplify_eq/=. eauto 10.
  - destruct d as [|i|i]; try discriminate. destruct (take_ack i a) as [[ok rest]|]; simplify_eq/=. eauto 10.
  - destruct d; simplify_eq/=; eauto 10.
  - destruct (take_ack i a) as [[ok rest]|]; simplify_eq/=. eauto 10.
  - destruct d, ok; simplify_eq/=; eauto 10.
  - injection H as <-. simpl. eauto 10.
  - destruct lb as [| | |i]; simpl in H; rewrite Hl in H; try discriminate.
    + unfold listener_takes in H. by rewrite decide_True in H.
    + destruct (sm_acceptChannels m !! i); simplify_eq/=. split; [|done]. exists ref, id, c. split; [done|set_solver].
Qed.

(** ** The specification: addressed connections *)

(** What the broker's users are promised: dials by id, handed over in their
    order, each to the listener of its id (or dropped, where there is none). *)
Record Addressed : Type := MkAddressed { ad_pending : list Z; ad_served : list Z }.
Inductive AddressedStep : Type := ADial (id : Z) | AServe | ADrop.

Definition addressed_step (l : AddressedStep) (a : Addressed) : option Addressed :=
  match l, ad_pending a with
  | ADial id, ids => Some (MkAddressed (ids ++ [id]) (ad_served a))
  | AServe, id :: ids => Some (MkAddressed ids (ad_served a ++ [id]))
  | ADrop, id :: ids => Some (MkAddressed ids (ad_served a))
  | _, [] => None
  end.

#[export] Instance addressed_lts : LTS Addressed AddressedStep := {|
  lts_init a := a = MkAddressed [] [];
  lts_step := addressed_step
|}.






(** ** Properties *)


(** On the plugin's side every stream goes to the listener it was opened
    for, in every interleaving of dials, knocks, acknowledgements, timeouts and
    accept loops in which the main connection is not dialled again. *)
Theorem ServerMuxer_routes ls s x c :
  exec ls (connected NewGRPCServerMuxer) = Some s → forallb no_redial ls = true →
  (x, c) ∈ routed_to (sy_mux s) → x = c.
Proof. intros He Hr. by apply si_got, (server_run_inv ls). Qed.

(** A dial is completed: with nothing else under way and an open listener
    for the id, knock, acknowledgement and dial lead to that listener. *)
Theorem ServerMuxer_delivers s id ref :
  sy_dial s = Idle → sy_wire s = [] → sy_acks s = [] →
  sm_knockCh (sy_mux s) = None → sm_loop (sy_mux s) = LoopAccept → sm_streams (sy_mux s) = [] →
  sm_acceptChannels (sy_mux s) !! id = Some ref → ref ∉ sm_done (sy_mux s) →
  ∃ s', exec [YKnock id; YAcceptKnock; YAck; YDial true; YMux SAccept; YMux SRoute; YMux SDeliver] s = Some s' ∧
    routed_to (sy_mux s') = routed_to (sy_mux s) ++ [(Some id, Some id)] ∧ sy_dial s' = Idle.
Proof.
  intros Hd Hw Ha Hk Hl Hst Hc Hopen.
  destruct s as [d w a [k ch n dn st lp got]]. simpl in *. subst. cbn -[server_move].
  rewrite decide_True by done. simpl. rewrite Hc. simpl. unfold listener_takes. simpl. rewrite decide_False by done. simpl. eauto.
Qed.

(** C29: on the host's side every stream goes to the listener it was opened for,
    in every run, with timeouts, late acknowledgements and failed dials, in
    which a knock is only sent when no earlier knock is under way and no listener
    is left unblocked, and no stream is opened without a knock. *)
Theorem ClientMuxer_routes ls s x c :
  exec ls (connected newClientMuxer) = Some s → forallb no_redial ls = true →
  patient_run ls (connected newClientMuxer) = true →
  (x, c) ∈ routed_to (sy_mux s) → x = c.
Proof. intros He Hr Hp. by apply ci_got, (client_run_inv ls _ _ He Hr Hp client_init_inv). Qed.

(** Without that proviso the host mixes streams up: two listeners that were
    unblocked by their knocks wait for the same session, and the first stream
    goes to whichever is there first. *)
Theorem ClientMuxer_misroutes :
  let steps : list (SystemStep ClientMove) :=
    [YListen 1; YListen 2;
     YKnock 1; YAcceptKnock; YAck; YDial true; YKnock 2; YAcceptKnock; YAck; YDial true;
     YMux (CUnblock 1); YMux (CAccept 1); YMux (CUnblock 0); YMux (CAccept 0)] in
  forallb no_redial steps = true ∧
  ∃ s, exec steps (connected newClientMuxer) = Some s ∧
    routed_to (sy_mux s) = [(Some 2, Some 1); (Some 1, Some 2)].
Proof. split; [done|]. eexists. split; vm_compute; reflexivity. Qed.

(** A knock that was accepted but not followed by its stream (here its
    acknowledgement came too late) is left in [knockCh], and the plugin gives
    the next stream, the host's new main connection, to the wrong listener. *)
Theorem ServerMuxer_stale_knock :
  ∃ s, exec [YListen 1; YKnock 1; YKnockTimeout; YAcceptKnock; YRedial; YMux SAccept; YMux SRoute; YMux SDeliver]
      (connected NewGRPCServerMuxer) = Some s ∧
    routed_to (sy_mux s) = [(Some 1, None)].
Proof. eexists. split; vm_compute; reflexivity. Qed.

(** A brokered listener that is closed between its knock and its stream
    blocks the plugin's accept loop for good: no stream is accepted any more. *)
Theorem ServerMuxer_closed_listener_blocks s ls s' :
  stuck s → exec ls s = Some s' → routed_to (sy_mux s') = routed_to (sy_mux s).
Proof.
  intros Hs He. cut (stuck s' ∧ sm_got (sy_mux s') = sm_got (sy_mux s)); [by intros [_ ?]|].
  refine (exec_invariant (λ s', stuck s' ∧ sm_got (sy_mux s') = sm_got (sy_mux s)) ls s s' _ (conj Hs eq_refl) He).
  intros l s0 s1 [Hst Hg] Hl. destruct (stuck_step _ _ _ Hl Hst) as [? ->]. done.
Qed.

(** The plugin accepts a knock for an id that has no listener, against the
    interface's documentation, and its whole server stops; the host's muxer
    reports it to the dialler. *)
Theorem AcceptKnock_without_listener m mc id c :
  sm_knockCh m = None → sm_loop m = LoopConn c → sm_acceptChannels m !! id = None →
  cm_acceptListeners mc !! id = None →
  (∃ m' m'' e, mx_AcceptKnock id m = Some (m', Ret tt) ∧ mux_move SRoute m' = Some m'' ∧ sm_loop m'' = LoopFailed e) ∧
  ∃ e, mx_AcceptKnock id mc = Some (mc, Err e).
Proof.
  intros Hk Hl Hc Hcc. split.
  - unfold mx_AcceptKnock, mux_move. simpl. unfold server_AcceptKnock. rewrite Hk. do 3 eexists. split; [done|].
    split; [simpl; rewrite Hl; simpl; rewrite Hc; done|done].
  - simpl. unfold client_AcceptKnock. rewrite Hcc. eauto.
Qed.

(** When the plugin's session cannot be set up, one caller of [session] gets
    the reason; every later one gets the error that the code says cannot
    happen. *)
Theorem session_reports_once accept yamux e :
  (accept = Some e ∨ accept = None ∧ yamux = Some e) →
  let '(st1, r1) := session (Some (acceptSession accept yamux)) in
  let '(st2, r2) := session st1 in
  r1 = Err e ∧ r2 = Err (Errorf "no connection established and no error received" []) ∧ st2 = st1.
Proof. intros [->|[-> ->]]; done. Qed.

(** ** Concrete instances *)

(** Two dials; the first knock for 2 is given up, and its acknowledgement serves
    the second attempt. *)
Definition ex_two_dials : list (SystemStep ServerMove) :=
  [YListen 1; YListen 2; YKnock 1; YAcceptKnock; YAck; YDial true; YKnock 2; YKnockTimeout;
   YMux SAccept; YMux SRoute; YMux SDeliver; YAcceptKnock; YKnock 2; YAck; YDial true;
   YMux SAccept; YMux SRoute; YMux SDeliver].
Definition ex_two : System ServerMuxer :=
  default (connected NewGRPCServerMuxer) (exec ex_two_dials (connected NewGRPCServerMuxer)).

Lemma ex_two_run : exec ex_two_dials (connected NewGRPCServerMuxer) = Some ex_two.
Proof. vm_compute. reflexivity. Qed.

Lemma ServerMuxer_routes_witness : routed_to (sy_mux ex_two) = [(Some 1, Some 1); (Some 2, Some 2)] ∧ Some 2 = Some 2.
Proof.
  split; [vm_compute; reflexivity|]. apply (ServerMuxer_routes ex_two_dials ex_two _ _ ex_two_run eq_refl).
  vm_compute. set_solver.
Defined.


(** A plugin with a listener for 2. *)
Definition ex_plugin_listening : System ServerMuxer := connected (server_Listener 2 NewGRPCServerMuxer).
Lemma ServerMuxer_delivers_witness :
  ∃ s', exec [YKnock 2; YAcceptKnock; YAck; YDial true; YMux SAccept; YMux SRoute; YMux SDeliver] ex_plugin_listening = Some s' ∧
    routed_to (sy_mux s') = [] ++ [(Some 2, Some 2)] ∧ sy_dial s' = Idle.
Proof. apply (ServerMuxer_delivers ex_plugin_listening 2 0); try reflexivity. vm_compute. set_solver. Defined.

(** The host with two listeners, dialled one after the other; a knock for an id
    without a listener is refused in between. *)
Definition ex_client_dial : list (SystemStep ClientMove) :=
  [YListen 7; YListen 8; YKnock 7; YAcceptKnock; YAck; YDial true; YMux (CUnblock 0); YMux (CAccept 0);
   YKnock 9; YKnockTimeout; YAcceptKnock; YKnock 8; YAcceptKnock; YAck; YDial true; YMux (CUnblock 1); YMux (CAccept 1)].
Definition ex_client_after : System ClientMuxer :=
  default (connected newClientMuxer) (exec ex_client_dial (connected newClientMuxer)).

Lemma ex_client_run : exec ex_client_dial (connected newClientMuxer) = Some ex_client_after.
Proof. vm_compute. reflexivity. Qed.
Lemma ex_client_patient : patient_run ex_client_dial (connected newClientMuxer) = true.
Proof. vm_compute. reflexivity. Qed.

Lemma ClientMuxer_routes_witness :
  routed_to (sy_mux ex_client_after) = [(Some 7, Some 7); (Some 8, Some 8)] ∧ Some 8 = Some 8.
Proof.
  split; [vm_compute; reflexivity|].
  apply (ClientMuxer_routes ex_client_dial _ _ _ ex_client_run eq_refl ex_client_patient).
  vm_compute. set_solver.
Defined.
