(* ===== verification/RPC.v ===== *)
(** * The protocol servers and their clients

    rpc_server.go, rpc_client.go: the net/rpc session (control, dispenser,
    brokered connections) with [MuxBroker.AcceptAndServe];
    grpc_client.go: [Dispense] and [Ping] over gRPC. *)

From S2P Require Import Prelude GoStd Config Rendezvous MuxBroker.

(** ** [RPCServer.ServeConn] *)

(** The answers of yamux: the session, and the streams in the order the client
    opened them. *)
Record SessionAnswers : Type := MkSessionAnswers {
  sn_Server : option error;
  sn_Accept : nat → res error nat
}.

(** How it ends, or the roles it gives to the first three streams. *)
Inductive ConnState : Type :=
| ConnClosed
| MuxClosed
| ServesOn (control stdout stderr : nat).

Definition ServeConn (A : SessionAnswers) : ConnState :=
  match sn_Server A with
  | Some _ => ConnClosed
  | None =>
      match sn_Accept A 0, sn_Accept A 1, sn_Accept A 2 with
      | Ret control, Ret out, Ret err => ServesOn control out err
      | _, _, _ => MuxClosed
      end
  end.

(** ** The end of an [RPCServer] *)

(** Whether [DoneCh] is non-nil, and how often it was closed. *)
Record RPCServer : Type := MkRPCServer { rs_DoneCh : bool; rs_closed : nat }.

Definition RPCServer_done (s : RPCServer) : RPCServer :=
  if rs_DoneCh s then MkRPCServer false (S (rs_closed s)) else s.

(** What reaches a server: [Control.Ping] and [Control.Quit] on any of its
    connections, a new connection, or the error that ends [Serve]. *)
Inductive ServerEvent : Type := EvPing | EvQuit | EvConn (A : SessionAnswers) | EvAcceptError.

Definition server_event (s : RPCServer) (e : ServerEvent) : RPCServer :=
  match e with
  | EvPing | EvConn _ => s
  | EvQuit | EvAcceptError => RPCServer_done s
  end.

(** ** Serving a brokered connection *)

(** A connection after [serve]: net/rpc serves until the peer hangs up and then
    closes it; when the value cannot be registered it is left open. *)
Inductive ConnFate : Type := ServedAndClosed | LeftOpen.

Definition serve (RegisterName : option error) : ConnFate :=
  match RegisterName with Some _ => LeftOpen | None => ServedAndClosed end.

(** [AcceptAndServe] with the step of the broker that its [Accept] ends with:
    the connection it took, if any, and what became of it. *)
Definition mux_AcceptAndServe (tid : nat) (ack_err RegisterName : option error) (b : MuxBroker)
    : option (MuxBroker * option (Z * nat * ConnFate)) :=
  b' ← mux_step (MAcceptTake tid ack_err) b;
  Some (b', match ack_err, mux_accepted b' with
            | None, x :: _ => Some (x, serve RegisterName)
            | _, _ => None
            end).

(** ** Dispensing over net/rpc *)

Section dispense.
Variables (server_plugins client_plugins : gmap string Plugin).

(** A connection's dispenser: the broker's counter, how often it was used, the
    calls in progress (name and id), the goroutines that wait in [Accept] with
    an implementation, and the results of the calls. *)
Record Dispenser : Type := MkDispenser {
  dn_nextID : Z;
  dn_used : nat;
  dn_calls : gmap nat (string * Z);
  dn_waiting : gmap Z string;
  dn_done : list (string * res error string)
}.

Definition newDispenser : Dispenser := MkDispenser 0 0 ∅ ∅ [].

(** [dispenseServer.Dispense]; an error of the plugin's [Server] method crosses
    the connection as its text. *)
Definition server_Dispense (name : string) : GoM Dispenser error Z := λ d,
  match server_plugins !! name with
  | None => (d, Err (Errorf "unknown plugin type: %s" [name]))
  | Some p =>
      match Server_err p with
      | Some e => (d, Err e)
      | None =>
          let id := NextId (dn_nextID d) in
          (MkDispenser id (S (dn_used d)) (dn_calls d) (<[id := plugin_impl p]> (dn_waiting d)) (dn_done d), Ret id)
      end
  end.

Definition finish (name : string) (r : res error string) (d : Dispenser) : Dispenser :=
  MkDispenser (dn_nextID d) (dn_used d) (dn_calls d) (dn_waiting d) (dn_done d ++ [(name, r)]).

(** [RPCClient.Dispense] up to the answer of [Dispenser.Dispense] ... *)
Definition client_Dispense (tid : nat) (name : string) (d : Dispenser) : Dispenser :=
  match client_plugins !! name with
  | None => finish name (Err (Errorf "unknown plugin type: %s" [name])) d
  | Some p =>
      match server_Dispense name d with
      | (d', Ret id) => MkDispenser (dn_nextID d') (dn_used d') (<[tid := (name, id)]> (dn_calls d')) (dn_waiting d') (dn_done d')
      | (d', Err e) => finish name (Err e) d'
      | (d', Panic w) => finish name (Panic w) d'
      end
  end.

(** ... and from [broker.Dial] on: the stream reaches the goroutine that
    accepts the id, if it still waits; otherwise the plugin's broker closes the
    stream and the dialler reads EOF instead of the acknowledgement. *)
Definition client_connect (tid : nat) (d : Dispenser) : option Dispenser :=
  '(name, id) ← dn_calls d !! tid;
  let d0 := MkDispenser (dn_nextID d) (dn_used d) (delete tid (dn_calls d)) (delete id (dn_waiting d)) (dn_done d) in
  Some match dn_waiting d !! id with
       | None => finish name (Err EOF) d0
       | Some impl => finish name (match client_plugins !! name ≫= Client_err with
                                   | Some e => Err e
                                   | None => Ret impl
                                   end) d0
       end.

(** [broker.Dial] fails: the goroutine is left to its timeout. *)
Definition client_dial_error (tid : nat) (e : error) (d : Dispenser) : option Dispenser :=
  '(name, id) ← dn_calls d !! tid;
  Some (finish name (Err e)
          (MkDispenser (dn_nextID d) (dn_used d) (delete tid (dn_calls d)) (dn_waiting d) (dn_done d))).

Inductive DispenseStep : Type :=
| DDispense (tid : nat) (name : string)
| DDialError (tid : nat) (e : error)
| DConnect (tid : nat)
| DAcceptTimeout (id : Z)                      (* the goroutine gives up *)
| DNextId.                                     (* the plugin uses the broker itself *)

Definition dispense_step (l : DispenseStep) (d : Dispenser) : option Dispenser :=
  match l with
  | DDispense tid name => if decide (dn_calls d !! tid = None) then Some (client_Dispense tid name d) else None
  | DDialError tid e => client_dial_error tid e d
  | DConnect tid => client_connect tid d
  | DAcceptTimeout id =>
      Some (MkDispenser (dn_nextID d) (dn_used d) (dn_calls d) (delete id (dn_waiting d)) (dn_done d))
  | DNextId =>
      Some (MkDispenser (NextId (dn_nextID d)) (S (dn_used d)) (dn_calls d) (dn_waiting d) (dn_done d))
  end.

#[local] Instance dispense_lts : LTS Dispenser DispenseStep := {|
  lts_init d := d = newDispenser;
  lts_step := dispense_step
|}.

(** The id was handed out, and waits with the implementation of that name. *)
Record dispense_inv (d : Dispenser) : Prop := MkDispenseInv {
  di_next : dn_nextID d = uint32 (Z.of_nat (dn_used d));
  di_calls : ∀ tid name id, dn_calls d !! tid = Some (name, id) → id ∈ NextIds (dn_used d) 0;
  di_waiting : ∀ id impl, dn_waiting d !! id = Some impl → id ∈ NextIds (dn_used d) 0;
  di_agree : ∀ tid name id impl, dn_calls d !! tid = Some (name, id) → dn_waiting d !! id = Some impl →
    plugin_impl <$> server_plugins !! name = Some impl;
  di_done : ∀ name impl, (name, Ret impl) ∈ dn_done d → plugin_impl <$> server_plugins !! name = Some impl
}.

Lemma NextIds_snoc n : NextIds (S n) 0 = NextIds n 0 ++ [NextId (uint32 (Z.of_nat n))].
Proof.
  change 0 with (uint32 0). rewrite !NextIds_spec by done. rewrite seq_S, fmap_app. f_equal. simpl. f_equal.
  unfold NextId, uint32. rewrite Zplus_mod_idemp_l. f_equal. lia.
Qed.

Lemma NextId_fresh n : Z.of_nat n < 2 ^ 32 → NextId (uint32 (Z.of_nat n)) ∉ NextIds n 0.
Proof.
  intros Hn. assert (Hd : NoDup (NextIds (S n) 0)) by (apply NextIds_NoDup; [done|lia]).
  rewrite NextIds_snoc, NoDup_app in Hd. destruct Hd as (_ & Hd & _). intros Hin. by apply (Hd _ Hin); left.
Qed.

Lemma NextId_next n : NextId (uint32 (Z.of_nat n)) = uint32 (Z.of_nat (S n)).
Proof. unfold NextId, uint32. rewrite Zplus_mod_idemp_l. f_equal. lia. Qed.

Lemma finish_inv name r d :
  dispense_inv d → (∀ impl, r = Ret impl → plugin_impl <$> server_plugins !! name = Some impl) →
  dispense_inv (finish name r d).
Proof.
  intros [H1 H2 H3 H4 H5] Hr. constructor; simpl; try done. intros n i.
  rewrite elem_of_app, list_elem_of_singleton. intros [?|[= -> <-]]; [by apply H5|by apply Hr].
Qed.

(** Fewer goroutines wait, fewer calls are in progress. *)
Lemma shrink_inv calls waiting d :
  dispense_inv d → calls ⊆ dn_calls d → waiting ⊆ dn_waiting d →
  dispense_inv (MkDispenser (dn_nextID d) (dn_used d) calls waiting (dn_done d)).
Proof.
  intros [H1 H2 H3 H4 H5] Hc Hw. constructor; simpl; [done|..|done].
  - intros t n i Ht. eapply H2, lookup_weaken; done.
  - intros i m Hi. eapply H3, lookup_weaken; done.
  - intros t n i m Ht Hi. eapply H4; by eapply lookup_weaken.
Qed.

Lemma client_Dispense_inv tid name d :
  Z.of_nat (dn_used (client_Dispense tid name d)) ≤ 2 ^ 32 → dn_calls d !! tid = None → dispense_inv d →
  dispense_inv (client_Dispense tid name d).
Proof.
  unfold client_Dispense, server_Dispense. intros Hn Htid Hinv.
  destruct (client_plugins !! name) as [cp|]; [|by apply finish_inv].
  destruct (server_plugins !! name) as [p|] eqn:Hp; [|by apply finish_inv].
  destruct (Server_err p); [by apply finish_inv|].
  cbn [dn_used] in Hn. assert (Z.of_nat (dn_used d) < 2 ^ 32) as Hlt by lia.
  destruct Hinv as [H1 H2 H3 H4 H5]. constructor; cbn [dn_nextID dn_used dn_calls dn_waiting dn_done].
  - by rewrite H1, NextId_next.
  - intros t n i. rewrite lookup_insert_Some, NextIds_snoc, H1, elem_of_app.
    intros [[_ [= _ <-]]|[_ Ht]]; [right; by left|left; by eapply H2].
  - intros i m. rewrite lookup_insert_Some, NextIds_snoc, H1, elem_of_app.
    intros [[<- _]|[_ Hi]]; [right; by left|left; by eapply H3].
  - pose proof (NextId_fresh _ Hlt) as Hfresh. rewrite <- H1 in Hfresh.
    intros t n i m. rewrite !lookup_insert_Some.
    intros [[_ [= <- <-]]|[_ Ht]] [[Heq <-]|[Hne Hi]].
    + by rewrite Hp.
    + done.
    + subst i. by apply H2 in Ht.
    + by eapply H4.
  - done.
Qed.

(** The counter of ids only grows. *)
Lemma dispense_step_used l d d' : dispense_step l d = Some d' → (dn_used d ≤ dn_used d')%nat.
Proof.
  destruct l as [tid name|tid e|tid|id|]; simpl; intros H.
  - case_decide; [|done]. injection H as <-. unfold client_Dispense, server_Dispense. repeat case_match; simplify_eq/=; lia.
  - unfold client_dial_error in H. destruct (dn_calls d !! tid) as [[name id]|]; [|done]. by injection H as <-.
  - unfold client_connect in H. destruct (dn_calls d !! tid) as [[name id]|]; [|done]. simpl in H. injection H as <-.
    by case_match.
  - by injection H as <-.
  - injection H as <-. simpl. lia.
Qed.

Lemma dispense_step_inv l d d' :
  dispense_step l d = Some d' → Z.of_nat (dn_used d') ≤ 2 ^ 32 → dispense_inv d → dispense_inv d'.
Proof.
  unfold dispense_step. intros H Hn Hinv.
  destruct l as [tid name|tid e|tid|id|].
  - case_decide; [|done]. injection H as <-. by apply client_Dispense_inv.
  - unfold client_dial_error in H. destruct (dn_calls d !! tid) as [[name id]|]; [|done]. simpl in H.
    injection H as <-. apply finish_inv; [|done]. apply shrink_inv; [done|apply delete_subseteq|done].
  - unfold client_connect in H. destruct (dn_calls d !! tid) as [[name id]|] eqn:Ht; [|done]. simpl in H.
    injection H as <-.
    assert (Hd : dispense_inv (MkDispenser (dn_nextID d) (dn_used d) (delete tid (dn_calls d))
                                 (delete id (dn_waiting d)) (dn_done d)))
      by (apply shrink_inv; [done|apply delete_subseteq|apply delete_subseteq]).
    destruct (dn_waiting d !! id) as [impl|] eqn:Hw; apply finish_inv; try done.
    intros i. destruct (client_plugins !! name ≫= Client_err); [done|]. intros [= <-].
    by eapply (di_agree d Hinv).
  - injection H as <-. apply shrink_inv; [done|done|apply delete_subseteq].
  - injection H as <-. destruct Hinv as [H1 H2 H3 H4 H5].
    constructor; cbn [dn_nextID dn_used dn_calls dn_waiting dn_done]; try done.
    + by rewrite H1, NextId_next.
    + intros t n i Ht. rewrite NextIds_snoc, elem_of_app. left. by eapply H2.
    + intros i m Hi. rewrite NextIds_snoc, elem_of_app. left. by eapply H3.
Qed.

Lemma dispense_reachable_inv d : reachable d → Z.of_nat (dn_used d) ≤ 2 ^ 32 → dispense_inv d.
Proof.
  apply (invariant_reachable (λ d, Z.of_nat (dn_used d) ≤ 2 ^ 32 → dispense_inv d)).
  - intros d0 -> _. constructor; simpl; [done|set_solver|set_solver|set_solver|set_solver].
  - intros l d0 d1 Hi Hs Hn. eapply dispense_step_inv; [exact Hs|done|]. apply Hi.
    pose proof (dispense_step_used _ _ _ Hs). lia.
Qed.
End dispense.

(** ** [Ping] *)

(** Both clients fall back to the default for a timeout that is not positive. *)
Definition effectivePingTimeout (pingTimeout : Z) : Z :=
  if bool_decide (pingTimeout > 0) then pingTimeout else defaultPingTimeout.

(** The [select] of [RPCClient.Ping]: the plugin's answer and when it comes (if
    it comes at all); [first] decides a tie.  The result is what [Ping] returns
    and when. *)
Definition RPCClient_Ping (pingTimeout : Z) (reply : option (Z * option error)) (first : bool) : option error * Z :=
  let timeout := if bool_decide (pingTimeout ≤ 0) then defaultPingTimeout else pingTimeout in
  match reply with
  | Some (t, e) =>
      if bool_decide (t < timeout) || bool_decide (t = timeout) && first then (e, t)
      else (Some ErrPingTimeout, timeout)
  | None => (Some ErrPingTimeout, timeout)
  end.

(** [GRPCClient.Ping]: the health check under a context with the timeout. *)
Definition DeadlineExceeded : error := ErrExt "context deadline exceeded".
Definition GRPCClient_Ping (pingTimeout : Z) (reply : option (Z * option error)) (first : bool) : option error * Z :=
  let timeout := effectivePingTimeout pingTimeout in
  match reply with
  | Some (t, e) =>
      if bool_decide (t < timeout) || bool_decide (t = timeout) && first then (e, t)
      else (Some DeadlineExceeded, timeout)
  | None => (Some DeadlineExceeded, timeout)
  end.

(** ** [GRPCClient.Dispense] *)

Definition GRPCClient_Dispense (plugins : gmap string Plugin) (name : string) : res error string :=
  match plugins !! name with
  | None => Err (Errorf "unknown plugin type: %s" [name])
  | Some p =>
      if is_GRPCPlugin p then
        match GRPCClient_err p with Some e => Err e | None => Ret (plugin_impl p) end
      else Err (Errorf "plugin %q doesn't support gRPC" [name])
  end.

(** ** Properties *)

(** C22: whatever the interleaving of dispense calls, dials, timeouts and other
    uses of the broker, as long as the connection has used at most 2^32 ids, a
    [Dispense] that succeeds is connected to the implementation the plugin serves
    under that name. *)
Theorem Dispense_right_plugin server_plugins client_plugins d name impl :
  @reachable _ _ (dispense_lts server_plugins client_plugins) d → Z.of_nat (dn_used d) ≤ 2 ^ 32 →
  (name, Ret impl) ∈ dn_done d → plugin_impl <$> server_plugins !! name = Some impl.
Proof. intros H Hn. by eapply di_done, dispense_reachable_inv. Qed.

(** A [Dispense] that nothing disturbs succeeds exactly when both sides know
    the plugin and its constructors succeed. *)
Theorem Dispense_succeeds server_plugins client_plugins d tid name :
  match client_plugins !! name, server_plugins !! name with
  | Some c, Some p =>
      match Server_err p, Client_err c with
      | None, None => ∃ d', client_connect client_plugins tid (client_Dispense server_plugins client_plugins tid name d) = Some d' ∧
          dn_done d' = dn_done d ++ [(name, Ret (plugin_impl p))]
      | None, Some e => ∃ d', client_connect client_plugins tid (client_Dispense server_plugins client_plugins tid name d) = Some d' ∧
          dn_done d' = dn_done d ++ [(name, Err e)]
      | Some e, _ => dn_done (client_Dispense server_plugins client_plugins tid name d) = dn_done d ++ [(name, Err e)]
      end
  | _, _ => dn_done (client_Dispense server_plugins client_plugins tid name d) =
      dn_done d ++ [(name, Err (Errorf "unknown plugin type: %s" [name]))]
  end.
Proof.
  unfold client_Dispense, server_Dispense.
  destruct (client_plugins !! name) as [c|] eqn:Hc; [|done].
  destruct (server_plugins !! name) as [p|] eqn:Hp; [|done].
  destruct (Server_err p); [done|]. unfold client_connect.
  destruct (Client_err c) eqn:He; simpl; rewrite lookup_insert_eq; simpl; rewrite lookup_insert_eq, Hc; simpl;
    rewrite He; eexists; split; done.
Qed.

(** An [RPCServer] ends once: however many clients call [Control.Quit] and
    whenever its listener fails, [DoneCh] is closed exactly once, by the first
    of these, and never by a ping or a new connection. *)
Theorem RPCServer_done_once evs :
  rs_closed (foldl server_event (MkRPCServer true 0) evs) =
  if existsb (λ e, match e with EvQuit | EvAcceptError => true | _ => false end) evs then 1%nat else 0%nat.
Proof.
  assert (Hfin : ∀ n evs, foldl server_event (MkRPCServer false n) evs = MkRPCServer false n).
  { intros n. induction evs0 as [|[] evs0 IH]; done. }
  induction evs as [|[] evs IH]; simpl; try done; unfold RPCServer_done; simpl; by rewrite Hfin.
Qed.

(** [Ping] returns within its timeout, which is positive, over both
    protocols, and reports exactly the plugin's answer when that comes in
    time. *)
Theorem Ping_bounded pingTimeout reply first :
  0 < effectivePingTimeout pingTimeout ∧
  (RPCClient_Ping pingTimeout reply first).2 = (GRPCClient_Ping pingTimeout reply first).2 ∧
  (∀ t e, reply = Some (t, e) → t < effectivePingTimeout pingTimeout →
    RPCClient_Ping pingTimeout reply first = (e, t) ∧ GRPCClient_Ping pingTimeout reply first = (e, t)) ∧
  (RPCClient_Ping pingTimeout reply first).2 ≤ effectivePingTimeout pingTimeout.
Proof.
  assert (Ht : (if bool_decide (pingTimeout ≤ 0) then defaultPingTimeout else pingTimeout) =
               effectivePingTimeout pingTimeout)
    by (unfold effectivePingTimeout; repeat case_bool_decide; lia).
  unfold RPCClient_Ping, GRPCClient_Ping. rewrite Ht; clear Ht. split_and!.
  - unfold effectivePingTimeout. case_bool_decide; [lia|by vm_compute].
  - destruct reply as [[t e]|]; [|done]. by case_match.
  - intros t e -> Hlt. by rewrite bool_decide_eq_true_2.
  - destruct reply as [[t e]|]; [|apply Z.le_refl]. case_match eqn:Hor; [|apply Z.le_refl]. cbn [snd].
    apply orb_true_iff in Hor as [Hx|[Hx _]%andb_true_iff]; apply bool_decide_eq_true in Hx; lia.
Qed.

(** [AcceptAndServe] answers for the stream its [Accept] received: it is closed
    when the acknowledgement fails, and otherwise handed to [serve]. *)
Theorem AcceptAndServe_settles tid e reg b b' r :
  mux_AcceptAndServe tid e reg b = Some (b', r) →
  ∃ id c, delivered (mux_table b') = (id, c) :: delivered (mux_table b) ∧
    ((∃ err, e = Some err) ∧ c ∈ mux_closed b' ∧ r = None ∨ e = None ∧ r = Some (id, c, serve reg)).
Proof.
  unfold mux_AcceptAndServe. intros (b1 & Hs & [= <- <-])%bind_Some. simpl in Hs.
  destruct (ack_possible e b); [|done]. apply fmap_Some in Hs as (b2 & Hs & ->).
  unfold on_table in Hs. apply bind_Some in Hs as (t & Ht & [= <-]).
  destruct (receive_delivers _ _ _ _ Ht) as ([id c] & Hd). rewrite mux_ack_table. exists id, c.
  split; [exact Hd|]. unfold mux_ack. simpl. rewrite Hd. destruct e; [left|by right].
  split_and!; [by eexists|by left|done].
Qed.

(** A value that net/rpc cannot register leaves the dialler with an
    acknowledged connection that is neither served nor closed. *)
Theorem AcceptAndServe_leaves_open :
  ∃ b r, mux_AcceptAndServe 0 None (Some EOF) (default newMuxBroker
           (exec [MAccept 0 1; MStream 0 100 (Some (PutUint32 1))] newMuxBroker)) = Some (b, r) ∧
    mux_accepted b = [(1, 100%nat)] ∧ r = Some (1, 100%nat, LeftOpen) ∧ mux_closed b = [].
Proof. eexists _, _. split; [vm_compute; reflexivity|done]. Qed.

(** ** Concrete instances *)

Definition ex_mux_waiting : MuxBroker :=
  default newMuxBroker (exec [MAccept 0 1; MStream 0 100 (Some (PutUint32 1))] newMuxBroker).

Example AcceptAndServe_settles_witness :
  ∃ b, mux_AcceptAndServe 0 (Some EOF) None ex_mux_waiting = Some (b, None) ∧ 100%nat ∈ mux_closed b.
Proof.
  destruct (mux_AcceptAndServe 0 (Some EOF) None ex_mux_waiting) as [[b r]|] eqn:He;
    [|vm_compute in He; discriminate].
  destruct (AcceptAndServe_settles 0 (Some EOF) None ex_mux_waiting b r He)
    as (id & c & Hd & [(_ & Hc & ->)|[H _]]); [|discriminate].
  exists b. split; [reflexivity|]. vm_compute in He. injection He as <-. left.
Defined.

Definition ex_plugin (impl : string) : Plugin := MkPlugin impl false None None None None.
Definition ex_plugins : gmap string Plugin := {[ "kv" := ex_plugin "KV"; "db" := ex_plugin "DB" ]}.
Definition ex_dispense : list DispenseStep :=
  [DDispense 0 "kv"; DDispense 1 "db"; DNextId; DConnect 1; DDispense 2 "kv"; DConnect 0; DAcceptTimeout 4; DConnect 2].
Definition ex_dispenser : Dispenser :=
  default newDispenser (@exec _ _ (dispense_lts ex_plugins ex_plugins) ex_dispense newDispenser).

Lemma ex_dispenser_reachable : @reachable _ _ (dispense_lts ex_plugins ex_plugins) ex_dispenser.
Proof.
  apply (@exec_reachable _ _ (dispense_lts ex_plugins ex_plugins) ex_dispense newDispenser).
  - by apply (@reachable_init _ _ (dispense_lts ex_plugins ex_plugins)).
  - vm_compute. reflexivity.
Qed.

Lemma Dispense_right_plugin_witness :
  dn_done ex_dispenser = [("db", Ret "DB"); ("kv", Ret "KV"); ("kv", Err EOF)] ∧
  plugin_impl <$> ex_plugins !! "db" = Some "DB".
Proof.
  split; [vm_compute; reflexivity|].
  apply (Dispense_right_plugin ex_plugins ex_plugins ex_dispenser "db" "DB" ex_dispenser_reachable);
    [vm_compute; discriminate|vm_compute; left].
Defined.
