(* ===== verification/RPCStdio.v ===== *)
(** * Standard output over net/rpc

    stream.go ([copyStream]), [SyncStreams] of rpc_client.go and the copying that
    [ServeConn] of rpc_server.go starts: the plugin's stdout and stderr travel
    over the second and third yamux stream of the session.  All connections of
    one [RPCServer] read from the same two pipes. *)

From S2P Require Import Prelude GoStd Config GRPCStdio RPC.

(** ** [copyStream] *)

(** How [io.Copy] ends: at the end of the source, with an error, or not yet;
    or the writer panics. *)
Inductive CopyEnd : Type := CopyDone | CopyErr (e : error) | CopyWaits | CopyPanics.

(** [io.Copy]: [outcome i] is how the destination takes the [i]-th chunk. *)
Fixpoint io_Copy (outcome : nat → WriteOutcome) (i : nat) (reads : list ReadResult) : list Z * CopyEnd :=
  match reads with
  | [] => ([], CopyWaits)
  | MkRead bs er :: reads' =>
      let rest (i : nat) :=
        match er with
        | None => io_Copy outcome i reads'
        | Some e => ([], if decide (e = EOF) then CopyDone else CopyErr e)
        end in
      if bool_decide (bs = []) then rest i
      else match outcome i with
           | WriteOK => let '(out, r) := rest (S i) in (bs ++ out, r)
           | WriteErr n => (take n bs, CopyErr (ErrExt "short write"))
           | WritePanic => ([], CopyPanics)
           end
  end.

(** What [copyStream] logs. *)
Inductive CopyLog : Type := LogNilSrc | LogNilDst | LogCopyError (e : error).

(** [copyStream]: a nil source or destination is logged; an error of the copy
    is logged unless it is [io.EOF]. *)
Definition copyStream (dst : option (nat → WriteOutcome)) (src : option (list ReadResult))
    : list Z * CopyEnd * list CopyLog :=
  match src, dst with
  | None, _ => ([], CopyDone, [LogNilSrc])
  | Some _, None => ([], CopyDone, [LogNilDst])
  | Some reads, Some outcome =>
      let '(out, r) := io_Copy outcome 0 reads in
      (out, r, match r with
               | CopyErr e => if Is e EOF then [] else [LogCopyError e]
               | _ => []
               end)
  end.

(** ** The streams of a session *)

(** The streams a client opens, in this order, and what it uses them for. *)
Record ClientStreams : Type := MkClientStreams { cs_control : nat; cs_stdout : nat; cs_stderr : nat }.
Definition NewRPCClient_streams (opened : nat → nat) : ClientStreams :=
  MkClientStreams (opened 0%nat) (opened 1%nat) (opened 2%nat).

(** The two copies [ServeConn] starts, with the stream each writes to. *)
Definition ServeConn_copies (A : SessionAnswers) (Stdout Stderr : option (list ReadResult))
    (writes : nat → nat → WriteOutcome) : list (nat * (list Z * CopyEnd * list CopyLog)) :=
  match ServeConn A with
  | ServesOn _ out err => [(out, copyStream (Some (writes out)) Stdout); (err, copyStream (Some (writes err)) Stderr)]
  | _ => []
  end.

(** [SyncStreams]: the host copies from the streams it opened to its writers. *)
Definition SyncStreams (stdout stderr : option (nat → WriteOutcome)) (c : ClientStreams)
    (wire : nat → list ReadResult) : (list Z * CopyEnd * list CopyLog) * (list Z * CopyEnd * list CopyLog) :=
  (copyStream stdout (Some (wire (cs_stdout c))), copyStream stderr (Some (wire (cs_stderr c)))).

(** ** Connections that share the plugin's pipe *)

(** The copying goroutine of one connection: in [Read], with a chunk to write,
    or returned; and whether its stream still takes data. *)
Inductive CopierState : Type := Reading | Holding (chunk : list Z) | Returned.
Record Copier : Type := MkCopier { cp_open : bool; cp_state : CopierState; cp_out : list (list Z) }.

(** One of the two pipes with its copiers, what has been read from it, and the
    chunks that were read and not written, with the connection.  A write to a
    stream that was hung up fails, and its chunk counts as lost as a whole, even
    where the stream took its beginning. *)
Record Sharing : Type := MkSharing {
  sh_src : list (list Z);
  sh_conns : gmap nat Copier;
  sh_taken : list (list Z);
  sh_lost : list (nat * list Z)
}.

Inductive SharingStep : Type :=
| HConnect (i : nat)
| HRead (i : nat)
| HWrite (i : nat)
| HHangUp (i : nat)
| HOutput (chunk : list Z).

Definition set_conn (i : nat) (c : Copier) (s : Sharing) : Sharing :=
  MkSharing (sh_src s) (<[i := c]> (sh_conns s)) (sh_taken s) (sh_lost s).

Definition sharing_step (l : SharingStep) (s : Sharing) : option Sharing :=
  match l with
  | HConnect i =>
      if decide (sh_conns s !! i = None) then Some (set_conn i (MkCopier true Reading []) s) else None
  | HRead i =>
      c ← sh_conns s !! i;
      match cp_state c, sh_src s with
      | Reading, chunk :: src =>
          Some (MkSharing src (<[i := MkCopier (cp_open c) (Holding chunk) (cp_out c)]> (sh_conns s))
                  (sh_taken s ++ [chunk]) (sh_lost s))
      | _, _ => None
      end
  | HWrite i =>
      c ← sh_conns s !! i;
      match cp_state c with
      | Holding chunk =>
          if cp_open c then Some (set_conn i (MkCopier true Reading (cp_out c ++ [chunk])) s)
          else Some (MkSharing (sh_src s) (<[i := MkCopier false Returned (cp_out c)]> (sh_conns s))
                       (sh_taken s) ((i, chunk) :: sh_lost s))
      | _ => None
      end
  | HHangUp i =>
      c ← sh_conns s !! i;
      Some (set_conn i (MkCopier false (cp_state c) (cp_out c)) s)
  | HOutput chunk => Some (MkSharing (sh_src s ++ [chunk]) (sh_conns s) (sh_taken s) (sh_lost s))
  end.

#[export] Instance sharing_lts : LTS Sharing SharingStep := {|
  lts_init s := s = MkSharing [] ∅ [] [];
  lts_step := sharing_step
|}.

(** ** Lemmas *)

Lemma io_Copy_prefix outcome i reads :
  (io_Copy outcome i reads).1 `prefix_of` read_bytes reads ∧
  ((io_Copy outcome i reads).2 = CopyDone → (io_Copy outcome i reads).1 = read_bytes reads).
Proof.
  revert i. induction reads as [|[bs er] reads IH]; intros i; simpl; [done|].
  assert (take_prefix : ∀ n k, take n bs `prefix_of` bs ++ k)
    by (intros; apply prefix_app_r, prefix_take).
  case_bool_decide as Hbs; destruct er as [e|]; subst; simpl; [done|apply IH|..].
  - rewrite app_nil_r. destruct (outcome i); simpl; rewrite ?app_nil_r; split; try done.
    + apply prefix_take.
    + apply prefix_nil.
  - destruct (outcome i); simpl; [|by split|split; [apply prefix_nil|done]].
    destruct (IH (S i)) as [Hp Hd]. destruct (io_Copy outcome (S i) reads) as [out r]. simpl in *.
    split; [by apply prefix_app|]. intros ?. by rewrite Hd.
Qed.

Lemma copyStream_end dst reads :
  (copyStream dst (Some reads)).1.1 `prefix_of` read_bytes reads ∧
  (is_Some dst → (copyStream dst (Some reads)).1.2 = CopyDone → (copyStream dst (Some reads)).1.1 = read_bytes reads).
Proof.
  destruct dst as [outcome|]; simpl; [|split; [apply prefix_nil|by intros []]].
  destruct (io_Copy_prefix outcome 0 reads) as [Hp Hd]. by destruct (io_Copy outcome 0 reads).
Qed.

(** The chunks a connection has taken and not lost. *)
Definition held (c : Copier) : list (list Z) := match cp_state c with Holding chunk => [chunk] | _ => [] end.
Definition chunks (c : Copier) : list (list Z) := cp_out c ++ held c.
Definition contents (m : gmap nat Copier) : list (list Z) := map_to_list m ≫= λ ic, chunks ic.2.

Lemma contents_lookup m i c : m !! i = Some c → contents m ≡ₚ chunks c ++ contents (delete i m).
Proof. intros Hc. unfold contents. by rewrite <- (map_to_list_delete m i c Hc). Qed.

Lemma contents_insert m i c : contents (<[i := c]> m) ≡ₚ chunks c ++ contents (delete i m).
Proof.
  rewrite (contents_lookup _ i c) by apply lookup_insert_eq. by rewrite delete_insert_eq.
Qed.

Lemma contents_new m i c : m !! i = None → contents (<[i := c]> m) ≡ₚ chunks c ++ contents m.
Proof. intros Hn. by rewrite contents_insert, delete_id. Qed.

Record sharing_inv (s : Sharing) : Prop := MkSharingInv {
  si_chunks : sh_taken s ≡ₚ contents (sh_conns s) ++ (sh_lost s).*2;
  si_order : ∀ i c, sh_conns s !! i = Some c → chunks c `sublist_of` sh_taken s;
  si_lost : ∀ i, i ∈ (sh_lost s).*1 → ∃ out, sh_conns s !! i = Some (MkCopier false Returned out);
  si_once : NoDup (sh_lost s).*1
}.

(** A connection changes, but not the chunks it has. *)
Lemma sharing_same s i c c' :
  sharing_inv s → sh_conns s !! i = Some c → chunks c' = chunks c →
  (cp_state c = Returned → cp_state c' = Returned ∧ (cp_open c = false → cp_open c' = false)) →
  sharing_inv (set_conn i c' s).
Proof.
  intros [H1 H2 H3 H4] Hc Hch Hret. split; simpl; [| | |done].
  - rewrite H1, (contents_lookup _ i c Hc), contents_insert, Hch. done.
  - intros j d. rewrite lookup_insert_Some. intros [[<- <-]|[_ Hd]]; [rewrite Hch|]; eauto.
  - intros j Hj. destruct (H3 j Hj) as [out Hout]. destruct (decide (j = i)) as [->|Hne].
    + rewrite Hc in Hout. injection Hout as ->. destruct (Hret eq_refl) as [Hs Ho]. simpl in Ho.
      rewrite lookup_insert_eq. destruct c' as [o st out']; simpl in *. subst st. rewrite (Ho eq_refl). by exists out'.
    + rewrite lookup_insert_ne by done. by exists out.
Qed.

Lemma sharing_step_inv l s s' : sharing_step l s = Some s' → sharing_inv s → sharing_inv s'.
Proof.
  intros H Hinv. pose proof Hinv as [H1 H2 H3 H4]. destruct l as [i|i|i|i|chunk]; simpl in H.
  - case_decide as Hn; [|done]. injection H as <-. split; simpl; [| | |done].
    + by rewrite H1, contents_new.
    + intros j d. rewrite lookup_insert_Some. intros [[<- <-]|[_ Hd]]; [apply sublist_nil_l|eauto].
    + intros j Hj. destruct (H3 j Hj) as [out Hout]. exists out. rewrite lookup_insert_ne; [done|congruence].
  - apply bind_Some in H as (c & Hc & H). destruct (cp_state c) eqn:Hst; [|done..].
    destruct (sh_src s) as [|chunk src]; [done|]. injection H as <-.
    assert (chunks c = cp_out c) as Hch by (unfold chunks, held; by rewrite Hst, app_nil_r).
    split; simpl; [| | |done].
    + rewrite contents_insert, H1, (contents_lookup _ i c Hc), Hch. unfold chunks, held. simpl.
      rewrite <- Permutation_cons_append, <- !app_assoc. cbn [app]. by rewrite <- Permutation_middle.
    + intros j d. rewrite lookup_insert_Some. intros [[<- <-]|[_ Hd]].
      * unfold chunks at 1, held. simpl. rewrite <- Hch. apply sublist_app; [by eapply H2|done].
      * apply sublist_inserts_r. eauto.
    + intros j Hj. destruct (H3 j Hj) as [out Hout]. exists out. rewrite lookup_insert_ne; [done|].
      intros <-. rewrite Hc in Hout. injection Hout as ->. done.
  - apply bind_Some in H as (c & Hc & H). destruct (cp_state c) as [|chunk|] eqn:Hst; [done| |done].
    destruct (cp_open c) eqn:Hop; injection H as <-.
    + apply (sharing_same s i c); [done|done| |by rewrite Hst].
      unfold chunks, held. rewrite Hst. simpl. by rewrite app_nil_r.
    + assert (chunks c = cp_out c ++ [chunk]) as Hch by (unfold chunks, held; by rewrite Hst).
      assert (i ∉ (sh_lost s).*1) as Hfresh.
      { intros Hi. destruct (H3 i Hi) as [out Hout]. rewrite Hc in Hout. injection Hout as ->. done. }
      split; simpl.
      * rewrite contents_insert, H1, (contents_lookup _ i c Hc), Hch. unfold chunks, held. simpl.
        rewrite app_nil_r, <- !app_assoc. f_equiv. simpl. by rewrite Permutation_middle.
      * intros j d. rewrite lookup_insert_Some. intros [[<- <-]|[_ Hd]]; [|eauto].
        specialize (H2 i c Hc). rewrite Hch in H2. unfold chunks, held. simpl. rewrite app_nil_r.
        etrans; [|exact H2]. by apply sublist_inserts_r.
      * intros j [->|Hj]%elem_of_cons; [rewrite lookup_insert_eq; by eexists|].
        rewrite lookup_insert_ne by (by intros ->). eauto.
      * by constructor.
  - apply bind_Some in H as (c & Hc & H). injection H as <-. by apply (sharing_same s i c).
  - by injection H as <-.
Qed.

Lemma sharing_reachable_inv s : reachable s → sharing_inv s.
Proof.
  apply (invariant_reachable sharing_inv).
  - intros s0 ->. split; simpl; [done|by intros|by intros i ?%elem_of_nil|constructor].
  - intros l s0 s1 Hi Hs. by eapply sharing_step_inv.
Qed.

(** ** Properties *)

(** [copyStream] writes a prefix of what it reads, all of it when the source
    ends without a write error, and a nil end is logged instead of panicking. *)
Theorem copyStream_copies dst src :
  let '(out, r, logs) := copyStream dst src in
  match src, dst with
  | Some reads, Some _ => out `prefix_of` read_bytes reads ∧ (r = CopyDone → out = read_bytes reads ∧ logs = [])
  | _, _ => out = [] ∧ r = CopyDone ∧ logs ≠ []
  end.
Proof.
  destruct src as [reads|], dst as [outcome|]; simpl; try done.
  destruct (io_Copy_prefix outcome 0 reads) as [Hp Hd]. destruct (io_Copy outcome 0 reads) as [out r]. simpl in *.
  split; [done|]. intros ->. auto.
Qed.

(** C37: Over net/rpc each output of the plugin reaches the host's writer for it.
    When every stream delivers a prefix of what was written to it, [stdout] gets
    a prefix of what the plugin printed to its standard output and [stderr] of
    what it printed to its standard error; and all of it when the streams
    delivered everything and the copies ran to the end of their sources. *)
Theorem RPC_stdio_end_to_end A opened Stdout Stderr writes wire stdout stderr :
  sn_Server A = None → (∀ i, (i < 3)%nat → sn_Accept A i = Ret (opened i)) →
  let copies := ServeConn_copies A (Some Stdout) (Some Stderr) writes in
  let '((o, ro, _), (e, re, _)) := SyncStreams (Some stdout) (Some stderr) (NewRPCClient_streams opened) wire in
  (∀ n r, (n, r) ∈ copies → read_bytes (wire n) `prefix_of` r.1.1) →
  o `prefix_of` read_bytes Stdout ∧ e `prefix_of` read_bytes Stderr ∧
  ((∀ n r, (n, r) ∈ copies → r.1.2 = CopyDone ∧ read_bytes (wire n) = r.1.1) →
   (ro = CopyDone → o = read_bytes Stdout) ∧ (re = CopyDone → e = read_bytes Stderr)).
Proof.
  intros Hs Ha copies. unfold copies, ServeConn_copies, ServeConn. rewrite Hs, !Ha by lia.
  unfold SyncStreams. simpl cs_stdout. simpl cs_stderr.
  destruct (copyStream_end (Some (writes (opened 1%nat))) Stdout) as [P1 D1], (copyStream_end (Some (writes (opened 2%nat))) Stderr) as [P2 D2],
    (copyStream_end (Some stdout) (wire (opened 1%nat))) as [Q1 E1], (copyStream_end (Some stderr) (wire (opened 2%nat))) as [Q2 E2].
  destruct (copyStream (Some stdout) _) as [[o ro] lo], (copyStream (Some stderr) _) as [[e re] le]. simpl in *.
  intros Hw. split_and!.
  - do 2 (etrans; [eassumption || (apply (Hw (opened 1%nat)); left)|]). done.
  - do 2 (etrans; [eassumption || (apply (Hw (opened 2%nat)); right; left)|]). done.
  - intros Hall. destruct (Hall (opened 1%nat) _ ltac:(left)) as [F1 G1].
    destruct (Hall (opened 2%nat) _ ltac:(right; left)) as [F2 G2].
    split; intros Hd; [rewrite (E1 ltac:(eauto) Hd), G1|rewrite (E2 ltac:(eauto) Hd), G2]; auto.
Qed.

(** C36: The connections of one server share the plugin's output without mixing it
    up: every chunk that was read went to one connection, in the order it was
    printed, or was lost by a connection that had been hung up, and such a
    connection loses one chunk at most. *)
Theorem RPC_stdio_shared s :
  reachable s →
  sh_taken s ≡ₚ contents (sh_conns s) ++ (sh_lost s).*2 ∧
  (∀ i c, sh_conns s !! i = Some c → cp_out c `sublist_of` sh_taken s) ∧
  (∀ i, i ∈ (sh_lost s).*1 → ∃ c, sh_conns s !! i = Some c ∧ cp_open c = false) ∧ NoDup (sh_lost s).*1.
Proof.
  intros [H1 H2 H3 H4]%sharing_reachable_inv. split_and!; [done| | |done].
  - intros i c Hc. etrans; [|by eapply H2]. by apply sublist_inserts_r.
  - intros i Hi. destruct (H3 i Hi) as [out Hout]. by eexists.
Qed.

(** A host that reconnects may miss output: the goroutine of the connection
    that was hung up still waits in [Read], takes the next chunk before the new
    one does, and drops it. *)
Theorem RPC_stdio_stale_reader chunk :
  ∃ s, exec [HConnect 0; HHangUp 0; HConnect 1; HOutput chunk; HRead 0; HWrite 0] (MkSharing [] ∅ [] []) = Some s ∧
    sh_lost s = [(0%nat, chunk)] ∧ (cp_out <$> sh_conns s !! 1%nat) = Some [].
Proof. eexists. split; [reflexivity|]. split; reflexivity. Qed.

(** ** Concrete instances *)

Definition ex_session : SessionAnswers := MkSessionAnswers None (λ i, Ret (10 + i)%nat).

(** The host reads the plugin's three bytes in other pieces. *)
Definition ex_wire (n : nat) : list ReadResult :=
  if decide (n = 11)%nat then [MkRead [1] None; MkRead [2; 3] (Some EOF)] else [MkRead [9] (Some EOF)].
Definition ex_synced := SyncStreams (Some (λ _, WriteOK)) (Some (λ _, WriteOK))
  (NewRPCClient_streams (λ i, 10 + i)%nat) ex_wire.
Example RPC_stdio_end_to_end_witness :
  ServeConn ex_session = ServesOn 10 11 12 ∧
  ex_synced.1.1.1 `prefix_of` [1; 2; 3] ∧ ex_synced.2.1.1 `prefix_of` [9].
Proof.
  split; [reflexivity|].
  pose proof (RPC_stdio_end_to_end ex_session (λ i, 10 + i)%nat [MkRead [1; 2] None; MkRead [3] (Some EOF)]
    [MkRead [9] (Some EOF)] (λ _ _, WriteOK) ex_wire (λ _, WriteOK) (λ _, WriteOK) eq_refl (λ _ _, eq_refl)) as H.
  destruct H as (H1 & H2 & _); [|by split].
  intros n r [[= -> ->]|[[= -> ->]|[]%elem_of_nil]%elem_of_cons]%elem_of_cons; vm_compute; by exists [].
Defined.

Definition ex_sharing_steps : list SharingStep :=
  [HConnect 0; HConnect 1; HOutput [1]; HOutput [2]; HRead 1; HRead 0; HWrite 0; HHangUp 1; HWrite 1].
Definition ex_sharing : Sharing := default (MkSharing [] ∅ [] []) (exec ex_sharing_steps (MkSharing [] ∅ [] [])).

Example RPC_stdio_shared_witness :
  sh_lost ex_sharing = [(1%nat, [1])] ∧ sh_taken ex_sharing ≡ₚ contents (sh_conns ex_sharing) ++ (sh_lost ex_sharing).*2.
Proof.
  split; [vm_compute; reflexivity|]. apply (RPC_stdio_shared ex_sharing).
  apply (exec_reachable ex_sharing_steps (MkSharing [] ∅ [] [])); [by apply reachable_init|vm_compute; reflexivity].
Defined.
