(* ===== verification/ServeStdio.v ===== *)
(** * The test mode's tee and the interrupts of [Serve]

    server.go: in test mode [Serve] puts an [io.TeeReader] between the pipes and
    the protocol server, so that output also reaches the test's own files; out
    of test mode it installs a goroutine that discards interrupts. *)

From S2P Require Import Prelude GoStd Config Serve GRPCStdio RPC RPCStdio.

(** ** [io.TeeReader] *)

(** What the reads of the tee return, and what it writes, up to the error with
    which its reader stops: [short i] is the number of bytes the file took of
    the [i]-th chunk when its write failed.  A failed write is the error of the
    read, with the bytes that were written. *)
Fixpoint TeeReader (short : nat → option nat) (i : nat) (reads : list ReadResult) : list ReadResult * list Z :=
  match reads with
  | [] => ([], [])
  | MkRead bs er :: reads' =>
      let rest := match er with Some _ => ([], []) | None => TeeReader short (S i) reads' end in
      if bool_decide (bs = []) then (MkRead bs er :: rest.1, rest.2)
      else match short i with
           | None => (MkRead bs er :: rest.1, bs ++ rest.2)
           | Some n => ([MkRead (take n bs) (Some (ErrExt "write error"))], take n bs)
           end
  end.

(** The reader [Serve] gives to the protocol server, and what it writes to the
    file that was [os.Stdout] (or [os.Stderr]) when the tee was made. *)
Definition served_reads (opts : ServeConfig) (short : nat → option nat) (reads : list ReadResult)
    : list ReadResult * list Z :=
  match srv_Test opts with
  | Some _ => TeeReader short 0 reads
  | None => (reads, [])
  end.

(** ** Interrupts *)

(** The goroutine's channel has room for one signal; [signal.Notify] does not
    wait for room.  A process that has not asked for the signal is ended by it. *)
Record Interrupts : Type := MkInterrupts {
  int_test : bool;           (* the test mode *)
  int_notified : bool;       (* signal.Notify was called *)
  int_ch : bool;             (* a signal is in the channel *)
  int_count : nat;
  int_sent : nat;            (* signals the process was sent *)
  int_ended : bool
}.

Inductive InterruptStep : Type :=
| INotify                    (* Serve: signal.Notify(ch, os.Interrupt) *)
| ISignal                    (* an interrupt arrives *)
| IEat.                      (* the goroutine: <-ch; count++ *)

Definition interrupt_step (l : InterruptStep) (s : Interrupts) : option Interrupts :=
  if int_ended s then None
  else match l with
       | INotify =>
           if int_test s then None
           else Some (MkInterrupts false true (int_ch s) (int_count s) (int_sent s) false)
       | ISignal =>
           Some (if int_notified s
                 then MkInterrupts (int_test s) true true (int_count s) (S (int_sent s)) false
                 else MkInterrupts (int_test s) false (int_ch s) (int_count s) (S (int_sent s)) true)
       | IEat =>
           if int_ch s
           then Some (MkInterrupts (int_test s) (int_notified s) false (S (int_count s)) (int_sent s) false)
           else None
       end.

Definition no_interrupts (opts : ServeConfig) : Interrupts :=
  MkInterrupts (bool_decide (is_Some (srv_Test opts))) false false 0 0 false.

#[export] Instance interrupt_lts : LTS Interrupts InterruptStep := {|
  lts_init s := ∃ opts, s = no_interrupts opts;
  lts_step := interrupt_step
|}.

(** ** Lemmas *)

(** The tee writes what its reads return. *)
Lemma TeeReader_writes short i reads :
  let '(rs, out) := TeeReader short i reads in
  out = read_bytes rs ∧ out `prefix_of` read_bytes reads ∧ ((∀ j, short j = None) → out = read_bytes reads).
Proof.
  revert i. induction reads as [|[bs er] reads IH]; intros i; simpl; [by split_and!|].
  specialize (IH (S i)). destruct (TeeReader short (S i) reads) as [rs out]. destruct IH as (IH1 & IH2 & IH3).
  case_bool_decide as Hb; [|destruct (short i) as [n|] eqn:Hs].
  - subst bs. destruct er; simpl; by split_and!.
  - simpl. rewrite app_nil_r. split_and!; [done|apply prefix_app_r, prefix_take|]. intros Hno. by rewrite Hno in Hs.
  - destruct er; simpl; [by rewrite app_nil_r; split_and!|]. split_and!; [by rewrite IH1|by apply prefix_app|].
    intros Hno. by rewrite IH3.
Qed.

(** Signals are eaten once, and end only a process that did not ask for them. *)
Record interrupts_inv (s : Interrupts) : Prop := MkInterruptsInv {
  ii_count : (int_count s + (if int_ch s then 1 else 0) ≤ int_sent s)%nat;
  ii_ended : int_ended s = true ↔ (0 < int_sent s)%nat ∧ int_notified s = false;
  ii_quiet : int_notified s = false → int_ch s = false;
  ii_test : int_test s = true → int_notified s = false
}.

Lemma interrupt_step_inv l s s' : interrupt_step l s = Some s' → interrupts_inv s → interrupts_inv s'.
Proof.
  unfold interrupt_step. intros H [Hc He Hq Ht]. destruct s as [test not ch count sent ended]. simpl in *.
  destruct ended; [done|].
  destruct l; [destruct test; [done|]|destruct not eqn:Hn|destruct ch; [|done]]; simplify_eq/=;
    constructor; simpl; try done; try lia; naive_solver lia.
Qed.

Lemma interrupts_reachable_inv s : reachable s → interrupts_inv s.
Proof.
  apply (invariant_reachable interrupts_inv).
  - intros s0 [opts ->]. constructor; simpl; try done. split; [done|]. intros [? _]. lia.
  - intros l s0 s1 Hi Hs. by eapply interrupt_step_inv.
Qed.

(** ** Properties *)

(** The tee of the test mode shows the truth: what it writes to the test's own
    file is what the protocol server reads and sends to the host, a prefix of
    what the plugin printed, and all of it when the file takes every write; out
    of test mode the server reads the pipe itself. *)
Theorem served_reads_spec opts short reads :
  let '(rs, out) := served_reads opts short reads in
  match srv_Test opts with
  | None => rs = reads ∧ out = []
  | Some _ => concat (copyChan rs) = out ∧ out `prefix_of` read_bytes reads ∧
      ((∀ j, short j = None) → out = read_bytes reads)
  end.
Proof.
  unfold served_reads. destruct (srv_Test opts); [|done].
  pose proof (TeeReader_writes short 0 reads) as H. destruct (TeeReader short 0 reads) as [rs out].
  by rewrite copyChan_bytes; destruct H as (-> & H).
Qed.

(** Interrupts do not end a plugin once [Serve] has asked for them, however many
    come and however late the goroutine eats them; they end a plugin in test
    mode, and one that has not come that far, with the first. *)
Theorem Serve_survives_interrupts s :
  reachable s →
  (int_ended s = true ↔ (0 < int_sent s)%nat ∧ int_notified s = false) ∧
  (int_test s = true → int_notified s = false) ∧ (int_count s ≤ int_sent s)%nat ∧
  (int_notified s = true → ∃ s', interrupt_step ISignal s = Some s' ∧ int_ended s' = false).
Proof.
  intros [Hc He Hq Ht]%interrupts_reachable_inv. split_and!; [done..|lia|]. intros Hn. unfold interrupt_step.
  destruct (int_ended s) eqn:Hd; [|rewrite Hn; by eexists]. destruct (proj1 He eq_refl). congruence.
Qed.

(** ** Concrete instances *)

Definition ex_interrupted : Interrupts :=
  default (no_interrupts (ex_serve_cfg None)) (exec [INotify; ISignal; ISignal; IEat; ISignal] (no_interrupts (ex_serve_cfg None))).
Lemma ex_interrupted_reachable : reachable ex_interrupted.
Proof.
  apply (exec_reachable [INotify; ISignal; ISignal; IEat; ISignal] (no_interrupts (ex_serve_cfg None)));
    [apply reachable_init; by exists (ex_serve_cfg None)|vm_compute; reflexivity].
Qed.
Lemma Serve_survives_interrupts_witness :
  int_sent ex_interrupted = 3%nat ∧ int_count ex_interrupted = 1%nat ∧ int_notified ex_interrupted = true ∧
  (int_count ex_interrupted ≤ int_sent ex_interrupted)%nat.
Proof.
  split_and!; [vm_compute; reflexivity..|]. apply (Serve_survives_interrupts ex_interrupted ex_interrupted_reachable).
Defined.
