(* ===== verification/GRPCServer.v ===== *)
(** * Stopping the gRPC server

    grpc_server.go: [Serve], [Stop], [GracefulStop] and [closeBroker];
    grpc_controller.go: [Shutdown], which drains the server in a goroutine and
    forces it down when that takes too long.  The grpc library is known by its
    documentation: [GracefulStop] refuses new RPCs and blocks until every pending
    one has returned, [Stop] cancels the context of the pending ones and, as the
    server does not ask for [WaitForHandlers], may return while their handlers
    still run, and [Serve] returns when either has finished.  What a handler
    does with its cancelled context is the plugin's: no step makes it return. *)

From S2P Require Import Prelude GoStd Config.

(** ** State *)

(** Whether new RPCs are refused, and whether the pending ones are cancelled. *)
Inductive StopLevel : Type := Running | Draining | Stopped.

(** The goroutine that calls [GracefulStop]: to be scheduled, in the library's
    [GracefulStop], in [closeBroker], or past [close(stopped)]. *)
Inductive Graceful : Type := GStart | GWaiting | GClosing | GClosed.

(** The goroutine with the [select]: there, in [Stop] before [closeBroker],
    waiting for [stopped], or returned. *)
Inductive Watch : Type := WSelect | WClosing | WAwait | WDone.

Record ShutdownTask : Type := MkTask { sd_graceful : Graceful; sd_watch : Watch; sd_deadline : Z }.

Record GRPCServer : Type := MkGRPCServer {
  gv_serving : bool;                     (* s.server.Serve has not returned *)
  gv_level : StopLevel;
  gv_inflight : nat;                     (* RPC handlers that have not returned *)
  gv_broker : bool;                      (* s.broker != nil *)
  gv_broker_closes : nat;
  gv_done : nat;                         (* how often DoneCh was closed *)
  gv_tasks : list ShutdownTask;          (* one per Shutdown call *)
  gv_now : Z
}.

(** An initialised server that serves. *)
Definition serving : GRPCServer := MkGRPCServer true Running 0 true 0 0 [] 0.

Definition set_task (i : nat) (t : ShutdownTask) (s : GRPCServer) : GRPCServer :=
  MkGRPCServer (gv_serving s) (gv_level s) (gv_inflight s) (gv_broker s) (gv_broker_closes s) (gv_done s)
    (<[i := t]> (gv_tasks s)) (gv_now s).
Definition set_level (l : StopLevel) (s : GRPCServer) : GRPCServer :=
  MkGRPCServer (gv_serving s) l (gv_inflight s) (gv_broker s) (gv_broker_closes s) (gv_done s) (gv_tasks s) (gv_now s).
Definition set_inflight (n : nat) (s : GRPCServer) : GRPCServer :=
  MkGRPCServer (gv_serving s) (gv_level s) n (gv_broker s) (gv_broker_closes s) (gv_done s) (gv_tasks s) (gv_now s).

(** [closeBroker] under its mutex. *)
Definition closeBroker (s : GRPCServer) : GRPCServer :=
  if gv_broker s then
    MkGRPCServer (gv_serving s) (gv_level s) (gv_inflight s) false (S (gv_broker_closes s)) (gv_done s)
      (gv_tasks s) (gv_now s)
  else s.

(** The library's [GracefulStop] and [Stop]. *)
Definition begin_drain (s : GRPCServer) : GRPCServer :=
  set_level (match gv_level s with Stopped => Stopped | _ => Draining end) s.
Definition hard_stop (s : GRPCServer) : GRPCServer := set_level Stopped s.

(** Whether the library's [GracefulStop] returns: it waits for every handler,
    also when [Stop] is called meanwhile. *)
Definition drained (s : GRPCServer) : bool :=
  match gv_level s with
  | Running => false
  | Draining | Stopped => bool_decide (gv_inflight s = 0%nat)
  end.

(** Whether the library's [Serve] returns: when [GracefulStop] or [Stop] did. *)
Definition serve_released (s : GRPCServer) : bool :=
  match gv_level s with Stopped => true | _ => drained s end.

(** [GRPCServer.Serve]: [DoneCh] is closed when the library's [Serve] returns. *)
Definition Serve_returns (s : GRPCServer) : GRPCServer :=
  MkGRPCServer false (gv_level s) (gv_inflight s) (gv_broker s) (gv_broker_closes s) (S (gv_done s))
    (gv_tasks s) (gv_now s).

(** [Shutdown]: both goroutines start, and the call returns. *)
Definition Shutdown (gracefulStopTimeout : Z) (s : GRPCServer) : GRPCServer :=
  MkGRPCServer (gv_serving s) (gv_level s) (gv_inflight s) (gv_broker s) (gv_broker_closes s) (gv_done s)
    (gv_tasks s ++ [MkTask GStart WSelect (gv_now s + gracefulStopTimeout)]) (gv_now s).

(** ** Steps *)

Inductive ServerStep : Type :=
| HCall | HReturn                        (* an RPC begins, or its handler returns *)
| HShutdown (gracefulStopTimeout : Z)
| HGraceful (i : nat)                    (* s.server.GracefulStop() is called *)
| HDrained (i : nat)                     (* ... and returns *)
| HGracefulClose (i : nat)               (* closeBroker, close(stopped) *)
| HStopped (i : nat)                     (* case <-stopped *)
| HTimeout (i : nat)                     (* case <-time.After: s.server.Stop() *)
| HStopClose (i : nat)                   (* ... closeBroker *)
| HAwait (i : nat)                       (* <-stopped *)
| HServe                                 (* the library's Serve returns *)
| HServeError                            (* ... because of its listener *)
| HStop | HStopBroker                    (* the two halves of GRPCServer.Stop, called by Serve *)
| HTick (d : Z).

Definition grpc_step (l : ServerStep) (s : GRPCServer) : option GRPCServer :=
  match l with
  | HCall => match gv_level s with Running => Some (set_inflight (S (gv_inflight s)) s) | _ => None end
  | HReturn => match gv_inflight s with S n => Some (set_inflight n s) | O => None end
  | HShutdown d => Some (Shutdown d s)
  | HGraceful i =>
      match gv_tasks s !! i with
      | Some (MkTask GStart w d) => Some (begin_drain (set_task i (MkTask GWaiting w d) s))
      | _ => None
      end
  | HDrained i =>
      match gv_tasks s !! i with
      | Some (MkTask GWaiting w d) => if drained s then Some (set_task i (MkTask GClosing w d) s) else None
      | _ => None
      end
  | HGracefulClose i =>
      match gv_tasks s !! i with
      | Some (MkTask GClosing w d) => Some (closeBroker (set_task i (MkTask GClosed w d) s))
      | _ => None
      end
  | HStopped i =>
      match gv_tasks s !! i with
      | Some (MkTask GClosed WSelect d) => Some (set_task i (MkTask GClosed WDone d) s)
      | _ => None
      end
  | HTimeout i =>
      match gv_tasks s !! i with
      | Some (MkTask g WSelect d) =>
          if bool_decide (d ≤ gv_now s) then Some (hard_stop (set_task i (MkTask g WClosing d) s)) else None
      | _ => None
      end
  | HStopClose i =>
      match gv_tasks s !! i with
      | Some (MkTask g WClosing d) => Some (closeBroker (set_task i (MkTask g WAwait d) s))
      | _ => None
      end
  | HAwait i =>
      match gv_tasks s !! i with
      | Some (MkTask GClosed WAwait d) => Some (set_task i (MkTask GClosed WDone d) s)
      | _ => None
      end
  | HServe => if gv_serving s && serve_released s then Some (Serve_returns s) else None
  | HServeError => if gv_serving s then Some (Serve_returns s) else None
  | HStop => Some (hard_stop s)
  | HStopBroker => Some (closeBroker s)
  | HTick d => if bool_decide (0 ≤ d) then
      Some (MkGRPCServer (gv_serving s) (gv_level s) (gv_inflight s) (gv_broker s) (gv_broker_closes s) (gv_done s)
              (gv_tasks s) (gv_now s + d)) else None
  end.

#[export] Instance grpc_server_lts : LTS GRPCServer ServerStep := {|
  lts_init s := s = serving;
  lts_step := grpc_step
|}.

(** ** The invariant *)

Definition task_ok (level : StopLevel) (inflight : nat) (closes : nat) (t : ShutdownTask) : Prop :=
  match sd_graceful t with
  | GStart => True
  | GWaiting => level ≠ Running
  | GClosing => level ≠ Running ∧ inflight = 0%nat
  | GClosed => level ≠ Running ∧ inflight = 0%nat ∧ closes = 1%nat
  end ∧
  match sd_watch t with
  | WSelect => True
  | WClosing => level = Stopped
  | WAwait => level = Stopped ∧ closes = 1%nat
  | WDone => sd_graceful t = GClosed
  end.

Record grpc_inv (s : GRPCServer) : Prop := MkGrpcInv {
  gi_broker : gv_broker_closes s = if gv_broker s then 0%nat else 1%nat;
  gi_done : gv_done s = if gv_serving s then 0%nat else 1%nat;
  gi_tasks : ∀ i t, gv_tasks s !! i = Some t → task_ok (gv_level s) (gv_inflight s) (gv_broker_closes s) t
}.

(** The invariant of a task survives stopping, draining and closing. *)
Lemma task_ok_mono level level' n n' c c' t :
  task_ok level n c t → (level = Stopped → level' = Stopped) → (level ≠ Running → level' ≠ Running) →
  (level ≠ Running ∧ n = 0%nat → n' = 0%nat) → (c = 1%nat → c' = 1%nat) →
  task_ok level' n' c' t.
Proof. unfold task_ok. destruct (sd_graceful t), (sd_watch t); naive_solver. Qed.

Lemma closeBroker_inv s : gv_broker_closes s = (if gv_broker s then 0%nat else 1%nat) →
  gv_broker_closes (closeBroker s) = 1%nat ∧ gv_broker (closeBroker s) = false ∧
  gv_serving (closeBroker s) = gv_serving s ∧ gv_done (closeBroker s) = gv_done s ∧
  gv_tasks (closeBroker s) = gv_tasks s ∧ gv_level (closeBroker s) = gv_level s ∧
  gv_inflight (closeBroker s) = gv_inflight s ∧ gv_now (closeBroker s) = gv_now s.
Proof. unfold closeBroker. destruct (gv_broker s) eqn:?; simpl; naive_solver. Qed.

Lemma set_task_ok i t' level n c level' n' c' (ts : list ShutdownTask) :
  (∀ j t, ts !! j = Some t → task_ok level n c t) →
  (∀ t, task_ok level n c t → task_ok level' n' c' t) → task_ok level' n' c' t' →
  ∀ j t, <[i := t']> ts !! j = Some t → task_ok level' n' c' t.
Proof.
  intros Hall Hmono Hnew j t. rewrite list_lookup_insert_Some.
  intros [(-> & -> & _)|[_ Hj]]; [done|]. by eapply Hmono, Hall.
Qed.

Lemma grpc_step_inv l s s' : grpc_step l s = Some s' → grpc_inv s → grpc_inv s'.
Proof.
  intros H Hinv. pose proof Hinv as [Hb Hd Ht]. destruct l as [| |d|i|i|i|i|i|i|i| | | | |d]; simpl in H.
  - destruct (gv_level s) eqn:Hl; [|done..]. injection H as <-. constructor; simpl; [done|done|].
    intros i t Hi. eapply task_ok_mono; [by eapply Ht|..]; rewrite ?Hl; naive_solver.
  - destruct (gv_inflight s) as [|n] eqn:Hn; [done|]. injection H as <-. constructor; simpl; [done|done|].
    intros i t Hi. eapply task_ok_mono; [by eapply Ht|..]; naive_solver.
  - injection H as <-. constructor; simpl; [done|done|].
    intros i t [Hi|[_ [_ <-]%list_lookup_singleton_Some]]%lookup_app_Some; [by eapply Ht|done].
  - destruct (gv_tasks s !! i) as [[[] w dl]|] eqn:Hi; try discriminate. injection H as <-.
    constructor; simpl; [done|done|]. eapply set_task_ok; [exact Ht|..].
    + intros t Hok. eapply task_ok_mono; [exact Hok|..]; destruct (gv_level s); naive_solver.
    + specialize (Ht _ _ Hi). unfold task_ok in *. simpl in *. destruct (gv_level s), w; naive_solver.
  - destruct (gv_tasks s !! i) as [[[] w dl]|] eqn:Hi; try discriminate. destruct (drained s) eqn:Hdr; [|done].
    injection H as <-. constructor; simpl; [done|done|]. eapply set_task_ok; [exact Ht|done|].
    specialize (Ht _ _ Hi). unfold task_ok, drained in *. simpl in *.
    destruct (gv_level s), w; try case_bool_decide; naive_solver.
  - destruct (gv_tasks s !! i) as [[[] w dl]|] eqn:Hi; try discriminate. injection H as <-.
    destruct (closeBroker_inv (set_task i (MkTask GClosed w dl) s) Hb) as (C1 & C2 & C3 & C4 & C5 & C6 & C7 & C8).
    constructor; rewrite ?C1, ?C2, ?C3, ?C4, ?C5, ?C6, ?C7; [done|done|]. eapply set_task_ok; [exact Ht|..].
    + intros t Hok. eapply task_ok_mono; [exact Hok|..]; naive_solver.
    + specialize (Ht _ _ Hi). unfold task_ok in *. simpl in *. destruct w; naive_solver.
  - destruct (gv_tasks s !! i) as [[[] [] dl]|] eqn:Hi; try discriminate. injection H as <-.
    constructor; simpl; [done|done|]. eapply set_task_ok; [exact Ht|done|].
    specialize (Ht _ _ Hi). unfold task_ok in *. simpl in *. naive_solver.
  - destruct (gv_tasks s !! i) as [[g [] dl]|] eqn:Hi; try discriminate. case_bool_decide; [|done].
    injection H as <-. constructor; simpl; [done|done|]. eapply set_task_ok; [exact Ht|..].
    + intros t Hok. eapply task_ok_mono; [exact Hok|..]; naive_solver.
    + specialize (Ht _ _ Hi). unfold task_ok in *. simpl in *. destruct g; naive_solver.
  - destruct (gv_tasks s !! i) as [[g [] dl]|] eqn:Hi; try discriminate. injection H as <-.
    destruct (closeBroker_inv (set_task i (MkTask g WAwait dl) s) Hb) as (C1 & C2 & C3 & C4 & C5 & C6 & C7 & C8).
    constructor; rewrite ?C1, ?C2, ?C3, ?C4, ?C5, ?C6, ?C7; [done|done|]. eapply set_task_ok; [exact Ht|..].
    + intros t Hok. eapply task_ok_mono; [exact Hok|..]; naive_solver.
    + specialize (Ht _ _ Hi). unfold task_ok in *. simpl in *. destruct g; naive_solver.
  - destruct (gv_tasks s !! i) as [[[] [] dl]|] eqn:Hi; try discriminate. injection H as <-.
    constructor; simpl; [done|done|]. eapply set_task_ok; [exact Ht|done|].
    specialize (Ht _ _ Hi). unfold task_ok in *. simpl in *. naive_solver.
  - destruct (gv_serving s) eqn:Hs; [|done]. destruct (serve_released s); [|done]. injection H as <-.
    constructor; simpl; [done|by rewrite Hd|done].
  - destruct (gv_serving s) eqn:Hs; [|done]. injection H as <-. constructor; simpl; [done|by rewrite Hd|done].
  - injection H as <-. constructor; simpl; [done|done|]. intros i t Hi.
    eapply task_ok_mono; [by eapply Ht|..]; naive_solver.
  - injection H as <-. destruct (closeBroker_inv s Hb) as (C1 & C2 & C3 & C4 & C5 & C6 & C7 & C8).
    constructor; rewrite ?C1, ?C2, ?C3, ?C4, ?C5, ?C6, ?C7; [done|done|]. intros i t Hi.
    eapply task_ok_mono; [by eapply Ht|..]; naive_solver.
  - case_bool_decide; [|done]. injection H as <-. by constructor.
Qed.

Lemma grpc_reachable_inv s : reachable s → grpc_inv s.
Proof.
  apply (invariant_reachable grpc_inv).
  - intros s0 ->. constructor; simpl; [done|done|]. intros i t Hi. by rewrite lookup_nil in Hi.
  - intros l s0 s1 Hi Hs. by eapply grpc_step_inv.
Qed.

(** ** Termination *)

(** The steps of the server's own goroutines: no handler returns, and no call
    comes in. *)
Definition own_step (l : ServerStep) : bool :=
  match l with HCall | HReturn | HShutdown _ | HServeError | HStop | HStopBroker | HTick _ => false | _ => true end.

Definition graceful_left (g : Graceful) : nat := match g with GStart => 3 | GWaiting => 2 | GClosing => 1 | GClosed => 0 end.
Definition watch_left (w : Watch) : nat := match w with WSelect => 3 | WClosing => 2 | WAwait => 1 | WDone => 0 end.
Definition task_left (t : ShutdownTask) : nat := graceful_left (sd_graceful t) + watch_left (sd_watch t).
Definition steps_left (s : GRPCServer) : nat :=
  (if gv_serving s then 1 else 0) + sum_list_with task_left (gv_tasks s).

Lemma sum_insert_lt (ts : list ShutdownTask) i t t' :
  ts !! i = Some t → (task_left t' < task_left t)%nat →
  (sum_list_with task_left (<[i := t']> ts) < sum_list_with task_left ts)%nat.
Proof.
  revert i. induction ts as [|x ts IH]; intros [|i] Hi Hlt; simplify_eq/=; [lia|]. specialize (IH _ Hi Hlt). lia.
Qed.

Lemma closeBroker_left s : steps_left (closeBroker s) = steps_left s.
Proof. unfold closeBroker. by destruct (gv_broker s). Qed.

(** Every own step brings the end closer. *)
Lemma own_step_decreases l s s' :
  own_step l = true → grpc_step l s = Some s' → (steps_left s' < steps_left s)%nat.
Proof.
  intros Ho H. destruct l as [| |d|i|i|i|i|i|i|i| | | | |d]; try discriminate; simpl in H.
  8: { destruct (gv_serving s) eqn:Hs; [|done]. destruct (serve_released s); [|done]. injection H as <-.
       unfold steps_left. simpl. rewrite Hs. lia. }
  all: destruct (gv_tasks s !! i) as [[g w d]|] eqn:Hi; [|done]; repeat (case_match; try done); simplify_eq;
    rewrite ?closeBroker_left; unfold steps_left, begin_drain, hard_stop; simpl;
    apply Nat.add_lt_mono_l; eapply sum_insert_lt; [exact Hi|]; unfold task_left; simpl; lia.
Qed.

(** The run that ends the server: its own goroutines go on and handlers
    return. *)
Definition ending_step (l : ServerStep) : bool := match l with HReturn => true | _ => own_step l end.

Lemma ending_step_decreases l s s' :
  ending_step l = true → grpc_step l s = Some s' →
  (steps_left s' + gv_inflight s' < steps_left s + gv_inflight s)%nat.
Proof.
  intros Ho H. destruct (own_step l) eqn:Hown.
  - pose proof (own_step_decreases _ _ _ Hown H) as Hlt. cut (gv_inflight s' = gv_inflight s); [lia|].
    destruct l; try discriminate; simpl in H; repeat (case_match; try done); simplify_eq; try done;
      unfold closeBroker; by destruct (gv_broker _).
  - destruct l; try discriminate. simpl in H. destruct (gv_inflight s) eqn:Hn; [done|]. injection H as <-.
    unfold steps_left. simpl. lia.
Qed.

(** A shutdown whose time is over stops only when it has cancelled the handlers
    that still run, or is complete. *)
Lemma shutdown_quiescent s i t :
  grpc_inv s → gv_tasks s !! i = Some t → sd_deadline t ≤ gv_now s →
  (∀ l, own_step l = true → grpc_step l s = None) →
  (gv_inflight s ≠ 0%nat → gv_level s = Stopped) ∧
  (gv_inflight s = 0%nat →
   t = MkTask GClosed WDone (sd_deadline t) ∧ gv_serving s = false ∧ gv_done s = 1%nat ∧ gv_broker_closes s = 1%nat).
Proof.
  intros [Hb Hd Ht] Hi Hnow Hq. pose proof (Ht _ _ Hi) as Hok. destruct t as [g w dl]. simpl in *.
  pose proof (Hq (HGraceful i) eq_refl) as Q1. pose proof (Hq (HDrained i) eq_refl) as Q2.
  pose proof (Hq (HGracefulClose i) eq_refl) as Q3. pose proof (Hq (HStopped i) eq_refl) as Q4.
  pose proof (Hq (HTimeout i) eq_refl) as Q5. pose proof (Hq (HStopClose i) eq_refl) as Q6.
  pose proof (Hq (HAwait i) eq_refl) as Q7. simpl in *. rewrite Hi in *.
  rewrite (bool_decide_eq_true_2 (dl ≤ gv_now s)) in Q5 by done.
  unfold task_ok in Hok. simpl in Hok. split.
  - intros Hn. destruct g, w; try discriminate; naive_solver.
  - intros Hn. assert (Hg : g = GClosed ∧ w = WDone).
    { unfold drained in Q2. rewrite (bool_decide_eq_true_2 (gv_inflight s = 0%nat)) in Q2 by done.
      destruct g, w; try discriminate; try done; destruct (gv_level s); naive_solver. }
    destruct Hg as [-> ->]. destruct Hok as [(Hlv & _ & Hc) _].
    assert (Hs : gv_serving s = false).
    { pose proof (Hq HServe eq_refl) as Q. simpl in Q. unfold serve_released, drained in Q.
      rewrite (bool_decide_eq_true_2 (gv_inflight s = 0%nat)) in Q by done.
      destruct (gv_serving s); [|done]. by destruct (gv_level s). }
    split_and!; [done|done| |done]. by rewrite Hd, Hs.
Qed.

(** Such steps keep every task, its deadline and the time. *)
Lemma ending_step_task l s s' i t :
  ending_step l = true → grpc_step l s = Some s' → gv_tasks s !! i = Some t →
  ∃ t', gv_tasks s' !! i = Some t' ∧ sd_deadline t' = sd_deadline t ∧ gv_now s' = gv_now s.
Proof.
  assert (Hset : ∀ j x (ts : list ShutdownTask), (∀ y, ts !! j = Some y → sd_deadline x = sd_deadline y) →
    ts !! i = Some t → ∃ t', <[j := x]> ts !! i = Some t' ∧ sd_deadline t' = sd_deadline t).
  { intros j x ts Hx Hi. destruct (decide (i = j)) as [->|].
    - exists x. split; [apply list_lookup_insert_eq; by eapply lookup_lt_Some|by apply Hx].
    - exists t. by rewrite list_lookup_insert_ne. }
  intros Ho H Hi. destruct l as [| |d|j|j|j|j|j|j|j| | | | |d]; try discriminate; simpl in H.
  1: { destruct (gv_inflight s); [done|]. injection H as <-. eauto. }
  8: { destruct (gv_serving s && serve_released s); [|done]. injection H as <-. eauto. }
  all: destruct (gv_tasks s !! j) as [[g w d]|] eqn:Hj; [|done]; repeat (case_match; try done); simplify_eq.
  all: unfold closeBroker, begin_drain, hard_stop; try (destruct (gv_broker _)); simpl.
  all: edestruct (Hset j) as (t' & ? & ?); [|exact Hi|exists t'; split_and!; [eassumption|done|done]].
  all: intros y Hy; rewrite Hj in Hy; by injection Hy as <-.
Qed.

Lemma ending_exec_task ls s s' i t :
  forallb ending_step ls = true → exec ls s = Some s' → gv_tasks s !! i = Some t →
  ∃ t', gv_tasks s' !! i = Some t' ∧ sd_deadline t' = sd_deadline t ∧ gv_now s' = gv_now s.
Proof.
  revert s t. induction ls as [|l ls IH]; intros s t Hown He Hi; simpl in He.
  - injection He as <-. eauto.
  - simpl in Hown. apply andb_true_iff in Hown as [Hl Hls].
    destruct (grpc_step l s) as [s1|] eqn:Hs; [|done]. simpl in He.
    destruct (ending_step_task _ _ _ i t Hl Hs Hi) as (t1 & Hi1 & Hd1 & Hn1).
    destruct (IH _ _ Hls He Hi1) as (t2 & Hi2 & Hd2 & Hn2). exists t2. split_and!; [done|congruence|congruence].
Qed.

(** ** Properties *)

(** C32: however often [Shutdown] is called and however its graceful and forced
    stops interleave, the broker is closed at most once and [DoneCh] is closed
    exactly when [Serve] has returned, once. *)
Theorem GRPCServer_closes_once s :
  reachable s →
  (gv_broker_closes s ≤ 1)%nat ∧ (gv_broker s = false ↔ gv_broker_closes s = 1%nat) ∧
  gv_done s = (if gv_serving s then 0%nat else 1%nat).
Proof.
  intros [Hb Hd _]%grpc_reachable_inv. rewrite Hb. destruct (gv_broker s); split_and!; try done; lia.
Qed.

(** C4: [Shutdown] ends the plugin even when its RPC handlers only return once
    they are cancelled.  Once its timeout is over, every run in which the
    server's own goroutines go on and handlers return is finite.  Where such a
    run leaves the server's goroutines nothing to do, either handlers still run
    and every one of them has had its context cancelled, or [Serve] has
    returned, [DoneCh] and the broker are closed, once each, and both goroutines
    of the [Shutdown] are gone. *)
Theorem Shutdown_ends_server s i t :
  reachable s → gv_tasks s !! i = Some t → sd_deadline t ≤ gv_now s →
  (∀ ls s', forallb ending_step ls = true → exec ls s = Some s' →
    (length ls ≤ steps_left s + gv_inflight s)%nat) ∧
  (∀ ls s', forallb ending_step ls = true → exec ls s = Some s' →
    (∀ l, own_step l = true → grpc_step l s' = None) →
    (gv_inflight s' ≠ 0%nat → gv_level s' = Stopped) ∧
    (gv_inflight s' = 0%nat →
      gv_serving s' = false ∧ gv_done s' = 1%nat ∧ gv_broker_closes s' = 1%nat ∧
      gv_tasks s' !! i = Some (MkTask GClosed WDone (sd_deadline t)))).
Proof.
  intros Hr Hi Hnow. split.
  - intros ls s' Hown He.
    pose proof (exec_decreases ending_step (λ s, steps_left s + gv_inflight s)%nat ls s s'
      ending_step_decreases Hown He) as Hlen. simpl in Hlen. lia.
  - intros ls s' Hown He Hq. destruct (ending_exec_task _ _ _ i t Hown He Hi) as (t' & Hi' & Hd & Hn).
    destruct (shutdown_quiescent s' i t') as [H1 H2]; [|done|by rewrite Hd, Hn|done|].
    + by eapply grpc_reachable_inv, exec_reachable.
    + split; [done|]. intros (Ht & ? & ? & ?)%H2. split_and!; try done. by rewrite Hi', <- Hd, <- Ht.
Qed.

(** ** Concrete instances *)

(** A handler that waits for its context, a [Shutdown] and its timeout; [Stop]
    cancels the handler, which then returns. *)
Definition ex_wedged_steps : list ServerStep := [HCall; HShutdown 100; HGraceful 0; HTick 100].
Definition ex_wedged : GRPCServer := default serving (exec ex_wedged_steps serving).
Definition ex_cancel_steps : list ServerStep := [HTimeout 0; HServe; HStopClose 0].
Definition ex_cancelled : GRPCServer := default serving (exec ex_cancel_steps ex_wedged).
Definition ex_stop_steps : list ServerStep := ex_cancel_steps ++ [HReturn; HDrained 0; HGracefulClose 0; HAwait 0].
Definition ex_stopped : GRPCServer := default serving (exec ex_stop_steps ex_wedged).

Lemma ex_wedged_reachable : reachable ex_wedged.
Proof. apply (exec_reachable ex_wedged_steps serving); [by apply reachable_init|vm_compute; reflexivity]. Qed.

Lemma ex_stopped_reachable : reachable ex_stopped.
Proof. apply (exec_reachable ex_stop_steps ex_wedged); [apply ex_wedged_reachable|vm_compute; reflexivity]. Qed.

Lemma ex_quiescent l : own_step l = true → grpc_step l ex_cancelled = None ∧ grpc_step l ex_stopped = None.
Proof. destruct l as [| |d|[|i]|[|i]|[|i]|[|i]|[|i]|[|i]|[|i]| | | | |d]; done. Qed.

Lemma GRPCServer_closes_once_witness :
  gv_done ex_stopped = 1%nat ∧ (gv_broker_closes ex_stopped ≤ 1)%nat.
Proof. split; [vm_compute; reflexivity|]. apply (GRPCServer_closes_once ex_stopped ex_stopped_reachable). Defined.

Lemma Shutdown_ends_server_witness :
  gv_inflight ex_cancelled = 1%nat ∧ gv_level ex_cancelled = Stopped ∧
  gv_serving ex_stopped = false ∧ gv_done ex_stopped = 1%nat ∧ gv_broker_closes ex_stopped = 1%nat ∧
  gv_tasks ex_stopped !! 0%nat = Some (MkTask GClosed WDone 100).
Proof.
  pose proof (proj2 (Shutdown_ends_server ex_wedged 0 (MkTask GWaiting WSelect 100) ex_wedged_reachable eq_refl
    ltac:(vm_compute; discriminate))) as H.
  split; [vm_compute; reflexivity|]. split.
  - apply (H ex_cancel_steps ex_cancelled eq_refl); [vm_compute; reflexivity|apply ex_quiescent|vm_compute; discriminate].
  - apply (H ex_stop_steps ex_stopped eq_refl); [vm_compute; reflexivity|apply ex_quiescent|vm_compute; reflexivity].
Defined.
