(* ===== verification/Testing.v ===== *)
(** * The test helpers

    testing.go: [TestConn], [TestRPCConn], [TestPluginRPCConn], [TestGRPCConn]
    and [TestPluginGRPCConn], with which the authors of plugins connect a client
    and a server inside one process.  [tb.Fatalf] marks the test as failed and
    ends the goroutine that calls it, running its deferred calls; it does not
    stop other goroutines. *)

From S2P Require Import Prelude GoStd Config Negotiate ClientData Listener Serve Start Lifecycle RPC GRPCStdio RPCStdio.

(** ** [TestConn] *)

(** The test's goroutine: before [net.Listen], before [net.Dial], at [<-doneCh]
    with the client's connection, returned, or ended by [Fatalf]. *)
Inductive MainPC : Type :=
| MListen
| MDial
| MWait (clientConn : nat)
| MReturn (clientConn : nat) (serverConn : option nat)
| MExit.

(** The goroutine that accepts: not started, in [l.Accept], before its two
    deferred calls in the order they run, ended. *)
Inductive AcceptPC : Type := AIdle | AAccept | ACloseListener | ACloseDone | AEnd.

(** Connections are numbered; both ends of one have its number. *)
Record TestConn : Type := MkTestConn {
  tc_main : MainPC;
  tc_accept : AcceptPC;
  tc_listening : bool;
  tc_backlog : list nat;            (* established, not accepted *)
  tc_serverConn : option nat;       (* the shared variable *)
  tc_done : bool;                   (* doneCh is closed *)
  tc_failed : bool;                 (* the test is marked as failed *)
  tc_next : nat;
  tc_foreign : bool                 (* another process has connected *)
}.

Definition TestConn_start : TestConn := MkTestConn MListen AIdle false [] None false false 0 false.

Definition set_main pc t := MkTestConn pc (tc_accept t) (tc_listening t) (tc_backlog t) (tc_serverConn t)
  (tc_done t) (tc_failed t) (tc_next t) (tc_foreign t).
Definition set_accept pc t := MkTestConn (tc_main t) pc (tc_listening t) (tc_backlog t) (tc_serverConn t)
  (tc_done t) (tc_failed t) (tc_next t) (tc_foreign t).
Definition set_listening v t := MkTestConn (tc_main t) (tc_accept t) v (tc_backlog t) (tc_serverConn t)
  (tc_done t) (tc_failed t) (tc_next t) (tc_foreign t).
Definition set_serverConn v backlog t := MkTestConn (tc_main t) (tc_accept t) (tc_listening t) backlog v
  (tc_done t) (tc_failed t) (tc_next t) (tc_foreign t).
Definition set_done t := MkTestConn (tc_main t) (tc_accept t) (tc_listening t) (tc_backlog t) (tc_serverConn t)
  true (tc_failed t) (tc_next t) (tc_foreign t).
Definition Fatalf t := MkTestConn (tc_main t) (tc_accept t) (tc_listening t) (tc_backlog t) (tc_serverConn t)
  (tc_done t) true (tc_next t) (tc_foreign t).

(** A connection is established with the listening socket. *)
Definition establish (foreign : bool) (t : TestConn) : TestConn :=
  MkTestConn (tc_main t) (tc_accept t) (tc_listening t) (tc_backlog t ++ [tc_next t]) (tc_serverConn t)
    (tc_done t) (tc_failed t) (S (tc_next t)) (tc_foreign t || foreign).

(** [l, err := net.Listen("tcp", "127.0.0.1:0")], and the goroutine is started. *)
Definition TestConn_listen (err : bool) (t : TestConn) : option TestConn :=
  match tc_main t with
  | MListen =>
      Some (if err then Fatalf (set_main MExit t) else set_main MDial (set_accept AAccept (set_listening true t)))
  | _ => None
  end.

(** [clientConn, err := net.Dial("tcp", l.Addr().String())] *)
Definition TestConn_dial (err : bool) (t : TestConn) : option TestConn :=
  match tc_main t with
  | MDial =>
      if err then Some (Fatalf (set_main MExit t))
      else if tc_listening t then Some (set_main (MWait (tc_next t)) (establish false t))
      else None
  | _ => None
  end.

(** [serverConn, err = l.Accept()]; the error calls [tb.Fatalf], which like the
    return runs the deferred calls. *)
Definition TestConn_accept (err : bool) (t : TestConn) : option TestConn :=
  match tc_accept t with
  | AAccept =>
      if err then Some (Fatalf (set_accept ACloseListener t))
      else match tc_backlog t with
           | c :: backlog => Some (set_accept ACloseListener (set_serverConn (Some c) backlog t))
           | [] => None
           end
  | _ => None
  end.

(** [defer func() { _ = l.Close() }()], then [defer close(doneCh)] *)
Definition TestConn_close_listener (t : TestConn) : option TestConn :=
  match tc_accept t with
  | ACloseListener => Some (set_accept ACloseDone (set_listening false t))
  | _ => None
  end.
Definition TestConn_close_done (t : TestConn) : option TestConn :=
  match tc_accept t with ACloseDone => Some (set_accept AEnd (set_done t)) | _ => None end.

(** [<-doneCh; return clientConn, serverConn] *)
Definition TestConn_wait (t : TestConn) : option TestConn :=
  match tc_main t with
  | MWait c => if tc_done t then Some (set_main (MReturn c (tc_serverConn t)) t) else None
  | _ => None
  end.

Inductive TestStep : Type :=
| CListen (err : bool)
| CDial (err : bool)
| CAccept (err : bool)
| CCloseListener
| CCloseDone
| CWait
| CForeign.               (* another process connects to the port *)

Definition testconn_step (l : TestStep) (t : TestConn) : option TestConn :=
  match l with
  | CListen err => TestConn_listen err t
  | CDial err => TestConn_dial err t
  | CAccept err => TestConn_accept err t
  | CCloseListener => TestConn_close_listener t
  | CCloseDone => TestConn_close_done t
  | CWait => TestConn_wait t
  | CForeign => if tc_listening t then Some (establish true t) else None
  end.

#[export] Instance testconn_lts : LTS TestConn TestStep := {| lts_init t := t = TestConn_start; lts_step := testconn_step |}.

(** [TestRPCConn]: the connections net/rpc's client is made on and its server
    serves, once [TestConn] has returned. *)
Definition TestRPCConn (t : TestConn) : option (nat * option nat) :=
  match tc_main t with MReturn clientConn serverConn => Some (clientConn, serverConn) | _ => None end.

Definition code_step (l : TestStep) : bool := match l with CForeign => false | _ => true end.

(** ** Lemmas *)

(** The connection the test's goroutine has made, if any. *)
Definition dialled (t : TestConn) : option nat :=
  match tc_main t with MWait c | MReturn c _ => Some c | _ => None end.

(** Where the accepted connection stands: who has it, and who still will. *)
Record conn_inv (t : TestConn) : Prop := MkConnInv {
  in_accept : match tc_accept t with
              | AIdle => tc_main t = MListen ∨ (tc_main t = MExit ∧ tc_failed t = true)
              | _ => tc_main t ≠ MListen
              end;
  in_listening : tc_listening t = match tc_accept t with AAccept | ACloseListener => true | _ => false end;
  in_done : tc_done t = match tc_accept t with AEnd => true | _ => false end;
  in_server : match tc_accept t with
              | AIdle | AAccept => tc_serverConn t = None
              | _ => is_Some (tc_serverConn t) ∨ tc_failed t = true
              end;
  in_alone : tc_foreign t = false → tc_backlog t ++ option_list (tc_serverConn t) = option_list (dialled t);
  in_backlog : tc_accept t = AAccept → is_Some (dialled t) → tc_backlog t ≠ [];
  in_return : ∀ c s, tc_main t = MReturn c s → tc_done t = true ∧ s = tc_serverConn t
}.

Lemma testconn_step_inv l t t' : testconn_step l t = Some t' → conn_inv t → conn_inv t'.
Proof.
  intros H [Ha Hl Hd Hs Ho Hb Hr]. destruct t as [main acc lis back srv done failed next foreign]. simpl in *.
  destruct l as [err|err|err| | | |]; simpl in H.
  - unfold TestConn_listen in H. simpl in H. destruct main; try done. injection H as <-.
    destruct acc; try done. destruct err; constructor; simpl; try done; [by right|by intros _ []].
  - unfold TestConn_dial in H. simpl in H. destruct main; try done.
    destruct err; [|destruct lis; [|done]]; injection H as <-; constructor; simpl; try done.
    + by destruct acc; try done; destruct Ha as [|[]].
    + by destruct acc; try done; right.
    + by destruct acc; try done; destruct Ha as [|[]].
    + rewrite orb_false_r. intros Hf. specialize (Ho Hf). simpl in Ho.
      apply app_eq_nil in Ho as [-> ->]. done.
    + intros _ _. by destruct back.
  - unfold TestConn_accept in H. simpl in H. destruct acc; try done.
    destruct err; [|destruct back as [|c back]; [done|]]; injection H as <-; constructor; simpl; try done.
    + by right.
    + eauto.
    + intros Hf. specialize (Ho Hf). subst srv. simpl in Ho. rewrite app_nil_r in Ho.
      unfold dialled in *. simpl in *. destruct main; simpl in *; try done; injection Ho as -> ->; done.
    + intros c' s' Hm. destruct (Hr _ _ Hm). congruence.
  - unfold TestConn_close_listener in H. simpl in H. destruct acc; try done. injection H as <-. by constructor.
  - unfold TestConn_close_done in H. simpl in H. destruct acc; try done. injection H as <-.
    constructor; simpl; try done. intros c s Hm. by destruct (Hr _ _ Hm).
  - unfold TestConn_wait in H. simpl in H. destruct main; try done. destruct done; [|done]. injection H as <-.
    constructor; simpl; try done; [by destruct acc|]. by intros ? ? [= <- <-].
  - destruct lis; [|done]. injection H as <-. constructor; simpl; try done; [by rewrite orb_true_r|].
    intros _ _. by destruct back.
Qed.

Lemma testconn_reachable_inv t : reachable t → conn_inv t.
Proof.
  apply (invariant_reachable conn_inv).
  - intros s ->. constructor; simpl; try done. by left.
  - intros l s s' Hi Hs. by eapply testconn_step_inv.
Qed.

(** The steps the two goroutines still have. *)
Definition testconn_rank (t : TestConn) : nat :=
  match tc_main t with MListen => 6 | MDial => 2 | MWait _ => 1 | MReturn _ _ | MExit => 0 end +
  match tc_accept t with AAccept => 3 | ACloseListener => 2 | ACloseDone => 1 | AIdle | AEnd => 0 end.

Lemma testconn_rank_decreases l t t' :
  conn_inv t → code_step l = true → testconn_step l t = Some t' → (testconn_rank t' < testconn_rank t)%nat.
Proof.
  intros Hi Hc H. pose proof (in_accept _ Hi) as Ha. clear Hi.
  destruct l as [err|err|err| | | |]; try done; simpl in H.
  - unfold TestConn_listen in H. destruct t as [[] []]; simplify_eq/=. destruct err; unfold testconn_rank; simpl; lia.
  - unfold TestConn_dial in H. destruct t as [[] ? []]; simplify_eq/=; destruct err; simplify_eq/=;
      unfold testconn_rank; simpl; lia.
  - unfold TestConn_accept in H. destruct t as [? [] ? []]; simplify_eq/=; destruct err; simplify_eq/=;
      unfold testconn_rank; simpl; lia.
  - unfold TestConn_close_listener in H. destruct t as [? []]; simplify_eq/=. unfold testconn_rank; simpl; lia.
  - unfold TestConn_close_done in H. destruct t as [? []]; simplify_eq/=. unfold testconn_rank; simpl; lia.
  - unfold TestConn_wait in H. destruct t as [[] ? ? ? ? []]; simplify_eq/=. unfold testconn_rank; simpl; lia.
Qed.

Lemma testconn_bounded ls t t' :
  conn_inv t → forallb code_step ls = true → exec ls t = Some t' → (length ls + testconn_rank t' ≤ testconn_rank t)%nat.
Proof.
  revert t. induction ls as [|l ls IH]; intros t Hi; simpl; [by intros _ [= <-]|].
  intros [Hl Hls]%andb_true_iff. destruct (testconn_step l t) as [t1|] eqn:Hs; simpl; [|done]. intros He.
  pose proof (IH t1 (testconn_step_inv _ _ _ Hs Hi) Hls He).
  pose proof (testconn_rank_decreases _ _ _ Hi Hl Hs). lia.
Qed.

(** ** [TestGRPCConn] *)

Inductive ConnectivityState : Type := ConnIdle | ConnConnecting | ConnReady | ConnTransientFailure | ConnShutdown.
#[export] Instance ConnectivityState_eq_dec : EqDecision ConnectivityState.
Proof. solve_decision. Defined.

(** What gRPC answers: the [i]-th [GetState], and whether the [i]-th
    [WaitForStateChange] saw a change before the context ended. *)
Record GRPCTestAnswers : Type := MkGRPCTestAnswers {
  ga_Listen : option error;
  ga_NewClient : option error;
  ga_GetState : nat → ConnectivityState;
  ga_WaitForStateChange : nat → bool
}.

Inductive TestEvent : Type :=
| TListen | TRegister | TServe | TNewClient | TConnect | TCloseConn | TCloseListener.

Definition emit (e : TestEvent) : GoM (list TestEvent) error unit := modify (λ evs, evs ++ [e]).

Section grpc_conn.
Variable A : GRPCTestAnswers.

Definition not_ready : error := Errorf "grpc connection did not reach Ready: last state %s, err %v" [].

(** The loop of [TestGRPCConn]: [None] when it still waits after [fuel] rounds;
    otherwise whether it left by [break] or through [Fatalf]. *)
Fixpoint wait_ready (fuel i : nat) : option (GoM (list TestEvent) error unit) :=
  match fuel with
  | O => None
  | S fuel' =>
      if decide (ga_GetState A i = ConnReady) then Some (ret tt)
      else if ga_WaitForStateChange A i then wait_ready fuel' (S i)
      else Some (emit TCloseConn;; emit TCloseListener;; fail not_ready)
  end.

Definition TestGRPCConn (fuel : nat) : option (list TestEvent * res error unit) :=
  match ga_Listen A with
  | Some e => Some ([], Err e)
  | None =>
      match ga_NewClient A with
      | Some e => Some ((emit TListen;; emit TRegister;; emit TServe;; fail e) [])
      | None =>
          wait ← wait_ready fuel 0;
          Some ((emit TListen;; emit TRegister;; emit TServe;; emit TNewClient;; emit TConnect;;
                 wait;; emit TCloseListener) [])
      end
  end.

Lemma wait_ready_ends n i :
  ga_WaitForStateChange A (i + n) = false →
  (wait_ready (S n) i = Some (ret tt) ∧ ∃ j, (i ≤ j ≤ i + n)%nat ∧ ga_GetState A j = ConnReady) ∨
  (wait_ready (S n) i = Some (emit TCloseConn;; emit TCloseListener;; fail not_ready) ∧
   ∃ j, (i ≤ j ≤ i + n)%nat ∧ ga_WaitForStateChange A j = false ∧
     ∀ k, (i ≤ k ≤ j)%nat → ga_GetState A k ≠ ConnReady).
Proof.
  revert i. induction n as [|n IH]; intros i Hn.
  - rewrite Nat.add_0_r in Hn. simpl. case_decide as Hr; [left; split; [done|]; exists i; split; [lia|done]|].
    rewrite Hn. right. split; [done|]. exists i. split_and!; [lia|lia|done|]. intros k Hk. by replace k with i by lia.
  - change (wait_ready (S (S n)) i) with
      (if decide (ga_GetState A i = ConnReady) then Some (ret tt)
       else if ga_WaitForStateChange A i then wait_ready (S n) (S i)
       else Some (emit TCloseConn;; emit TCloseListener;; fail not_ready)).
    case_decide as Hr; [left; split; [done|]; exists i; split; [lia|done]|].
    destruct (ga_WaitForStateChange A i) eqn:Hw.
    + rewrite <- Nat.add_succ_comm in Hn. destruct (IH (S i) Hn) as [(-> & j & Hj & Hs)|(-> & j & Hj & Hs & Hk)].
      * left. split; [done|]. exists j. split; [lia|done].
      * right. split; [done|]. exists j. split_and!; [lia|lia|done|]. intros k Hk'.
        destruct (decide (k = i)) as [->|]; [done|]. apply Hk. lia.
    + right. split; [done|]. exists i. split_and!; [lia|lia|done|]. intros k Hk. by replace k with i by lia.
Qed.
End grpc_conn.

(** ** [TestPluginRPCConn] and [TestPluginGRPCConn] *)

(** The readers given in place of the server's empty buffers. *)
Record TestOptions : Type := MkTestOptions {
  ServerStdout : option (list ReadResult);
  ServerStderr : option (list ReadResult)
}.

(** Reading a [new(bytes.Buffer)]. *)
Definition empty_buffer : list ReadResult := [MkRead [] (Some EOF)].

Definition test_streams (opts : option TestOptions) : list ReadResult * list ReadResult :=
  match opts with
  | None => (empty_buffer, empty_buffer)
  | Some o => (default empty_buffer (ServerStdout o), default empty_buffer (ServerStderr o))
  end.

Section plugin_conn.
Context `{!MapRange string} `{!MapRange Z}.
Variable L : LifeEnv.

(** The server serves its end of [TestConn]'s pair in a goroutine; the client is
    built on the other end. *)
Definition TestPluginRPCConn (ps : PluginSet) (opts : option TestOptions)
    : GoM World error (ClientProtocol * ServerProtocol * (list ReadResult * list ReadResult)) :=
  let streams := test_streams opts in
  client <- NewRPCClient L ps;;
  ret (client, Serve.RPCServer ps, streams).

(** [&ClientConfig{Plugins: ps, GRPCBrokerMultiplex: multiplex}] *)
Definition test_config (multiplex : bool) (ps : PluginSet) : ClientConfig :=
  MkClientConfig (MkHandshake 0 "" "") ps None None None None None None false 0 0 0 None None None None None 0
    false multiplex false None 0 0 false.

(** [&Client{address: ln.Addr(), protocol: ProtocolGRPC, config: ...}] *)
Definition test_client (a : Addr) (multiplex : bool) (ps : PluginSet) : Client :=
  MkClient (test_config multiplex ps) false (Some a) None None ProtocolGRPC false 0 false false 0
    (MkUnixSocket "" "" "") MuxerUnset.

Definition TestPluginGRPCConn (A : OSAnswers) (env : environ) (multiplex : bool) (ps : PluginSet)
    : GoM World error (ClientProtocol * ServerProtocol * ServeListener) :=
  ln <- on_host_os (serverListener A env (MkUnixSocket "" "" ""));;
  let listener := if multiplex then MuxListener ln else Plain ln in
  let server := Serve.GRPCServer ps None multiplex in
  answers (server_Init server);;
  modify (upd_client (λ _, test_client (Listener_Addr ln) multiplex ps));;
  grpcClient <- newGRPCClient L;;
  ret (grpcClient, server, listener).
End plugin_conn.

Lemma getGRPCMuxer_test L `{!MapRange Z} a multiplex ps w w' muxed :
  w_client w = test_client a multiplex ps → getGRPCMuxer L w = (w', Ret muxed) →
  muxed = multiplex ∧ w_os w' = w_os w ∧ config (w_client w') = test_config multiplex ps ∧
  address (w_client w') = Some a.
Proof.
  intros Hc. unfold getGRPCMuxer. rewrite Hc. simpl. destruct multiplex; simpl.
  - unfold NewGRPCClientMuxer, answers, bind, modify. destruct (le_Dial L); simpl; [done|].
    destruct (le_yamux_Client L); simpl; [done|]. intros [= <- <-]. simpl. by rewrite Hc.
  - intros [= <- <-]. by rewrite Hc.
Qed.

(** ** Properties *)

(** [TestConn]'s two goroutines take at most six steps, whatever the network
    answers; the caller is never left waiting; and when it returns, the listener
    is closed and, unless another process used the port, the two connections are
    the ends of one: the server's is missing only in a test marked as failed. *)
Theorem TestConn_connects t :
  reachable t →
  (∀ ls t', forallb code_step ls = true → exec ls t = Some t' → (length ls ≤ testconn_rank t ≤ 6)%nat) ∧
  (∀ c, tc_main t = MWait c → ∃ l t', code_step l = true ∧ l ≠ CAccept true ∧ testconn_step l t = Some t') ∧
  (∀ c s, tc_main t = MReturn c s →
     tc_listening t = false ∧ (s = None → tc_failed t = true) ∧ (tc_foreign t = false → s = None ∨ s = Some c)).
Proof.
  intros Hr. pose proof (testconn_reachable_inv t Hr) as Hi. split_and!.
  - intros ls t' Hown He. pose proof (testconn_bounded ls t t' Hi Hown He). split; [lia|].
    pose proof (in_accept _ Hi). unfold testconn_rank. destruct (tc_main t), (tc_accept t); (lia || done).
  - intros c Hm. destruct Hi as [Ha Hl Hd Hs _ Hb _]. rewrite Hm in *. destruct (tc_accept t) eqn:Hacc.
    + by destruct Ha as [|[]].
    + destruct (tc_backlog t) eqn:Hbl; [destruct Hb; [done|unfold dialled; by rewrite Hm|done]|].
      eexists (CAccept false), _. split_and!; [done|done|]. simpl. unfold TestConn_accept. by rewrite Hacc, Hbl.
    + eexists CCloseListener, _. split_and!; [done|done|]. simpl. unfold TestConn_close_listener. by rewrite Hacc.
    + eexists CCloseDone, _. split_and!; [done|done|]. simpl. unfold TestConn_close_done. by rewrite Hacc.
    + eexists CWait, _. split_and!; [done|done|]. simpl. unfold TestConn_wait. by rewrite Hm, Hd.
  - intros c s Hm. destruct Hi as [_ Hl Hd Hs Ho _ Hret]. destruct (Hret _ _ Hm) as [Hdone ->].
    rewrite Hd in Hdone. destruct (tc_accept t); try done. split_and!; [done| |].
    + intros Hn. rewrite Hn in Hs. by destruct Hs as [[]|].
    + intros Hf. specialize (Ho Hf). unfold dialled in Ho. rewrite Hm in Ho. simpl in Ho.
      destruct (tc_serverConn t) as [d|]; [right|by left]. destruct (tc_backlog t) as [|x [|]]; simpl in Ho; congruence.
Qed.

(** A failed [Accept] calls [tb.Fatalf] in its own goroutine, which does not
    stop the test: [TestConn] returns a nil connection to its caller, and
    [TestRPCConn] serves it. *)
Theorem TestConn_nil_server :
  ∃ t, exec [CListen false; CDial false; CAccept true; CCloseListener; CCloseDone; CWait] TestConn_start = Some t ∧
    tc_main t = MReturn 0 None ∧ TestRPCConn t = Some (0%nat, None).
Proof. eexists. split; [vm_compute; reflexivity|]. split; reflexivity. Qed.

(** When [Dial] fails, nothing closes the listener: it stays open with the
    goroutine in [Accept], which only a failing [Accept] can end. *)
Theorem TestConn_leaks_listener :
  ∃ t, exec [CListen false; CDial true] TestConn_start = Some t ∧ tc_main t = MExit ∧ tc_listening t = true ∧
    ∀ l, code_step l = true → l ≠ CAccept true → testconn_step l t = None.
Proof. eexists. split_and!; [reflexivity|done|done|]. by intros [[]|[]|[]| | | |]. Qed.

(** [TestGRPCConn] ends: its context bounds the waiting, so that some
    [WaitForStateChange] reports the end of the context, and with as many rounds
    as came before it the helper has returned.  It returns normally only after
    the connection was seen ready, with the listener closed and the connection
    open; if the connection never gets ready, both are closed. *)
Theorem TestGRPCConn_ends A n :
  ga_Listen A = None → ga_NewClient A = None → ga_WaitForStateChange A n = false →
  (TestGRPCConn A (S n) =
     Some ([TListen; TRegister; TServe; TNewClient; TConnect; TCloseListener], Ret tt) ∧
   ∃ j, (j ≤ n)%nat ∧ ga_GetState A j = ConnReady) ∨
  (TestGRPCConn A (S n) =
     Some ([TListen; TRegister; TServe; TNewClient; TConnect; TCloseConn; TCloseListener], Err not_ready) ∧
   ∃ j, (j ≤ n)%nat ∧ ga_WaitForStateChange A j = false ∧ ∀ k, (k ≤ j)%nat → ga_GetState A k ≠ ConnReady).
Proof.
  intros Hl Hc Hw. unfold TestGRPCConn. rewrite Hl, Hc.
  destruct (wait_ready_ends A n 0 Hw) as [(-> & j & Hj & Hs)|(-> & j & Hj & Hs & Hk)].
  - left. split; [done|]. exists j. split; [lia|done].
  - right. split; [done|]. exists j. split_and!; [lia|done|]. intros k Hkj. apply Hk. lia.
Qed.

(** [TestPluginGRPCConn] connects what it was asked for: the returned client
    dispenses the server's plugins, over a multiplexer exactly when one was
    asked for, every one of them could be registered, and the client's address
    is the one the server listens on. *)
Theorem TestPluginGRPCConn_connects `{!MapRange string} `{!MapRange Z} L A env multiplex ps w w' c s ln :
  TestPluginGRPCConn L A env multiplex ps w = (w', Ret (c, s, ln)) →
  ∃ l o, serverListener A env (MkUnixSocket "" "" "") (w_os w) = (o, Ret l) ∧ w_os w' = o ∧
    c = GRPCClient ps multiplex ∧ s = Serve.GRPCServer ps None multiplex ∧ server_Init s = None ∧
    ln = (if multiplex then MuxListener l else Plain l) ∧ address (w_client w') = Some (Listener_Addr l).
Proof.
  unfold TestPluginGRPCConn, on_host_os, bind at 1.
  destruct (serverListener A env _ (w_os w)) as [o [l|e|p]] eqn:Hln; [|done|done]. intros H. exists l, o.
  set (server := Serve.GRPCServer ps None multiplex) in *.
  unfold answers, bind at 1 in H. destruct (server_Init server) eqn:Hinit; [done|]. simpl in H.
  unfold bind at 1, modify in H. unfold newGRPCClient, answers in H.
  unfold bind at 2 in H. unfold bind at 1 in H. destruct (le_grpc_NewClient L); [done|]. simpl in H.
  unfold bind at 1, modify in H. unfold bind at 1 in H.
  destruct (getGRPCMuxer L _) as [w1 [muxed|e|p]] eqn:Hm; [|done|done].
  apply (getGRPCMuxer_test L (Listener_Addr l) multiplex ps) in Hm as (-> & Hos & Hcfg & Ha); [|done].
  unfold newGRPCStdioClient, bind in H. destruct (le_StreamStdio L); try done;
    injection H as <- <- <- <-; rewrite Hcfg; by split_and!.
Qed.

(** ** Concrete instances *)

Definition ex_testconn_steps : list TestStep :=
  [CListen false; CDial false; CAccept false; CCloseListener; CCloseDone; CWait].
Definition ex_testconn : TestConn := default TestConn_start (exec ex_testconn_steps TestConn_start).
Lemma ex_testconn_reachable : reachable ex_testconn.
Proof.
  apply (exec_reachable ex_testconn_steps TestConn_start); [by apply reachable_init|vm_compute; reflexivity].
Qed.

Lemma TestConn_connects_witness :
  tc_main ex_testconn = MReturn 0 (Some 0%nat) ∧ tc_listening ex_testconn = false.
Proof.
  split; [reflexivity|].
  destruct (TestConn_connects ex_testconn ex_testconn_reachable) as (_ & _ & H).
  by apply (H 0%nat (Some 0%nat)).
Defined.

(** A connection that becomes ready in the third round. *)
Definition ex_grpc_test : GRPCTestAnswers :=
  MkGRPCTestAnswers None None (λ i, if decide (i = 2)%nat then ConnReady else ConnConnecting) (λ i, bool_decide (i < 5)%nat).
Lemma TestGRPCConn_ends_witness :
  TestGRPCConn ex_grpc_test 6 =
    Some ([TListen; TRegister; TServe; TNewClient; TConnect; TCloseListener], Ret tt).
Proof.
  destruct (TestGRPCConn_ends ex_grpc_test 5) as [[H _]|[H _]]; [reflexivity|reflexivity|reflexivity|exact H|].
  vm_compute in H. discriminate.
Defined.

Definition ex_test_conn (multiplex : bool) : World * res error (ClientProtocol * ServerProtocol * ServeListener) :=
  TestPluginGRPCConn (ex_life StreamOK None true) ex_os ∅ multiplex (ex_set true) ex_new.
Definition ex_test_listener : ServeListener :=
  MuxListener (UnixRmListener (MkRmListener (MkAddr "unix" "/plugin123") "/plugin123")).
Lemma TestPluginGRPCConn_connects_witness :
  ∃ w' ln, ex_test_conn true = (w', Ret (GRPCClient (ex_set true) true, Serve.GRPCServer (ex_set true) None true, ln)) ∧
    is_Some (address (w_client w')).
Proof.
  exists (ex_test_conn true).1, ex_test_listener.
  assert (H : ex_test_conn true = ((ex_test_conn true).1, Ret (GRPCClient (ex_set true) true,
    Serve.GRPCServer (ex_set true) None true, ex_test_listener)))
    by (vm_compute; reflexivity).
  split; [exact H|].
  destruct (TestPluginGRPCConn_connects (ex_life StreamOK None true) ex_os ∅ true (ex_set true) ex_new
    _ _ _ _ H) as (l & o & _ & _ & _ & _ & _ & _ & Ha). rewrite Ha. by eexists.
Defined.
