(* ===== verification/ServerInit.v ===== *)
(** * Initialising the gRPC server

    [GRPCServer.Init] of grpc_server.go in full: the grpc server with its
    credentials, the health, reflection, broker, controller and stdio services,
    the broker and the goroutines, and the plugins; [newGRPCStdioServer]; the
    graceful-stop timeout of grpc_controller.go; [NetRPCUnsupportedPlugin] of
    plugin.go.  [Serve] uses [server_Init], which is the error of [Init];
    the theorems show that the two agree and what a server that [Serve] announces
    offers.  What a plugin's own [GRPCServer] method registers is an argument. *)

From S2P Require Import Prelude GoStd Config ClientData Handshake Negotiate Listener Serve.

(** ** Data *)

(** A service on the grpc server. *)
Inductive Service : Type :=
| Health
| Reflection
| BrokerService
| ControllerService
| StdioService
| PluginService (name : string).
#[export] Instance Service_eq_dec : EqDecision Service.
Proof. solve_decision. Defined.

Inductive ServerOption : Type := Creds (c : TLSConfig).

(** The [*grpc.Server] that is being set up: its options, the registered
    services, and the services the health check reports as SERVING. *)
Record GrpcServer : Type := MkGrpcServer {
  gs_opts : list ServerOption;
  gs_services : list Service;
  gs_serving : list string
}.

(** [newGRPCBroker]'s arguments. *)
Record BrokerArgs : Type := MkBrokerArgs {
  ba_tls : option TLSConfig;
  ba_unixSocketCfg : UnixSocketConfig;
  ba_addrTranslator : bool;
  ba_muxer : bool
}.

(** The goroutines that [Init] starts. *)
Inductive Goroutine : Type := BrokerRun | CopyStdout | CopyStderr.

(** The fields of the receiver that [Init] assigns, and its goroutines. *)
Record InitState : Type := MkInit {
  in_server : option GrpcServer;
  in_broker : option BrokerArgs;
  in_stdioServer : bool;
  in_goroutines : list Goroutine
}.

Definition set_in_server (g : GrpcServer) (s : InitState) : InitState :=
  MkInit (Some g) (in_broker s) (in_stdioServer s) (in_goroutines s).

(** A server as [Serve] constructs it, before [Init]. *)
Definition uninitialised : InitState := MkInit None None false [].

(** The name under which the health check answers. *)
Definition GRPCServiceName : string := "plugin".

(** [DefaultGRPCServer]: a server with the options it is given. *)
Definition DefaultGRPCServer (opts : list ServerOption) : GrpcServer := MkGrpcServer opts [] [].

(** ** Operations *)

(** A service is registered on [s.server]. *)
Definition register (svc : Service) (s : InitState) : InitState :=
  match in_server s with
  | Some g => set_in_server (MkGrpcServer (gs_opts g) (gs_services g ++ [svc]) (gs_serving g)) s
  | None => s
  end.

(** The health check reports [name] as serving. *)
Definition SetServingStatus (name : string) (s : InitState) : InitState :=
  match in_server s with
  | Some g => set_in_server (MkGrpcServer (gs_opts g) (gs_services g) (name :: gs_serving g)) s
  | None => s
  end.

(** [newGRPCStdioServer]: one goroutine per stream; then the field. *)
Definition newGRPCStdioServer (s : InitState) : InitState :=
  MkInit (in_server s) (in_broker s) true (in_goroutines s ++ [CopyStdout; CopyStderr]).

(** The broker is created and its [Run] started. *)
Definition start_broker (a : BrokerArgs) (s : InitState) : InitState :=
  MkInit (in_server s) (Some a) (in_stdioServer s) (in_goroutines s ++ [BrokerRun]).

Section Init.
Context `{!MapRange string}.
(** The user's factory for the grpc server and what each plugin registers. *)
Variable Server : list ServerOption → GrpcServer.
Variable registers : Plugin → list Service.

(** The loop over [s.Plugins]: a plugin of the other protocol or a failing
    registration ends it. *)
Fixpoint init_plugins (l : list (string * Plugin)) : GoM InitState error unit :=
  match l with
  | [] => ret tt
  | (k, p) :: l' =>
      IF negb (is_GRPCPlugin p) RETURN Errorf "%q is not a GRPC-compatible plugin" [k];;
      match GRPCServer_err p with
      | Some e => fail (Wrapf "error registering %q: %w" [k] e)
      | None => modify (λ s, foldl (λ s svc, register svc s) s (registers p));; init_plugins l'
      end
  end.

Definition Init (env : environ) (Plugins : PluginSet) (TLS : option TLSConfig) (muxer : bool)
    : GoM InitState error unit :=
  let opts := match TLS with Some c => [Creds c] | None => [] end in
  modify (set_in_server (Server opts));;
  modify (λ s, register Health (SetServingStatus GRPCServiceName s));;
  modify (register Reflection);;
  modify (register BrokerService);;
  modify (start_broker (MkBrokerArgs TLS (unixSocketConfigFromEnv env) false muxer));;
  modify (register ControllerService);;
  modify newGRPCStdioServer;;
  modify (register StdioService);;
  init_plugins (range (default ∅ Plugins)).

End Init.

(** ** What [Init] does *)

Section registrable.
Context `{!MapRange string}.

(** A plugin that [Init] can register. *)
Definition registrable (p : Plugin) : Prop := is_GRPCPlugin p = true ∧ GRPCServer_err p = None.

(** The loop succeeds when, and only when, every plugin can be registered. *)
Lemma register_plugins_None l :
  register_plugins l = None ↔ Forall (λ kp, registrable kp.2) l.
Proof.
  unfold registrable. induction l as [|[k p] l IH]; simpl; [by split|].
  rewrite Forall_cons, <- IH. simpl.
  destruct (is_GRPCPlugin p), (GRPCServer_err p); naive_solver.
Qed.

Lemma range_registrable (m : gmap string Plugin) :
  Forall (λ kp, registrable kp.2) (range m) ↔ map_Forall (λ _, registrable) m.
Proof.
  rewrite range_perm, map_Forall_to_list. by apply Forall_iff; intros [].
Qed.

End registrable.

Section spec.
Context `{!MapRange string}.
Variable Server : list ServerOption → GrpcServer.
Variable registers : Plugin → list Service.

(** The services on the server, in the order of registration. *)
Definition services (s : InitState) : list Service := from_option gs_services [] (in_server s).

Lemma services_register svc s :
  is_Some (in_server s) → services (register svc s) = services s ++ [svc].
Proof. unfold services, register. by intros [g ->]. Qed.

Lemma register_frame svc s :
  in_broker (register svc s) = in_broker s ∧ in_goroutines (register svc s) = in_goroutines s ∧
  in_stdioServer (register svc s) = in_stdioServer s ∧
  gs_opts <$> in_server (register svc s) = gs_opts <$> in_server s ∧
  gs_serving <$> in_server (register svc s) = gs_serving <$> in_server s.
Proof. unfold register. destruct (in_server s) eqn:Hs; simpl; by rewrite ?Hs. Qed.

(** Registering services touches nothing else. *)
Record same_but_services (s s' : InitState) : Prop := MkSame {
  ss_broker : in_broker s' = in_broker s;
  ss_goroutines : in_goroutines s' = in_goroutines s;
  ss_stdio : in_stdioServer s' = in_stdioServer s;
  ss_opts : gs_opts <$> in_server s' = gs_opts <$> in_server s;
  ss_serving : gs_serving <$> in_server s' = gs_serving <$> in_server s
}.
#[export] Instance same_but_services_preorder : PreOrder same_but_services.
Proof. split; [by split|]. intros ??? [] []. split; congruence. Qed.

Lemma register_all svcs s :
  same_but_services s (foldl (λ s svc, register svc s) s svcs) ∧
  (is_Some (in_server s) → services (foldl (λ s svc, register svc s) s svcs) = services s ++ svcs).
Proof.
  revert s. induction svcs as [|svc svcs IH]; intros s; simpl; [split; [done|by rewrite app_nil_r]|].
  destruct (register_frame svc s) as (H1 & H2 & H3 & H4 & H5). destruct (IH (register svc s)) as [Hs Hv].
  split; [etrans; [|exact Hs]; by split|]. intros Hi. rewrite Hv.
  - by rewrite services_register, <- app_assoc by done.
  - apply (fmap_is_Some gs_opts). rewrite H4. by apply fmap_is_Some.
Qed.

(** The loop: its error is the one [Serve] reacts to, it only registers, and
    when it succeeds the services of every plugin are there. *)
Lemma init_plugins_spec l s :
  let '(s', r) := init_plugins registers l s in
  same_but_services s s' ∧
  match register_plugins l with
  | Some e => r = Err e
  | None => r = Ret tt ∧ (is_Some (in_server s) → services s' = services s ++ l.*2 ≫= registers)
  end.
Proof.
  revert s. induction l as [|[k p] l IH]; intros s; simpl.
  { split; [done|]. split; [done|]. by rewrite app_nil_r. }
  destruct (is_GRPCPlugin p); simpl; [|by split].
  destruct (GRPCServer_err p) as [e|]; simpl; [by split|]. unfold bind, modify.
  destruct (register_all (registers p) s) as [Hs Hv].
  set (s1 := foldl _ s _) in *. specialize (IH s1). destruct (init_plugins registers l s1) as [s' r].
  destruct IH as [Hs' Hr]. split; [by etrans|]. destruct (register_plugins l); [done|].
  destruct Hr as [-> Hr]. split; [done|]. intros Hi. rewrite Hr, Hv by
    (try done; apply (fmap_is_Some gs_opts); rewrite (ss_opts _ _ Hs); by apply fmap_is_Some).
  by rewrite <- app_assoc.
Qed.

(** Everything that [Init] sets up before the plugins register. *)
Definition prepared (env : environ) (TLS : option TLSConfig) (muxer : bool) : InitState :=
  let g := Server (match TLS with Some c => [Creds c] | None => [] end) in
  MkInit (Some (MkGrpcServer (gs_opts g)
      (gs_services g ++ [Health; Reflection; BrokerService; ControllerService; StdioService])
      (GRPCServiceName :: gs_serving g)))
    (Some (MkBrokerArgs TLS (unixSocketConfigFromEnv env) false muxer)) true
    [BrokerRun; CopyStdout; CopyStderr].

Lemma Init_prepared env Plugins TLS muxer :
  Init Server registers env Plugins TLS muxer uninitialised =
  init_plugins registers (range (default ∅ Plugins)) (prepared env TLS muxer).
Proof. unfold prepared. cbn. by rewrite <- !app_assoc. Qed.

(** What a server offers that [Init] has set up with these arguments: its
    credentials are the configured TLS, the host's services and its health check
    are there, so are those of every plugin, and the broker has the same TLS and
    the plugin's socket settings and runs. *)
Definition offers (env : environ) (Plugins : PluginSet) (TLS : option TLSConfig) (muxer : bool)
    (s : InitState) : Prop :=
  gs_opts <$> in_server s = Some (match TLS with Some c => [Creds c] | None => [] end) ∧
  [Health; Reflection; BrokerService; ControllerService; StdioService] ⊆ services s ∧
  (∀ name p svc, default ∅ Plugins !! name = Some p → svc ∈ registers p → svc ∈ services s) ∧
  GRPCServiceName ∈ from_option gs_serving [] (in_server s) ∧
  in_broker s = Some (MkBrokerArgs TLS (unixSocketConfigFromEnv env) false muxer) ∧
  in_stdioServer s = true ∧
  in_goroutines s = [BrokerRun; CopyStdout; CopyStderr].

Hypothesis Server_opts : ∀ opts, gs_opts (Server opts) = opts.

Lemma Init_spec env Plugins TLS muxer :
  let '(s, r) := Init Server registers env Plugins TLS muxer uninitialised in
  same_but_services (prepared env TLS muxer) s ∧
  match server_Init (GRPCServer Plugins TLS muxer) with
  | Some e => r = Err e
  | None => r = Ret tt ∧ offers env Plugins TLS muxer s
  end.
Proof.
  rewrite Init_prepared. simpl.
  pose proof (init_plugins_spec (range (default ∅ Plugins)) (prepared env TLS muxer)) as H.
  destruct (init_plugins _ _ _) as [s r]. destruct H as [Hs H]. split; [done|].
  destruct (register_plugins _); [done|]. destruct H as [-> Hv]. split; [done|].
  specialize (Hv ltac:(by eexists)). destruct Hs as [Hb Hg Hd Ho Hsv]. unfold offers. split_and!.
  - rewrite Ho. simpl. by rewrite Server_opts.
  - rewrite Hv. unfold services. simpl. intros svc. rewrite !elem_of_app. tauto.
  - intros name p svc Hp Hin. rewrite Hv. apply elem_of_app. right.
    apply list_elem_of_bind. exists p. split; [done|].
    apply list_elem_of_fmap. exists (name, p). split; [done|].
    rewrite range_perm. by apply elem_of_map_to_list.
  - destruct (in_server s) as [g|]; simplify_eq/=. rewrite Hsv. apply elem_of_cons. by left.
  - by rewrite Hb.
  - by rewrite Hd.
  - by rewrite Hg.
Qed.
End spec.

(** ** Theorems *)

Section theorems.
Context `{!MapRange Z}.

(** [Init] succeeds exactly when every plugin of the set speaks gRPC and registers
    without an error, whatever the order in which the map is iterated. *)
Theorem Init_order_irrelevant (R1 R2 : MapRange string) Server registers env Plugins TLS muxer :
  let run R := (@Init R Server registers env Plugins TLS muxer uninitialised).2 in
  (run R1 = Ret tt ↔ run R2 = Ret tt) ∧
  (run R1 = Ret tt ↔ map_Forall (λ _, registrable) (default ∅ Plugins)).
Proof.
  assert (H : ∀ R : MapRange string, (@Init R Server registers env Plugins TLS muxer uninitialised).2 = Ret tt ↔
      map_Forall (λ _, registrable) (default ∅ Plugins)).
  { intros R. rewrite Init_prepared, <- (@range_registrable R), <- register_plugins_None.
    pose proof (init_plugins_spec registers (range (default ∅ Plugins)) (prepared Server env TLS muxer)) as Hi.
    destruct (init_plugins _ _ _) as [s r]. destruct Hi as [_ Hi]. simpl.
    destruct (register_plugins _); naive_solver. }
  intros run. unfold run. by rewrite !H.
Qed.

(** C11: A gRPC plugin that serves, serves everything: when [Serve] gets as far as
    serving over gRPC, the plugin set is the negotiated one, [Init] has
    succeeded, and the server offers the broker, the controller, the standard
    output, the health check under the name that [Ping] asks for, and the services
    of every plugin of the set, with the credentials of the broker. *)
Theorem Serve_offers_all `{!MapRange string} Server registers SA o opts ps TLS muxer :
  (∀ os, gs_opts (Server os) = os) →
  sw_serving (Serve SA (start_world o opts)).1 = Some (GRPCServer ps TLS muxer) →
  (protocolVersion (sa_env SA) opts).2.2 = ps ∧
  let '(s, r) := Init Server registers (sa_env SA) ps TLS muxer uninitialised in
  r = Ret tt ∧ offers registers (sa_env SA) ps TLS muxer s.
Proof.
  intros Hopts Hserv.
  assert (Hb : sw_serving (Serve_body SA (start_world o opts)).1 = Some (GRPCServer ps TLS muxer)).
  { revert Hserv. unfold Serve. destruct (Serve_body SA _) as [w [[]|[|c]|p]]; simpl;
      destruct (run_deferred_frame SA w) as (_ & _ & Hs & _); repeat case_match; simpl in *; congruence. }
  clear Hserv. pose proof (Serve_body_outcome SA (start_world o opts)) as H.
  change (sw_opts (start_world o opts)) with opts in H.
  destruct (protocolVersion (sa_env SA) opts).2 as [[v pt] ps'] eqn:Hpv.
  destruct H as [[_ _ _ Hs _]|(l & w1 & Hs1 & Heq)]; [by rewrite Hs in Hb|]. rewrite Heq in Hb. clear Heq.
  destruct (Serve_rest_outcome SA v pt ps' l w1) as [[_ _ _ Hs _]|(sv & cert & tls & w3 & w4 & Hbuild & Hi & _ & Hw)].
  { rewrite Hs in Hb. destruct Hs1 as [_ _ _ Hs1 _]. by rewrite Hs1 in Hb. }
  rewrite Hw in Hb. destruct (await_end_frame SA (Some sv) (announce SA v pt l cert w4)) as (_ & _ & Hs & _).
  rewrite Hs in Hb. injection Hb as ->. split.
  - simpl. unfold build_server, bind, modify, ret, lift in Hbuild. repeat case_match; by simplify_eq/=.
  - pose proof (Init_spec Server registers Hopts (sa_env SA) ps TLS muxer) as H.
    destruct (Init _ _ _ _ _ _ _) as [s r]. destruct H as [_ H]. by rewrite Hi in H.
Qed.

(** An [Init] that fails has started its goroutines all the same: the broker's
    [Run] and the two readers of the plugin's output, which [Serve] does not stop
    when it returns. *)
Theorem Init_failure_leaves_goroutines `{!MapRange string} Server registers env Plugins TLS muxer e :
  server_Init (GRPCServer Plugins TLS muxer) = Some e →
  let '(s, r) := Init Server registers env Plugins TLS muxer uninitialised in
  r = Err e ∧ is_Some (in_broker s) ∧ in_goroutines s = [BrokerRun; CopyStdout; CopyStderr].
Proof.
  simpl. intros He. rewrite Init_prepared.
  pose proof (init_plugins_spec registers (range (default ∅ Plugins)) (prepared Server env TLS muxer)) as H.
  destruct (init_plugins _ _ _) as [s r]. destruct H as [[Hb Hg _ _ _] H]. rewrite He in H.
  split; [done|]. rewrite Hb, Hg. split; [by eexists|done].
Qed.
End theorems.

(** ** plugin.go: [NetRPCUnsupportedPlugin] *)

(** A plugin that embeds it and implements [GRPCPlugin]: both net/rpc methods
    fail with the same error. *)
Definition NetRPCUnsupportedPlugin (impl : string) (server_err client_err : option error) : Plugin :=
  let e := Some (Errorf "net/rpc plugin protocol not supported" []) in
  MkPlugin impl true e e server_err client_err.

(** ** grpc_controller.go: the graceful-stop timeout *)

(** [gracefulStopTimeoutNs] after [init], and its setter and getter. *)
Definition gracefulStopTimeoutNs : Z := 100 * 1000000.
Definition SetGracefulStopTimeout (d : Z) (gracefulStopTimeoutNs : Z) : Z := d.
Definition gracefulStopTimeout (gracefulStopTimeoutNs : Z) : Z := gracefulStopTimeoutNs.

(** ** Witnesses *)

(** The broker is given the TLS configuration too, and plugins register. *)
Definition ex_registers (p : Plugin) : list Service := [PluginService (plugin_impl p)].

Example Serve_offers_all_witness :
  let '(s, r) := Init DefaultGRPCServer ex_registers ex_env (Some {[ "kv" := ex_grpc ]}) None false uninitialised in
  r = Ret tt ∧ offers ex_registers ex_env (Some {[ "kv" := ex_grpc ]}) None false s.
Proof.
  apply (Serve_offers_all DefaultGRPCServer ex_registers (ex_answers ex_env) (MkOS ∅ []) (ex_serve_cfg None)
    (Some {[ "kv" := ex_grpc ]}) None false); [reflexivity|vm_compute; reflexivity].
Defined.

(** A plugin for net/rpc only makes [Init] fail. *)
Definition ex_netrpc_only : PluginSet := Some {[ "kv" := MkPlugin "kv" false None None None None ]}.

Example Init_failure_leaves_goroutines_witness :
  in_goroutines (Init DefaultGRPCServer ex_registers ex_env ex_netrpc_only None false uninitialised).1 =
  [BrokerRun; CopyStdout; CopyStderr].
Proof.
  assert (He : server_Init (GRPCServer ex_netrpc_only None false) =
    Some (Errorf "%q is not a GRPC-compatible plugin" ["kv"])) by (vm_compute; reflexivity).
  pose proof (Init_failure_leaves_goroutines DefaultGRPCServer ex_registers ex_env ex_netrpc_only None false _ He) as H.
  destruct (Init _ _ _ _ _ _ _) as [s r]. apply H.
Defined.
