(* ===== verification/StreamingExample.v ===== *)
(** * The streaming example

    examples/streaming: a plugin that reads and writes a file, whose contents
    travel over gRPC in chunks.  The interface [Streamer] (shared/interface.go)
    has two implementations: [FileStreamer] in the plugin (plugin/plugin.go) and,
    in the host, [StreamerGRPCClient] (shared/client.go), which talks to
    [StreamerGRPCServer] (shared/server.go) around any other implementation. *)

From S2P Require Import Prelude GoStd Config.

(** ** The interface *)

(** A method returns its results or panics.  [Read] returns bytes and an error
    at once, as Go functions do. *)
Notation Method S A := (S → S * res Empty_set A).

Class Streamer (S : Type) : Type := {
  st_Configure : string → Z → Method S (option error);
  st_Read : Method S (list Z * option error);
  st_Write : list Z → Method S (option error)
}.

(** ** Chunks *)

(** [bytes.Buffer.Next]: at most [n] bytes; slicing with a negative length
    panics. *)
Definition Next (n : Z) (buf : list Z) : res Empty_set (list Z * list Z) :=
  if decide (n < 0) then Panic "slice bounds out of range"
  else Ret (take (Z.to_nat n) buf, drop (Z.to_nat n) buf).

(** The loop [for chunk := buf.Next(n); len(chunk) > 0; chunk = buf.Next(n)] of
    both sides, which sends each chunk: the messages that were sent, and the
    error of the [Send] that failed.  [None] when [fuel] does not suffice. *)
Fixpoint send_chunks (fuel : nat) (Send : nat → list Z → option error) (n : Z) (i : nat) (buf : list Z)
    : option (res Empty_set (list (list Z) * option error)) :=
  match fuel with
  | O => None
  | S fuel' =>
      match Next n buf with
      | Ret (chunk, rest) =>
          if bool_decide (chunk = []) then Some (Ret ([], None))
          else match Send i chunk with
               | Some e => Some (Ret ([], Some e))
               | None =>
                   r ← send_chunks fuel' Send n (S i) rest;
                   Some (match r with
                         | Ret (msgs, e) => Ret (chunk :: msgs, e)
                         | other => other
                         end)
               end
      | Panic w => Some (Panic w)
      | Err e => Some (Err e)
      end
  end.

(** The loop as the code runs it: every round consumes a byte. *)
Definition chunk_loop (Send : nat → list Z → option error) (n : Z) (buf : list Z)
    : res Empty_set (list (list Z) * option error) :=
  default (Ret ([], None)) (send_chunks (S (length buf)) Send n 0 buf).

(** ** The network *)

(** gRPC's answers: the error of a call, of opening a stream, of the [i]-th
    [Send]; after how many messages a stream breaks, and with which error; the
    limit on a message's size; the status error the host sees for the error of a
    handler; what [CloseAndRecv] returns for a handler that ended without a
    response. *)
Record Net : Type := MkNet {
  nt_call : option error;
  nt_open : option error;
  nt_send : nat → option error;
  nt_cut : option (nat * error);
  nt_limit : Z;
  nt_status : error → error;
  nt_no_response : option error
}.

(** The protobuf encoding of a message with one bytes field: tag, length,
    bytes. *)
Definition varint_size (k : Z) : Z := Z.log2 k / 7 + 1.
Definition wire_size (chunk : list Z) : Z :=
  1 + varint_size (Z.of_nat (length chunk)) + Z.of_nat (length chunk).

Definition too_large : error := ErrExt "trying to send message larger than max".
Definition net_Send (N : Net) (i : nat) (chunk : list Z) : option error :=
  if decide (nt_limit N < wire_size chunk) then Some too_large else nt_send N i.

(** What the receiver of a stream gets: the messages, and the error its [Recv]
    returns after them; [io.EOF] is the regular end. *)
Definition received (N : Net) (msgs : list (list Z)) (ending : error) : list (list Z) * error :=
  match nt_cut N with
  | Some (n, e) => if decide (n ≤ length msgs)%nat then (take n msgs, e) else (msgs, ending)
  | None => (msgs, ending)
  end.

(** ** Host and plugin: [StreamerGRPCClient] and [StreamerGRPCServer] *)

(** The client's [chunkByteSize], the server's [chunkSize] and its [Impl]. *)
Record Remote (S : Type) : Type := MkRemote {
  rm_chunkByteSize : Z;
  rm_chunkSize : Z;
  rm_Impl : S
}.
Arguments MkRemote {S}.
Arguments rm_chunkByteSize {S}.
Arguments rm_chunkSize {S}.
Arguments rm_Impl {S}.

Section remote.
Context {S : Type} {impl : Streamer S}.
Variable N : Net.

Definition on_Impl {A} (m : Method S A) : Method (Remote S) A := λ r,
  let '(s, x) := m (rm_Impl r) in (MkRemote (rm_chunkByteSize r) (rm_chunkSize r) s, x).

(** The handlers of the plugin. *)
Definition StreamerServer_Configure (path : string) (chunkSize : Z) : Method (Remote S) (option error) := λ r,
  on_Impl (st_Configure path chunkSize) (MkRemote (rm_chunkByteSize r) chunkSize (rm_Impl r)).

Definition StreamerServer_Read : Method (Remote S) (list (list Z) * option error) := λ r,
  match on_Impl st_Read r with
  | (r', Ret (b, None)) => (r', chunk_loop (net_Send N) (rm_chunkSize r') b)
  | (r', Ret (_, Some e)) => (r', Ret ([], Some e))
  | (r', Panic w) => (r', Panic w)
  | (r', Err e) => (r', Err e)
  end.

Definition StreamerServer_Write (msgs : list (list Z) * error) : Method (Remote S) (option error) := λ r,
  if decide (msgs.2 = EOF) then on_Impl (st_Write (concat msgs.1)) r else (r, Ret (Some msgs.2)).

(** The methods of the host. *)
Definition StreamerClient_Configure (path : string) (chunkSize : Z) : Method (Remote S) (option error) := λ r,
  let r := MkRemote chunkSize (rm_chunkSize r) (rm_Impl r) in
  match nt_call N with
  | Some e => (r, Ret (Some e))
  | None =>
      match StreamerServer_Configure path chunkSize r with
      | (r', Ret status) => (r', Ret (nt_status N <$> status))
      | (r', other) => (r', other)
      end
  end.

(** The loop around [readClient.Recv]. *)
Definition receive_all (msgs : list (list Z) * error) : list Z * option error :=
  (concat msgs.1, if decide (msgs.2 = EOF) then None else Some msgs.2).

Definition StreamerClient_Read : Method (Remote S) (list Z * option error) := λ r,
  match nt_open N with
  | Some e => (r, Ret ([], Some e))
  | None =>
      match StreamerServer_Read r with
      | (r', Ret (msgs, status)) => (r', Ret (receive_all (received N msgs (default EOF (nt_status N <$> status)))))
      | (r', Panic w) => (r', Panic w)
      | (r', Err e) => (r', Err e)
      end
  end.

(** A [Send] that fails ends the call, and the handler, whose [Recv] fails
    without an end of the stream, writes nothing; otherwise [CloseAndRecv] returns the
    handler's error, or what gRPC makes of a handler without a response. *)
Definition StreamerClient_Write (b : list Z) : Method (Remote S) (option error) := λ r,
  match nt_open N with
  | Some e => (r, Ret (Some e))
  | None =>
      match chunk_loop (net_Send N) (rm_chunkByteSize r) b with
      | Ret (msgs, Some e) => (r, Ret (Some e))
      | Ret (msgs, None) =>
          match StreamerServer_Write (received N msgs EOF) r with
          | (r', Ret status) =>
              let err := match status with Some e => Some (nt_status N e) | None => nt_no_response N end in
              (r', Ret (if bool_decide (err = Some EOF) then None else err))
          | (r', other) => (r', other)
          end
      | Panic w => (r, Panic w)
      | Err e => (r, Err e)
      end
  end.

#[export] Instance remote_streamer : Streamer (Remote S) := {|
  st_Configure := StreamerClient_Configure;
  st_Read := StreamerClient_Read;
  st_Write := StreamerClient_Write
|}.
End remote.

(** ** The plugin: [FileStreamer] *)

(** The operating system's answers: why a file cannot be opened, how many bytes
    a failing write takes, why reading fails after how many bytes, and the error
    of [Close]. *)
Record FileAnswers : Type := MkFileAnswers {
  fa_open : string → option error;
  fa_write : option (nat * error);
  fa_read : option (nat * error);
  fa_close : option error
}.

(** The plugin's [path] and the files. *)
Record FileStreamer : Type := MkFileStreamer { fs_path : string; fs_files : gmap string (list Z) }.

Section file.
Variable A : FileAnswers.

Definition FileStreamer_Configure (path : string) (_ : Z) : Method FileStreamer (option error) := λ s,
  (MkFileStreamer path (fs_files s), Ret None).

(** The deferred function assigns the error of [Close] to a variable that is no
    result any more. *)
Definition FileStreamer_Read : Method FileStreamer (list Z * option error) := λ s,
  match fa_open A (fs_path s), fs_files s !! fs_path s with
  | Some e, _ => (s, Ret ([], Some e))
  | None, None => (s, Ret ([], Some (ErrExt "no such file or directory")))
  | None, Some b =>
      (s, Ret match fa_read A with
              | Some (n, e) => (take n b, Some e)
              | None => (b, None)
              end)
  end.

(** [os.O_RDWR|os.O_CREATE|os.O_TRUNC], then one [Write]. *)
Definition FileStreamer_Write (b : list Z) : Method FileStreamer (option error) := λ s,
  match fa_open A (fs_path s) with
  | Some e => (s, Ret (Some e))
  | None =>
      match fa_write A with
      | Some (n, e) => (MkFileStreamer (fs_path s) (<[fs_path s := take n b]> (fs_files s)), Ret (Some e))
      | None => (MkFileStreamer (fs_path s) (<[fs_path s := b]> (fs_files s)), Ret None)
      end
  end.

#[export] Instance file_streamer : Streamer FileStreamer := {|
  st_Configure := FileStreamer_Configure;
  st_Read := FileStreamer_Read;
  st_Write := FileStreamer_Write
|}.
End file.

(** ** Lemmas *)

(** The loop ends with every byte sent, in chunks of the right size, when no
    [Send] fails. *)
Lemma send_chunks_all Send n i buf fuel :
  0 < n → (length buf < fuel)%nat →
  (∀ j chunk, (1 ≤ length chunk)%nat → Z.of_nat (length chunk) ≤ n → Send j chunk = None) →
  ∃ msgs, send_chunks fuel Send n i buf = Some (Ret (msgs, None)) ∧ concat msgs = buf ∧
    Forall (λ m, (1 ≤ length m)%nat ∧ Z.of_nat (length m) ≤ n) msgs.
Proof.
  intros Hn Hfuel HSend. revert i buf Hfuel. induction fuel as [|fuel IH]; intros i buf Hfuel; [lia|]. simpl.
  unfold Next. rewrite decide_False by lia. case_bool_decide as Hc.
  - exists []. split_and!; [done| |done]. destruct buf; [done|].
    destruct (Z.to_nat n) eqn:?; [lia|done].
  - set (chunk := take (Z.to_nat n) buf) in *.
    assert (1 ≤ length chunk)%nat by (destruct chunk; [done|simpl; lia]).
    assert (Z.of_nat (length chunk) ≤ n) by (unfold chunk; rewrite length_take; lia).
    rewrite HSend by done. destruct (IH (S i) (drop (Z.to_nat n) buf)) as (msgs & Hs & Hm & Hf).
    { rewrite length_drop. unfold chunk in *. rewrite length_take in *. lia. }
    rewrite Hs. simpl. exists (chunk :: msgs). split_and!; [done| |by constructor].
    simpl. rewrite Hm. apply take_drop.
Qed.

Lemma chunk_loop_all Send n buf :
  0 < n → (∀ j chunk, (1 ≤ length chunk)%nat → Z.of_nat (length chunk) ≤ n → Send j chunk = None) →
  ∃ msgs, chunk_loop Send n buf = Ret (msgs, None) ∧ concat msgs = buf ∧
    Forall (λ m, (1 ≤ length m)%nat ∧ Z.of_nat (length m) ≤ n) msgs.
Proof.
  intros Hn HSend. destruct (send_chunks_all Send n 0 buf (S (length buf)) Hn) as (msgs & Hs & Hm); [lia|done|].
  exists msgs. unfold chunk_loop. by rewrite Hs.
Qed.

(** Whatever the sizes and failures, the loop ends, and what it sent is a prefix
    of the data. *)
Lemma send_chunks_ends Send n i buf fuel :
  (length buf < fuel)%nat →
  ∃ r, send_chunks fuel Send n i buf = Some r ∧ ∀ msgs e, r = Ret (msgs, e) → concat msgs `prefix_of` buf.
Proof.
  revert i buf. induction fuel as [|fuel IH]; intros i buf Hfuel; [lia|]. simpl.
  unfold Next. case_decide as Hneg; [by eexists|]. case_bool_decide as Hc.
  { eexists. split; [done|]. intros msgs e [= <- <-]. apply prefix_nil. }
  destruct (Send i _).
  { eexists. split; [done|]. intros msgs e' [= <- <-]. apply prefix_nil. }
  destruct (IH (S i) (drop (Z.to_nat n) buf)) as (r & Hr & Hp).
  { rewrite length_drop. destruct buf; [by rewrite take_nil in Hc|]. destruct (Z.to_nat n); simpl in *; [done|lia]. }
  rewrite Hr. simpl. eexists. split; [done|]. intros msgs e. destruct r as [[ms e']| |]; [|done|done].
  intros [= <- <-]. simpl. rewrite <- (take_drop (Z.to_nat n) buf) at 2. apply prefix_app. by eapply Hp.
Qed.

(** A network on which nothing fails and messages of [n] bytes fit the limit;
    gRPC reports the errors of handlers as status errors, which are not
    [io.EOF].  Nothing is assumed of its answer to a missing response. *)
Record good (N : Net) (n : Z) : Prop := MkGood {
  gd_call : nt_call N = None;
  gd_open : nt_open N = None;
  gd_send : ∀ i, nt_send N i = None;
  gd_cut : nt_cut N = None;
  gd_limit : 1 + varint_size n + n ≤ nt_limit N;
  gd_status : ∀ e, nt_status N e ≠ EOF
}.

(** What the host's [Write] returns when the plugin's succeeded: the handler sends
    no response, and the host passes on what [CloseAndRecv] makes of that, unless
    it is [io.EOF]. *)
Definition write_reports (N : Net) : option error :=
  if bool_decide (nt_no_response N = Some EOF) then None else nt_no_response N.

Lemma varint_size_mono k n : k ≤ n → varint_size k ≤ varint_size n.
Proof. intros H. unfold varint_size. pose proof (Z.log2_le_mono k n H). pose proof (Z.div_le_mono (Z.log2 k) (Z.log2 n) 7). lia. Qed.

Lemma net_Send_good N n i chunk : good N n → Z.of_nat (length chunk) ≤ n → net_Send N i chunk = None.
Proof.
  intros [] Hlen. unfold net_Send, wire_size. pose proof (varint_size_mono _ _ Hlen). rewrite decide_False by lia. done.
Qed.

Lemma received_good N n msgs ending : good N n → received N msgs ending = (msgs, ending).
Proof. intros []. unfold received. by rewrite gd_cut0. Qed.

Section transparent.
Context {S : Type} {impl : Streamer S} (N : Net) (n : Z).
Hypothesis HN : good N n.

Lemma Client_Configure_good path r s' x :
  st_Configure path n (rm_Impl r) = (s', Ret x) →
  StreamerClient_Configure N path n r = (MkRemote n n s', Ret (nt_status N <$> x)).
Proof.
  intros H. unfold StreamerClient_Configure, StreamerServer_Configure, on_Impl. rewrite (gd_call _ _ HN). simpl.
  by rewrite H.
Qed.

Hypothesis Hn : 0 < n.

Lemma Client_Write_good b r s' x :
  rm_chunkByteSize r = n → st_Write b (rm_Impl r) = (s', Ret x) →
  StreamerClient_Write N b r =
    (MkRemote n (rm_chunkSize r) s', Ret match x with Some e => Some (nt_status N e) | None => write_reports N end).
Proof.
  intros Hr H. unfold StreamerClient_Write. rewrite (gd_open _ _ HN), Hr.
  destruct (chunk_loop_all (net_Send N) n b Hn) as (msgs & -> & Hm & _).
  { intros j chunk _ Hc. by apply (net_Send_good _ n). }
  rewrite (received_good _ n) by done. unfold StreamerServer_Write, on_Impl. simpl. rewrite Hm, H, Hr.
  destruct x as [e|]; [|done]. simpl.
  rewrite bool_decide_false; [done|]. intros [= He]. by apply (gd_status _ _ HN) in He.
Qed.

Lemma Client_Read_good r s' b x :
  rm_chunkSize r = n → st_Read (rm_Impl r) = (s', Ret (b, x)) →
  StreamerClient_Read N r =
    (MkRemote (rm_chunkByteSize r) n s', Ret match x with None => (b, None) | Some e => ([], Some (nt_status N e)) end).
Proof.
  intros Hr H. unfold StreamerClient_Read, StreamerServer_Read, on_Impl. rewrite (gd_open _ _ HN), H.
  destruct x as [e|]; simpl.
  - rewrite Hr, (received_good _ n) by done. unfold receive_all. simpl. rewrite decide_False; [done|apply HN].
  - rewrite Hr. destruct (chunk_loop_all (net_Send N) n b Hn) as (msgs & -> & Hm & _).
    { intros j chunk _ Hc. by apply (net_Send_good _ n). }
    rewrite (received_good _ n) by done. unfold receive_all. simpl. by rewrite Hm.
Qed.
End transparent.

(** ** Properties *)

(** The loop over the chunks always ends, and sends a prefix of the data; with a
    positive chunk size and a network on which messages of that size fit, it
    sends all of it in non-empty messages within the limit. *)
Theorem chunk_loop_spec N n buf :
  (∃ r, send_chunks (S (length buf)) (net_Send N) n 0 buf = Some r ∧ chunk_loop (net_Send N) n buf = r ∧
     ∀ msgs e, r = Ret (msgs, e) → concat msgs `prefix_of` buf) ∧
  (0 < n → good N n →
   ∃ msgs, chunk_loop (net_Send N) n buf = Ret (msgs, None) ∧ concat msgs = buf ∧
     Forall (λ m, m ≠ [] ∧ wire_size m ≤ nt_limit N) msgs).
Proof.
  split.
  - destruct (send_chunks_ends (net_Send N) n 0 buf (S (length buf))) as (r & Hr & Hp); [lia|].
    exists r. unfold chunk_loop. by rewrite Hr.
  - intros Hn HN. destruct (chunk_loop_all (net_Send N) n buf Hn) as (msgs & Hs & Hm & Hf).
    { intros j chunk _ Hc. by apply (net_Send_good _ n). }
    exists msgs. split_and!; [done|done|]. eapply Forall_impl; [exact Hf|]. simpl. intros m [H1 H2].
    split; [by destruct m; simpl in *; [lia|]|]. unfold wire_size. pose proof (varint_size_mono _ _ H2).
    pose proof (gd_limit _ _ HN). lia.
Qed.

(** C38: The host's [StreamerGRPCClient] does to the plugin's implementation what
    a direct call would, for every implementation of [Streamer]: over a network
    without failures and with a positive chunk size that fits the message limit,
    each method leaves the plugin's state as the plugin's own would, [Write]
    hands it exactly the bytes and [Read] returns exactly its bytes.  Errors of
    the plugin arrive as status errors, those of [Read] without bytes.  A
    [Write] that succeeded in the plugin is reported as gRPC answers a handler
    without a response, with [io.EOF] taken for success. *)
Theorem Streamer_transparent {S : Type} `{!Streamer S} N n (r : Remote S) :
  good N n → 0 < n →
  (∀ path s' x, st_Configure path n (rm_Impl r) = (s', Ret x) →
     st_Configure (Streamer := remote_streamer N) path n r = (MkRemote n n s', Ret (nt_status N <$> x))) ∧
  (rm_chunkByteSize r = n → rm_chunkSize r = n →
   (∀ b s' x, st_Write b (rm_Impl r) = (s', Ret x) →
      st_Write (Streamer := remote_streamer N) b r =
        (MkRemote n n s', Ret match x with Some e => Some (nt_status N e) | None => write_reports N end)) ∧
   (∀ s' b x, st_Read (rm_Impl r) = (s', Ret (b, x)) →
      st_Read (Streamer := remote_streamer N) r =
        (MkRemote n n s', Ret match x with None => (b, None) | Some e => ([], Some (nt_status N e)) end))).
Proof.
  intros HN Hn. split; [intros path s' x; by apply Client_Configure_good|]. intros H1 H2. split.
  - intros b s' x H. rewrite <- H2 at 2. by apply (Client_Write_good N n HN Hn).
  - intros s' b x H. rewrite <- H1 at 1. by apply (Client_Read_good N n HN Hn).
Qed.

(** C39: Configuring, writing and reading back through the host's client gives the
    bytes that were written, and they are in the file, whatever the state before
    and whatever [Write] reported for the response that its handler does not
    send. *)
Theorem streaming_roundtrip N A n path b r :
  good N n → 0 < n → fa_open A path = None → fa_write A = None → fa_read A = None →
  let I := remote_streamer (S := FileStreamer) (impl := file_streamer A) N in
  ∃ r1 r2, st_Configure (Streamer := I) path n r = (r1, Ret None) ∧
    st_Write (Streamer := I) b r1 = (r2, Ret (write_reports N)) ∧ st_Read (Streamer := I) r2 = (r2, Ret (b, None)) ∧
    fs_files (rm_Impl r2) = <[path := b]> (fs_files (rm_Impl r)).
Proof.
  intros HN Hn Ho Hw Hr I. destruct r as [cb cs [p fs]].
  set (s1 := MkFileStreamer path fs). set (s2 := MkFileStreamer path (<[path := b]> fs)).
  exists (MkRemote n n s1), (MkRemote n n s2). split_and!; [| | |done].
  - by apply (Client_Configure_good (impl := file_streamer A) N n HN path _ s1 None).
  - apply (Client_Write_good (impl := file_streamer A) N n HN Hn b (MkRemote n n s1) s2 None); [done|].
    simpl. unfold FileStreamer_Write. simpl. by rewrite Ho, Hw.
  - apply (Client_Read_good (impl := file_streamer A) N n HN Hn (MkRemote n n s2) s2 b None); [done|].
    simpl. unfold FileStreamer_Read. simpl. by rewrite Ho, lookup_insert_eq, Hr.
Qed.

(** A chunk size of zero, which [Configure] accepts, loses the data: [Write]
    sends nothing, the plugin truncates the file, and the host is told what it is
    told after a complete write. *)
Theorem streaming_zero_chunk N A path b r :
  good N 0 → fa_open A path = None → fa_write A = None →
  let I := remote_streamer (S := FileStreamer) (impl := file_streamer A) N in
  ∃ r1 r2, st_Configure (Streamer := I) path 0 r = (r1, Ret None) ∧
    st_Write (Streamer := I) b r1 = (r2, Ret (write_reports N)) ∧ fs_files (rm_Impl r2) !! path = Some [].
Proof.
  intros HN Ho Hw I. destruct r as [cb cs [p fs]].
  exists (MkRemote 0 0 (MkFileStreamer path fs)), (MkRemote 0 0 (MkFileStreamer path (<[path := []]> fs))).
  split_and!; [| |by simpl; rewrite lookup_insert_eq].
  - by apply (Client_Configure_good (impl := file_streamer A) N 0 HN path _ _ None).
  - simpl. unfold StreamerClient_Write, chunk_loop. rewrite (gd_open _ _ HN). simpl.
    rewrite (received_good _ 0) by done. unfold StreamerServer_Write, on_Impl. simpl.
    unfold FileStreamer_Write. simpl. by rewrite Ho, Hw.
Qed.

(** A negative one, which [Configure] accepts as well, makes the host panic. *)
Theorem streaming_negative_chunk {S : Type} `{!Streamer S} N n b (r : Remote S) :
  nt_open N = None → n < 0 → rm_chunkByteSize r = n →
  StreamerClient_Write N b r = (r, Panic "slice bounds out of range").
Proof.
  intros Ho Hn Hr. unfold StreamerClient_Write, chunk_loop. rewrite Ho, Hr. simpl. unfold Next.
  by rewrite decide_True.
Qed.

(** The error of [Close] is never reported, although a deferred function joins
    it to the result: the results are fixed before it runs. *)
Theorem FileStreamer_ignores_close A e b s :
  let A' := MkFileAnswers (fa_open A) (fa_write A) (fa_read A) e in
  FileStreamer_Write A' b s = FileStreamer_Write A b s ∧ FileStreamer_Read A' s = FileStreamer_Read A s.
Proof. done. Qed.

(** [StreamerGRPCServer.Write] returns without sending its response.  Where gRPC
    reports the missing response as an error other than [io.EOF], the plugin has
    written everything and the host reports a failure. *)
Theorem streaming_missing_response {S : Type} `{!Streamer S} N n b (r : Remote S) s' e :
  good N n → 0 < n → rm_chunkByteSize r = n → st_Write b (rm_Impl r) = (s', Ret None) →
  nt_no_response N = Some e → e ≠ EOF →
  StreamerClient_Write N b r = (MkRemote n (rm_chunkSize r) s', Ret (Some e)).
Proof.
  intros HN Hn Hr H He Hne. rewrite (Client_Write_good N n HN Hn b r s' None Hr H).
  unfold write_reports. rewrite He, bool_decide_false by congruence. done.
Qed.

(** ** Concrete instances *)

(** A network with room for the host's chunks, whose library reports a missing
    response as an error. *)
Definition ex_cardinality : error := ErrExt "cardinality violation".
Definition ex_net : Net := MkNet None None (λ _, None) None 1000 (λ e, Wrapf "rpc error: %w" [] e) (Some ex_cardinality).
Lemma ex_net_good : good ex_net 10.
Proof. split; simpl; done. Qed.
Definition ex_files : FileAnswers := MkFileAnswers (λ _, None) None None None.

Lemma streaming_roundtrip_witness :
  ∃ r1 r2, StreamerClient_Configure (impl := file_streamer ex_files) ex_net "myfile" 10 (MkRemote 0 0 (MkFileStreamer "" ∅)) = (r1, Ret None) ∧
    StreamerClient_Write (impl := file_streamer ex_files) ex_net (Z.of_nat <$> seq 0 26) r1 = (r2, Ret (Some ex_cardinality)) ∧
    StreamerClient_Read (impl := file_streamer ex_files) ex_net r2 = (r2, Ret (Z.of_nat <$> seq 0 26, None)).
Proof.
  destruct (streaming_roundtrip ex_net ex_files 10 "myfile" (Z.of_nat <$> seq 0 26) (MkRemote 0 0 (MkFileStreamer "" ∅))
    ex_net_good eq_refl eq_refl eq_refl eq_refl) as (r1 & r2 & H1 & H2 & H3 & _). exists r1, r2. auto.
Defined.

Lemma Streamer_transparent_witness :
  StreamerClient_Write (impl := file_streamer ex_files) ex_net [1; 2; 3] (MkRemote 10 10 (MkFileStreamer "f" ∅)) =
    (MkRemote 10 10 (MkFileStreamer "f" {[ "f" := [1; 2; 3] ]}), Ret (Some ex_cardinality)).
Proof.
  destruct (Streamer_transparent (Streamer0 := file_streamer ex_files) ex_net 10 (MkRemote 10 10 (MkFileStreamer "f" ∅))
    ex_net_good eq_refl) as [_ H]. destruct (H eq_refl eq_refl) as [Hw _].
  apply (Hw [1; 2; 3] (MkFileStreamer "f" {[ "f" := [1; 2; 3] ]}) None). reflexivity.
Defined.

Example ex_chunks : chunk_loop (net_Send ex_net) 10 (Z.of_nat <$> seq 0 26) =
  Ret ([Z.of_nat <$> seq 0 10; Z.of_nat <$> seq 10 10; Z.of_nat <$> seq 20 6], None).
Proof. reflexivity. Qed.
