(* ===== verification/KVExample.v ===== *)
(** * The key-value examples

    examples/grpc and examples/negotiated: the interface [KV], its file-backed
    implementations in the plugins, its clients and servers over gRPC and over
    net/rpc, and the hosts that use it. *)

From S2P Require Import Prelude GoStd Config Negotiate ClientData Handshake Listener Start Lifecycle RPC StreamingExample.

(** A line break of the source's string literals. *)
Definition newline : string := String (ascii_of_nat 10) "".

(** ** The interface and the plugins' implementations *)

Class KV (S : Type) : Type := {
  kv_Put : string → string → Method S (option error);
  kv_Get : string → Method S (string * option error)
}.

(** The files, and the system's answers: why a file cannot be written, or read. *)
Record FileSystem : Type := MkFileSystem {
  kf_files : gmap string string;
  kf_write : string → option error;
  kf_read : string → option error
}.

Definition os_WriteFile (name data : string) : Method FileSystem (option error) := λ s,
  match kf_write s name with
  | Some e => (s, Ret (Some e))
  | None => (MkFileSystem (<[name := data]> (kf_files s)) (kf_write s) (kf_read s), Ret None)
  end.

Definition os_ReadFile (name : string) : Method FileSystem (string * option error) := λ s,
  (s, Ret match kf_read s name, kf_files s !! name with
          | Some e, _ => ("", Some e)
          | None, None => ("", Some (ErrExt "no such file or directory"))
          | None, Some data => (data, None)
          end).

(** [fmt.Appendf(nil, "%s\n\nWritten from ...", value)] *)
Definition written (by_ : string) (value : string) : string := value +:+ newline +:+ newline +:+ "Written from " +:+ by_.

(** grpc/plugin-go-grpc and grpc/plugin-go-netrpc *)
Definition file_Put (by_ key value : string) : Method FileSystem (option error) :=
  os_WriteFile ("kv_" +:+ key) (written by_ value).
Definition file_Get (key : string) : Method FileSystem (string * option error) := os_ReadFile ("kv_" +:+ key).

Definition plugin_go_grpc : KV FileSystem := {| kv_Put := file_Put "plugin-go-grpc"; kv_Get := file_Get |}.
Definition plugin_go_netrpc : KV FileSystem := {| kv_Put := file_Put "plugin-go-netrpc"; kv_Get := file_Get |}.

(** negotiated/plugin-go: the versions sign what they write and what they read. *)
Definition version_Put (version key value : string) : Method FileSystem (option error) :=
  os_WriteFile ("kv_" +:+ key) (written ("plugin version " +:+ version) value +:+ newline).
Definition version_Get (version key : string) : Method FileSystem (string * option error) := λ s,
  match os_ReadFile ("kv_" +:+ key) s with
  | (s', Ret (_, Some e)) => (s', Ret ("", Some e))
  | (s', Ret (d, None)) => (s', Ret (d +:+ "Read by plugin version " +:+ version +:+ newline, None))
  | other => other
  end.

Definition negotiated_KV : KV FileSystem := {| kv_Put := version_Put "2"; kv_Get := version_Get "2" |}.
Definition negotiated_KVGRPC : KV FileSystem := {| kv_Put := version_Put "3"; kv_Get := version_Get "3" |}.

(** ** Over the wire *)

(** What a transport answers: why a request cannot be sent (for gRPC, a key that
    is no valid UTF-8), and the error the host sees for the error of a handler. *)
Record Wire : Type := MkWire {
  wi_call : string → option error;
  wi_status : error → error
}.

Section remote.
Context {S : Type} {impl : KV S}.
Variable N : Wire.

(** A call: the handler runs unless the request cannot be sent. *)
Definition call {A B} (key : string) (failed : error → B) (handler : Method S (A * option error)) (reply : A → B)
    : Method S B := λ s,
  match wi_call N key with
  | Some e => (s, Ret (failed e))
  | None =>
      match handler s with
      | (s', Ret (a, None)) => (s', Ret (reply a))
      | (s', Ret (_, Some e)) => (s', Ret (failed (wi_status N e)))
      | (s', Panic w) => (s', Panic w)
      | (s', Err e) => (s', Err e)
      end
  end.

Definition no_value (m : Method S (option error)) : Method S (unit * option error) := λ s,
  match m s with
  | (s', Ret e) => (s', Ret (tt, e))
  | (s', Panic w) => (s', Panic w)
  | (s', Err e) => (s', Err e)
  end.

(** shared/grpc.go: the request and the response are messages. *)
Record KVPutRequest : Type := MkKVPutRequest { put_Key : string; put_Value : string }.

Definition KVGRPCServer_Put (req : KVPutRequest) : Method S (unit * option error) :=
  no_value (kv_Put (put_Key req) (put_Value req)).
Definition KVGRPCServer_Get (req : string) : Method S (string * option error) := kv_Get req.

Definition KVGRPCClient_Put (key value : string) : Method S (option error) :=
  call key Some (KVGRPCServer_Put (MkKVPutRequest key value)) (λ _, None).
Definition KVGRPCClient_Get (key : string) : Method S (string * option error) :=
  call key (λ e, ("", Some e)) (KVGRPCServer_Get key) (λ v, (v, None)).

(** shared/rpc.go: the arguments of [Put] are a map of dynamically typed values;
    a failed assertion panics. *)
Inductive any : Type := AnyString (s : string) | AnyBytes (b : string).

Definition KVRPCServer_Put (args : gmap string any) : Method S (unit * option error) := λ s,
  match args !! "key", args !! "value" with
  | Some (AnyString key), Some (AnyBytes value) => no_value (kv_Put key value) s
  | _, _ => (s, Panic "interface conversion")
  end.
Definition KVRPCServer_Get (key : string) : Method S (string * option error) := kv_Get key.

Definition KVRPCClient_Put (key value : string) : Method S (option error) :=
  call key Some (KVRPCServer_Put {[ "key" := AnyString key; "value" := AnyBytes value ]}) (λ _, None).
Definition KVRPCClient_Get (key : string) : Method S (string * option error) :=
  call key (λ e, ("", Some e)) (KVRPCServer_Get key) (λ v, (v, None)).

Definition KV_over_grpc : KV S := {| kv_Put := KVGRPCClient_Put; kv_Get := KVGRPCClient_Get |}.
Definition KV_over_netrpc : KV S := {| kv_Put := KVRPCClient_Put; kv_Get := KVRPCClient_Get |}.
End remote.

(** ** The hosts *)

(** How a [main] or [run] ends: it returns, calls [os.Exit], or panics.  Only
    [os.Exit] skips the deferred calls. *)
Inductive Ending (A : Type) : Type := Returned (a : A) | Exited (code : Z) | Panicked (why : string).
Arguments Returned {A} a.
Arguments Exited {A} code.
Arguments Panicked {A} why.

Definition deferred {A} (f : World → World) (e : Ending A) (w : World) : World :=
  match e with Exited _ => w | _ => f w end.

Definition PluginNetRPC : string := "kv".
Definition PluginGRPC : string := "kv_grpc".

(** shared/interface.go: the plugins, told apart by whether they are GRPCPlugins.
    [KVGRPCPlugin] embeds a nil [plugin.Plugin]: its net/rpc methods, which none of
    the definitions here call, would panic. *)
Definition KVPlugin : Plugin := MkPlugin "KVPlugin" false None None None None.
Definition KVGRPCPlugin : Plugin := MkPlugin "KVGRPCPlugin" true None None None None.
Definition PluginMap : gmap string Plugin := {[ PluginGRPC := KVGRPCPlugin; PluginNetRPC := KVPlugin ]}.
Definition Handshake : HandshakeConfig := MkHandshake 1 "BASIC_PLUGIN" "hello".

Section host.
Context `{!MapRange Z} {S : Type} {impl : KV S}.
Variable L : LifeEnv.
Variable Dispense : ClientProtocol → string → option error.

(** The commands: the text printed, and how it ends; [os.Args[0]] and the like
    panic when the argument is missing. *)
Definition command (args : list string) (s : S) : S * string * Ending (option error) :=
  match args with
  | [] => (s, "", Panicked "index out of range")
  | cmd :: rest =>
      if decide (cmd = "get") then
        match rest with
        | [] => (s, "", Panicked "index out of range")
        | key :: _ =>
            match kv_Get key s with
            | (s', Ret (result, None)) => (s', result +:+ newline, Returned None)
            | (s', Ret (_, Some e)) => (s', "", Returned (Some e))
            | (s', Panic p) => (s', "", Panicked p)
            | (s', Err _) => (s', "", Panicked "")
            end
        end
      else if decide (cmd = "put") then
        match rest with
        | key :: value :: _ =>
            match kv_Put key value s with
            | (s', Ret err) => (s', "", Returned err)
            | (s', Panic p) => (s', "", Panicked p)
            | (s', Err _) => (s', "", Panicked "")
            end
        | _ => (s, "", Panicked "index out of range")
        end
      else (s, "", Returned (Some (Errorf "please only use 'get' or 'put', given: %q" [cmd])))
  end.

(** [run] of grpc/main.go up to its deferred call; [args] are the arguments
    after the program's name. *)
Definition run_body (KV_PROTO : string) (args : list string) (w : World) (s : S)
    : World * S * string * Ending (option error) :=
  match Client_Client L w with
  | (w', Err e) => (w', s, "", Returned (Some e))
  | (w', Panic p) => (w', s, "", Panicked p)
  | (w', Ret rpcClient) =>
      let pluginName := if decide (KV_PROTO = "netrpc") then Some PluginNetRPC
                        else if decide (KV_PROTO = "grpc") then Some PluginGRPC else None in
      match pluginName with
      | None => (w', s, "must set KV_PROTO to netrpc or grpc" +:+ newline, Exited 1)
      | Some name =>
          match Dispense rpcClient name with
          | Some e => (w', s, "", Returned (Some e))
          | None => let '(s', out, e) := command args s in (w', s', out, e)
          end
      end
  end.

Definition run (KV_PROTO : string) (args : list string) (w : World) (s : S)
    : World * S * string * Ending (option error) :=
  let '(w', s', out, e) := run_body KV_PROTO args w s in (deferred (Kill L) e w', s', out, e).
End host.

(** negotiated/main.go: the version the host offers. *)
Definition negotiated_plugins (KV_PROTO : string) : option (gmap Z PluginSet) :=
  if decide (KV_PROTO = "netrpc") then Some {[ 2 := Some {[ "kv" := KVPlugin ]} ]}
  else if decide (KV_PROTO = "grpc") then Some {[ 3 := Some {[ "kv" := KVGRPCPlugin ]} ]}
  else None.

(** negotiated/plugin-go: the versions the plugin serves. *)
Definition negotiated_serve : ServeConfig :=
  MkServeConfig Handshake None None
    (Some {[ 2 := Some {[ "kv" := KVPlugin ]}; 3 := Some {[ "kv" := KVGRPCPlugin ]} ]}) true None.
Definition negotiated_impl (version : Z) : KV FileSystem :=
  if decide (version = 3) then negotiated_KVGRPC else negotiated_KV.

(** ** Lemmas *)

Lemma call_Ret {S A B} N key (failed : error → B) (h : Method S (A * option error)) reply s s' a e :
  wi_call N key = None → h s = (s', Ret (a, e)) →
  call N key failed h reply s = (s', Ret match e with None => reply a | Some e => failed (wi_status N e) end).
Proof. intros Hk Hh. unfold call. rewrite Hk, Hh. by destruct e. Qed.

(** The type assertions of the net/rpc server hold for what its client sends. *)
Lemma KVRPCServer_Put_sent {S} `{!KV S} key value :
  KVRPCServer_Put {[ "key" := AnyString key; "value" := AnyBytes value ]} = KVGRPCServer_Put (MkKVPutRequest key value).
Proof. reflexivity. Qed.

Lemma negotiated_int_keys proto mc : negotiated_plugins proto = Some mc → int_keys mc.
Proof. unfold negotiated_plugins. intros H. repeat case_decide; simplify_eq; solve_int_keys. Qed.

Lemma negotiated_common proto mc :
  negotiated_plugins proto = Some mc →
  newest_common (server_versions negotiated_serve) mc (if decide (proto = "netrpc") then 2 else 3).
Proof.
  unfold negotiated_plugins. intros H. repeat case_decide; simplify_eq;
    (split; [split; eexists; reflexivity|]); intros v' [_ [ps Hc]]; apply lookup_singleton_Some in Hc as [<- _]; lia.
Qed.

Lemma run_deferred_Kill `{!MapRange Z} {S} `{!KV S} L Dispense proto args w s :
  let '(w', _, _, e) := run L Dispense proto args w s in
  w' = deferred (Kill L) e (Client_Client L w).1.
Proof.
  unfold run, run_body. destruct (Client_Client L w) as [w1 [p|e|q]]; simpl; [|done|done].
  repeat case_match; simplify_eq/=; done.
Qed.

(** ** Properties *)

(** The two transports are the same store: what a host sees of [KV] over gRPC and
    over net/rpc is equal, for every implementation and every state. *)
Theorem KV_transports_agree {S} `{!KV S} N key value s :
  kv_Put (KV := KV_over_grpc N) key value s = kv_Put (KV := KV_over_netrpc N) key value s ∧
  kv_Get (KV := KV_over_grpc N) key s = kv_Get (KV := KV_over_netrpc N) key s.
Proof. split; [|done]. simpl. unfold KVRPCClient_Put. by rewrite KVRPCServer_Put_sent. Qed.

(** What was put is got back through the wire, signed by the version of the
    plugin that wrote it and by the one that reads it; other keys keep their
    values. *)
Theorem KV_roundtrip N (writer reader : Z) key value s :
  wi_call N key = None → kf_write s ("kv_" +:+ key) = None → kf_read s ("kv_" +:+ key) = None →
  writer ∈ [2; 3] → reader ∈ [2; 3] →
  ∃ s', kv_Put (KV := KV_over_grpc (impl := negotiated_impl writer) N) key value s = (s', Ret None) ∧
    kv_Get (KV := KV_over_netrpc (impl := negotiated_impl reader) N) key s' =
      (s', Ret (written ("plugin version " +:+ Itoa writer) value +:+ newline +:+
                "Read by plugin version " +:+ Itoa reader +:+ newline, None)) ∧
    ∀ k, k ≠ "kv_" +:+ key → kf_files s' !! k = kf_files s !! k.
Proof.
  intros Hk Hw Hr HW HR.
  set (data := written ("plugin version " +:+ Itoa writer) value +:+ newline).
  set (s' := MkFileSystem (<["kv_" +:+ key := data]> (kf_files s)) (kf_write s) (kf_read s)).
  assert (kv_Put (KV := negotiated_impl writer) key value s = (s', Ret None)) as Hput.
  { unfold s', data. set_unfold in HW. destruct HW as [->|[->|[]]]; simpl; unfold version_Put, os_WriteFile; by rewrite Hw. }
  assert (kv_Get (KV := negotiated_impl reader) key s' =
    (s', Ret (data +:+ "Read by plugin version " +:+ Itoa reader +:+ newline, None))) as Hget.
  { set_unfold in HR. destruct HR as [->|[->|[]]]; simpl; unfold version_Get, os_ReadFile; simpl; by rewrite Hr, lookup_insert_eq. }
  exists s'. split_and!.
  - simpl. unfold KVGRPCClient_Put. rewrite (call_Ret N key _ _ _ s s' tt None Hk); [done|].
    unfold KVGRPCServer_Put, no_value. simpl. by rewrite Hput.
  - simpl. unfold KVRPCClient_Get, KVRPCServer_Get. erewrite (call_Ret N key _ _ _ s' s' _ None Hk Hget).
    unfold data. by rewrite string_app_assoc.
  - intros k Hne. simpl. by rewrite lookup_insert_ne.
Qed.

(** The negotiated example negotiates: the host's choice of [KV_PROTO] decides
    the version, whose transport and plugin set both sides end up with. *)
Theorem negotiated_example `{!MapRange string} `{!MapRange Z} proto mc env :
  negotiated_plugins proto = Some mc → Getenv env "PLUGIN_PROTOCOL_VERSIONS" = versions_env mc →
  let version := if decide (proto = "netrpc") then 2 else 3 in
  ∃ ps, (protocolVersion env negotiated_serve).2 =
      (version, if decide (proto = "netrpc") then ProtocolNetRPC else ProtocolGRPC, ps) ∧
    mc !! version = Some ps ∧ checkProtoVersion mc (Itoa version) = Ret (version, ps).
Proof.
  intros Hp Henv version. pose proof (negotiated_int_keys _ _ Hp) as Hk. pose proof (negotiated_common _ _ Hp) as Hc.
  destruct (protocolVersion_common env negotiated_serve mc _ Hk Henv Hc) as [pt Hv]. fold version in Hc, Hv.
  assert (∃ ps k p, mc !! version = Some ps ∧ server_versions negotiated_serve !! version = Some ps ∧
    homogeneous ps ∧ default ∅ ps !! k = Some p ∧
    is_GRPCPlugin p = bool_decide (proto ≠ "netrpc")) as (ps & k & p & Hmc & Hsv & Hh & Hlk & Hg).
  { unfold version, negotiated_plugins in *. repeat case_decide; simplify_eq;
      [exists (Some {[ "kv" := KVPlugin ]}), "kv", KVPlugin|exists (Some {[ "kv" := KVGRPCPlugin ]}), "kv", KVGRPCPlugin];
      (split_and!; [reflexivity|reflexivity| |apply lookup_singleton_eq|reflexivity]);
      intros k1 p1 k2 p2; simpl; intros [_ <-]%lookup_singleton_Some [_ <-]%lookup_singleton_Some; done. }
  pose proof (negotiation_transport env negotiated_serve mc version ps k p Hk Henv Hc eq_refl Hsv Hh Hlk) as Ht.
  rewrite Hsv in Hv. simpl in Hv. exists ps. split_and!; [|done|by apply checkProtoVersion_Itoa; eauto].
  rewrite Hv in Ht |- *. simpl in Ht. rewrite Ht, Hg. by case_decide; case_bool_decide.
Qed.

(** The host of the gRPC example does not leave its plugin behind when [run]
    returns, with or without an error, or panics for want of an argument. *)
Theorem run_kills_plugin `{!MapRange Z} {S} `{!KV S} L Dispense proto args config self o managed (s : S) :
  let result := run L Dispense proto args (NewClient config self o managed) s in
  (∀ code, result.2 ≠ Exited code) → ∀ r, runner (w_client result.1.1.1) = Some r → runner_ID r = "".
Proof.
  set (w := NewClient config self o managed). pose proof (run_deferred_Kill L Dispense proto args w s) as Hd.
  cbv zeta. destruct (run L Dispense proto args w s) as [[[w' s'] out] e]. simpl. subst w'.
  intros Hne r. pose proof (Client_Client_frame L w) as (_ & _ & _ & Hk & _).
  assert (killOnce (w_client w) = false) as H0 by reflexivity. rewrite H0 in Hk.
  generalize dependent (Client_Client L w).1. intros w1 Hk.
  replace (deferred (Kill L) e w1) with (Kill L w1) by (by destruct e; try done; destruct (Hne code)).
  destruct (runner (w_client w1)) as [r1|] eqn:Hr; [|by rewrite Kill_no_runner, Hr].
  rewrite (Kill_started L w1 r1 Hr Hk).
  destruct (decide (runner_ID r1 = "")) as [Hid|Hid].
  - unfold kill. simpl. rewrite Hr, decide_True by done. simpl. rewrite Hr. by intros [= <-].
  - by destruct (kill_spec L (upd_client (set_killOnce true) w1) r1 Hr Hid) as (-> & _).
Qed.

(** Without [KV_PROTO] it starts the plugin and then calls [os.Exit], which skips
    the deferred [Kill]: the plugin is left running. *)
Theorem run_exit_leaves_plugin `{!MapRange Z} {S} `{!KV S} L Dispense proto args w (s : S) w1 p r :
  Client_Client L w = (w1, Ret p) → runner (w_client w1) = Some r → proto ≠ "netrpc" → proto ≠ "grpc" →
  let '(w', _, _, e) := run L Dispense proto args w s in e = Exited 1 ∧ runner (w_client w') = Some r.
Proof.
  intros Hc Hr H1 H2. unfold run, run_body. rewrite Hc. rewrite decide_False by done. rewrite decide_False by done. done.
Qed.

(** ** Concrete instances *)

Definition ex_fs : FileSystem := MkFileSystem ∅ (λ _, None) (λ _, None).
Definition ex_wire : Wire := MkWire (λ _, None) (λ e, Wrapf "rpc error: %w" [] e).

Lemma KV_roundtrip_witness :
  ∃ s', kv_Put (KV := KV_over_grpc (impl := negotiated_impl 3) ex_wire) "k" "v" ex_fs = (s', Ret None) ∧
    kf_files s' !! "other" = None.
Proof.
  destruct (KV_roundtrip ex_wire 3 2 "k" "v" ex_fs eq_refl eq_refl eq_refl) as (s' & H1 & _ & H3);
    [set_solver..|]. exists s'. split; [exact H1|]. rewrite H3; [reflexivity|discriminate].
Defined.

Lemma negotiated_example_witness :
  ∃ ps, (protocolVersion {[ "PLUGIN_PROTOCOL_VERSIONS" := "3" ]} negotiated_serve).2 = (3, ProtocolGRPC, ps).
Proof.
  destruct (negotiated_example "grpc" {[ 3 := Some {[ "kv" := KVGRPCPlugin ]} ]} {[ "PLUGIN_PROTOCOL_VERSIONS" := "3" ]}
    eq_refl) as (ps & H & _); [vm_compute; reflexivity|]. by exists ps.
Defined.

Definition ex_run (proto : string) (args : list string) :=
  run (impl := plugin_go_grpc) (ex_life StreamOK None true) (λ _ _, None) proto args ex_new ex_fs.
Lemma ex_run_panics : (ex_run "grpc" ["get"]).2 = Panicked "index out of range".
Proof. vm_compute. reflexivity. Qed.
Lemma run_kills_plugin_witness : ∀ r, runner (w_client (ex_run "grpc" ["get"]).1.1.1) = Some r → runner_ID r = "".
Proof.
  apply (run_kills_plugin (KV0 := plugin_go_grpc) (ex_life StreamOK None true) (λ _ _, None) "grpc" ["get"]
    (ex_config None true) 0 (MkOS ∅ []) [] ex_fs).
  intros code H. pose proof (eq_trans (eq_sym ex_run_panics) H) as Hx. discriminate Hx.
Defined.
