(* ===== verification/CounterExample.v ===== *)
(** * The bidirectional example

    examples/bidirectional: a counter in the plugin that calls back into the host
    for every addition.  The host serves its [AddHelper] on a brokered
    connection for the duration of one [Put] (shared/grpc.go), the plugin dials
    it, and the counter adds through it (plugin-go-grpc/main.go). *)

From S2P Require Import Prelude GoStd Config StreamingExample KVExample.

(** ** Numbers *)

(** The value of an [int64] expression. *)
Definition int64 (z : Z) : Z := (z + 2 ^ 63) mod 2 ^ 64 - 2 ^ 63.

(** ** [AddHelper] *)

(** [Sum(int64, int64) (int64, error)] *)
Notation AddHelper := (Z → Z → Z * option error).

(** main.go of the host *)
Definition addHelper_Sum : AddHelper := λ a b, (int64 (a + b), None).

(** shared/grpc.go: the server in the host and the client in the plugin. *)
Definition GRPCAddHelperServer_Sum (Impl : AddHelper) (a b : Z) : option Z * option error :=
  let '(r, err) := Impl a b in
  match err with Some e => (None, Some e) | None => (Some r, None) end.

Definition GRPCAddHelperClient_Sum (N : Wire) (Impl : AddHelper) : AddHelper := λ a b,
  match wi_call N "" with
  | Some e => (0, Some e)
  | None =>
      match GRPCAddHelperServer_Sum Impl a b with
      | (_, Some e) => (0, Some (wi_status N e))
      | (resp, None) => (default 0 resp, None)
      end
  end.

(** ** [Counter] *)

(** encoding/json on [struct{ Value int64 }]: what was encoded is decoded. *)
Class JSONCodec : Type := {
  Marshal : Z → string;
  Unmarshal : string → res error Z;
  Unmarshal_Marshal : ∀ v, is_int v → Unmarshal (Marshal v) = Ret v
}.

Section counter.
Context `{!JSONCodec}.

Definition Counter_Get (key : string) : Method FileSystem (Z * option error) := λ s,
  match os_ReadFile ("kv_" +:+ key) s with
  | (s', Ret (_, Some e)) => (s', Ret (0, Some e))
  | (s', Ret (dataRaw, None)) =>
      match Unmarshal dataRaw with
      | Ret v => (s', Ret (v, None))
      | Err e => (s', Ret (0, Some e))
      | Panic w => (s', Panic w)
      end
  | (s', Panic w) => (s', Panic w)
  | (s', Err e) => (s', Err e)
  end.

(** [v, _ := k.Get(key)]: the error is ignored, and the value is zero then. *)
Definition Counter_Put (key : string) (value : Z) (a : AddHelper) : Method FileSystem (option error) := λ s,
  match Counter_Get key s with
  | (s', Ret (v, _)) =>
      match a v value with
      | (_, Some e) => (s', Ret (Some e))
      | (r, None) => os_WriteFile ("kv_" +:+ key) (Marshal r) s'
      end
  | (s', Panic w) => (s', Panic w)
  | (s', Err e) => (s', Err e)
  end.

(** shared/grpc.go: the plugin's handlers, and the host's client. [Dial] is the
    result of [broker.Dial] for the id the host sent. *)
Definition CounterServer_Put (N : Wire) (Dial : Z → option error) (host : AddHelper) (AddServer : Z) (key : string) (value : Z)
    : Method FileSystem (unit * option error) := λ s,
  match Dial AddServer with
  | Some e => (s, Ret (tt, Some e))
  | None => no_value (Counter_Put key value (GRPCAddHelperClient_Sum N host)) s
  end.

Definition CounterClient_Put (N : Wire) (Dial : Z → option error) (brokerID : Z) (key : string) (value : Z) (a : AddHelper)
    : Method FileSystem (option error) :=
  call N key Some (CounterServer_Put N Dial a brokerID key value) (λ _, None).

Definition CounterClient_Get (N : Wire) (key : string) : Method FileSystem (Z * option error) :=
  call N key (λ e, (0, Some e)) (Counter_Get key) (λ v, (v, None)).
End counter.

(** ** The goroutines of [GRPCClient.Put] *)

(** [Put] starts [AcceptAndServe] in a goroutine, whose [serverFunc] assigns the
    variable [s]; it calls the plugin, and when the call returns it calls
    [s.Stop()].  The fields: where the caller is ([CReturned] and what follows
    carry whether the call failed), where the goroutine is, whether [s] is set,
    and whether the plugin's [Sum] was answered. *)
Inductive CallerPC : Type := CCalling | CReturned (failed : bool) | CStopped (failed : bool) | CPanicked (failed : bool).
Inductive ServerPC : Type := SAccepting | SAccepted | SMade | SServing | SEnded.

Record PutRace : Type := MkPutRace {
  pu_caller : CallerPC;
  pu_server : ServerPC;
  pu_s : bool;
  pu_summed : bool
}.
Definition put_begin : PutRace := MkPutRace CCalling SAccepting false false.

Inductive PutStep : Type :=
| PAccept (ok : bool)        (* b.Accept(id) in AcceptAndServe *)
| PMake                      (* newGRPCServer(opts): s = grpc.NewServer(opts...) *)
| PServe                     (* server.Serve(ln) *)
| PSum                       (* the plugin's Sum is answered *)
| PReturn (failed : bool)    (* m.client.Put returns *)
| PStop.                     (* s.Stop(); return err *)

(** [Counter.Put] returns nil only after its [Sum] succeeded; a nil [s] has no
    [Stop]. *)
Definition put_step (l : PutStep) (p : PutRace) : option PutRace :=
  match l, pu_caller p, pu_server p with
  | PAccept ok, _, SAccepting =>
      Some (MkPutRace (pu_caller p) (if ok then SAccepted else SEnded) (pu_s p) (pu_summed p))
  | PMake, _, SAccepted => Some (MkPutRace (pu_caller p) SMade true (pu_summed p))
  | PServe, c, SMade =>
      Some (MkPutRace c (match c with CStopped _ => SEnded | _ => SServing end) (pu_s p) (pu_summed p))
  | PSum, CCalling, SServing => Some (MkPutRace CCalling SServing (pu_s p) true)
  | PReturn failed, CCalling, sv =>
      if failed || pu_summed p then Some (MkPutRace (CReturned failed) sv (pu_s p) (pu_summed p)) else None
  | PStop, CReturned failed, sv =>
      if pu_s p then Some (MkPutRace (CStopped failed) (match sv with SServing => SEnded | _ => sv end) true (pu_summed p))
      else Some (MkPutRace (CPanicked failed) sv false (pu_summed p))
  | _, _, _ => None
  end.

#[export] Instance put_lts : LTS PutRace PutStep := {| lts_init p := p = put_begin; lts_step := put_step |}.

(** ** Lemmas *)

Lemma int64_is_int z : is_int (int64 z).
Proof. unfold is_int, int64. pose proof (Z.mod_pos_bound (z + 2 ^ 63) (2 ^ 64)). lia. Qed.

Lemma int64_add a b : int64 (int64 a + b) = int64 (a + b).
Proof.
  unfold int64. f_equal. replace ((a + 2 ^ 63) mod 2 ^ 64 - 2 ^ 63 + b + 2 ^ 63) with ((a + 2 ^ 63) mod 2 ^ 64 + b) by lia.
  rewrite Zplus_mod_idemp_l. f_equal. lia.
Qed.

(** A system without failures for the file of a key. *)
Definition writable (key : string) (s : FileSystem) : Prop :=
  kf_write s ("kv_" +:+ key) = None ∧ kf_read s ("kv_" +:+ key) = None.

Section sums.
Context `{!JSONCodec} (N : Wire) (Dial : Z → option error).
Hypothesis HN : ∀ key, wi_call N key = None.
Hypothesis HDial : ∀ id, Dial id = None.

Lemma CounterClient_Put_adds id key value s v e :
  writable key s → Counter_Get key s = (s, Ret (v, e)) →
  ∃ s', CounterClient_Put N Dial id key value addHelper_Sum s = (s', Ret None) ∧ writable key s' ∧
    Counter_Get key s' = (s', Ret (int64 (v + value), None)).
Proof.
  intros [Hw Hr] Hg.
  exists (MkFileSystem (<["kv_" +:+ key := Marshal (int64 (v + value))]> (kf_files s)) (kf_write s) (kf_read s)).
  split_and!; [|by split|].
  - unfold CounterClient_Put, call, CounterServer_Put, no_value, Counter_Put. rewrite HN, HDial, Hg.
    unfold GRPCAddHelperClient_Sum. rewrite HN. simpl. unfold os_WriteFile. by rewrite Hw.
  - unfold Counter_Get, os_ReadFile. simpl. rewrite Hr, lookup_insert_eq.
    by rewrite Unmarshal_Marshal by apply int64_is_int.
Qed.

(** A host that puts one value after another, until one fails. *)
Fixpoint put_all (key : string) (vs : list Z) (s : FileSystem) : FileSystem * bool :=
  match vs with
  | [] => (s, true)
  | v :: vs' =>
      match CounterClient_Put N Dial 1 key v addHelper_Sum s with
      | (s', Ret None) => put_all key vs' s'
      | (s', _) => (s', false)
      end
  end.

Lemma put_all_sums key vs s v :
  writable key s → Counter_Get key s = (s, Ret (int64 v, None)) →
  ∃ s', put_all key vs s = (s', true) ∧ Counter_Get key s' = (s', Ret (int64 (v + foldr Z.add 0 vs), None)).
Proof.
  revert s v. induction vs as [|x vs IH]; intros s v Hw Hg; simpl.
  - exists s. split; [done|]. by rewrite Z.add_0_r.
  - destruct (CounterClient_Put_adds 1 key x s _ _ Hw Hg) as (s1 & -> & Hw1 & Hg1).
    rewrite int64_add in Hg1. destruct (IH s1 (v + x) Hw1 Hg1) as (s2 & H1 & H2). exists s2.
    split; [done|]. by rewrite Z.add_assoc.
Qed.
End sums.

(** [s] is set once the goroutine has made the server, which every answered
    [Sum] needs. *)
Record put_inv (p : PutRace) : Prop := MkPutInv {
  pi_s : pu_s p = match pu_server p with SAccepting | SAccepted => false | SMade | SServing => true | SEnded => pu_s p end;
  pi_summed : pu_summed p = true → pu_s p = true;
  pi_failed : ∀ failed, pu_caller p ∈ [CReturned failed; CStopped failed; CPanicked failed] →
    failed = true ∨ pu_summed p = true;
  pi_panicked : ∀ failed, pu_caller p = CPanicked failed → failed = true
}.

Lemma put_step_inv l p p' : put_step l p = Some p' → put_inv p → put_inv p'.
Proof.
  intros H [H1 H2 H3 H4]. destruct p as [c sv s summed]. simpl in *.
  destruct l; simpl in H.
  - destruct sv; try (by destruct c). assert (p' = MkPutRace c (if ok then SAccepted else SEnded) s summed) as ->
      by (destruct c; congruence). constructor; simpl; try done. by destruct ok.
  - destruct sv; try (by destruct c). assert (p' = MkPutRace c SMade true summed) as -> by (destruct c; congruence).
    by constructor.
  - destruct sv; try (by destruct c).
    assert (p' = MkPutRace c (match c with CStopped _ => SEnded | _ => SServing end) s summed) as -> by (destruct c; congruence).
    constructor; simpl; try done. by destruct c.
  - destruct c, sv; try done. injection H as <-. constructor; simpl; try done.
    intros failed Hin. set_solver.
  - destruct c; try (by destruct sv). destruct (failed || summed) eqn:Hf; [|by destruct sv].
    assert (p' = MkPutRace (CReturned failed) sv s summed) as -> by (destruct sv; congruence).
    constructor; simpl; try done. intros f Hin. assert (f = failed) as -> by set_solver.
    by apply orb_true_iff in Hf.
  - destruct c as [|failed|failed|failed]; try (by destruct sv). destruct (H3 failed) as [->|Hsum]; [set_solver|..].
    + destruct s; [assert (p' = MkPutRace (CStopped true) (match sv with SServing => SEnded | _ => sv end) true summed)
        as -> by (destruct sv; congruence)|assert (p' = MkPutRace (CPanicked true) sv false summed) as -> by (destruct sv; congruence)];
        constructor; simpl; try done; try (intros f Hin; left; set_solver); [by destruct sv|congruence].
    + rewrite (H2 Hsum) in *. assert (p' = MkPutRace (CStopped failed) (match sv with SServing => SEnded | _ => sv end) true summed)
        as -> by (destruct sv; congruence). constructor; simpl; try done; [by destruct sv|]. intros f Hin. by right.
Qed.

(** ** Properties *)

(** C40: The counter counts: after any number of successful puts through the plugin
    and back through the host's helper, [Get] returns the sum of what was there
    and what was put, as 64-bit arithmetic has it; a file that is missing or
    unreadable counts as zero. *)
Theorem counter_sums `{!JSONCodec} N Dial key v vs s v0 e0 :
  (∀ key, wi_call N key = None) → (∀ id, Dial id = None) → writable key s → Counter_Get key s = (s, Ret (v0, e0)) →
  ∃ s', put_all N Dial key (v :: vs) s = (s', true) ∧
    CounterClient_Get N key s' = (s', Ret (int64 (v0 + v + foldr Z.add 0 vs), None)).
Proof.
  intros HN HD Hw Hg. destruct (CounterClient_Put_adds N Dial HN HD 1 key v s v0 e0 Hw Hg) as (s1 & Hp & Hw1 & Hg1).
  destruct (put_all_sums N Dial HN HD key vs s1 _ Hw1 Hg1) as (s2 & H1 & H2). exists s2. split.
  - simpl. by rewrite Hp.
  - unfold CounterClient_Get, call. by rewrite HN, H2.
Qed.

(** An [AddHelper] works over the wire as it does in the host. *)
Theorem AddHelper_transparent N (Impl : AddHelper) a b :
  wi_call N "" = None →
  GRPCAddHelperClient_Sum N Impl a b =
    match Impl a b with (r, None) => (r, None) | (_, Some e) => (0, Some (wi_status N e)) end.
Proof.
  intros HN. unfold GRPCAddHelperClient_Sum, GRPCAddHelperServer_Sum. rewrite HN. by destruct (Impl a b) as [r []].
Qed.

(** [GRPCClient.Put] does not stop a server that was never made when the
    plugin's call succeeded: the plugin reached the helper, so [s] is set. *)
Theorem counter_put_safe p :
  reachable p → (∀ failed, pu_caller p = CPanicked failed → failed = true) ∧
    (pu_caller p = CReturned false → ∃ p', put_step PStop p = Some p' ∧ pu_caller p' = CStopped false).
Proof.
  intros Hr. assert (put_inv p) as [H1 H2 H3 H4].
  { revert p Hr. apply (invariant_reachable put_inv).
    - intros p0 ->. constructor; simpl; try done. intros failed Hin. set_solver.
    - intros l p0 p1 Hi Hs. by eapply put_step_inv. }
  split; [done|]. intros Hc. destruct (H3 false) as [|Hsum]; [rewrite Hc; set_solver|done|].
  unfold put_step. rewrite Hc, (H2 Hsum). by eexists.
Qed.

(** It does when the call fails first: the plugin is gone or refuses the
    request before the goroutine has come as far as [serverFunc], and [s.Stop()]
    dereferences a nil pointer in the host. *)
Theorem counter_put_panics :
  pu_caller <$> exec [PReturn true; PStop] put_begin = Some (CPanicked true) ∧
  pu_caller <$> exec [PAccept false; PReturn true; PStop] put_begin = Some (CPanicked true).
Proof. split; reflexivity. Qed.

(** ** Concrete instances *)

(** What encoding/json writes for the structure, and a reader of that form. *)
Definition quote : string := String (ascii_of_nat 34) "".
Definition json_head : string := "{" +:+ quote +:+ "Value" +:+ quote +:+ ":".
Fixpoint strip_prefix (p s : string) : option string :=
  match p, s with
  | EmptyString, _ => Some s
  | String a p', String b s' => if decide (a = b) then strip_prefix p' s' else None
  | _, _ => None
  end.
Fixpoint strip_last (s : string) : string :=
  match s with
  | EmptyString => EmptyString
  | String _ EmptyString => EmptyString
  | String a s' => String a (strip_last s')
  end.
Lemma strip_prefix_app p s : strip_prefix p (p +:+ s) = Some s.
Proof.
  induction p as [|a p IH]; [done|]. change (String a p +:+ s) with (String a (p +:+ s)). simpl.
  by rewrite decide_True.
Qed.
Lemma strip_last_snoc s a : strip_last (s +:+ String a "") = s.
Proof.
  induction s as [|b s IH]; [done|]. change (String b s +:+ String a "") with (String b (s +:+ String a "")).
  simpl. rewrite IH. by destruct s.
Qed.

#[export] Program Instance ex_json : JSONCodec := {|
  Marshal v := json_head +:+ Itoa v +:+ "}";
  Unmarshal s := match strip_prefix json_head s with
                 | Some rest => Atoi (strip_last rest)
                 | None => Err (ErrExt "invalid character")
                 end
|}.
Next Obligation.
  intros v Hv. cbv beta. rewrite strip_prefix_app.
  transitivity (Atoi (strip_last (Itoa v +:+ "}"))); [done|]. rewrite strip_last_snoc. by apply Atoi_Itoa.
Qed.

Lemma counter_sums_witness :
  ∃ s', put_all ex_wire (λ _, None) "k" [2 ^ 62; 2 ^ 62; 5] ex_fs = (s', true) ∧
    CounterClient_Get ex_wire "k" s' = (s', Ret (5 - 2 ^ 63, None)).
Proof.
  destruct (counter_sums ex_wire (λ _, None) "k" (2 ^ 62) [2 ^ 62; 5] ex_fs 0 (Some (ErrExt "no such file or directory")))
    as (s' & H1 & H2); [done|done|by split|reflexivity|]. exists s'. split; [exact H1|exact H2].
Defined.

Definition ex_put : PutRace :=
  default put_begin (exec [PAccept true; PMake; PServe; PSum; PReturn false] put_begin).
Lemma ex_put_reachable : reachable ex_put.
Proof.
  apply (exec_reachable [PAccept true; PMake; PServe; PSum; PReturn false] put_begin);
    [by apply reachable_init|vm_compute; reflexivity].
Qed.
Lemma counter_put_safe_witness : ∃ p', put_step PStop ex_put = Some p' ∧ pu_caller p' = CStopped false.
Proof. destruct (counter_put_safe ex_put ex_put_reachable) as [_ H]. apply H. vm_compute. reflexivity. Defined.
