(* ===== verification/ExampleHosts.v ===== *)
(** * The hosts of the examples

    examples/basic, examples/bidirectional, examples/negotiated and
    examples/streaming: the [main] functions, which start a plugin, dispense it
    and use it, and which leave through [os.Exit] or [log.Fatal] on an error. *)

From S2P Require Import Prelude GoStd Config Negotiate ClientData Handshake Listener Serve ServerInit.
From S2P Require Import Start Lifecycle StreamingExample KVExample CounterExample.

(** ** The common course *)

Section hosts.
Context `{!MapRange Z} {S : Type}.
Variable L : LifeEnv.
Variable Dispense : ClientProtocol → string → option error.

(** What a host does with its plugin: the new state, what it printed, and the
    error it found, if any. *)
Notation Use := (S → S * string * Ending (option error)).

(** [NewClient]; [defer client.Kill()]; [Client]; [Dispense]; the use.  Every
    error ends the process with status 1, [report] being what is printed of it
    on standard output. *)
Definition exiting_main (report : error → string) (name : string) (use : Use) (w : World) (s : S)
    : World * S * string * Ending unit :=
  match Client_Client L w with
  | (w', Err e) => (w', s, report e, Exited 1)
  | (w', Panic p) => (Kill L w', s, "", Panicked p)
  | (w', Ret rpcClient) =>
      match Dispense rpcClient name with
      | Some e => (w', s, report e, Exited 1)
      | None =>
          match use s with
          | (s', out, Returned None) => (Kill L w', s', out, Returned tt)
          | (s', out, Returned (Some e)) => (w', s', out +:+ report e, Exited 1)
          | (s', out, Exited code) => (w', s', out, Exited code)
          | (s', out, Panicked p) => (Kill L w', s', out, Panicked p)
          end
      end
  end.
End hosts.

(** ** basic *)

(** basic/shared: the server's reply and the client's use of it; an interface
    without errors has to panic. *)
Definition GreeterHello_Greet : string := "Hello!".
Definition GreeterRPCServer_Greet (Impl : string) : string * option error := (Impl, None).
Definition GreeterRPC_Greet (Call : option error) (reply : string * option error) : res Empty_set string :=
  match Call, reply with
  | Some e, _ => Panic "rpc error"
  | None, (_, Some e) => Panic "rpc error"
  | None, (resp, None) => Ret resp
  end.

(** ** The hosts *)

Section mains.
Context `{!MapRange Z} `{!JSONCodec}.
Variable L : LifeEnv.
Variable Dispense : ClientProtocol → string → option error.
(** The text of an error. *)
Variable Error : error → string.

(** [fmt.Println("Error:", err.Error())]; [log.Fatal] writes to standard error. *)
Definition print_error (e : error) : string := "Error: " +:+ Error e +:+ newline.
Definition log_Fatal (_ : error) : string := "".

Definition basic_main (Call : option error) (w : World) : World * unit * string * Ending unit :=
  exiting_main L Dispense log_Fatal "greeter" (λ s : unit,
    match GreeterRPC_Greet Call (GreeterRPCServer_Greet GreeterHello_Greet) with
    | Ret text => (s, text +:+ newline, Returned None)
    | Panic p => (s, "", Panicked p)
    | Err e => match e with end
    end) w tt.

(** [os.Args[1:]], then the command; a number that does not parse is an error. *)
Definition counter_command (N : Wire) (Dial : Z → option error) (brokerID : Z) (args : list string) (s : FileSystem)
    : FileSystem * string * Ending (option error) :=
  match args with
  | [] => (s, "", Panicked "index out of range")
  | cmd :: rest =>
      if decide (cmd = "get") then
        match rest with
        | [] => (s, "", Panicked "index out of range")
        | key :: _ =>
            match CounterClient_Get N key s with
            | (s', Ret (result, None)) => (s', Itoa result +:+ newline, Returned None)
            | (s', Ret (_, Some e)) => (s', "", Returned (Some e))
            | (s', Panic p) => (s', "", Panicked p)
            | (s', Err e) => match e with end
            end
        end
      else if decide (cmd = "put") then
        match rest with
        | key :: value :: _ =>
            match Atoi value with
            | Ret i =>
                match CounterClient_Put N Dial brokerID key i addHelper_Sum s with
                | (s', Ret err) => (s', "", Returned err)
                | (s', Panic p) => (s', "", Panicked p)
                | (s', Err e) => match e with end
                end
            | Err e => (s, "", Returned (Some e))
            | Panic p => (s, "", Panicked p)
            end
        | _ => (s, "", Panicked "index out of range")
        end
      else (s, "Please only use 'get' or 'put'" +:+ newline, Exited 1)
  end.

Definition counter_main (N : Wire) (Dial : Z → option error) (brokerID : Z) (args : list string)
    : World → FileSystem → World * FileSystem * string * Ending unit :=
  exiting_main L Dispense print_error "counter" (counter_command N Dial brokerID args).

(** The commands of the negotiated host are those of the gRPC example, except
    that an unknown one ends the process. *)
Definition negotiated_command {S} `{!KV S} (args : list string) (s : S) : S * string * Ending (option error) :=
  match args with
  | cmd :: _ =>
      if decide (cmd = "get" ∨ cmd = "put") then command args s
      else (s, "Please only use 'get' or 'put'" +:+ newline, Exited 1)
  | [] => command args s
  end.

(** The choice of [KV_PROTO] comes before the client is made. *)
Definition negotiated_main {S} `{!KV S} (KV_PROTO : string) (args : list string) (w : World) (s : S)
    : World * S * string * Ending unit :=
  match negotiated_plugins KV_PROTO with
  | None => (w, s, "must set KV_PROTO to netrpc or grpc" +:+ newline, Exited 1)
  | Some _ => exiting_main L Dispense print_error "kv" (negotiated_command args) w s
  end.

(** [main] of the gRPC example, around [run]. *)
Definition grpc_main {S} `{!KV S} (KV_PROTO : string) (args : list string) (w : World) (s : S)
    : World * S * string * Ending unit :=
  match run L Dispense KV_PROTO args w s with
  | (w', s', out, Returned (Some e)) => (w', s', out +:+ "error: " +:+ Error e +:+ newline, Exited 1)
  | (w', s', out, Returned None) => (w', s', out, Exited 0)
  | (w', s', out, Exited code) => (w', s', out, Exited code)
  | (w', s', out, Panicked p) => (w', s', out, Panicked p)
  end.

(** [streaming/main.go]: write a text in chunks of ten bytes and read it back. *)
Definition lorem : list Z :=
  (λ a, Z.of_N (N_of_ascii a)) <$> String.list_ascii_of_string "Lorem ipsum dolor sit amet".

(** The bytes read are logged, not printed. *)
Definition streaming_use {S} `{!Streamer S} (path : string) (s : S) : S * string * Ending (option error) :=
  match st_Configure path 10 s with
  | (s1, Ret None) =>
      match st_Write lorem s1 with
      | (s2, Ret None) =>
          match st_Read s2 with
          | (s3, Ret (_, err)) => (s3, "", Returned err)
          | (s3, Panic p) => (s3, "", Panicked p)
          | (s3, Err e) => match e with end
          end
      | (s2, Ret (Some e)) => (s2, "", Returned (Some e))
      | (s2, Panic p) => (s2, "", Panicked p)
      | (s2, Err e) => match e with end
      end
  | (s1, Ret (Some e)) => (s1, "", Returned (Some e))
  | (s1, Panic p) => (s1, "", Panicked p)
  | (s1, Err e) => match e with end
  end.

Definition streaming_main {S} `{!Streamer S} (args : list string) (w : World) (s : S) : World * S * string * Ending unit :=
  match args with
  | [path] => exiting_main L Dispense log_Fatal "streamer" (streaming_use path) w s
  | _ => (w, s, "", Exited 1)
  end.
End mains.

(** ** Properties *)

(** A host that comes to its end has killed its plugin; one that stops because of
    an error after the plugin was started has not: [os.Exit] and [log.Fatal] skip
    the deferred [Kill], and the plugin keeps running. *)
Theorem exiting_main_orphans `{!MapRange Z} {S} L Dispense report name use w (s : S) w1 p r :
  Client_Client L w = (w1, Ret p) → runner (w_client w1) = Some r → runner_ID r ≠ "" → killOnce (w_client w1) = false →
  let '(w', _, _, e) := exiting_main L Dispense report name use w s in
  (e = Returned tt → runner (w_client w') = None) ∧
  (∀ code, e = Exited code → runner (w_client w') = Some r ∧ last (w_log w') = last (w_log w1)).
Proof.
  intros Hc Hr Hid Hk. unfold exiting_main. rewrite Hc.
  assert (runner (w_client (Kill L w1)) = None) as Hkill.
  { rewrite (Kill_started L w1 r Hr Hk). by destruct (kill_spec L (upd_client (set_killOnce true) w1) r Hr Hid) as (-> & _). }
  destruct (Dispense p name); [by split|]. destruct (use s) as [[s' out] [[e|]|code|why]]; by split.
Qed.

(** The streaming host, run on a network and a disk without failures and with a
    gRPC library that takes a handler without a response for success, leaves the
    text in the file it was given. *)
Theorem streaming_main_writes `{!MapRange Z} L Dispense path w r w1 p N A :
  good N 10 → write_reports N = None → fa_open A path = None → fa_write A = None → fa_read A = None →
  Client_Client L w = (w1, Ret p) → Dispense p "streamer" = None →
  ∃ r', streaming_main (Streamer0 := remote_streamer (impl := file_streamer A) N) L Dispense [path] w r =
      (Kill L w1, r', "", Returned tt) ∧
    fs_files (rm_Impl r') = <[path := lorem]> (fs_files (rm_Impl r)).
Proof.
  intros HN Hrep Ho Hw Hr Hc Hd. destruct r as [cb cs [q fs]].
  set (s1 := MkFileStreamer path fs). set (s2 := MkFileStreamer path (<[path := lorem]> fs)).
  exists (MkRemote 10 10 s2). split; [|done]. unfold streaming_main, exiting_main. rewrite Hc, Hd.
  unfold streaming_use. cbn [st_Configure st_Write st_Read remote_streamer].
  rewrite (Client_Configure_good (impl := file_streamer A) N 10 HN path _ s1 None) by done. cbn [fmap option_fmap option_map].
  rewrite (Client_Write_good (impl := file_streamer A) N 10 HN ltac:(lia) lorem (MkRemote 10 10 s1) s2 None);
    [rewrite Hrep|done|cbn; unfold FileStreamer_Write; simpl; by rewrite Ho, Hw].
  cbn [fmap option_fmap option_map rm_chunkSize].
  rewrite (Client_Read_good (impl := file_streamer A) N 10 HN ltac:(lia) (MkRemote 10 10 s2) s2 lorem None);
    [done|done|cbn; unfold FileStreamer_Read; simpl; by rewrite Ho, lookup_insert_eq, Hr].
Qed.

(** ** The plugins *)

(** What the plugins of the examples serve. *)
Definition GreeterPlugin : Plugin := MkPlugin "GreeterPlugin" false None None None None.
Definition CounterPlugin : Plugin := NetRPCUnsupportedPlugin "CounterPlugin" None None.
Definition StreamerPlugin : Plugin := NetRPCUnsupportedPlugin "StreamerPlugin" None None.

Definition serve_one (name : string) (p : Plugin) (GRPCServer : bool) : ServeConfig :=
  MkServeConfig Handshake None (Some {[ name := p ]}) None GRPCServer None.

Definition basic_serve : ServeConfig := serve_one "greeter" GreeterPlugin false.
Definition counter_serve : ServeConfig := serve_one "counter" CounterPlugin true.
Definition streaming_serve : ServeConfig := serve_one "streamer" StreamerPlugin true.
Definition kv_grpc_serve : ServeConfig := serve_one "kv" KVGRPCPlugin true.
Definition kv_netrpc_serve : ServeConfig := serve_one "kv" KVPlugin false.

Lemma range_singleton `{Countable K, !MapRange K} {A} (k : K) (a : A) : range {[ k := a ]} = [(k, a)].
Proof. apply Permutation_singleton_r. by rewrite range_perm, map_to_list_singleton. Qed.

(** With one version there is no choice, whatever the host asks for. *)
Lemma serve_one_version `{!MapRange string} `{!MapRange Z} env name p g :
  (protocolVersion env (serve_one name p g)).2 =
  (1, if g && is_GRPCPlugin p then ProtocolGRPC else ProtocolNetRPC, Some {[ name := p ]}).
Proof.
  unfold protocolVersion. destruct (clientVersions env) as [msgs cvs]. simpl.
  change (server_versions (serve_one name p g)) with
    (<[int_of_uint 1 := Some {[ name := p ]}]> (∅ : gmap Z PluginSet)).
  change (int_of_uint 1) with 1. rewrite insert_empty, range_singleton. simpl.
  rewrite lookup_singleton_eq. simpl. unfold plugin_transport. simpl.
  rewrite range_singleton. simpl. destruct g, (is_GRPCPlugin p); by case_bool_decide.
Qed.

(** The plugins of the examples that are meant for gRPC are served over gRPC to
    every host, and initialise: all their services are on the server. *)
Theorem example_plugins_offer `{!MapRange string} `{!MapRange Z} registers env TLS muxer cfg :
  cfg ∈ [counter_serve; streaming_serve; kv_grpc_serve] →
  ∃ ps, (protocolVersion env cfg).2 = (1, ProtocolGRPC, ps) ∧
    let '(s, r) := Init DefaultGRPCServer registers env ps TLS muxer uninitialised in
    r = Ret tt ∧ offers registers env ps TLS muxer s.
Proof.
  assert (H : ∀ name p, registrable p → ∃ ps, (protocolVersion env (serve_one name p true)).2 = (1, ProtocolGRPC, ps) ∧
    let '(s, r) := Init DefaultGRPCServer registers env ps TLS muxer uninitialised in
    r = Ret tt ∧ offers registers env ps TLS muxer s).
  { intros name p Hp. rewrite serve_one_version. destruct (Hp) as [Hg _]. rewrite Hg. eexists. split; [done|].
    pose proof (Init_spec DefaultGRPCServer registers (λ _, eq_refl) env (Some {[ name := p ]}) TLS muxer) as Hi.
    destruct (Init _ _ _ _ _ _ _) as [s r]. destruct Hi as [_ Hi]. simpl in Hi.
    assert (register_plugins (range {[ name := p ]}) = None) as Hn; [|by rewrite Hn in Hi].
    apply register_plugins_None. rewrite range_singleton. by constructor. }
  rewrite !elem_of_cons. intros [->|[->|[->|Hx]]]; [by apply H..|by apply not_elem_of_nil in Hx].
Qed.
